(* ===== verification/_CoqProject ===== *)
-Q . S2P
Prelude.v
GoStrings.v
Decimal.v
Json.v
Fs.v
FsLogic.v
Durable.v
Container.v
Net.v
Ownership.v
OwnershipFacts.v
Sizes.v
Generation.v
GenerationFacts.v
Store.v
StoreFacts.v
StoreOps.v
StoreSystem.v
StoreReach.v
StoreCalm.v
StoreRuns.v
StoreProps.v
NetFacts.v
Ipam.v
IpamFacts.v
IpamOps.v
Lease.v
IpamReach.v
IpamCalm.v
IpamProps.v
Dns.v
DnsOps.v
DnsFacts.v
DnsEntries.v
DnsActs.v
DnsReach.v
DnsText.v
DnsProps.v
Restart.v
RestartProps.v
Cgroups.v
Finalize.v
FinalizeFacts.v
FinalizeInv.v
FinalizeDone.v
FinalizeSettled.v
FinalizeOrder.v
FinalizeRuns.v
FinalizeProps.v
