(* ===== verification/Prelude.v ===== *)
(** Mini container runtime: durable state, address management and service
    discovery, verified.

    The runtime ([src/cmd/minictl], [src/internal]) runs containers from many
    short-lived processes at once.  What they agree on lives in files: the
    container records of [internal/state], the address pools of
    [internal/network] and the host registries of [internal/dns].  Every process
    reads and replaces these files under advisory locks, may lose any system call
    to an I/O error, and may die at any point.  This development models those
    three components as they are written and proves what the rest of the runtime
    relies on.

    * The parts and the code

    - Prelude: Go errors ([errors.Is], wrapping, [errors.Join]), fallible values,
      tactics.  GoStrings, Decimal, Json: strings, runes and trimming, numbers as
      [strconv] reads and prints them, JSON trees with Go's decoding rules.
    - Fs: the directories, the fault schedule, the monad of effectful code, and
      the file primitives of state/storage_*.go and [atomicWriteFile]
      (state/state.go).  FsLogic: their weakest-precondition rules for all
      schedules.  Durable: the class [Document] of components that keep one
      document per name and replace it atomically; [acts] is what a call may make
      of a document, [keeps] says a call only reads.  Pools and registries are its
      two instances.
    - Container, Ownership, Generation, Store: state/state.go, revision.go,
      lifecycle.go, created_lifecycle.go, delete_lifecycle.go, hostname.go,
      exit_identity.go, stopped_generation_schema.go, cgroup_ownership.go,
      network_ownership.go, generation_lock.go, close.go,
      container_stop_signal.go; one definition per method, under its name.
      OwnershipFacts, Sizes, GenerationFacts: codecs and sizes.  StoreFacts and
      StoreOps: what each method does to the files.  StoreSystem: processes that
      call methods, the abstract container machine and the simulation.
      StoreReach: the reachable directories.  StoreCalm, StoreRuns: fault-free
      and concrete runs.  StoreProps: the theorems.
    - Net, NetFacts: the parts of package net the code uses (ParseIP, ParseCIDR,
      printing, masks).  Ipam: network/ipam.go, ipam_lock_linux.go,
      ipam_generation.go, ipam_reconcile.go.  IpamFacts, IpamOps, Lease,
      IpamReach, IpamCalm: its arithmetic, operations, lease keys, reachable
      directories, fault-free runs.  IpamProps: the theorems.
    - Dns: the data of internal/dns (dns.go, dns_registry_schema.go,
      dns_schema.go, dns_ip_identity.go, limits, dns_owner_linux.go).  DnsOps:
      the operations on registry files (dns.go, dns_lock_linux.go,
      dns_registry_io_linux.go, dns_owner_state.go, generation_ownership.go,
      attempt_ownership.go, unregister_owned.go, stopped_cleanup.go,
      legacy_stopped_cleanup.go); its probes of owners call [Get] and
      [GetNetworkOwnership] of Store.  DnsFacts, DnsEntries, DnsText: valid
      registries and their stored form, the changes of the entries against
      declarative descriptions, the texts.  DnsActs, DnsReach: what a call makes
      of a registry, and the reachable directories.  DnsProps: the theorems.

    * The theorems

    - Store: the invariant of every reachable directory and the refinement of
      the abstract container machine (a generation starts only when none runs,
      only the running one stops, its identity is kept until the next start);
      compare-and-swap saves; remembered stops and exact exit policy; ownership
      proofs name the current generation; safe deletion; round trips;
      atomicity of [atomicWriteFile].
    - Addresses: pools stay readable with distinct host leases; allocation takes
      the lowest free address, ends, and succeeds when one is free; release and
      reconciliation remove exactly their leases; lease keys round-trip.
    - Names: registries stay valid and readable; a live registration is taken away
      only by its registrar or the cleanup of its generation; registration,
      binding, removal and the hosts file do exactly what they say; the
      validator equals its declarative meaning; stat files are parsed whatever the
      command name; file names fit.

    * Conventions

    - Every system call takes the next fault of the world's schedule: it succeeds,
      fails or is where the process dies.  A theorem about all worlds is about all
      failures and crashes; [calm] worlds have no fault left.  Loops of the code
      that have a bound keep it; the address search and the IPv6 parser run on
      fuel that their theorems show to be enough.
    - Each call of the store, of a pool and of a registry holds its lock from the
      first read to the last write, so it is one atomic step, and processes
      interleave between calls.  [dns_reachable] also lets anything outside the
      registry directory change between calls.
    - An error keeps its format string and what [errors.Is] sees; values returned
      beside a non-nil error are dropped.  Integers are unbounded integers whose
      ranges the decoders and theorems state.  A JSON file is a tree with its
      printing style; a text that is not JSON is kept as text.  Temporary files
      live apart from the directories, under fresh handles: the retry of a taken
      temporary name is left out.  Permission bits and the durability that [fsync]
      buys are not modelled; the calls are, as calls that may fail.
    - Given from outside: the iteration order of Go maps ([order], [w_order]), the
      contents of [/proc] ([proc]), the caller's process identifier ([self]), the
      longest file name ([namelen]), random tokens, and whether a bridge
      generation is alive ([alive]).  The clock is an argument of the calls that
      read it.
    - In the transition system of the store new containers have fresh identifiers
      in valid UTF-8, and a caller of [Save] keeps the identity, revision, status
      and process of the record it read, as the callers in [internal/container]
      do.

    * Not modelled

    Namespaces, mounts, cgroup files, capabilities and seccomp
    ([internal/container], [internal/cgroups]): sequences of kernel calls.  The
    command line and the HTTP daemon.  Terminals, attach, metrics, statistics and
    benchmarks.  Still planned: restart specifications and policies,
    reconciliation of records with processes, health supervision, image metadata
    and publication ([state/image_*.go]), and the event journal. *)
From Stdlib Require Export Ascii.
From stdpp Require Export base tactics list gmap strings pretty sorting.
From Stdlib Require Export ZArith Lia.

Declare Scope go_scope.
Delimit Scope go_scope with go.
Open Scope string_scope.
Open Scope list_scope.
Open Scope Z_scope.
Open Scope stdpp_scope.

(** * Go errors

    An [error] value keeps what the program can observe of it: the sentinel
    errors it tests with [errors.Is], the wrapping ([%w], [errors.Join]) that
    [errors.Is] looks through, and the format string of the message.  The
    arguments printed into a message are left out: no code of the repository
    reads them back. *)
Inductive error :=
  | ErrNotExist                      (* os.ErrNotExist, syscall.ENOENT *)
  | ErrStoreClosed                   (* state.ErrStoreClosed *)
  | ErrContainerRunning              (* state.ErrContainerRunning *)
  | ErrRevisionConflict              (* state.ErrRevisionConflict *)
  | ErrProcessNotFound               (* container.ErrProcessNotFound *)
  | ErrProcessIdentityMismatch       (* container.ErrProcessIdentityMismatch *)
  | ErrProcessIdentityUnavailable    (* container.ErrProcessIdentityUnavailable *)
  | EIO (call : string)              (* a failed operating-system call *)
  | Errorf (msg : string)            (* fmt.Errorf / errors.New *)
  | Wrapf (msg : string) (e : error) (* fmt.Errorf with one %w *)
  | Joined (e1 e2 : error).          (* errors.Join of two non-nil errors *)

#[export] Instance error_eq_dec : EqDecision error.
Proof. solve_decision. Defined.

(** [err == target] for a sentinel [target]. *)
Definition same_sentinel (err target : error) : bool :=
  match err, target with
  | ErrNotExist, ErrNotExist | ErrStoreClosed, ErrStoreClosed
  | ErrContainerRunning, ErrContainerRunning
  | ErrRevisionConflict, ErrRevisionConflict
  | ErrProcessNotFound, ErrProcessNotFound
  | ErrProcessIdentityMismatch, ErrProcessIdentityMismatch
  | ErrProcessIdentityUnavailable, ErrProcessIdentityUnavailable => true
  | _, _ => false
  end.

(** [errors.Is(err, target)] for a sentinel [target]. *)
Fixpoint errors_Is (err target : error) : bool :=
  same_sentinel err target ||
  match err with
  | Wrapf _ e => errors_Is e target
  | Joined e1 e2 => errors_Is e1 target || errors_Is e2 target
  | _ => false
  end.

(** [errors.Join(e1, e2)] where either may be nil. *)
Definition errors_Join (e1 e2 : option error) : option error :=
  match e1, e2 with
  | Some a, Some b => Some (Joined a b)
  | Some a, None => Some a
  | None, _ => e2
  end.

(** Pure fallible code: a value or an error. *)
Inductive res (A : Type) :=
  | Ok (a : A)
  | Fail (e : error).
Arguments Ok {_} _.
Arguments Fail {_} _.

#[export] Instance res_ret : MRet res := λ A a, Ok a.
#[export] Instance res_bind : MBind res := λ A B f m,
  match m with Ok a => f a | Fail e => Fail e end.
#[export] Instance res_eq_dec {A} `{EqDecision A} : EqDecision (res A).
Proof. solve_decision. Defined.

#[export] Instance Ok_inj {A} : Inj (=) (=) (@Ok A).
Proof. by intros ?? [= ->]. Qed.

(** [if err := ...; err != nil { return err }] for a validator that returns
    only an error ([None] is Go's nil error). *)
Definition check (e : option error) : res unit :=
  match e with None => Ok tt | Some e => Fail e end.

Definition wrapf {A} (msg : string) (r : res A) : res A :=
  match r with Ok a => Ok a | Fail e => Fail (Wrapf msg e) end.

Definition wrap_err (msg : string) (e : option error) : option error :=
  Wrapf msg <$> e.

(** Sequencing of validators: the first error wins. *)
Definition err_first (e1 : option error) (e2 : option error) : option error :=
  match e1 with None => e2 | Some _ => e1 end.
Notation "e1 >>! e2" := (err_first e1 e2)
  (at level 85, right associativity) : go_scope.

(** A guard of the form [if cond { return error }]. *)
Definition fail_if (cond : bool) (e : error) : option error :=
  if cond then Some e else None.

Lemma err_first_None e1 e2 : err_first e1 e2 = None ↔ e1 = None ∧ e2 = None.
Proof. destruct e1; naive_solver. Qed.
Lemma fail_if_None b e : fail_if b e = None ↔ b = false.
Proof. destruct b; naive_solver. Qed.
Lemma fail_if_Some b e e' : fail_if b e = Some e' ↔ b = true ∧ e = e'.
Proof. destruct b; naive_solver. Qed.
Lemma check_Ok e : check e = Ok tt ↔ e = None.
Proof. destruct e; naive_solver. Qed.
Lemma wrapf_Ok {A} msg (r : res A) a : wrapf msg r = Ok a ↔ r = Ok a.
Proof. destruct r; naive_solver. Qed.
Lemma wrap_err_None msg e : wrap_err msg e = None ↔ e = None.
Proof. destruct e; naive_solver. Qed.
Lemma res_bind_Ok {A B} (r : res A) (f : A → res B) b :
  (r ≫= f) = Ok b ↔ ∃ a, r = Ok a ∧ f a = Ok b.
Proof. destruct r; naive_solver. Qed.

Create Rewrite HintDb go.
#[export] Hint Rewrite err_first_None fail_if_None check_Ok wrap_err_None
  @wrapf_Ok @res_bind_Ok : go.

(** * Machine integers *)

Definition max_uint64 : Z := 18446744073709551615.
Definition max_uint32 : Z := 4294967295.
Definition max_int64 : Z := 9223372036854775807.
Definition min_int64 : Z := -9223372036854775808.

(** * Tactics *)

Ltac bool_simp :=
  repeat match goal with
  | H : _ && _ = true |- _ => apply andb_true_iff in H as [? ?]
  | H : _ || _ = false |- _ => apply orb_false_iff in H as [? ?]
  | H : negb _ = true |- _ => apply negb_true_iff in H
  | H : negb _ = false |- _ => apply negb_false_iff in H
  | H : bool_decide _ = true |- _ => apply bool_decide_eq_true_1 in H
  | H : bool_decide _ = false |- _ => apply bool_decide_eq_false_1 in H
  | H : (_ =? _)%Z = true |- _ => apply Z.eqb_eq in H
  | H : (_ =? _)%Z = false |- _ => apply Z.eqb_neq in H
  | H : (_ <=? _)%Z = true |- _ => apply Z.leb_le in H
  | H : (_ <=? _)%Z = false |- _ => apply Z.leb_gt in H
  | H : (_ <? _)%Z = true |- _ => apply Z.ltb_lt in H
  | H : (_ <? _)%Z = false |- _ => apply Z.ltb_ge in H
  end.

(** * Generic lemmas *)

Lemma string_app_cons c (a b : string) : String c a +:+ b = String c (a +:+ b).
Proof. done. Qed.
Lemma string_app_nil_l (b : string) : "" +:+ b = b.
Proof. done. Qed.

Ltac str_ind a IH :=
  induction a as [|? a IH]; [done|]; rewrite ?string_app_cons, ?IH; try done.

Lemma string_app_nil_r (a : string) : a +:+ "" = a.
Proof. by str_ind a IH. Qed.
Lemma string_app_assoc (a b c : string) : a +:+ (b +:+ c) = (a +:+ b) +:+ c.
Proof. by str_ind a IH. Qed.
Lemma string_length_app (a b : string) :
  String.length (a +:+ b) = (String.length a + String.length b)%nat.
Proof. str_ind a IH. cbn. by rewrite IH. Qed.

Lemma string_app_inj_r (s1 s2 t : string) : s1 +:+ t = s2 +:+ t → s1 = s2.
Proof.
  revert s2. induction s1 as [|c s1 IH]; intros [|d s2] H; [done| | |].
  - apply (f_equal String.length) in H.
    rewrite string_app_cons, string_app_nil_l in H. cbn in H.
    rewrite string_length_app in H. lia.
  - apply (f_equal String.length) in H.
    rewrite string_app_cons, string_app_nil_l in H. cbn in H.
    rewrite string_length_app in H. lia.
  - rewrite !string_app_cons in H. injection H as -> H.
    f_equal. by apply IH.
Qed.

#[export] Instance string_app_inj t : Inj (=) (=) (λ s, s +:+ t).
Proof. intros s1 s2. apply string_app_inj_r. Qed.
