(* ===== verification/GoStrings.v ===== *)
(** Go strings: the parts of [strings], [strconv], [unicode/utf8],
    [path/filepath] and the [range] loop over runes that the runtime uses, on
    Go strings as byte sequences. *)
From S2P Require Import Prelude.

(** * Bytes *)

Definition byte_val (c : Ascii.ascii) : N := Ascii.N_of_ascii c.
Definition byte_in (lo hi : N) (c : Ascii.ascii) : bool :=
  (lo <=? byte_val c)%N && (byte_val c <=? hi)%N.

Definition is_lower := byte_in 97 122.
Definition is_upper := byte_in 65 90.
Definition is_digit := byte_in 48 57.
Definition is_alnum (c : Ascii.ascii) := is_lower c || is_upper c || is_digit c.

Definition str1 (c : Ascii.ascii) : string := String c "".
Definition chr (n : N) : Ascii.ascii := Ascii.ascii_of_N n.

Fixpoint str_forallb (p : Ascii.ascii → bool) (s : string) : bool :=
  match s with "" => true | String c s => p c && str_forallb p s end.
Fixpoint str_existsb (p : Ascii.ascii → bool) (s : string) : bool :=
  match s with "" => false | String c s => p c || str_existsb p s end.

(** [strings.ContainsAny] for an ASCII set. *)
Definition contains_any (s chars : string) : bool :=
  str_existsb (λ c, str_existsb (λ d, bool_decide (c = d)) chars) s.
(** [strings.IndexByte(s, c) >= 0] *)
Definition contains_byte (s : string) (c : Ascii.ascii) : bool :=
  str_existsb (λ d, bool_decide (d = c)) s.

Definition has_prefix (s p : string) : bool := String.prefix p s.
Fixpoint str_drop (n : nat) (s : string) : string :=
  match n, s with
  | O, _ => s
  | S n, String _ s => str_drop n s
  | S _, "" => ""
  end.
Fixpoint str_take (n : nat) (s : string) : string :=
  match n, s with
  | O, _ => ""
  | S n, String c s => String c (str_take n s)
  | S _, "" => ""
  end.
Definition has_suffix (s t : string) : bool :=
  (String.length t <=? String.length s)%nat &&
  bool_decide (str_drop (String.length s - String.length t) s = t).
(** [strings.TrimSuffix] *)
Definition trim_suffix (s t : string) : string :=
  if has_suffix s t then str_take (String.length s - String.length t) s else s.

Definition len (s : string) : Z := Z.of_nat (String.length s).

(** [strings.Join] *)
Fixpoint str_join (sep : string) (l : list string) : string :=
  match l with
  | [] => ""
  | [x] => x
  | x :: l => x +:+ sep +:+ str_join sep l
  end.

(** [strings.Split] at a one-byte separator. *)
Fixpoint str_split (sep : Ascii.ascii) (s : string) : list string :=
  match s with
  | "" => [""]
  | String c s =>
    let r := str_split sep s in
    if bool_decide (c = sep) then "" :: r
    else match r with x :: r => String c x :: r | [] => [str1 c] end
  end.

Definition lower_byte (c : Ascii.ascii) : Ascii.ascii :=
  if is_upper c then chr (byte_val c + 32) else c.
Fixpoint str_map (f : Ascii.ascii → Ascii.ascii) (s : string) : string :=
  match s with "" => "" | String c s => String (f c) (str_map f s) end.

(** * UTF-8 *)

Definition cont (c : Ascii.ascii) : bool := byte_in 128 191 c.

(** Well-formed sequences of 2, 3 and 4 bytes (the table of
    [unicode/utf8.DecodeRune]: no overlong forms, no surrogates, at most
    U+10FFFF). *)
Definition utf8_two (a b : Ascii.ascii) : bool := byte_in 194 223 a && cont b.
Definition utf8_three (a b c : Ascii.ascii) : bool :=
  cont c &&
  (if (byte_val a =? 224)%N then byte_in 160 191 b
   else if (byte_val a =? 237)%N then byte_in 128 159 b
   else byte_in 225 239 a && cont b).
Definition utf8_four (a b c d : Ascii.ascii) : bool :=
  cont c && cont d &&
  (if (byte_val a =? 240)%N then byte_in 144 191 b
   else if (byte_val a =? 244)%N then byte_in 128 143 b
   else byte_in 241 243 a && cont b).

(** One decoded rune: its bytes in the string, its code point, and whether the
    bytes were well formed (an ill-formed byte decodes to U+FFFD, width 1). *)
Record rune := Rune { rune_bytes : string; rune_val : N; rune_ok : bool }.

Definition bad_rune (a : Ascii.ascii) : rune := Rune (str1 a) 65533 false.
Definition rune2 (a b : Ascii.ascii) : rune :=
  Rune (String a (str1 b)) ((byte_val a - 192) * 64 + (byte_val b - 128)) true.
Definition rune3 (a b c : Ascii.ascii) : rune :=
  Rune (String a (String b (str1 c)))
    ((byte_val a - 224) * 4096 + (byte_val b - 128) * 64 + (byte_val c - 128))
    true.
Definition rune4 (a b c d : Ascii.ascii) : rune :=
  Rune (String a (String b (String c (str1 d))))
    ((byte_val a - 240) * 262144 + (byte_val b - 128) * 4096 +
     (byte_val c - 128) * 64 + (byte_val d - 128)) true.

(** The runes a [for _, r := range s] loop visits. *)
Fixpoint runes (s : string) : list rune :=
  match s with
  | "" => []
  | String a s1 =>
    if (byte_val a <? 128)%N then Rune (str1 a) (byte_val a) true :: runes s1
    else match s1 with
    | "" => [bad_rune a]
    | String b s2 =>
      if utf8_two a b then rune2 a b :: runes s2
      else match s2 with
      | "" => bad_rune a :: runes s1
      | String c s3 =>
        if utf8_three a b c then rune3 a b c :: runes s3
        else match s3 with
        | "" => bad_rune a :: runes s1
        | String d s4 =>
          if utf8_four a b c d then rune4 a b c d :: runes s4
          else bad_rune a :: runes s1
        end
      end
    end
  end.

Definition replacement : string :=
  String (chr 239) (String (chr 191) (str1 (chr 189))).

(** What [encoding/json] makes of a Go string, both when it writes one and when
    it reads one: every ill-formed byte becomes U+FFFD. *)
Definition rune_text (r : rune) : string :=
  if rune_ok r then rune_bytes r else replacement.
Fixpoint concat_runes (l : list rune) : string :=
  match l with [] => "" | r :: l => rune_text r +:+ concat_runes l end.
Definition utf8_coerce (s : string) : string := concat_runes (runes s).

(** [utf8.ValidString] *)
Definition utf8_valid (s : string) : bool := forallb rune_ok (runes s).

(** The rune [encoding/json] writes for a decoded one. *)
Definition fix_rune (r : rune) : rune :=
  if rune_ok r then r else Rune replacement 65533 true.

Lemma byte_in_lt128 lo hi c :
  (128 ≤ lo)%N → byte_in lo hi c = true → (byte_val c <? 128)%N = false.
Proof.
  unfold byte_in. intros ? [H _]%andb_true_iff.
  apply N.leb_le in H. apply N.ltb_ge. lia.
Qed.

Lemma runes_replacement s :
  runes (replacement +:+ s) = Rune replacement 65533 true :: runes s.
Proof. done. Qed.

Lemma runes_str1_app c s :
  runes (str1 c +:+ s) = runes (String c s).
Proof. done. Qed.

#[local] Ltac step_ok :=
  cbn [concat_runes fmap list_fmap];
  unfold rune_text, rune2, rune3, rune4; cbn [rune_ok rune_bytes];
  unfold str1; rewrite !string_app_cons, string_app_nil_l; cbn [runes].

(** Decoding what [encoding/json] wrote returns the same runes, the ill-formed
    ones replaced. *)
Lemma runes_coerce s : runes (utf8_coerce s) = fix_rune <$> runes s.
Proof.
  induction s as [s IH] using (induction_ltof1 _ String.length).
  unfold ltof in IH. unfold utf8_coerce in *.
  destruct s as [|a s1]; [done|].
  assert (Hbad : runes (replacement +:+ concat_runes (runes s1))
    = fix_rune (bad_rune a) :: (fix_rune <$> runes s1)).
  { rewrite runes_replacement, IH by (cbn; lia). done. }
  cbn [runes]. destruct (byte_val a <? 128)%N eqn:Ha.
  { step_ok. rewrite Ha, IH by (cbn; lia). done. }
  destruct s1 as [|b s2]; [done|].
  destruct (utf8_two a b) eqn:Hab.
  { step_ok. rewrite Ha, Hab, IH by (cbn; lia). done. }
  destruct s2 as [|c s3]; [done|].
  destruct (utf8_three a b c) eqn:Habc.
  { step_ok. rewrite Ha, Hab, Habc, IH by (cbn; lia). done. }
  destruct s3 as [|d s4]; [done|].
  destruct (utf8_four a b c d) eqn:Habcd; [|done].
  step_ok. rewrite Ha, Hab, Habc, Habcd, IH by (cbn; lia). done.
Qed.

Lemma utf8_coerce_idemp s : utf8_coerce (utf8_coerce s) = utf8_coerce s.
Proof.
  unfold utf8_coerce at 1. rewrite runes_coerce. unfold utf8_coerce.
  induction (runes s) as [|r l IH]; [done|]. cbn. rewrite IH.
  by destruct r as [? ? []].
Qed.

Lemma utf8_coerce_valid s : utf8_valid s = true → utf8_coerce s = s.
Proof.
  induction s as [s IH] using (induction_ltof1 _ String.length).
  unfold ltof in IH. unfold utf8_coerce, utf8_valid in *.
  destruct s as [|a s1]; [done|].
  cbn [runes]. destruct (byte_val a <? 128)%N eqn:Ha.
  { step_ok. cbn [forallb rune_ok andb]. intros Hv. f_equal. apply IH; [cbn; lia|done]. }
  destruct s1 as [|b s2]; [done|].
  destruct (utf8_two a b) eqn:Hab.
  { step_ok. cbn [forallb rune_ok andb]. intros Hv. do 2 f_equal. apply IH; [cbn; lia|done]. }
  destruct s2 as [|c s3]; [done|].
  destruct (utf8_three a b c) eqn:Habc.
  { step_ok. cbn [forallb rune_ok andb]. intros Hv. do 3 f_equal. apply IH; [cbn; lia|done]. }
  destruct s3 as [|d s4]; [done|].
  destruct (utf8_four a b c d) eqn:Habcd; [|done].
  step_ok. cbn [forallb rune_ok andb]. intros Hv. do 4 f_equal. apply IH; [cbn; lia|done].
Qed.

(** * Unicode white space, trimming *)

(** [unicode.IsSpace] *)
Definition is_space (r : N) : bool :=
  existsb (N.eqb r)
    [9; 10; 11; 12; 13; 32; 133; 160; 5760; 8232; 8233; 8239; 8287; 12288]%N
  || ((8192 <=? r)%N && (r <=? 8202)%N).

Fixpoint raw_runes (l : list rune) : string :=
  match l with [] => "" | r :: l => rune_bytes r +:+ raw_runes l end.

Fixpoint drop_while {A} (p : A → bool) (l : list A) : list A :=
  match l with [] => [] | x :: l' => if p x then drop_while p l' else l end.

Definition trim_runes (p : rune → bool) (s : string) : string :=
  raw_runes (reverse (drop_while p (reverse (drop_while p (runes s))))).

(** [strings.TrimSpace] *)
Definition trim_space (s : string) : string :=
  trim_runes (λ r, rune_ok r && is_space (rune_val r)) s.

(** [strings.Trim(s, cutset)] for an ASCII cut set *)
Definition trim_cutset (s cutset : string) : string :=
  trim_runes (λ r, rune_ok r &&
    match rune_bytes r with
    | String c "" => contains_byte cutset c
    | _ => false
    end) s.

Example trim_space_ex : trim_space "  a b
 " = "a b".
Proof. reflexivity. Qed.

(** * Numbers *)

Definition digit_val (c : Ascii.ascii) : option Z :=
  if is_digit c then Some (Z.of_N (byte_val c) - 48) else None.

Fixpoint parse_digits (acc : Z) (s : string) : option Z :=
  match s with
  | "" => Some acc
  | String c s => d ← digit_val c; parse_digits (acc * 10 + d) s
  end.

(** [strconv.ParseUint(s, 10, bits)], [max] being the largest value. *)
Definition parse_uint (max : Z) (s : string) : option Z :=
  match s with
  | "" => None
  | _ => v ← parse_digits 0 s; if (v <=? max)%Z then Some v else None
  end.

(** [strconv.Atoi] and [strconv.ParseInt(s, 10, 64)] *)
Definition parse_int (s : string) : option Z :=
  match s with
  | String "-"%char r => v ← parse_uint (- min_int64) r; Some (- v)
  | String "+"%char r => parse_uint max_int64 r
  | _ => parse_uint max_int64 s
  end.

Example parse_int_ex : parse_int "-42" = Some (-42).
Proof. reflexivity. Qed.

(** * Paths *)

(** [path/filepath] on Unix: the elements of a path, [Clean], [IsAbs], [Base]
    and [Ext]. *)
Definition is_abs (p : string) : bool := has_prefix p "/".

Fixpoint clean_elems (rooted : bool) (stack : list string) (l : list string)
    : list string :=
  match l with
  | [] => reverse stack
  | e :: l =>
    if bool_decide (e = "") || bool_decide (e = ".") then
      clean_elems rooted stack l
    else if bool_decide (e = "..") then
      match stack with
      | [] => clean_elems rooted (if rooted then [] else [".."]) l
      | t :: stack' =>
        if bool_decide (t = "..") then clean_elems rooted (".." :: stack) l
        else clean_elems rooted stack' l
      end
    else clean_elems rooted (e :: stack) l
  end.

Definition path_clean (p : string) : string :=
  let rooted := is_abs p in
  let body := str_join "/" (clean_elems rooted [] (str_split "/"%char p)) in
  if rooted then "/" +:+ body
  else if bool_decide (body = "") then "." else body.

Example path_clean_ex :
  path_clean "/a/./b//../c/" = "/a/c" ∧ path_clean "a/../../b" = "../b" ∧
  path_clean "" = "." ∧ path_clean "/.." = "/".
Proof. repeat split; reflexivity. Qed.

(** The last element of a slash-free file name after its last dot, the dot
    included ([filepath.Ext]). *)
Fixpoint path_ext (name : string) : string :=
  match name with
  | "" => ""
  | String c r =>
    match path_ext r with
    | "" => if bool_decide (c = "."%char) then name else ""
    | e => e
    end
  end.

Example path_ext_ex : path_ext "a.b.json" = ".json" ∧ path_ext ".json" = ".json"
  ∧ path_ext "a." = "." ∧ path_ext "json" = "".
Proof. repeat split; reflexivity. Qed.
