(* ===== verification/Decimal.v ===== *)
(** Decimal texts: the digits [strconv] and [fmt] print are read back by
    [strconv.ParseUint] and [strconv.Atoi], and a text of digits has no
    separator in it. *)
From S2P Require Import Prelude GoStrings.

#[local] Open Scope Z_scope.

Lemma str_forallb_app p (s t : string) :
  str_forallb p (s +:+ t) = str_forallb p s && str_forallb p t.
Proof.
  induction s as [|c s IH]; [done|]. rewrite string_app_cons. cbn.
  rewrite IH. apply andb_assoc.
Qed.
Lemma str_forallb_impl (p q : Ascii.ascii → bool) s :
  (∀ c, p c = true → q c = true) → str_forallb p s = true → str_forallb q s = true.
Proof.
  intros Hpq. induction s as [|c s IH]; [done|]. cbn.
  intros [Hc Hs]%andb_true_iff. rewrite Hpq, IH; done.
Qed.


Definition plain_decimal (s : string) : bool := str_forallb is_digit s.

(** Texts without a separator. *)
Definition free_of (c : Ascii.ascii) (s : string) : bool :=
  str_forallb (λ d, bool_decide (d ≠ c)) s.

Lemma free_cons c d s : free_of c (String d s) = true ↔ d ≠ c ∧ free_of c s = true.
Proof. unfold free_of. cbn. rewrite andb_true_iff. by rewrite bool_decide_eq_true. Qed.
Lemma plain_free c s : plain_decimal s = true → is_digit c = false → free_of c s = true.
Proof.
  intros Hs Hc. revert Hs. apply str_forallb_impl. intros d Hd.
  apply bool_decide_eq_true_2. congruence.
Qed.

Lemma str_split_free c s : free_of c s = true → str_split c s = [s].
Proof.
  induction s as [|d s IH]; [done|]. intros [Hd Hs]%free_cons. cbn.
  by rewrite IH, bool_decide_false.
Qed.
Lemma str_split_free_app c s t : free_of c s = true →
  str_split c (s +:+ String c t) = s :: str_split c t.
Proof.
  intros Hs. induction s as [|d s IH].
  { rewrite string_app_nil_l. cbn. by rewrite bool_decide_true. }
  apply free_cons in Hs as [Hd Hs].
  rewrite string_app_cons. cbn. by rewrite IH, bool_decide_false.
Qed.
Lemma digit_not_sep c s : str_forallb is_digit s = true → is_digit c = false →
  str_split c s = [s].
Proof. intros. by apply str_split_free, plain_free. Qed.
Lemma str_split_app c s t : str_forallb is_digit s = true → is_digit c = false →
  str_split c (s +:+ String c t) = s :: str_split c t.
Proof. intros. by apply str_split_free_app, plain_free. Qed.

(** * Printing and parsing *)

Lemma parse_digits_nonneg s : ∀ acc v, 0 ≤ acc → parse_digits acc s = Some v → 0 ≤ v.
Proof.
  induction s as [|c s IH]; intros acc v Ha; cbn; [by intros [= <-]|].
  unfold digit_val. destruct (is_digit c) eqn:Hd; [|done]. cbn.
  apply IH. unfold is_digit, byte_in in Hd. apply andb_true_iff in Hd as [Hd _].
  apply N.leb_le in Hd. lia.
Qed.
Lemma parse_uint_range max s v : parse_uint max s = Some v → 0 ≤ v ≤ max.
Proof.
  unfold parse_uint. destruct s; [done|]. intros H.
  apply bind_Some in H as (x & Hx & H). case_match eqn:E; [|done].
  simplify_eq. bool_simp. split; [|done]. by eapply parse_digits_nonneg in Hx.
Qed.
Lemma parse_int_max s v : parse_int s = Some v → v ≤ max_int64.
Proof.
  assert (Hu : ∀ r, parse_uint max_int64 r = Some v → v ≤ max_int64).
  { intros r Hr. by apply parse_uint_range in Hr as [_ ?]. }
  assert (Hn : ∀ r, (x ← parse_uint (- min_int64) r; Some (- x)) = Some v → v ≤ max_int64).
  { intros r (x & Hx & [= <-])%bind_Some. apply parse_uint_range in Hx as [? _].
    unfold max_int64. lia. }
  unfold parse_int. destruct s as [|c r]; [apply Hu|].
  destruct c as [[] [] [] [] [] [] [] []]; (apply Hu || apply Hn).
Qed.

Lemma parse_digits_app s t acc v :
  parse_digits acc s = Some v → parse_digits acc (s +:+ t) = parse_digits v t.
Proof.
  revert acc. induction s as [|c s IH]; intros acc; cbn; [by intros [= ->]|].
  rewrite ?string_app_cons. cbn. destruct (digit_val c); [|done]. cbn. apply IH.
Qed.

Lemma digit_char x : (x < 10)%N →
  is_digit (pretty_N_char x) = true ∧
  digit_val (pretty_N_char x) = Some (Z.of_N x).
Proof.
  intros H. assert (Hx : x ∈ N.of_nat <$> seq 0 10).
  { apply list_elem_of_fmap. exists (N.to_nat x). rewrite elem_of_seq. lia. }
  clear H. revert x Hx. rewrite <- Forall_forall. repeat constructor.
Qed.

(** [pretty_N_go] puts the digits of its argument before the accumulator. *)
Lemma pretty_N_go_digits x s : ∃ t p, pretty_N_go x s = t +:+ s ∧
  plain_decimal t = true ∧ (t = "" → x = 0%N) ∧
  ∀ acc, parse_digits acc t = Some (acc * p + Z.of_N x).
Proof.
  revert s. induction (N.lt_wf_0 x) as [x _ IH]; intros s.
  destruct (decide (x = 0%N)) as [->|Hx].
  { exists "", 1. rewrite pretty_N_go_0. repeat split; try done. intros acc. cbn.
    f_equal. lia. }
  rewrite pretty_N_go_step by lia.
  assert (Hm : (x mod 10 < 10)%N) by (apply N.mod_lt; lia).
  apply digit_char in Hm as [Hd Hv]. set (c := pretty_N_char _) in *. clearbody c.
  destruct (IH (x / 10)%N ltac:(apply N.div_lt; lia) (String c s))
    as (t & p & -> & Ht & _ & Hp).
  exists (t +:+ str1 c), (p * 10). repeat split.
  - by rewrite <- string_app_assoc.
  - unfold plain_decimal in *. rewrite str_forallb_app, Ht. cbn. by rewrite Hd.
  - intros E. apply (f_equal String.length) in E. rewrite string_length_app in E.
    cbn in E. lia.
  - intros acc. erewrite parse_digits_app by done. cbn. rewrite Hv. cbn. f_equal.
    pose proof (N.div_mod x 10). lia.
Qed.

(** The text of a non-negative integer. *)
Lemma pretty_Z_digits z : 0 ≤ z →
  plain_decimal (pretty z) = true ∧ (pretty z : string) ≠ "" ∧
  parse_digits 0 (pretty z) = Some z.
Proof.
  intros Hz. destruct z as [|p|p]; [by repeat split| |lia].
  change (pretty (Zpos p) : string) with (pretty_N_go (Npos p) "").
  destruct (pretty_N_go_digits (Npos p) "") as (t & q & -> & Ht & Hn & Hp).
  rewrite string_app_nil_r. repeat split; [done|naive_solver|by rewrite Hp].
Qed.

Lemma parse_uint_pretty max z : 0 ≤ z ≤ max → parse_uint max (pretty z) = Some z.
Proof.
  intros Hz. destruct (pretty_Z_digits z) as (_ & Hn & Hp); [lia|].
  unfold parse_uint. destruct (pretty z) as [|c s]; [done|]. rewrite Hp. cbn.
  by rewrite (proj2 (Z.leb_le _ _)) by lia.
Qed.
Lemma parse_int_pretty z : 0 ≤ z ≤ max_int64 → parse_int (pretty z) = Some z.
Proof.
  intros Hz. destruct (pretty_Z_digits z) as (Hd & Hn & _); [lia|].
  rewrite <- (parse_uint_pretty max_int64 z) by done.
  unfold parse_int, plain_decimal in *. destruct (pretty z) as [|c s]; [done|].
  cbn in Hd. apply andb_true_iff in Hd as [Hd _].
  by destruct c as [[] [] [] [] [] [] [] []].
Qed.
