(* ===== verification/Json.v ===== *)
(** The part of Go's [encoding/json] that the persisted state goes through:
    JSON documents as trees, [Marshal]/[MarshalIndent] as printing (only the
    size and the raw text are ever looked at), [Unmarshal] of a document into a
    struct as a fold over the members of an object, in document order, with
    Go's field matching (exact, then case-insensitive) and its [null] rule. *)
From S2P Require Import Prelude GoStrings.

(** [JInt] is an integer literal; [JNum] keeps the text of any other number. *)
#[warnings="-register-all"]
Inductive json :=
  | JNull
  | JBool (b : bool)
  | JInt (z : Z)
  | JNum (lit : string)
  | JStr (s : string)
  | JArr (l : list json)
  | JObj (kvs : list (string * json)).

(** * Printing *)

Definition hex_digit (n : N) : Ascii.ascii :=
  if (n <? 10)%N then chr (48 + n) else chr (87 + n).
Definition hex_byte (c : Ascii.ascii) : string :=
  String (hex_digit (byte_val c / 16)) (str1 (hex_digit (byte_val c mod 16))).
(** [hex.EncodeToString] *)
Fixpoint hex_encode (s : string) : string :=
  match s with "" => "" | String c s => hex_byte c +:+ hex_encode s end.

Definition quote : Ascii.ascii := chr 34.
Definition backslash : Ascii.ascii := chr 92.

Definition escape_rune (r : rune) : string :=
  if negb (rune_ok r) then String backslash "ufffd"
  else if (rune_val r =? 8232)%N then String backslash "u2028"
  else if (rune_val r =? 8233)%N then String backslash "u2029"
  else match rune_bytes r with
  | String c "" =>
    let n := byte_val c in
    if (n =? 34)%N || (n =? 92)%N then String backslash (str1 c)
    else if (n =? 10)%N then String backslash "n"
    else if (n =? 13)%N then String backslash "r"
    else if (n =? 9)%N then String backslash "t"
    else if (n <? 32)%N || (n =? 60)%N || (n =? 62)%N || (n =? 38)%N then
      String backslash ("u00" +:+ hex_byte c)
    else str1 c
  | bs => bs
  end.

Definition print_string (s : string) : string :=
  String quote (foldr (λ r t, escape_rune r +:+ t) (str1 quote) (runes s)).

Definition newline_indent (d : nat) : string :=
  String (chr 10) (Nat.iter d (λ s, "  " +:+ s) "").

(** Members separated by commas, each on a new line of depth [d] when
    [indent]. *)
Definition print_members (indent : bool) (d : nat) (op cl : string)
    (l : list string) : string :=
  match l with
  | [] => op +:+ cl
  | _ => if indent
    then op +:+ newline_indent (S d) +:+ str_join ("," +:+ newline_indent (S d)) l
         +:+ newline_indent d +:+ cl
    else op +:+ str_join "," l +:+ cl
  end.

(** [json.Marshal] ([indent = false]) and
    [json.MarshalIndent(v, "", "  ")]. *)
Fixpoint print (indent : bool) (d : nat) (j : json) : string :=
  match j with
  | JNull => "null"
  | JBool true => "true"
  | JBool false => "false"
  | JInt z => pretty z
  | JNum lit => lit
  | JStr s => print_string s
  | JArr l => print_members indent d "[" "]" (print indent (S d) <$> l)
  | JObj kvs => print_members indent d "{" "}"
      ((λ kv : string * json, print_string kv.1
          +:+ (if indent then ": " else ":") +:+ print indent (S d) kv.2) <$> kvs)
  end.

Example print_ex :
  print false 0 (JObj [("pid", JInt 7); ("env", JArr [JStr "a"])])
  = "{" +:+ print_string "pid" +:+ ":7," +:+ print_string "env"
    +:+ ":[" +:+ print_string "a" +:+ "]}".
Proof. reflexivity. Qed.

(** * Contents of a state file *)

(** A state file holds a JSON document as one of the two marshallers wrote it,
    or a text that is no JSON document (or one only ever read as plain text). *)
Inductive file_data :=
  | FJson (indent : bool) (j : json)
  | FText (s : string).

Definition data_text (d : file_data) : string :=
  match d with FJson i j => print i 0 j | FText s => s end.
Definition data_len (d : file_data) : Z := len (data_text d).

(** The syntax check and tree of [json.Unmarshal]. *)
Definition json_of (d : file_data) : res json :=
  match d with
  | FJson _ j => Ok j
  | FText _ => Fail (Errorf "invalid character in JSON text")
  end.

(** * Decoding into Go values *)

Definition type_error {A} : res A :=
  Fail (Errorf "json: cannot unmarshal value into Go struct field").

(** How one field of a struct of type [A] takes a JSON value. *)
Definition setter (A : Type) := json → A → res A.

(** Go folds field names with simple case folding, under which U+017F folds to
    "s" and U+212A to "k". *)
Definition fold_key (s : string) : string :=
  foldr (λ r t,
    (if (rune_val r =? 383)%N then "s"
     else if (rune_val r =? 8490)%N then "k"
     else str_map lower_byte (rune_text r)) +:+ t) "" (runes s).

Definition lookup_key {B} (eq : string → string → bool) (k : string)
    (l : list (string * B)) : option B :=
  snd <$> find (λ kf : string * B, eq (fst kf) k) l.

Definition find_field {A} (fields : list (string * setter A)) (k : string)
    : option (setter A) :=
  match lookup_key String.eqb k fields with
  | Some f => Some f
  | None => lookup_key (λ a b, String.eqb (fold_key a) (fold_key b)) k fields
  end.

(** The members of an object, in order; [strict] is
    [Decoder.DisallowUnknownFields]. *)
Fixpoint decode_members {A} (strict : bool) (fields : list (string * setter A))
    (kvs : list (string * json)) (a : A) : res A :=
  match kvs with
  | [] => Ok a
  | (k, v) :: kvs =>
    a' ← match find_field fields k with
         | Some set => set v a
         | None => if strict
             then Fail (Errorf "json: unknown field") else Ok a
         end;
    decode_members strict fields kvs a'
  end.

Definition decode_struct {A} (strict : bool) (fields : list (string * setter A))
    (j : json) (a : A) : res A :=
  match j with
  | JObj kvs => decode_members strict fields kvs a
  | JNull => Ok a
  | _ => type_error
  end.

(** Setters for the Go types of the persisted structs; [null] leaves a scalar
    as it is and makes a slice or pointer nil. *)
Definition dec_string (j : json) (old : string) : res string :=
  match j with
  | JStr s => Ok (utf8_coerce s) | JNull => Ok old | _ => type_error
  end.
Definition dec_bool (j : json) (old : bool) : res bool :=
  match j with JBool b => Ok b | JNull => Ok old | _ => type_error end.
Definition dec_int (lo hi : Z) (j : json) (old : Z) : res Z :=
  match j with
  | JInt z => if (lo <=? z)%Z && (z <=? hi)%Z then Ok z else type_error
  | JNull => Ok old
  | _ => type_error
  end.
(** A Go slice: [None] is nil. *)
Definition slice (A : Type) := option (list A).
Definition slice_list {A} (s : slice A) : list A := default [] s.
Definition slice_len {A} (s : slice A) : Z := Z.of_nat (length (slice_list s)).

Fixpoint dec_list {A} (dec : json → A → res A) (zero : A) (l : list json)
    : res (list A) :=
  match l with
  | [] => Ok []
  | j :: l => x ← dec j zero; xs ← dec_list dec zero l; Ok (x :: xs)
  end.
Definition dec_slice {A} (dec : json → A → res A) (zero : A) (j : json)
    (_ : slice A) : res (slice A) :=
  match j with
  | JArr l => xs ← dec_list dec zero l; Ok (Some xs)
  | JNull => Ok None
  | _ => type_error
  end.
(** A [json.RawMessage] field: [None] is the empty message of an absent
    member. *)
Definition dec_raw (j : json) (_ : option json) : res (option json) := Ok (Some j).

(** * Encoding Go values *)

Definition enc_string (s : string) : json := JStr (utf8_coerce s).
Definition enc_slice {A} (enc : A → json) (s : slice A) : json :=
  match s with None => JNull | Some l => JArr (enc <$> l) end.

(** A member with [omitempty]. *)
Definition omitempty (empty : bool) (k : string) (v : json)
    : list (string * json) := if empty then [] else [(k, v)].

(** Go strings that JSON carries unchanged. *)
Definition json_safe (s : string) : Prop := utf8_coerce s = s.
#[export] Instance json_safe_dec s : Decision (json_safe s) := _.

Lemma json_safe_coerce s : json_safe (utf8_coerce s).
Proof. apply utf8_coerce_idemp. Qed.

Lemma dec_enc_string s old : dec_string (enc_string s) old = Ok (utf8_coerce s).
Proof. unfold dec_string, enc_string. by rewrite utf8_coerce_idemp. Qed.

Lemma dec_int_in lo hi z old :
  lo ≤ z ≤ hi → dec_int lo hi (JInt z) old = Ok z.
Proof.
  intros H. unfold dec_int.
  rewrite (proj2 (Z.leb_le _ _)), (proj2 (Z.leb_le _ _)) by lia. done.
Qed.

Lemma decode_members_app {A} strict (fields : list (string * setter A)) l1 l2 a :
  decode_members strict fields (l1 ++ l2) a
  = (a' ← decode_members strict fields l1 a; decode_members strict fields l2 a').
Proof.
  revert a. induction l1 as [|[k v] l1 IH]; intros a; [done|]. cbn.
  destruct (match find_field fields k with Some _ => _ | None => _ end); [|done].
  apply IH.
Qed.
