(* ===== verification/Fs.v ===== *)
(** The state directories and the system calls on them: the world a store
    method runs in, the monad of effectful Go code over it, and
    [internal/state/storage_*.go] with [atomicWriteFile].

    Every system call takes the next entry of the fault schedule of the world:
    it succeeds, fails with an I/O error, or the process dies there ([FCrash]).
    A theorem that quantifies over the world therefore covers every I/O failure
    and every crash point; past the end of the schedule no call fails.
    Permission bits and fsync durability are not part of the world: [Chmod] and
    [Sync] are calls that may fail. *)
From S2P Require Import Prelude GoStrings Json.

(** * The world *)

(** The containers and images directories of the state store, the directories of
    the address pools and of the host registries, and the roots of the cgroup
    hierarchies: the unified one ([""]) and one per version 1 controller. *)
Inductive dirname := DCtr | DImg | DIpam | DDns | DCgroup (controller : string).
#[export] Instance dirname_eq_dec : EqDecision dirname.
Proof. solve_decision. Defined.
#[export] Instance dirname_countable : Countable dirname.
Proof.
  refine (inj_countable'
    (λ d, match d with DCtr => inl 0 | DImg => inl 1 | DIpam => inl 2 | DDns => inl 3
          | DCgroup c => inr c end)%nat
    (λ n, match n with inl 0 => DCtr | inl 1 => DImg | inl 2 => DIpam | inl _ => DDns
          | inr c => DCgroup c end)%nat _).
  by intros [].
Defined.

(** A directory entry. *)
Inductive node :=
  | NFile (data : file_data) (nlink : Z)
  | NDir
  | NSymlink
  | NSpecial.

Definition path : Type := dirname * string.

Inductive fault := FOk | FFail | FCrash.

Record world := World {
  w_fs : gmap path node;            (* entries of the directories *)
  w_temps : gmap nat file_data;     (* temporary files, by handle *)
  w_closed : bool;                  (* Store.lockFile == nil *)
  w_faults : list fault;
  w_order : list bool;              (* iteration order of two-element Go maps *)
}.

Definition with_fs (f : gmap path node → gmap path node) (w : world) : world :=
  World (f (w_fs w)) (w_temps w) (w_closed w) (w_faults w) (w_order w).
Definition with_temps (f : gmap nat file_data → gmap nat file_data) (w : world)
    : world := World (w_fs w) (f (w_temps w)) (w_closed w) (w_faults w) (w_order w).
Definition with_faults (l : list fault) (w : world) : world :=
  World (w_fs w) (w_temps w) (w_closed w) l (w_order w).
Definition with_closed (b : bool) (w : world) : world :=
  World (w_fs w) (w_temps w) b (w_faults w) (w_order w).

(** * The monad *)

Inductive outcome (A : Type) :=
  | Ret (a : A)        (* the call returns a and a nil error *)
  | Err (e : error)    (* the call returns a non-nil error *)
  | Crash.             (* the process died during the call *)
Arguments Ret {_} _.
Arguments Err {_} _.
Arguments Crash {_}.

Definition M (A : Type) : Type := world → outcome A * world.

#[export] Instance M_ret : MRet M := λ A a w, (Ret a, w).
#[export] Instance M_bind : MBind M := λ A B k m w,
  match m w with
  | (Ret a, w') => k a w'
  | (Err e, w') => (Err e, w')
  | (Crash, w') => (Crash, w')
  end.

Definition throw {A} (e : error) : M A := λ w, (Err e, w).
Definition lift {A} (r : res A) : M A := λ w,
  (match r with Ok a => Ret a | Fail e => Err e end, w).
(** [if err := validate(..); err != nil { return err }] *)
Definition ensure (e : option error) : M unit := lift (check e).
(** Runs a call and hands its error to the caller instead of returning it. *)
Definition attempt {A} (m : M A) : M (res A) := λ w,
  match m w with
  | (Ret a, w') => (Ret (Ok a), w')
  | (Err e, w') => (Ret (Fail e), w')
  | (Crash, w') => (Crash, w')
  end.
(** [return fmt.Errorf("...: %w", err)] around a call. *)
Definition wrapm {A} (msg : string) (m : M A) : M A := λ w,
  match m w with
  | (Err e, w') => (Err (Wrapf msg e), w')
  | r => r
  end.
(** [defer func() { _ = fin() }()]: runs on return and on error, not when the
    process died; its own error is dropped. *)
Definition defer {A} (fin : M unit) (m : M A) : M A := λ w,
  match m w with
  | (Crash, w') => (Crash, w')
  | (o, w') => match fin w' with
      | (Crash, w'') => (Crash, w'')
      | (_, w'') => (o, w'')
      end
  end.
(** [_ = m()] *)
Definition ignore (m : M unit) : M unit := _ ← attempt m; mret tt.

Definition get_world : M world := λ w, (Ret w, w).
Definition modify (f : world → world) : M unit := λ w, (Ret tt, f w).
Definition entry (p : path) : M (option node) := λ w, (Ret (w_fs w !! p), w).

(** One system call of the given name. *)
Definition sys (call : string) : M unit := λ w,
  match w_faults w with
  | [] => (Ret tt, w)
  | FOk :: l => (Ret tt, with_faults l w)
  | FFail :: l => (Err (EIO call), with_faults l w)
  | FCrash :: l => (Crash, with_faults l w)
  end.

(** The order in which a [for range] visits a Go map of two keys. *)
Definition map_order : M bool := λ w,
  match w_order w with
  | [] => (Ret true, w)
  | b :: l =>
    (Ret b, World (w_fs w) (w_temps w) (w_closed w) (w_faults w) l)
  end.

(** * storage_file_limits.go, storage_file_linux.go *)

Definition maxStateFileBytes : Z := Z.shiftl 4 20.

Definition validateStateFileWrite (data : file_data) : option error :=
  fail_if (maxStateFileBytes <? data_len data)
    (Errorf "%s exceeds %d-byte size limit").

Definition readBoundedStateFile (data : file_data) (observedSize : Z)
    : M file_data :=
  ensure (fail_if (maxStateFileBytes <? observedSize)
    (Errorf "%s exceeds %d-byte size limit"));;
  wrapm "read %s: %w" (sys "read");;
  ensure (fail_if (maxStateFileBytes <? data_len data)
    (Errorf "%s exceeds %d-byte size limit"));;
  mret data.

(** [unix.Open(path, O_RDONLY|O_CLOEXEC|O_NOFOLLOW|O_NONBLOCK)] *)
Definition open_nofollow (p : path) : M node :=
  sys "open";;
  n ← entry p;
  match n with
  | None => throw ErrNotExist
  | Some NSymlink => throw (EIO "open: too many levels of symbolic links")
  | Some n => mret n
  end.

(** The inode behind an open descriptor: a regular file with at most one
    link. *)
Definition inspectRegularStateFD (n : node) : M file_data :=
  wrapm "inspect %s %q: %w" (sys "fstat");;
  match n with
  | NFile data nlink =>
    ensure (fail_if (1 <? nlink)
      (Errorf "%s %q must be single-linked; hard-link aliases detected"));;
    mret data
  | _ => throw (Errorf "%s %q must be a regular file")
  end.

Definition readRegularStateFile (p : path) : M file_data :=
  n ← open_nofollow p;
  data ← inspectRegularStateFD n;
  wrapm "secure %s permissions: %w" (sys "fchmod");;
  readBoundedStateFile data (data_len data).

(** * storage_hardening.go *)

Definition syncStateDirectory (d : dirname) : M unit :=
  wrapm "open %s directory for fsync: %w" (sys "open directory");;
  wrapm "fsync %s directory: %w" (sys "fsync directory").

(** [os.Remove]: unlinks any entry (an empty directory included). *)
Definition os_Remove (p : path) : M unit :=
  sys "remove";;
  n ← entry p;
  match n with
  | None => throw ErrNotExist
  | Some _ => modify (with_fs (delete p))
  end.

(** [os.Remove(p)] where a missing file is not an error. *)
Definition remove_if_present (msg : string) (p : path) : M unit :=
  r ← attempt (os_Remove p);
  match r with
  | Ok _ => mret tt
  | Fail e => if errors_Is e ErrNotExist then mret tt else throw (Wrapf msg e)
  end.

(** The two legacy sidecars of a container record, visited in map order. *)
Definition removeExitedIdentityForContainerState (p : path) : M unit :=
  if negb (has_suffix (snd p) ".json") then mret tt
  else
    let base := trim_suffix (snd p) ".json" in
    let identity := remove_if_present "remove exited process identity: %w"
      (fst p, base +:+ ".exit") in
    let requirement := remove_if_present "remove exited identity requirement: %w"
      (fst p, base +:+ ".exit-required") in
    b ← map_order;
    if b : bool then identity;; requirement else requirement;; identity.

Definition removeStateFileDurable (p : path) (label : string) : M unit :=
  remove_if_present "remove %s: %w" p;;
  (if String.eqb label "container state"
   then removeExitedIdentityForContainerState p else mret tt);;
  syncStateDirectory (fst p).

(** * atomicWriteFile (state.go) *)

Definition create_temp : M nat :=
  sys "create temporary file";;
  w ← get_world;
  let h := fresh (dom (w_temps w)) in
  modify (with_temps (insert h (FText "")));;
  mret h.
Definition write_temp (h : nat) (data : file_data) : M unit :=
  sys "write";; modify (with_temps (insert h data)).
Definition remove_temp (h : nat) : M unit :=
  sys "remove";; modify (with_temps (delete h)).

(** [os.Rename(tmp, target)]: the target entry becomes the temporary file in
    one step, unless it is a directory. *)
Definition rename_temp (h : nat) (p : path) : M unit :=
  sys "rename";;
  w ← get_world;
  match w_fs w !! p, w_temps w !! h with
  | Some NDir, _ => throw (EIO "rename: file exists")
  | _, None => throw ErrNotExist
  | _, Some data =>
    modify (with_fs (insert p (NFile data 1)));;
    modify (with_temps (delete h))
  end.

(** The retry loop around the rename; [n] attempts are left, [renameErr] is the
    error of the last one. *)
Fixpoint rename_loop (n : nat) (renameErr : error) (h : nat) (p : path)
    : M unit :=
  match n with
  | O => throw (Wrapf "atomic rename state file: %w" renameErr)
  | S n =>
    r ← attempt (rename_temp h p);
    match r with
    | Ok _ => syncStateDirectory (fst p)
    | Fail e => rename_loop n e h p
    end
  end.

Definition atomicWriteFile (p : path) (data : file_data) : M unit :=
  h ← wrapm "create state tmp file: %w" create_temp;
  defer (remove_temp h) (
    wrapm "secure state tmp file permissions: %w" (sys "fchmod");;
    wrapm "write state tmp file: %w" (write_temp h data);;
    wrapm "sync state tmp file: %w" (sys "fsync");;
    wrapm "close state tmp file: %w" (sys "close");;
    rename_loop 10 (EIO "rename") h p).
