(* ===== verification/FsLogic.v ===== *)
(** Reasoning about effectful code: a weakest-precondition calculus over the
    monad of [Fs], the specification of every file primitive for all fault
    schedules, and its execution when no fault is left. *)
From S2P Require Import Prelude GoStrings Json Fs.

(** [wp m Q w]: the call [m] made in world [w] ends with an outcome and a world
    that satisfy [Q], whatever the fault schedule of [w] holds. *)
Definition wp {A} (m : M A) (Q : outcome A → world → Prop) (w : world) : Prop :=
  Q (m w).1 (m w).2.

Section rules.
Context {A B : Type}.
Implicit Types (m : M A) (w : world).

Lemma wp_ret (a : A) Q w : Q (Ret a) w → wp (mret a) Q w.
Proof. done. Qed.
Lemma wp_throw e (Q : outcome A → world → Prop) w :
  Q (Err e) w → wp (throw e) Q w.
Proof. done. Qed.
Lemma wp_lift r (Q : outcome A → world → Prop) w :
  (∀ a, r = Ok a → Q (Ret a) w) → (∀ e, r = Fail e → Q (Err e) w) →
  wp (lift r) Q w.
Proof. destruct r; unfold wp, lift; naive_solver. Qed.
Lemma wp_bind m (k : A → M B) Q w :
  wp m (λ o w', match o with
    | Ret a => wp (k a) Q w' | Err e => Q (Err e) w' | Crash => Q Crash w'
    end) w → wp (m ≫= k) Q w.
Proof.
  unfold wp, mbind, M_bind. by destruct (m w) as [[] ?].
Qed.
Lemma wp_attempt m Q w :
  wp m (λ o w', match o with
    | Ret a => Q (Ret (Ok a)) w' | Err e => Q (Ret (Fail e)) w'
    | Crash => Q Crash w'
    end) w → wp (attempt m) Q w.
Proof. unfold wp, attempt. by destruct (m w) as [[] ?]. Qed.
Lemma wp_wrapm msg m Q w :
  wp m (λ o w', match o with
    | Err e => Q (Err (Wrapf msg e)) w' | o => Q o w' end) w →
  wp (wrapm msg m) Q w.
Proof. unfold wp, wrapm. by destruct (m w) as [[] ?]. Qed.
Lemma wp_defer fin m Q w :
  wp m (λ o w', match o with
    | Crash => Q Crash w'
    | o => wp fin (λ o' w'', match o' with
        | Crash => Q Crash w'' | _ => Q o w'' end) w'
    end) w → wp (defer fin m) Q w.
Proof.
  unfold wp, defer. destruct (m w) as [[] w']; cbn; [| |done];
    by destruct (fin w') as [[] ?].
Qed.
Lemma wp_conseq m (Q Q' : outcome A → world → Prop) w :
  wp m Q w → (∀ o w', Q o w' → Q' o w') → wp m Q' w.
Proof. unfold wp. naive_solver. Qed.
End rules.

Lemma wp_ensure e Q w :
  (e = None → Q (Ret tt) w) → (∀ e', e = Some e' → Q (Err e') w) →
  wp (ensure e) Q w.
Proof. destruct e; unfold wp, ensure, lift, check; naive_solver. Qed.
Lemma wp_ignore m Q w :
  wp m (λ o w', match o with Crash => Q Crash w' | _ => Q (Ret tt) w' end) w →
  wp (ignore m) Q w.
Proof.
  intros H. unfold ignore. apply wp_bind, wp_attempt. eapply wp_conseq; [exact H|].
  by intros [] ?.
Qed.
Lemma wp_entry p Q w : Q (Ret (w_fs w !! p)) w → wp (entry p) Q w.
Proof. done. Qed.
Lemma wp_get_world Q w : Q (Ret w) w → wp get_world Q w.
Proof. done. Qed.
Lemma wp_modify f Q w : Q (Ret tt) (f w) → wp (modify f) Q w.
Proof. done. Qed.

(** Two worlds that hold the same state files: system calls that only read, and
    the temporary files of an atomic write, keep this. *)
Definition same (w w' : world) : Prop :=
  w_fs w' = w_fs w ∧ w_closed w' = w_closed w.
#[export] Instance same_equiv : Equivalence same.
Proof.
  split; [done| |].
  - by intros w w' [].
  - intros w1 w2 w3 [E1 E2] [F1 F2]. split; congruence.
Qed.

Lemma same_refl w : same w w.
Proof. done. Qed.
#[export] Hint Resolve same_refl : core.
#[export] Hint Extern 1 (same ?a ?c) =>
  match goal with H : same a ?b |- _ => exact (transitivity (R:=same) H ltac:(eassumption)) end : core.

(** [w'] is [w] with the entry [p] replaced (or removed). *)
Definition updated (p : path) (n : option node) (w w' : world) : Prop :=
  w_fs w' = partial_alter (λ _, n) p (w_fs w) ∧ w_closed w' = w_closed w.

Lemma same_updated p n w w' w'' : same w w' → updated p n w' w'' → updated p n w w''.
Proof. intros [E1 E2] [H1 H2]. split; congruence. Qed.
Lemma updated_same p n w w' w'' : updated p n w w' → same w' w'' → updated p n w w''.
Proof. intros [E1 E2] [H1 H2]. split; congruence. Qed.
Lemma updated_lookup p n w w' : updated p n w w' → w_fs w' !! p = n.
Proof. intros [-> _]. by rewrite lookup_partial_alter_eq. Qed.
Lemma updated_lookup_ne p n w w' q :
  updated p n w w' → q ≠ p → w_fs w' !! q = w_fs w !! q.
Proof. intros [-> _] ?. by rewrite lookup_partial_alter_ne. Qed.

Lemma wp_sys c Q w :
  (∀ w' o, same w w' → (o = Ret tt ∨ o = Err (EIO c) ∨ o = Crash) → Q o w') →
  wp (sys c) Q w.
Proof.
  intros H. unfold wp, sys. destruct (w_faults w) as [|[] ?]; apply H;
    solve [done | auto].
Qed.
Lemma wp_map_order Q w :
  (∀ w' b, same w w' → Q (Ret b) w') → wp map_order Q w.
Proof. intros H. unfold wp, map_order. destruct (w_order w); by apply H. Qed.

#[global] Arguments data_len : simpl never.
#[global] Arguments maxStateFileBytes : simpl never.

(** Applies the rule of the head construct of the program under [wp]. *)
Ltac wp_step :=
  cbn beta iota;
  lazymatch goal with
  | |- wp (mbind _ _) _ _ => apply wp_bind
  | |- wp (_ ← _; _) _ _ => apply wp_bind
  | |- wp (mret _) _ _ => apply wp_ret
  | |- wp (throw _) _ _ => apply wp_throw
  | |- wp (lift _) _ _ => apply wp_lift; intros ? ?
  | |- wp (ensure _) _ _ => apply wp_ensure; [intros ?|intros ? ?]
  | |- wp (attempt _) _ _ => apply wp_attempt
  | |- wp (wrapm _ _) _ _ => apply wp_wrapm
  | |- wp (defer _ _) _ _ => apply wp_defer
  | |- wp (ignore _) _ _ => apply wp_ignore
  | |- wp (entry _) _ _ => apply wp_entry
  | |- wp get_world _ _ => apply wp_get_world
  | |- wp (modify _) _ _ => apply wp_modify
  | |- wp (sys _) _ _ => apply wp_sys; intros ? ? ? [->|[->| ->]]
  | |- wp map_order _ _ => apply wp_map_order; intros ? ? ?
  end; cbn beta iota.
Ltac wp_steps := repeat wp_step.

(** Chains the [same] hypotheses of a symbolic execution. *)
Ltac same_trans :=
  repeat match goal with
  | H1 : same ?a ?b, H2 : same ?b ?c |- _ =>
    lazymatch goal with
    | _ : same a c |- _ => fail
    | _ => pose proof (transitivity (R:=same) H1 H2)
    end
  end.

(** The data a successful read of [p] returns. *)
Definition regular_at (w : world) (p : path) : option file_data :=
  match w_fs w !! p with
  | Some (NFile d nlink) =>
    if (1 <? nlink)%Z || (maxStateFileBytes <? data_len d)%Z then None else Some d
  | _ => None
  end.

Lemma same_regular_at w w' p : same w w' → regular_at w' p = regular_at w p.
Proof. intros [H _]. unfold regular_at. by rewrite H. Qed.

Lemma wp_readRegularStateFile p Q w :
  (∀ w' d, same w w' → regular_at w p = Some d → Q (Ret d) w') →
  (∀ w' e, same w w' →
     (errors_Is e ErrNotExist = true ↔ w_fs w !! p = None ∧ e = ErrNotExist) →
     Q (Err e) w') →
  (∀ w', same w w' → Q Crash w') →
  wp (readRegularStateFile p) Q w.
Proof.
  intros HR HE HC. unfold readRegularStateFile, open_nofollow.
  wp_step. wp_step. wp_step;
    [|apply HE; [done|cbn; naive_solver]|by apply HC].
  wp_step. wp_step. destruct (w_fs w' !! p) as [n|] eqn:Hn; cbn beta iota.
  2: { wp_step. apply HE; [done|]. rewrite <- (proj1 H), Hn. done. }
  assert (Hn' : w_fs w !! p = Some n) by (rewrite <- (proj1 H); done).
  assert (Herr : ∀ w'' e, same w w'' → errors_Is e ErrNotExist = false →
    Q (Err e) w'').
  { intros w'' e Hs He. apply HE; [done|]. rewrite He, Hn'. naive_solver. }
  destruct n; cbn beta iota;
    unfold inspectRegularStateFD, readBoundedStateFile; wp_steps;
    same_trans; try (by apply Herr); try (by apply HC).
  all: try (apply Herr; [done|]).
  all: repeat match goal with
    | H : fail_if _ _ = Some _ |- _ => apply fail_if_Some in H as [? <-]; done
    | H : fail_if _ _ = None |- _ => apply fail_if_None in H
    end.
  apply HR; [done|]. unfold regular_at. rewrite Hn'.
  repeat match goal with H : _ = false |- _ => rewrite H; clear H end. done.
Qed.

Lemma wp_syncStateDirectory d Q w :
  (∀ w' o, same w w' → (o = Ret tt ∨ (∃ e, o = Err e) ∨ o = Crash) → Q o w') →
  wp (syncStateDirectory d) Q w.
Proof.
  intros H. unfold syncStateDirectory. wp_steps; same_trans; apply H; eauto.
Qed.

(** [same], with the temporary files as well. *)
Definition same_temps (w w' : world) : Prop :=
  same w w' ∧ w_temps w' = w_temps w.

Lemma wp_sys_temps c Q w :
  (∀ w' o, same_temps w w' → (o = Ret tt ∨ o = Err (EIO c) ∨ o = Crash) → Q o w') →
  wp (sys c) Q w.
Proof.
  intros H. unfold wp, sys. destruct (w_faults w) as [|[] ?]; apply H;
    solve [done | auto].
Qed.

(** What an interrupted write may leave: the old entries or the new ones. *)
Definition maybe_updated p n w w' : Prop := same w w' ∨ updated p n w w'.

Lemma wp_rename_temp h p data Q w :
  w_temps w !! h = Some data →
  (∀ w', updated p (Some (NFile data 1)) w w' → Q (Ret tt) w') →
  (∀ w' e, same_temps w w' → Q (Err e) w') →
  (∀ w', same w w' → Q Crash w') →
  wp (rename_temp h p) Q w.
Proof.
  intros Hh HR HE HC. unfold rename_temp.
  wp_step. apply wp_sys_temps. intros w' o [Hs Ht] [->|[->| ->]];
    [|by apply HE|by apply HC].
  wp_step. wp_step. rewrite Ht, Hh.
  assert (Hupd : updated p (Some (NFile data 1)) w
    (with_temps (delete h) (with_fs (insert p (NFile data 1)) w'))).
  { destruct Hs as [E1 E2]. split; [|done]. cbn. by rewrite E1. }
  destruct (w_fs w' !! p) as [[]|]; repeat wp_step;
    solve [by apply HE | by apply HR].
Qed.

Lemma wp_rename_loop n e0 h p data Q w :
  w_temps w !! h = Some data →
  (∀ w', updated p (Some (NFile data 1)) w w' → Q (Ret tt) w') →
  (∀ w' o, maybe_updated p (Some (NFile data 1)) w w' →
     (∃ e, o = Err e) ∨ o = Crash → Q o w') →
  wp (rename_loop n e0 h p) Q w.
Proof.
  revert e0 w. induction n as [|n IH]; intros e0 w Hh HR HE; cbn [rename_loop].
  { wp_step. apply HE; [by left|]. left; eauto. }
  wp_step. wp_step. eapply wp_rename_temp; [done|..].
  - intros w' Hu. apply wp_syncStateDirectory. intros w'' o Hs Ho.
    pose proof (updated_same _ _ _ _ _ Hu Hs) as Hu'.
    destruct Ho as [->|Ho]; [by apply HR|]. apply HE; [by right|done].
  - intros w' e [Hs Ht]. apply IH; [by rewrite Ht| |].
    + intros w'' Hu. apply HR. by eapply same_updated.
    + intros w'' o [Hs'|Hu] Ho; apply HE; try done.
      * left. by transitivity w'.
      * right. by eapply same_updated.
  - intros w' Hs. apply HE; [by left|by right].
Qed.

Lemma wp_write_body h p data Q w :
  (∀ w', updated p (Some (NFile data 1)) w w' → Q (Ret tt) w') →
  (∀ w' o, maybe_updated p (Some (NFile data 1)) w w' →
     (∃ e, o = Err e) ∨ o = Crash → Q o w') →
  wp (wrapm "secure state tmp file permissions: %w" (sys "fchmod");;
      wrapm "write state tmp file: %w" (write_temp h data);;
      wrapm "sync state tmp file: %w" (sys "fsync");;
      wrapm "close state tmp file: %w" (sys "close");;
      rename_loop 10 (EIO "rename") h p) Q w.
Proof.
  intros HR HE.
  assert (Hsame : ∀ w' o, same w w' → (∃ e, o = Err e) ∨ o = Crash → Q o w').
  { intros w' o ? ?. apply HE; [by left|done]. }
  do 3 wp_step; [|apply Hsame; eauto..].
  unfold write_temp. do 4 wp_step; [|apply Hsame; [by etransitivity|eauto]..].
  wp_step. cbn beta iota.
  match goal with |- wp _ _ ?v => set (w1 := v) end.
  assert (Hs1 : same w w1) by (transitivity w'; [done|]; by destruct H0).
  assert (Ht1 : w_temps w1 !! h = Some data) by apply lookup_insert_eq.
  clearbody w1. clear H H0.
  do 2 wp_step. apply wp_sys_temps. intros w2 o [Hs2 Ht2] [->|[->| ->]];
    [|apply Hsame; [by etransitivity|eauto]..].
  do 2 wp_step. apply wp_sys_temps. intros w3 o [Hs3 Ht3] [->|[->| ->]];
    [|apply Hsame; [by do 2 (etransitivity; [done|])|eauto]..].
  assert (Hs : same w w3) by (by do 2 (etransitivity; [done|])).
  eapply wp_rename_loop; [by rewrite Ht3, Ht2| |].
  - intros w4 Hu. apply HR. by eapply same_updated.
  - intros w4 o' [Hs4|Hu] Ho; apply HE; try done.
    + left. by transitivity w3.
    + right. by eapply same_updated.
Qed.

Lemma wp_remove_temp h Q w :
  (∀ w' o, same w w' → (o = Ret tt ∨ (∃ e, o = Err e) ∨ o = Crash) → Q o w') →
  wp (remove_temp h) Q w.
Proof. intros H. unfold remove_temp. wp_steps; apply H; eauto. Qed.

(** [atomicWriteFile]: success means the file holds the new data; a failure or
    a crash leaves the old file or the whole new one, and touches nothing
    else. *)
Lemma wp_atomicWriteFile p data Q w :
  (∀ w', updated p (Some (NFile data 1)) w w' → Q (Ret tt) w') →
  (∀ w' o, maybe_updated p (Some (NFile data 1)) w w' →
     (∃ e, o = Err e) ∨ o = Crash → Q o w') →
  wp (atomicWriteFile p data) Q w.
Proof.
  intros HR HE. unfold atomicWriteFile, create_temp.
  assert (Hsame : ∀ w' o, same w w' → (∃ e, o = Err e) ∨ o = Crash → Q o w').
  { intros w' o ? ?. apply HE; [by left|done]. }
  do 4 wp_step; [|apply Hsame; eauto..].
  do 5 wp_step. cbn beta iota.
  match goal with |- wp _ _ ?v => set (w1 := v) end.
  assert (Hs1 : same w w1) by done. clearbody w1. clear H.
  apply wp_defer, wp_write_body.
  - intros w2 Hu. assert (Hu' := same_updated _ _ _ _ _ Hs1 Hu).
    apply wp_remove_temp. intros w3 o Hs3 Ho.
    assert (Hu3 := updated_same _ _ _ _ _ Hu' Hs3).
    destruct Ho as [->|[[e ->]| ->]]; [by apply HR..|].
    apply HE; [by right|auto].
  - intros w2 o Hm Ho.
    assert (Hm' : ∀ w3, same w2 w3 → maybe_updated p (Some (NFile data 1)) w w3).
    { intros w3 Hs3. destruct Hm as [Hs|Hu].
      - left. transitivity w1; [done|]. by transitivity w2.
      - right. eapply updated_same; [|done]. by eapply same_updated. }
    destruct Ho as [[e ->]| ->]; [|apply HE; [by apply Hm'|auto]].
    apply wp_remove_temp. intros w3 o' Hs3 Ho'.
    destruct Ho' as [->|[[e' ->]| ->]]; apply HE; eauto.
Qed.

(** [w'] is [w] where only entries of [l] may have been removed. *)
Definition only_removed (l : list path) (w w' : world) : Prop :=
  (∀ q, q ∉ l → w_fs w' !! q = w_fs w !! q) ∧
  (∀ q, w_fs w' !! q = w_fs w !! q ∨ w_fs w' !! q = None) ∧
  w_closed w' = w_closed w.
(** ... and all of them have been. *)
Definition all_removed (l : list path) (w w' : world) : Prop :=
  only_removed l w w' ∧ ∀ q, q ∈ l → w_fs w' !! q = None.

Lemma same_only_removed l w w' : same w w' → only_removed l w w'.
Proof. intros [E1 E2]. repeat split; intros; rewrite ?E1; auto. Qed.
Lemma updated_all_removed p w w' : updated p None w w' → all_removed [p] w w'.
Proof.
  intros Hu. repeat split.
  - intros q Hq. eapply updated_lookup_ne; [done|]. set_solver.
  - intros q. destruct (decide (q = p)) as [->|]; [right|left].
    + by eapply updated_lookup.
    + by eapply updated_lookup_ne.
  - apply Hu.
  - intros q ->%list_elem_of_singleton. by eapply updated_lookup.
Qed.
Lemma only_removed_trans l1 l2 w1 w2 w3 :
  only_removed l1 w1 w2 → only_removed l2 w2 w3 → only_removed (l1 ++ l2) w1 w3.
Proof.
  intros (H1 & H2 & H3) (F1 & F2 & F3). repeat split; [| |congruence].
  - intros q Hq. rewrite F1, H1; set_solver.
  - intros q. destruct (F2 q) as [->|]; auto.
Qed.
Lemma all_removed_trans l1 l2 w1 w2 w3 :
  all_removed l1 w1 w2 → all_removed l2 w2 w3 → all_removed (l1 ++ l2) w1 w3.
Proof.
  intros [H1 H2] [F1 F2]. split; [by eapply only_removed_trans|].
  intros q [Hq|Hq]%elem_of_app; [|by apply F2].
  destruct F1 as (_ & F1 & _). destruct (F1 q) as [->|]; auto.
Qed.
Lemma only_removed_weaken l l' w w' :
  l ⊆ l' → only_removed l w w' → only_removed l' w w'.
Proof. intros Hl (H1 & H2 & H3). repeat split; auto. Qed.
Lemma only_removed_same l w w' w'' :
  only_removed l w w' → same w' w'' → only_removed l w w''.
Proof. intros (H1 & H2 & H3) [E1 E2]. repeat split; intros; rewrite ?E1, ?E2; auto. Qed.
Lemma all_removed_same l w w' w'' :
  all_removed l w w' → same w' w'' → all_removed l w w''.
Proof.
  intros [H1 H2] Hs. split; [by eapply only_removed_same|].
  intros. destruct Hs as [-> _]. auto.
Qed.
Lemma all_removed_perm l l' w w' :
  l ≡ₚ l' → all_removed l w w' → all_removed l' w w'.
Proof.
  intros Hp [H1 H2]. split.
  - eapply only_removed_weaken; [|done]. intros q. by rewrite Hp.
  - intros q Hq. apply H2. by rewrite Hp.
Qed.

Lemma wp_remove_if_present msg p Q w :
  (∀ w', all_removed [p] w w' → Q (Ret tt) w') →
  (∀ w' o, same w w' → (∃ e, o = Err e) ∨ o = Crash → Q o w') →
  wp (remove_if_present msg p) Q w.
Proof.
  intros HR HE. unfold remove_if_present, os_Remove.
  do 4 wp_step; [|cbn; wp_step; apply HE; eauto|apply HE; eauto].
  do 2 wp_step. destruct (w_fs w' !! p) as [n|] eqn:Hn; repeat wp_step.
  - apply HR, updated_all_removed. destruct H as [E1 E2]. split; [|done].
    cbn. by rewrite E1.
  - cbn. wp_step. apply HR, updated_all_removed. destruct H as [E1 E2].
    split; [|done]. rewrite E1 in Hn |- *. symmetry. exact (delete_id (w_fs w) p Hn).
Qed.

(** The legacy sidecars of a container record, and the entries
    [removeStateFileDurable] may unlink. *)
Definition exit_sidecars (p : path) : list path :=
  if has_suffix (snd p) ".json" then
    let base := trim_suffix (snd p) ".json" in
    [(fst p, base +:+ ".exit"); (fst p, base +:+ ".exit-required")]
  else [].
Definition durable_removal (p : path) (label : string) : list path :=
  p :: if String.eqb label "container state" then exit_sidecars p else [].

Lemma wp_removeExitedIdentity p Q w :
  (∀ w', all_removed (exit_sidecars p) w w' → Q (Ret tt) w') →
  (∀ w' o, only_removed (exit_sidecars p) w w' →
     (∃ e, o = Err e) ∨ o = Crash → Q o w') →
  wp (removeExitedIdentityForContainerState p) Q w.
Proof.
  unfold removeExitedIdentityForContainerState, exit_sidecars. intros HR HE.
  destruct (has_suffix _ _); cbn [negb].
  2: { wp_step. apply HR. split; [by apply same_only_removed|set_solver]. }
  set (p1 := (_, _ +:+ ".exit")) in *. set (p2 := (_, _ +:+ ".exit-required")) in *.
  cbn zeta in *.
  assert (Htwo : ∀ m1 m2 q1 q2 w1, same w w1 → [q1; q2] ≡ₚ [p1; p2] →
    wp (remove_if_present m1 q1;; remove_if_present m2 q2) Q w1).
  { intros m1 m2 q1 q2 w1 Hs Hp. wp_step. apply wp_remove_if_present.
    - intros w2 H2. apply wp_remove_if_present.
      + intros w3 H3. apply HR. eapply all_removed_perm; [done|].
        apply (all_removed_trans [q1] [q2] w w2 w3); [|done].
        destruct H2 as [H2 H2']. split; [|done].
        apply (only_removed_trans [] [q1] w w1 w2); [by apply same_only_removed|done].
      + intros w3 o H3. apply HE.
        eapply (only_removed_weaken [q1]); [intros q; rewrite <- Hp; set_solver|].
        eapply only_removed_same; [|done].
        apply (only_removed_trans [] [q1] w w1 w2); [by apply same_only_removed|].
        apply H2.
    - intros w2 o H2 [[e ->]| ->]; (apply HE; [|eauto]);
      (apply (only_removed_weaken []);
      [set_solver|apply same_only_removed; by transitivity w1]). }
  do 2 wp_step. destruct b; apply Htwo; try done. apply Permutation_swap.
Qed.

(** [removeStateFileDurable]: success means every entry of
    [durable_removal] is gone; a failure or a crash may have removed some. *)
Lemma wp_removeStateFileDurable p label Q w :
  (∀ w', all_removed (durable_removal p label) w w' → Q (Ret tt) w') →
  (∀ w' o, only_removed (durable_removal p label) w w' →
     (∃ e, o = Err e) ∨ o = Crash → Q o w') →
  wp (removeStateFileDurable p label) Q w.
Proof.
  intros HR HE. unfold removeStateFileDurable, durable_removal in *.
  wp_step. apply wp_remove_if_present.
  2: { intros w1 o Hs [[e ->]| ->]; (apply HE; [|eauto]);
       (apply (only_removed_weaken []); [set_solver|by apply same_only_removed]). }
  intros w1 H1. wp_step. destruct (String.eqb label "container state").
  2: { wp_step. apply wp_syncStateDirectory. intros w2 o Hs [->|Ho].
       - apply HR. by eapply all_removed_same.
       - apply HE; [|done]. eapply only_removed_same; [|done]. apply H1. }
  apply wp_removeExitedIdentity.
  - intros w2 H2. apply wp_syncStateDirectory. intros w3 o Hs Ho.
    pose proof (all_removed_same _ _ _ _ (all_removed_trans _ _ _ _ _ H1 H2) Hs) as H3.
    destruct Ho as [->|Ho]; [by apply HR | apply HE; [apply H3|done]].
  - intros w2 o H2 [[e ->]| ->]; (apply HE; [|eauto]);
      apply (only_removed_trans _ _ _ _ _ (proj1 H1) H2).
Qed.

(** * Execution without faults *)

(** No system call fails from here on (and maps are visited in the first
    order). *)
Definition calm (w : world) : Prop := w_faults w = [] ∧ w_order w = [].

Lemma sys_calm c w : calm w → sys c w = (Ret tt, w).
Proof. intros [H _]. unfold sys. by rewrite H. Qed.
Lemma bind_Ret {A B} (m : M A) (k : A → M B) w a w' :
  m w = (Ret a, w') → (m ≫= k) w = k a w'.
Proof. intros H. unfold mbind, M_bind. by rewrite H. Qed.
Lemma bind_Err {A B} (m : M A) (k : A → M B) w e w' :
  m w = (Err e, w') → (m ≫= k) w = (Err e, w').
Proof. intros H. unfold mbind, M_bind. by rewrite H. Qed.
Lemma wrapm_Ret {A} msg (m : M A) w a w' :
  m w = (Ret a, w') → wrapm msg m w = (Ret a, w').
Proof. intros H. unfold wrapm. by rewrite H. Qed.
Lemma wrapm_Err {A} msg (m : M A) w e w' :
  m w = (Err e, w') → wrapm msg m w = (Err (Wrapf msg e), w').
Proof. intros H. unfold wrapm. by rewrite H. Qed.
Lemma attempt_Ret {A} (m : M A) w a w' :
  m w = (Ret a, w') → attempt m w = (Ret (Ok a), w').
Proof. intros H. unfold attempt. by rewrite H. Qed.
Lemma attempt_Err {A} (m : M A) w e w' :
  m w = (Err e, w') → attempt m w = (Ret (Fail e), w').
Proof. intros H. unfold attempt. by rewrite H. Qed.
Lemma ignore_calm m w o w' :
  m w = (o, w') → o ≠ Crash → ignore m w = (Ret tt, w').
Proof.
  intros H Ho. unfold ignore, attempt, mbind, M_bind. rewrite H. by destruct o.
Qed.

Lemma calm_with_fs f w : calm w → calm (with_fs f w).
Proof. done. Qed.

Lemma read_calm w p d :
  calm w → regular_at w p = Some d → readRegularStateFile p w = (Ret d, w).
Proof.
  intros Hw Hd. unfold regular_at in Hd.
  destruct (w_fs w !! p) as [[d' nl| | |]|] eqn:Hp; try done.
  destruct (_ || _) eqn:Hb; [done|]. injection Hd as ->. bool_simp.
  unfold readRegularStateFile, open_nofollow.
  erewrite bind_Ret; [|erewrite bind_Ret; [|by apply sys_calm];
    erewrite bind_Ret; [|done]; by rewrite Hp].
  unfold inspectRegularStateFD.
  erewrite bind_Ret; [|erewrite bind_Ret; [|by eapply wrapm_Ret, sys_calm];
    unfold ensure, fail_if; rewrite (proj2 (Z.ltb_ge _ _)) by lia; done].
  erewrite bind_Ret; [|by eapply wrapm_Ret, sys_calm].
  unfold readBoundedStateFile, ensure, fail_if.
  rewrite (proj2 (Z.ltb_ge _ _)) by lia.
  erewrite bind_Ret; [|done].
  erewrite bind_Ret; [|by eapply wrapm_Ret, sys_calm]. done.
Qed.

Lemma read_calm_missing w p :
  calm w → w_fs w !! p = None → readRegularStateFile p w = (Err ErrNotExist, w).
Proof.
  intros Hw Hp. unfold readRegularStateFile, open_nofollow.
  erewrite bind_Err; [done|]. erewrite bind_Ret; [|by apply sys_calm].
  erewrite bind_Ret; [|done]. by rewrite Hp.
Qed.

Lemma sync_calm d w : calm w → syncStateDirectory d w = (Ret tt, w).
Proof.
  intros Hw. unfold syncStateDirectory.
  erewrite bind_Ret; [|by eapply wrapm_Ret, sys_calm].
  by eapply wrapm_Ret, sys_calm.
Qed.

Lemma remove_if_present_calm msg p w :
  calm w → remove_if_present msg p w = (Ret tt, with_fs (delete p) w).
Proof.
  intros Hw. unfold remove_if_present, os_Remove. destruct (w_fs w !! p) eqn:Hp.
  - erewrite bind_Ret; [|eapply attempt_Ret; erewrite bind_Ret;
      [|by apply sys_calm]; erewrite bind_Ret; [|done]; by rewrite Hp]. done.
  - erewrite bind_Ret; [|eapply attempt_Err; erewrite bind_Ret;
      [|by apply sys_calm]; erewrite bind_Ret; [|done]; by rewrite Hp].
    cbn. unfold with_fs. rewrite delete_id by done. by destruct w.
Qed.

Lemma remove_calm p label w :
  calm w → String.eqb label "container state" = false →
  removeStateFileDurable p label w = (Ret tt, with_fs (delete p) w).
Proof.
  intros Hw Hl. unfold removeStateFileDurable. rewrite Hl.
  erewrite bind_Ret; [|by apply remove_if_present_calm].
  erewrite bind_Ret; [|done]. by apply sync_calm.
Qed.

Lemma atomicWrite_calm p data w :
  calm w → w_fs w !! p ≠ Some NDir →
  atomicWriteFile p data w = (Ret tt, with_fs (insert p (NFile data 1)) w).
Proof.
  intros Hw Hp. unfold atomicWriteFile, create_temp.
  erewrite bind_Ret; [|eapply wrapm_Ret; erewrite bind_Ret;
    [|by apply sys_calm]; done].
  set (h := fresh _). set (w1 := with_temps _ w).
  assert (Hw1 : calm w1) by done.
  unfold defer.
  erewrite bind_Ret; [|by eapply wrapm_Ret, sys_calm].
  erewrite bind_Ret; [|eapply wrapm_Ret; unfold write_temp; erewrite bind_Ret;
    [|by apply sys_calm]; done].
  set (w2 := with_temps _ w1). assert (Hw2 : calm w2) by done.
  erewrite bind_Ret; [|by eapply wrapm_Ret, sys_calm].
  erewrite bind_Ret; [|by eapply wrapm_Ret, sys_calm]. cbn [rename_loop].
  assert (Hr : rename_temp h p w2
    = (Ret tt, with_temps (delete h) (with_fs (insert p (NFile data 1)) w2))).
  { unfold rename_temp. erewrite bind_Ret; [|by apply sys_calm].
    erewrite bind_Ret; [|done]. cbn. rewrite lookup_insert_eq.
    destruct (w_fs w !! p) as [[]|]; done. }
  erewrite bind_Ret; [|by apply attempt_Ret].
  cbn beta iota. rewrite (sync_calm (fst p)) by done. cbn beta iota. unfold remove_temp.
  erewrite bind_Ret; [|by apply sys_calm]. cbn. f_equal.
  unfold with_temps, with_fs; cbn. f_equal.
  rewrite insert_insert_eq, delete_insert_eq, delete_delete_eq.
  apply delete_id, not_elem_of_dom. apply is_fresh.
Qed.
