(* ===== verification/Durable.v ===== *)
(** Durable documents: a component that keeps one document per name, reads it
    under a lock and replaces its file atomically.  The class says where the
    document of a name is kept and how it is written; the client's theorems are
    about what a call makes of the document, whatever faults it meets. *)
From S2P Require Import Prelude GoStrings Json Fs FsLogic.

(** * Calls that only read *)

(** A call for its effect: the last value is the unit one. *)
Lemma wp_unit (m : M unit) (Q : outcome unit → world → Prop) w :
  wp (m;; mret tt) Q w → wp m Q w.
Proof.
  unfold wp, mbind, M_bind. destruct (m w) as [[[]| |] w']; done.
Qed.

(** The call leaves every entry as it was, whatever happens. *)
Definition keeps {A} (m : M A) : Prop := ∀ w, wp m (λ _ w', same w w') w.

Lemma wp_keeps {A} (m : M A) (Q : outcome A → world → Prop) w : keeps m →
  (∀ w' a, same w w' → Q (Ret a) w') →
  (∀ w' o, same w w' → (∃ e, o = Err e) ∨ o = Crash → Q o w') → wp m Q w.
Proof. intros Hm HR HE. eapply wp_conseq; [apply Hm|]. intros [] w' Hs; eauto. Qed.

Lemma keeps_ret {A} (a : A) : keeps (mret a).
Proof. by intros w. Qed.
Lemma keeps_throw {A} e : keeps (throw (A:=A) e).
Proof. by intros w. Qed.
Lemma keeps_lift {A} (r : res A) : keeps (lift r).
Proof. by intros w. Qed.
Lemma keeps_ensure e : keeps (ensure e).
Proof. by intros w. Qed.
Lemma keeps_sys c : keeps (sys c).
Proof. intros w. by wp_step. Qed.
Lemma keeps_entry p : keeps (entry p).
Proof. by intros w. Qed.
Lemma keeps_bind {A B} (m : M A) (k : A → M B) :
  keeps m → (∀ a, keeps (k a)) → keeps (m ≫= k).
Proof.
  intros Hm Hk w. wp_step. apply wp_keeps; [done| |by intros w' o ? [[e ->]| ->]].
  intros w' a Hs. eapply wp_conseq; [apply Hk|]. intros o w'' ?. by transitivity w'.
Qed.
Lemma keeps_wrapm {A} msg (m : M A) : keeps m → keeps (wrapm msg m).
Proof. intros Hm w. wp_step. eapply wp_conseq; [apply Hm|]. by intros [] ?. Qed.
Lemma keeps_attempt {A} (m : M A) : keeps m → keeps (attempt m).
Proof. intros Hm w. wp_step. eapply wp_conseq; [apply Hm|]. by intros [] ?. Qed.
Lemma keeps_ignore m : keeps m → keeps (ignore m).
Proof. intros Hm w. wp_step. eapply wp_conseq; [apply Hm|]. by intros [] ?. Qed.

Create HintDb keeps.
#[export] Hint Resolve keeps_ret keeps_throw keeps_lift keeps_ensure keeps_sys keeps_entry
  keeps_wrapm keeps_attempt keeps_ignore : keeps.
#[export] Hint Extern 5 (keeps (_ ≫= _)) => apply keeps_bind; [|intros ?] : keeps.

(** * Documents *)

(** File names that end in different extensions are different. *)
Lemma path_ext_app s e : path_ext e = e → e ≠ "" → path_ext (s +:+ e) = e.
Proof.
  intros He Hne. induction s as [|c s IH]; [done|]. rewrite string_app_cons.
  cbn. rewrite IH. by destruct e.
Qed.
Lemma ext_apart s s' e e' : path_ext e = e → e ≠ "" → path_ext e' = e' → e' ≠ "" →
  s +:+ e = s' +:+ e' → e = e'.
Proof. intros He Hn He' Hn' E%(f_equal path_ext). by rewrite !path_ext_app in E. Qed.

(** Where the documents of type [D] are: the file of a name, the other entries a
    call may create on the way (locks, directories), the bytes of a document. *)
Class Document (D : Type) := {
  doc_file : string → path;
  doc_scratch : string → list path;
  doc_data : string → D → file_data;
  doc_apart n n' : doc_file n ∉ doc_scratch n';
  doc_inj : Inj (=) (=) doc_file }.
#[export] Existing Instance doc_inj.

(** Everything but the scratch entries is as before. *)
Definition unchanged (D : Type) `{Document D} (name : string) (w w' : world) : Prop :=
  ∀ q, q ∉ doc_scratch name → w_fs w' !! q = w_fs w !! q.
(** The file of the name holds [d]. *)
Definition stored `{Document D} (name : string) (d : D) (w w' : world) : Prop :=
  w_fs w' !! doc_file name = Some (NFile (doc_data name d) 1) ∧
  ∀ q, q ∉ doc_scratch name → q ≠ doc_file name → w_fs w' !! q = w_fs w !! q.

(** The document of a name: none, the one [read] makes of its entry, or an
    error. *)
Definition doc_of `{Document D} (read : string → node → res D) (w : world) (name : string)
    : res (option D) :=
  match w_fs w !! doc_file name with
  | None => Ok None
  | Some n => d ← read name n; Ok (Some d)
  end.

(** The call leaves the document as it was, having read [before], or replaces
    it by [after]; a call that failed or was interrupted may have done
    either. *)
Definition acts `{Document D} {A} (read : string → node → res D) (name : string)
    (reads : A → option D → Prop) (stores : A → option D → D → Prop) (w : world)
    (o : outcome A) (w' : world) : Prop :=
  (unchanged D name w w' ∧
   match o with
   | Ret a => ∃ before, doc_of read w name = Ok before ∧ reads a before
   | _ => True
   end) ∨
  ∃ before after a, doc_of read w name = Ok before ∧ stored name after w w' ∧
    stores a before after ∧ match o with Ret a' => a' = a | _ => True end.

Section document.
Context `{Document D}.

Lemma same_unchanged name w w' : same w w' → unchanged D name w w'.
Proof. intros [E _] q _. by rewrite E. Qed.
Lemma unchanged_trans name w1 w2 w3 :
  unchanged D name w1 w2 → unchanged D name w2 w3 → unchanged D name w1 w3.
Proof. intros H1 H2 q Hq. by rewrite H2, H1. Qed.
Lemma unchanged_file name name' w w' :
  unchanged D name w w' → w_fs w' !! doc_file name' = w_fs w !! doc_file name'.
Proof. intros Hu. apply Hu, doc_apart. Qed.
(** An entry created among the scratch entries. *)
Lemma unchanged_insert name w w1 p n :
  unchanged D name w w1 → p ∈ doc_scratch name →
  unchanged D name w (with_fs (insert p n) w1).
Proof.
  intros Hu Hp q Hq. cbn. rewrite lookup_insert_ne by (by intros ->). by apply Hu.
Qed.
Lemma unchanged_stored name d w1 w2 w3 :
  unchanged D name w1 w2 → stored name d w2 w3 → stored name d w1 w3.
Proof. intros H1 [H2 H3]. split; [done|]. intros q Hl Hp. by rewrite H3, H1. Qed.
Lemma stored_unchanged name d w1 w2 w3 :
  stored name d w1 w2 → unchanged D name w2 w3 → stored name d w1 w3.
Proof.
  intros [H1 H2] H3. split; [by rewrite (unchanged_file name name w2)|].
  intros q Hl Hp. by rewrite H3, H2.
Qed.
Lemma stored_same name d w1 w2 w3 :
  stored name d w1 w2 → same w2 w3 → stored name d w1 w3.
Proof. intros ? ?. eapply stored_unchanged; [done|]. by apply same_unchanged. Qed.
Lemma stored_other name d name' w w' : name' ≠ name →
  stored name d w w' → w_fs w' !! doc_file name' = w_fs w !! doc_file name'.
Proof.
  intros Hne [_ Hs]. apply Hs; [apply doc_apart|]. by intros E%(inj doc_file).
Qed.
Lemma updated_stored name d w w' :
  updated (doc_file name) (Some (NFile (doc_data name d) 1)) w w' → stored name d w w'.
Proof.
  intros Hu. split; [by eapply updated_lookup|]. intros q _ Hq. by eapply updated_lookup_ne.
Qed.

Lemma doc_of_eq read w w' name :
  w_fs w' !! doc_file name = w_fs w !! doc_file name → doc_of read w' name = doc_of read w name.
Proof. unfold doc_of. by intros ->. Qed.
Lemma doc_of_unchanged read w w' name :
  unchanged D name w w' → doc_of read w' name = doc_of read w name.
Proof. intros. by apply doc_of_eq, (unchanged_file name). Qed.

Section acts.
Context {A : Type} (read : string → node → res D) (name : string).
Context (reads : A → option D → Prop) (stores : A → option D → D → Prop).
Implicit Types (o : outcome A).

Lemma acts_unchanged_r w o w1 w2 :
  acts read name reads stores w o w1 → unchanged D name w1 w2 →
  acts read name reads stores w o w2.
Proof.
  intros [[Hu Ho]|(b & d & a & ? & Hs & ?)] Hw.
  - left. split; [|done]. by eapply unchanged_trans.
  - right. exists b, d, a. split_and!; try apply H1; [done|by eapply stored_unchanged].
Qed.
Lemma acts_same w o w1 w2 :
  acts read name reads stores w o w1 → same w1 w2 → acts read name reads stores w o w2.
Proof. intros ? ?. eapply acts_unchanged_r; [done|by apply same_unchanged]. Qed.
Lemma acts_fail w o o' w' : acts read name reads stores w o w' →
  (∃ e, o' = Err e) ∨ o' = Crash → acts read name reads stores w o' w'.
Proof.
  intros [[Hu Ho]|(b & d & a & ? & Hs & ? & ?)] Hf.
  - left. split; [done|]. by destruct Hf as [[e ->]| ->].
  - right. exists b, d, a. split_and!; try done. by destruct Hf as [[e ->]| ->].
Qed.
Lemma acts_failed w o w' : unchanged D name w w' →
  (∃ e, o = Err e) ∨ o = Crash → acts read name reads stores w o w'.
Proof. intros Hu Hf. left. split; [done|]. by destruct Hf as [[e ->]| ->]. Qed.
Lemma acts_err w w' o : same w w' → (∃ e, o = Err e) ∨ o = Crash →
  acts read name reads stores w o w'.
Proof. intros ? ?. apply acts_failed; [by apply same_unchanged|done]. Qed.
Lemma acts_reads w w' a before :
  same w w' → doc_of read w name = Ok before → reads a before →
  acts read name reads stores w (Ret a) w'.
Proof. intros Hs Hp Hr. left. split; [by apply same_unchanged|eauto]. Qed.
Lemma acts_unchanged w w1 o w' :
  unchanged D name w w1 → acts read name reads stores w1 o w' →
  acts read name reads stores w o w'.
Proof.
  intros Hu. pose proof (doc_of_unchanged read w w1 name Hu) as E.
  intros [[Hu' Ho]|(b & d & a & Hb & Hs & ?)].
  - left. split; [by eapply unchanged_trans|]. by rewrite <- E.
  - right. exists b, d, a. rewrite <- E. split_and!; try apply H0; [done|].
    by eapply unchanged_stored.
Qed.
(** A call that replaced the document, or may have. *)
Lemma acts_stored w w1 w' o a before after :
  same w w1 → doc_of read w name = Ok before → stored name after w1 w' →
  stores a before after → match o with Ret a' => a' = a | _ => True end →
  acts read name reads stores w o w'.
Proof.
  intros Hs Hb Hst Ha Ho. right. exists before, after, a. split_and!; try done.
  eapply unchanged_stored; [by apply same_unchanged|done].
Qed.

(** The result of the call is handed on as [f] makes it. *)
Lemma acts_ret {B} (f : A → B) reads' stores' w o w' :
  acts read name reads stores w o w' →
  (∀ a b, reads a b → reads' (f a) b) → (∀ a b d, stores a b d → stores' (f a) b d) →
  acts read name reads' stores' w
    (match o with Ret a => Ret (f a) | Err e => Err e | Crash => Crash end) w'.
Proof.
  intros [[Hu Ho]|(b & d & a & Hb & Hs & Ha & Ho)] Hr Hst.
  - left. split; [done|]. destruct o; [|done..]. destruct Ho as (b & ? & ?). eauto.
  - right. exists b, d, (f a). split_and!; eauto. destruct o; [by subst|done..].
Qed.
Lemma acts_mono reads' stores' w o w' :
  acts read name reads stores w o w' →
  (∀ a b, reads a b → reads' a b) → (∀ a b d, stores a b d → stores' a b d) →
  acts read name reads' stores' w o w'.
Proof.
  intros Ha Hr Hst. pose proof (acts_ret (λ a, a) reads' stores' w o w' Ha Hr Hst).
  by destruct o.
Qed.
End acts.

(** * Publishing a temporary file *)

(** The temporary file is removed before an error is returned. *)
Lemma wp_discard {A} name d h e (Q : outcome A → world → Prop) w w1 :
  (∀ w' o, unchanged D name w w' ∨ stored name d w w' →
    (∃ e, o = Err e) ∨ o = Crash → Q o w') →
  unchanged D name w w1 ∨ stored name d w w1 →
  wp (ignore (remove_temp h);; throw e) Q w1.
Proof.
  intros HE Hw1. do 2 wp_step. apply wp_remove_temp. intros w2 o Hs Ho.
  assert (Hw2 : unchanged D name w w2 ∨ stored name d w w2).
  { destruct Hw1 as [Hu|Hst]; [left|right].
    - eapply unchanged_trans; [done|by apply same_unchanged].
    - by eapply stored_same. }
  destruct Ho as [->|[[e' ->]| ->]]; [wp_step; apply HE; eauto..|apply HE; eauto].
Qed.

(** The end of every atomic replacement: the temporary file is written, synced,
    closed and renamed. *)
Lemma wp_publish m1 m2 m3 m4 h p data Q w :
  (∀ w', updated p (Some (NFile data 1)) w w' → Q (Ret tt) w') →
  (∀ w' o, same w w' → (∃ e, o = Err e) ∨ o = Crash → Q o w') →
  wp (wrapm m1 (write_temp h data);; wrapm m2 (sys "fsync");; wrapm m3 (sys "close");;
      wrapm m4 (rename_temp h p)) Q w.
Proof.
  intros HR HE. unfold write_temp. do 4 wp_step; [|apply HE; eauto..].
  wp_step. cbn beta iota.
  match goal with |- wp _ _ ?v => set (w1 := v) end.
  assert (Hs1 : same w w1) by done.
  assert (Ht1 : w_temps w1 !! h = Some data) by apply lookup_insert_eq. clearbody w1. clear H.
  do 2 wp_step. apply wp_sys_temps. intros w2 o [Hs2 Ht2] [->|[->| ->]];
    [|apply HE; eauto..]. cbn beta iota.
  do 2 wp_step. apply wp_sys_temps. intros w3 o [Hs3 Ht3] [->|[->| ->]];
    [|apply HE; same_trans; eauto..]. cbn beta iota.
  assert (Hs : same w w3) by (same_trans; done).
  wp_step. eapply wp_rename_temp; [by rewrite Ht3, Ht2|..].
  - intros w4 Hu. apply HR. by eapply same_updated.
  - intros w4 e [Hs4 _]. apply HE; [by transitivity w3|eauto].
  - intros w4 Hs4. apply HE; [by transitivity w3|eauto].
Qed.

(** An atomic replacement: a temporary file is made, filled and published, then
    the directory synced; an error removes it again. *)
Lemma wp_replace name d data msg (body : nat → M unit) (tail : M unit) Q w :
  data = doc_data name d → keeps tail →
  (∀ h w1 (Q1 : outcome unit → world → Prop),
    (∀ w', updated (doc_file name) (Some (NFile data 1)) w1 w' → Q1 (Ret tt) w') →
    (∀ w' o, same w1 w' → (∃ e, o = Err e) ∨ o = Crash → Q1 o w') → wp (body h) Q1 w1) →
  (∀ w', stored name d w w' → Q (Ret tt) w') →
  (∀ w' o, unchanged D name w w' ∨ stored name d w w' →
    (∃ e, o = Err e) ∨ o = Crash → Q o w') →
  wp (h ← wrapm msg create_temp;
      r ← attempt (body h);
      match r with
      | Fail e => ignore (remove_temp h);; throw e
      | Ok _ => tail
      end) Q w.
Proof.
  intros -> Ht Hb HR HE. unfold create_temp.
  assert (Hfail : ∀ w' o, same w w' → (∃ e, o = Err e) ∨ o = Crash → Q o w').
  { intros w' o Hs ?. apply HE; [|done]. left. by apply same_unchanged. }
  do 4 wp_step; [|apply Hfail; eauto..]. do 4 wp_step. cbn beta iota.
  match goal with |- wp _ _ ?v => set (w1 := v) end.
  assert (Hs1 : same w w1) by done. clearbody w1.
  do 3 wp_step. apply Hb; cbn beta iota.
  - intros w2 Hu. assert (Hst : stored name d w w2).
    { eapply unchanged_stored; [by apply same_unchanged|by apply updated_stored]. }
    apply wp_keeps; [done| |].
    + intros w3 [] Hs. apply HR. by eapply stored_same.
    + intros w3 o Hs Ho. apply HE; [right; by eapply stored_same|done].
  - intros w2 o Hs [[e ->]| ->]; cbn beta iota; [|apply Hfail; eauto].
    eapply wp_discard; [done|]. left. apply same_unchanged. eauto.
Qed.
End document.

(** A call that returns before it touches anything. *)
Ltac early := wp_step; wp_step; [|apply acts_err; [done|eauto]]; cbn beta iota.
