(* ===== verification/Container.v ===== *)
(** Container records: [state.Container], its JSON form as
    [internal/state] writes it (revision.go) and reads it back
    (container_state_schema.go, container_state_identity.go), and the checks on
    identifiers (state.go). *)
From S2P Require Import Prelude GoStrings Json Fs FsLogic.

(** * Time values

    A [time.Time] is kept as the RFC 3339 text that [encoding/json] prints for
    it and accepts for it; no code of the store looks inside one. *)
Definition time : Type := string.
Definition zero_time : time := "0001-01-01T00:00:00Z".

Definition p_digits (n : nat) (s : string) : option (Z * string) :=
  if (String.length s <? n)%nat || negb (str_forallb is_digit (str_take n s))
  then None else v ← parse_digits 0 (str_take n s); Some (v, str_drop n s).
Definition p_char (c : Ascii.ascii) (s : string) : option string :=
  match s with
  | String d s => if bool_decide (d = c) then Some s else None
  | "" => None
  end.
Fixpoint skip_digits (s : string) : string :=
  match s with
  | String c s' => if is_digit c then skip_digits s' else s
  | "" => ""
  end.
Definition p_fraction (s : string) : option string :=
  match p_char "."%char s with
  | None => Some s
  | Some r => _ ← p_digits 1 r; Some (skip_digits r)
  end.
Definition leap (y : Z) : bool :=
  (y mod 4 =? 0)%Z && (negb (y mod 100 =? 0)%Z || (y mod 400 =? 0)%Z).
Definition days_in (m y : Z) : Z :=
  if (m =? 2)%Z then (if leap y then 29 else 28)%Z
  else if existsb (Z.eqb m) [4; 6; 9; 11]%Z then 30%Z else 31%Z.

(** [Time.UnmarshalJSON]: strict RFC 3339. *)
Definition parse_time (s : string) : option unit :=
  '(y, s) ← p_digits 4 s; s ← p_char "-"%char s;
  '(mo, s) ← p_digits 2 s; s ← p_char "-"%char s;
  '(d, s) ← p_digits 2 s; s ← p_char "T"%char s;
  '(h, s) ← p_digits 2 s; s ← p_char ":"%char s;
  '(mi, s) ← p_digits 2 s; s ← p_char ":"%char s;
  '(sec, s) ← p_digits 2 s; s ← p_fraction s;
  _ ← guard ((1 <= mo)%Z ∧ (mo <= 12)%Z ∧ (1 <= d)%Z ∧ (d <= days_in mo y)%Z ∧
             (h < 24)%Z ∧ (mi < 60)%Z ∧ (sec < 60)%Z);
  match s with
  | String "Z"%char "" => Some tt
  | String c s =>
    _ ← guard (c = "+"%char ∨ c = "-"%char);
    '(zh, s) ← p_digits 2 s; s ← p_char ":"%char s;
    '(zm, s) ← p_digits 2 s;
    _ ← guard ((zh < 24)%Z ∧ (zm < 60)%Z ∧ s = "");
    Some tt
  | "" => None
  end.
Definition time_ok (t : time) : bool :=
  match parse_time t with Some _ => true | None => false end.

Example time_ok_ex :
  time_ok zero_time = true ∧ time_ok "2024-02-29T23:59:59.123456789+08:00" = true
  ∧ time_ok "2023-02-29T00:00:00Z" = false.
Proof. repeat split; reflexivity. Qed.

Definition dec_time (j : json) (old : time) : res time :=
  match j with
  | JStr s => if time_ok s then Ok s else Fail (Errorf "parsing time")
  | JNull => Ok old
  | _ => Fail (Errorf "Time.UnmarshalJSON: input is not a JSON string")
  end.
Definition dec_time_ptr (j : json) (_ : option time) : res (option time) :=
  match j with JNull => Ok None | _ => t ← dec_time j zero_time; Ok (Some t) end.
(** [Time.MarshalJSON] fails for a time that RFC 3339 cannot express. *)
Definition enc_time (t : time) : res json :=
  if time_ok t then Ok (JStr t) else Fail (Errorf "Time.MarshalJSON").

(** * The record *)

Definition StatusCreated : string := "created".
Definition StatusRunning : string := "running".
Definition StatusStopped : string := "stopped".

Record Container := mkContainer {
  ID : string;
  Revision : Z;
  PID : Z;
  PIDStartTime : Z;
  Status : string;
  Health : string;
  RootFS : string;
  Command : slice string;
  Hostname : string;
  CreatedAt : time;
  StartedAt : option time;
  FinishedAt : option time;
  ExitCode : Z;
  Env : slice string
}.

Definition zero_container : Container :=
  mkContainer "" 0 0 0 "" "" "" None "" zero_time None None 0 None.

(** Field assignment, [c.F = x]. *)
Definition set_ID (x : string) (c : Container) : Container :=
  mkContainer x (Revision c) (PID c) (PIDStartTime c) (Status c) (Health c) (RootFS c) (Command c) (Hostname c) (CreatedAt c) (StartedAt c) (FinishedAt c) (ExitCode c) (Env c).
Definition set_Revision (x : Z) (c : Container) : Container :=
  mkContainer (ID c) x (PID c) (PIDStartTime c) (Status c) (Health c) (RootFS c) (Command c) (Hostname c) (CreatedAt c) (StartedAt c) (FinishedAt c) (ExitCode c) (Env c).
Definition set_PID (x : Z) (c : Container) : Container :=
  mkContainer (ID c) (Revision c) x (PIDStartTime c) (Status c) (Health c) (RootFS c) (Command c) (Hostname c) (CreatedAt c) (StartedAt c) (FinishedAt c) (ExitCode c) (Env c).
Definition set_PIDStartTime (x : Z) (c : Container) : Container :=
  mkContainer (ID c) (Revision c) (PID c) x (Status c) (Health c) (RootFS c) (Command c) (Hostname c) (CreatedAt c) (StartedAt c) (FinishedAt c) (ExitCode c) (Env c).
Definition set_Status (x : string) (c : Container) : Container :=
  mkContainer (ID c) (Revision c) (PID c) (PIDStartTime c) x (Health c) (RootFS c) (Command c) (Hostname c) (CreatedAt c) (StartedAt c) (FinishedAt c) (ExitCode c) (Env c).
Definition set_Health (x : string) (c : Container) : Container :=
  mkContainer (ID c) (Revision c) (PID c) (PIDStartTime c) (Status c) x (RootFS c) (Command c) (Hostname c) (CreatedAt c) (StartedAt c) (FinishedAt c) (ExitCode c) (Env c).
Definition set_RootFS (x : string) (c : Container) : Container :=
  mkContainer (ID c) (Revision c) (PID c) (PIDStartTime c) (Status c) (Health c) x (Command c) (Hostname c) (CreatedAt c) (StartedAt c) (FinishedAt c) (ExitCode c) (Env c).
Definition set_Command (x : slice string) (c : Container) : Container :=
  mkContainer (ID c) (Revision c) (PID c) (PIDStartTime c) (Status c) (Health c) (RootFS c) x (Hostname c) (CreatedAt c) (StartedAt c) (FinishedAt c) (ExitCode c) (Env c).
Definition set_Hostname (x : string) (c : Container) : Container :=
  mkContainer (ID c) (Revision c) (PID c) (PIDStartTime c) (Status c) (Health c) (RootFS c) (Command c) x (CreatedAt c) (StartedAt c) (FinishedAt c) (ExitCode c) (Env c).
Definition set_CreatedAt (x : time) (c : Container) : Container :=
  mkContainer (ID c) (Revision c) (PID c) (PIDStartTime c) (Status c) (Health c) (RootFS c) (Command c) (Hostname c) x (StartedAt c) (FinishedAt c) (ExitCode c) (Env c).
Definition set_StartedAt (x : option time) (c : Container) : Container :=
  mkContainer (ID c) (Revision c) (PID c) (PIDStartTime c) (Status c) (Health c) (RootFS c) (Command c) (Hostname c) (CreatedAt c) x (FinishedAt c) (ExitCode c) (Env c).
Definition set_FinishedAt (x : option time) (c : Container) : Container :=
  mkContainer (ID c) (Revision c) (PID c) (PIDStartTime c) (Status c) (Health c) (RootFS c) (Command c) (Hostname c) (CreatedAt c) (StartedAt c) x (ExitCode c) (Env c).
Definition set_ExitCode (x : Z) (c : Container) : Container :=
  mkContainer (ID c) (Revision c) (PID c) (PIDStartTime c) (Status c) (Health c) (RootFS c) (Command c) (Hostname c) (CreatedAt c) (StartedAt c) (FinishedAt c) x (Env c).
Definition set_Env (x : slice string) (c : Container) : Container :=
  mkContainer (ID c) (Revision c) (PID c) (PIDStartTime c) (Status c) (Health c) (RootFS c) (Command c) (Hostname c) (CreatedAt c) (StartedAt c) (FinishedAt c) (ExitCode c) x.

Definition field {A T} (dec : json → T → res T) (get : A → T) (set : T → A → A)
    : setter A := λ j a, x ← dec j (get a); Ok (set x a).

Definition dec_int64 := dec_int min_int64 max_int64.
Definition dec_uint64 := dec_int 0 max_uint64.
Definition dec_uint32 := dec_int 0 max_uint32.
Definition dec_strings : json → slice string → res (slice string) :=
  dec_slice dec_string "".

(** The fields of [Container] with their JSON names. *)
Definition container_fields : list (string * setter Container) := [
  ("id", field dec_string ID set_ID);
  ("revision", field dec_uint64 Revision set_Revision);
  ("pid", field dec_int64 PID set_PID);
  ("pid_start_time", field dec_uint64 PIDStartTime set_PIDStartTime);
  ("status", field dec_string Status set_Status);
  ("health", field dec_string Health set_Health);
  ("rootfs", field dec_string RootFS set_RootFS);
  ("command", field dec_strings Command set_Command);
  ("hostname", field dec_string Hostname set_Hostname);
  ("created_at", field dec_time CreatedAt set_CreatedAt);
  ("started_at", field dec_time_ptr StartedAt set_StartedAt);
  ("finished_at", field dec_time_ptr FinishedAt set_FinishedAt);
  ("exit_code", field dec_int64 ExitCode set_ExitCode);
  ("env", field dec_strings Env set_Env) ].

(** * container_state_schema.go *)

Definition currentContainerStateSchemaVersion : Z := 1.

(** The decoding envelope: the record and the raw schema version. *)
Definition envelope : Type := Container * option json.
Definition lift_setter (set : setter Container) : setter envelope :=
  λ j e, c ← set j (fst e); Ok (c, snd e).
Definition envelope_fields : list (string * setter envelope) :=
  ((λ kf : string * setter Container, (fst kf, lift_setter (snd kf)))
     <$> container_fields) ++
  [("state_schema_version", λ j e, Ok (fst e, Some j))].

Definition check_state_version (raw : option json) : option error :=
  match raw with
  | None => None
  | Some JNull => Some (Errorf "invalid container state schema version: null")
  | Some j =>
    match dec_uint32 j 0 with
    | Fail e => Some (Wrapf "unmarshal container state schema version: %w" e)
    | Ok v =>
      if (v =? 0)%Z then Some (Errorf "invalid container state schema version 0")
      else fail_if (negb (v =? currentContainerStateSchemaVersion)%Z)
        (Errorf "unsupported container state schema version %d (current %d)")
    end
  end.

(** [Container.UnmarshalJSON] *)
Definition Container_UnmarshalJSON (j : json) : res Container :=
  e ← decode_struct false envelope_fields j (zero_container, None);
  _ ← check (check_state_version (snd e));
  Ok (fst e).

(** * container_state_identity.go *)

Definition unmarshalContainerStateForID (data : file_data) (expectedID : string)
    : res Container :=
  j ← json_of data;
  dst ← Container_UnmarshalJSON j;
  if String.eqb (ID dst) expectedID then Ok dst
  else Fail (Errorf "container state identity mismatch: record %q contains id %q").

(** * Identifiers (state.go) *)

Definition maxContainerIDBytes : Z := 240.
Definition maxImageIdentityBytes : Z := 4096.

Definition validateID (id : string) : option error :=
  if String.eqb id "" then Some (Errorf "id cannot be empty")
  else if (maxContainerIDBytes <? len id)%Z then
    Some (Errorf "invalid id: exceeds %d bytes")
  else fail_if
    (String.eqb id "." || String.eqb id ".." ||
     contains_any id (String (chr 0) "/\:"))
    (Errorf "invalid id %q: path separators and relative components not allowed").

Definition validateImageSelector (nameOrID : string) : option error :=
  if String.eqb (trim_space nameOrID) "" then
    Some (Errorf "image name or ID cannot be empty")
  else fail_if (maxImageIdentityBytes <? len nameOrID)%Z
    (Errorf "image name or ID exceeds %d bytes").

(** * Writing a record (revision.go) *)

(** The members [json.Marshal] prints for a [Container], in field order. *)
Definition enc_time_ptr (k : string) (t : option time)
    : res (list (string * json)) :=
  match t with
  | None => Ok []
  | Some t => j ← enc_time t; Ok [(k, j)]
  end.
Definition container_members (c : Container) : res (list (string * json)) :=
  created ← enc_time (CreatedAt c);
  started ← enc_time_ptr "started_at" (StartedAt c);
  finished ← enc_time_ptr "finished_at" (FinishedAt c);
  Ok ([("id", enc_string (ID c))]
    ++ omitempty (Revision c =? 0)%Z "revision" (JInt (Revision c))
    ++ [("pid", JInt (PID c))]
    ++ omitempty (PIDStartTime c =? 0)%Z "pid_start_time" (JInt (PIDStartTime c))
    ++ [("status", enc_string (Status c))]
    ++ omitempty (String.eqb (Health c) "") "health" (enc_string (Health c))
    ++ [("rootfs", enc_string (RootFS c));
        ("command", enc_slice enc_string (Command c));
        ("hostname", enc_string (Hostname c));
        ("created_at", created)]
    ++ started ++ finished
    ++ [("exit_code", JInt (ExitCode c))]
    ++ omitempty (slice_len (Env c) =? 0)%Z "env" (enc_slice enc_string (Env c))).

#[global] Arguments utf8_coerce : simpl never.
#[global] Arguments time_ok : simpl never.
#[global] Arguments dec_int : simpl never.
#[global] Arguments max_uint64 : simpl never.
#[global] Arguments max_int64 : simpl never.
#[global] Arguments min_int64 : simpl never.

(** * Round trip *)

(** What a JSON round trip makes of a record: ill-formed UTF-8 is replaced, an
    empty environment becomes nil. *)
Definition coerce_slice (s : slice string) : slice string :=
  option_map (fmap utf8_coerce) s.
Definition persisted (c : Container) : Container :=
  mkContainer (utf8_coerce (ID c)) (Revision c) (PID c) (PIDStartTime c)
    (utf8_coerce (Status c)) (utf8_coerce (Health c)) (utf8_coerce (RootFS c))
    (coerce_slice (Command c)) (utf8_coerce (Hostname c))
    (CreatedAt c) (StartedAt c) (FinishedAt c) (ExitCode c)
    (if (slice_len (Env c) =? 0)%Z then None else coerce_slice (Env c)).

(** The integer fields fit their Go types. *)
Definition in_int64 (z : Z) : Prop := min_int64 ≤ z ≤ max_int64.
Definition in_uint64 (z : Z) : Prop := 0 ≤ z ≤ max_uint64.
Definition container_ranges (c : Container) : Prop :=
  in_uint64 (Revision c) ∧ in_int64 (PID c) ∧ in_uint64 (PIDStartTime c) ∧
  in_int64 (ExitCode c).

Lemma decode_app_Ok {A} s (fs : list (string * setter A)) l1 l2 a a' :
  decode_members s fs l1 a = Ok a' →
  decode_members s fs (l1 ++ l2) a = decode_members s fs l2 a'.
Proof. intros H. by rewrite decode_members_app, H. Qed.

Lemma decode_cons_Ok {A} s (fs : list (string * setter A)) x l a a' :
  decode_members s fs [x] a = Ok a' →
  decode_members s fs (x :: l) a = decode_members s fs l a'.
Proof. apply (decode_app_Ok s fs [x]). Qed.

Lemma dec_enc_strings l old :
  dec_strings (enc_slice enc_string l) old = Ok (coerce_slice l).
Proof.
  destruct l as [l|]; [|done]. cbn.
  assert (H : dec_list dec_string "" (enc_string <$> l) = Ok (utf8_coerce <$> l)).
  { induction l as [|x l IH]; [done|]. cbn. rewrite utf8_coerce_idemp.
    change (list_fmap _ _ enc_string l) with (enc_string <$> l). by rewrite IH. }
  change (list_fmap _ _ enc_string l) with (enc_string <$> l). by rewrite H.
Qed.

Lemma enc_time_Ok t j : enc_time t = Ok j → j = JStr t ∧ time_ok t = true.
Proof. unfold enc_time. destruct (time_ok t); naive_solver. Qed.

(** Puts a chain of field assignments into constructor form. *)
Ltac fields_norm :=
  cbv beta iota delta [zero_container ID Revision PID PIDStartTime Status Health RootFS Command Hostname CreatedAt StartedAt FinishedAt ExitCode Env set_ID set_Revision set_PID set_PIDStartTime set_Status set_Health set_RootFS set_Command set_Hostname set_CreatedAt set_StartedAt set_FinishedAt set_ExitCode set_Env].

Section decode_parts.
Context {T : Type} (k : string) (dec : json → T → res T).
Context (get : Container → T) (set : T → Container → Container).
Hypothesis Hk :
  find_field envelope_fields k = Some (lift_setter (field dec get set)).

Lemma decode_part v x c r :
  dec v (get c) = Ok x →
  decode_members false envelope_fields [(k, v)] (c, r) = Ok (set x c, r).
Proof.
  intros Hd. cbn [decode_members]. rewrite Hk. unfold lift_setter, field.
  cbn [fst snd]. by rewrite Hd.
Qed.

Lemma decode_omitempty (empty : bool) v x c r :
  (empty = true → set x c = c) → (empty = false → dec v (get c) = Ok x) →
  decode_members false envelope_fields (omitempty empty k v) (c, r)
  = Ok (set x c, r).
Proof.
  intros Ht Hf. destruct empty; cbn [omitempty].
  - by rewrite Ht.
  - by apply decode_part, Hf.
Qed.
End decode_parts.

Lemma decode_time_ptr k (get : Container → option time) set t l c r :
  find_field envelope_fields k = Some (lift_setter (field dec_time_ptr get set)) →
  enc_time_ptr k t = Ok l → (set None c = c) →
  decode_members false envelope_fields l (c, r) = Ok (set t c, r).
Proof.
  intros Hk Hl Hc. destruct t as [t|]; cbn in Hl; [|by injection Hl as <-; cbn; rewrite Hc].
  destruct (enc_time t) as [j|] eqn:Ht; [|done]. injection Hl as <-.
  apply enc_time_Ok in Ht as [-> Ht].
  eapply decode_part; [done|]. cbn. by rewrite Ht.
Qed.

Lemma container_members_decode c l :
  container_ranges c → container_members c = Ok l →
  decode_members false envelope_fields l (zero_container, None)
  = Ok (persisted c, None).
Proof.
  destruct c as [id rev pid pst status health rootfs command hostname created_at
    started_at finished_at exit_code env].
  intros (Hr & Hp & Hs & He) Hl. unfold container_members in Hl.
  fields_norm.
  cbn [ID Revision PID PIDStartTime Status Health RootFS Command Hostname
    CreatedAt StartedAt FinishedAt ExitCode Env] in Hr, Hp, Hs, He, Hl.
  destruct (enc_time created_at) as [created|] eqn:Hct; [|done].
  destruct (enc_time_ptr "started_at" _) as [started|] eqn:Hst; [|done].
  destruct (enc_time_ptr "finished_at" _) as [finished|] eqn:Hfi; [|done].
  cbv beta iota delta [mbind res_bind] in Hl. apply (inj Ok) in Hl as <-.
  apply enc_time_Ok in Hct as [-> Hct].
  fields_norm. erewrite (decode_app_Ok _ _ [("id", _)])
    by (eapply decode_part; [reflexivity|apply dec_enc_string]).
  fields_norm. erewrite (decode_app_Ok _ _ (omitempty _ "revision" _)).
  2: { eapply (decode_omitempty "revision" _ _ _ eq_refl _ _ rev).
       - intros H%Z.eqb_eq. rewrite H. reflexivity.
       - intros _. by apply dec_int_in. }
  fields_norm. erewrite (decode_app_Ok _ _ [("pid", _)])
    by (eapply decode_part; [reflexivity|by apply dec_int_in]).
  fields_norm. erewrite (decode_app_Ok _ _ (omitempty _ "pid_start_time" _)).
  2: { eapply (decode_omitempty "pid_start_time" _ _ _ eq_refl _ _ pst).
       - intros H%Z.eqb_eq. rewrite H. reflexivity.
       - intros _. by apply dec_int_in. }
  fields_norm. erewrite (decode_app_Ok _ _ [("status", _)])
    by (eapply decode_part; [reflexivity|apply dec_enc_string]).
  fields_norm. erewrite (decode_app_Ok _ _ (omitempty _ "health" _)).
  2: { eapply (decode_omitempty "health" _ _ _ eq_refl _ _ (utf8_coerce health)).
       - intros H%String.eqb_eq. rewrite H. reflexivity.
       - intros _. apply dec_enc_string. }
  fields_norm. erewrite (decode_app_Ok _ _ [("rootfs", _); _; _; _]).
  2: { erewrite decode_cons_Ok
         by (eapply decode_part; [reflexivity|apply dec_enc_string]).
       erewrite decode_cons_Ok
         by (eapply decode_part; [reflexivity|apply dec_enc_strings]).
       erewrite decode_cons_Ok
         by (eapply decode_part; [reflexivity|apply dec_enc_string]).
       eapply decode_part; [reflexivity|]. cbn. by rewrite Hct. }
  fields_norm. erewrite (decode_app_Ok _ _ started)
    by (eapply decode_time_ptr; [|exact Hst|]; reflexivity).
  fields_norm. erewrite (decode_app_Ok _ _ finished)
    by (eapply decode_time_ptr; [|exact Hfi|]; reflexivity).
  fields_norm. erewrite (decode_app_Ok _ _ [("exit_code", _)])
    by (eapply decode_part; [reflexivity|by apply dec_int_in]).
  fields_norm. erewrite (decode_omitempty "env" _ _ _ eq_refl _ _
    (if (slice_len env =? 0)%Z then None else coerce_slice env)).
  - unfold persisted. reflexivity.
  - intros H. rewrite H. reflexivity.
  - intros H. rewrite H. apply dec_enc_strings.
Qed.
