(* ===== verification/Net.v ===== *)
(** Go's [net] package as far as the runtime uses it: [net.ParseIP],
    [IP.String], [net.ParseCIDR] and the byte arithmetic on [net.IP] and
    [net.IPMask].  Addresses are byte lists: 4 bytes for an IPv4 address in
    short form, 16 bytes as [ParseIP] returns them. *)
From S2P Require Import Prelude GoStrings Json.

Definition ip : Type := list Z.

(** * Parsing *)

(** One decimal field of an IPv4 address: no sign, no leading zero, at most
    255. *)
Definition parse_octet (s : string) : option Z :=
  match s with
  | String "0"%char (String _ _) => None
  | _ => parse_uint 255 s
  end.

Definition parse_ipv4 (s : string) : option ip :=
  match str_split "."%char s with
  | [a; b; c; d] =>
    a ← parse_octet a; b ← parse_octet b; c ← parse_octet c; d ← parse_octet d;
    Some [a; b; c; d]
  | _ => None
  end.

Definition hex_val (c : Ascii.ascii) : option Z :=
  let n := Z.of_N (byte_val c) in
  if is_digit c then Some (n - 48)
  else if byte_in 97 102 c then Some (n - 87)
  else if byte_in 65 70 c then Some (n - 55)
  else None.

(** The hexadecimal digits at the start of [s]: their number, their value and
    the rest. *)
Fixpoint take_hex (s : string) (off acc : Z) : Z * Z * string :=
  match s with
  | String c s' =>
    match hex_val c with
    | Some v => take_hex s' (off + 1) (acc * 16 + v)
    | None => (off, acc, s)
    end
  | "" => (off, acc, s)
  end.

(** The loop of [netip.parseIPv6]: [i] bytes are parsed (into [bytes]),
    [ellipsis] is the position of a "::".  The fuel is the eight groups of an
    address. *)
Fixpoint parse_ipv6_loop (fuel : nat) (i : Z) (bytes : ip) (ellipsis : option Z)
    (s : string) : option (ip * option Z * string) :=
  match fuel with
  | O => Some (bytes, ellipsis, s)
  | S fuel =>
    let '(off, acc, r) := take_hex s 0 0 in
    if (off =? 0)%Z || (4 <? off)%Z then None
    else match r with
    | String "."%char _ =>
      match ellipsis with
      | None => if (i =? 12)%Z then b ← parse_ipv4 s; Some (bytes ++ b, None, "")
                else None
      | Some _ => if (16 <? i + 4)%Z then None
                  else b ← parse_ipv4 s; Some (bytes ++ b, ellipsis, "")
      end
    | "" => Some (bytes ++ [acc / 256; acc mod 256], ellipsis, "")
    | String ":"%char "" => None
    | String ":"%char (String ":"%char r') =>
      match ellipsis with
      | Some _ => None
      | None =>
        let bytes := bytes ++ [acc / 256; acc mod 256] in
        match r' with
        | "" => Some (bytes, Some (i + 2), "")
        | _ => parse_ipv6_loop fuel (i + 2) bytes (Some (i + 2)) r'
        end
      end
    | String ":"%char r' =>
      parse_ipv6_loop fuel (i + 2) (bytes ++ [acc / 256; acc mod 256]) ellipsis r'
    | _ => None
    end
  end.

Definition parse_ipv6 (s : string) : option ip :=
  let start :=
    match s with
    | String ":"%char (String ":"%char r) => (Some 0, r)
    | _ => (None, s)
    end in
  match start with
  | (Some _, "") => Some (replicate 16 0)
  | (ell, r) =>
    '(bytes, ell, rest) ← parse_ipv6_loop 8 0 [] ell r;
    let n := length bytes in
    if negb (String.eqb rest "") then None
    else match ell with
    | None => if (n =? 16)%nat then Some bytes else None
    | Some e =>
      if (n <? 16)%nat then
        Some (take (Z.to_nat e) bytes ++ replicate (16 - n) 0
              ++ drop (Z.to_nat e) bytes)
      else None
    end
  end.

Definition v4_prefix : ip := replicate 10 0 ++ [255; 255].

Fixpoint first_of (s : string) : option Ascii.ascii :=
  match s with
  | "" => None
  | String c s' =>
    if bool_decide (c = "."%char) || bool_decide (c = ":"%char) ||
       bool_decide (c = "%"%char) then Some c else first_of s'
  end.

(** [net.ParseIP]: 16 bytes, or nil; a zone is refused. *)
Definition ParseIP (s : string) : option ip :=
  match first_of s with
  | Some "."%char => b ← parse_ipv4 s; Some (v4_prefix ++ b)
  | Some ":"%char => if contains_byte s "%"%char then None else parse_ipv6 s
  | _ => None
  end.

Example ParseIP_ex :
  ParseIP "10.0.0.7" = Some (v4_prefix ++ [10; 0; 0; 7]) ∧
  ParseIP "10.0.0.07" = None ∧ ParseIP "10.0.0" = None ∧
  ParseIP "::1" = Some (replicate 15 0 ++ [1]) ∧
  ParseIP "fe80::1%eth0" = None ∧
  ParseIP "2001:db8::a:0" =
    Some [32; 1; 13; 184; 0; 0; 0; 0; 0; 0; 0; 0; 0; 10; 0; 0] ∧
  ParseIP "::ffff:1.2.3.4" = Some (v4_prefix ++ [1; 2; 3; 4]) ∧
  ParseIP "1:2:3:4:5:6:7::" =
    Some [0; 1; 0; 2; 0; 3; 0; 4; 0; 5; 0; 6; 0; 7; 0; 0] ∧
  ParseIP "1::2::3" = None ∧ ParseIP "12345::" = None.
Proof. repeat split; vm_compute; reflexivity. Qed.

(** * Printing *)

(** [IP.To4] *)
Definition To4 (a : ip) : option ip :=
  if (length a =? 4)%nat then Some a
  else if (length a =? 16)%nat && bool_decide (take 12 a = v4_prefix)
  then Some (drop 12 a) else None.

Definition hex_lower (z : Z) : Ascii.ascii := hex_digit (Z.to_N z).
(** Lower-case hexadecimal without leading zeros. *)
Definition hex16 (z : Z) : string :=
  let d i := (z / 16 ^ i) mod 16 in
  let l := [d 3; d 2; d 1; d 0] in
  foldr (λ x t, String (hex_lower x) t) ""
    (match drop_while (Z.eqb 0) l with [] => [0] | l => l end).

Fixpoint groups (a : ip) : list Z :=
  match a with x :: y :: a => (x * 256 + y) :: groups a | _ => [] end.

Fixpoint zero_run (l : list Z) : nat :=
  match l with 0 :: l => S (zero_run l) | _ => O end.
(** The first longest run of at least two zero groups: its start and
    length. *)
Fixpoint best_run (i : nat) (l : list Z) : option (nat * nat) :=
  match l with
  | [] => None
  | _ :: l' =>
    let here := zero_run l in
    match best_run (S i) l' with
    | Some (j, n) => if (n <=? here)%nat && (2 <=? here)%nat
                     then Some (i, here) else Some (j, n)
    | None => if (2 <=? here)%nat then Some (i, here) else None
    end
  end.

(** [IP.String] for an address of 4 or 16 bytes. *)
Definition ip_string (a : ip) : string :=
  match To4 a with
  | Some b => str_join "." (pretty <$> b)
  | None =>
    let g := groups a in
    match best_run 0 g with
    | None => str_join ":" (hex16 <$> g)
    | Some (i, n) =>
      str_join ":" (hex16 <$> take i g) +:+ "::" +:+
      str_join ":" (hex16 <$> drop (i + n) g)
    end
  end.

Example ip_string_ex :
  (ip_string <$> ParseIP "010:0:0:1::") = Some "10:0:0:1::" ∧
  (ip_string <$> ParseIP "::ffff:10.1.2.3") = Some "10.1.2.3" ∧
  (ip_string <$> ParseIP "0:0:0:0:0:0:0:0") = Some "::" ∧
  (ip_string <$> ParseIP "2001:DB8::1") = Some "2001:db8::1".
Proof. repeat split; vm_compute; reflexivity. Qed.

(** * Networks *)

Record IPNet := mkIPNet { net_IP : ip; net_Mask : list Z }.

(** [net.CIDRMask] *)
Definition mask_byte (ones : Z) (k : nat) : Z :=
  let r := ones - 8 * Z.of_nat k in
  if 8 <=? r then 255 else if r <=? 0 then 0 else 256 - 2 ^ (8 - r).
Definition CIDRMask (ones : Z) (bytes : nat) : list Z :=
  mask_byte ones <$> seq 0 bytes.

(** The ones of a mask, where they are leading ones only. *)
Definition leading_ones (b : Z) : option Z :=
  match find (λ n, b =? 256 - 2 ^ (8 - n)) [0; 1; 2; 3; 4; 5; 6; 7; 8] with
  | Some n => Some n
  | None => None
  end.
Fixpoint simpleMaskLength (m : list Z) : option Z :=
  match m with
  | [] => Some 0
  | b :: m =>
    if b =? 255 then n ← simpleMaskLength m; Some (8 + n)
    else n ← leading_ones b; if forallb (Z.eqb 0) m then Some n else None
  end.
(** [IPMask.Size] *)
Definition mask_Size (m : list Z) : Z * Z :=
  match simpleMaskLength m with
  | Some n => (n, 8 * Z.of_nat (length m))
  | None => (0, 0)
  end.

Definition mask_ip (a : ip) (m : list Z) : ip :=
  let a := if (length m =? 4)%nat then default a (To4 a) else a in
  zip_with Z.land a m.

(** [dtoi]: a decimal number over the whole string, less than 0xFFFFFF. *)
Definition dtoi (s : string) : option Z :=
  match s with
  | "" => None
  | _ => v ← parse_digits 0 s; if v <? 16777215 then Some v else None
  end.

Fixpoint cut_byte (c : Ascii.ascii) (s : string) : option (string * string) :=
  match s with
  | "" => None
  | String d s =>
    if bool_decide (d = c) then Some ("", s)
    else '(a, b) ← cut_byte c s; Some (String d a, b)
  end.

(** [net.ParseCIDR]: its network. An address in dotted form has 32 bits, any
    other (also an IPv4-mapped one) 128. *)
Definition ParseCIDR (s : string) : option IPNet :=
  '(addr, mask) ← cut_byte "/"%char s;
  a ← ParseIP addr;
  let bytes := match first_of addr with Some "."%char => 4%nat | _ => 16%nat end in
  n ← dtoi mask;
  if 8 * Z.of_nat bytes <? n then None
  else let m := CIDRMask n bytes in Some (mkIPNet (mask_ip a m) m).

(** [networkNumberAndMask] *)
Definition network_number_and_mask (n : IPNet) : option (ip * list Z) :=
  let number := default (net_IP n) (To4 (net_IP n)) in
  let m := net_Mask n in
  if (length number =? length m)%nat then Some (number, m)
  else if (length number =? 4)%nat && (length m =? 16)%nat then Some (number, drop 12 m)
  else None.

Definition IPNet_String (n : IPNet) : string :=
  match network_number_and_mask n with
  | None => "<nil>"
  | Some (nn, m) =>
    match simpleMaskLength m with
    | Some l => ip_string nn +:+ "/" +:+ pretty l
    | None => ip_string nn +:+ "/" +:+ foldr (λ b t, hex_byte (chr (Z.to_N b)) +:+ t) "" m
    end
  end.

(** [IPNet.Contains] *)
Fixpoint same_masked (nn m a : list Z) : bool :=
  match nn, m, a with
  | [], _, [] => true
  | x :: nn, y :: m, z :: a => (Z.land x y =? Z.land z y) && same_masked nn m a
  | _, _, _ => false
  end.
Definition Contains (n : IPNet) (a : ip) : bool :=
  match network_number_and_mask n with
  | None => false
  | Some (nn, m) => same_masked nn m (default a (To4 a))
  end.

(** [IP.Equal] *)
Definition IP_Equal (a b : ip) : bool :=
  bool_decide (a = b) ||
  bool_decide (length a = 4%nat ∧ b = v4_prefix ++ a) ||
  bool_decide (length b = 4%nat ∧ a = v4_prefix ++ b).

(** [incIP] (ipam.go): the next address, in the bytes from last to first; the
    carry of the first byte is lost. *)
Fixpoint inc_bytes (a : list Z) : bool * list Z :=
  match a with
  | [] => (true, [])
  | b :: a =>
    let '(carry, a) := inc_bytes a in
    if carry then if b =? 255 then (true, 0 :: a) else (false, b + 1 :: a)
    else (false, b :: a)
  end.
Definition incIP (a : ip) : ip := snd (inc_bytes a).

Example ParseCIDR_ex :
  (IPNet_String <$> ParseCIDR "172.20.3.9/22") = Some "172.20.0.0/22" ∧
  (IPNet_String <$> ParseCIDR "2001:db8::ffff/64") = Some "2001:db8::/64" ∧
  (IPNet_String <$> ParseCIDR "::ffff:10.0.0.9/126") = Some "10.0.0.8/30" ∧
  ParseCIDR "10.0.0.0/33" = None ∧ ParseCIDR "10.0.0.0" = None ∧
  incIP [10; 0; 0; 255] = [10; 0; 1; 0] ∧ incIP [255; 255] = [0; 0].
Proof. repeat split; vm_compute; reflexivity. Qed.
