(* ===== verification/Ownership.v ===== *)
(** The durable sidecars of a container: the exited process identity
    (exit_identity.go), the cgroup ownership proof (cgroup_ownership.go) and the
    network ownership proof (network_ownership.go); their validation, encoding
    and decoding, and their files. *)
From S2P Require Import Prelude GoStrings Json Fs FsLogic Container Net.

Open Scope go_scope.

(** * Exited process identity *)

Record exitedIdentity := mkIdentity { xi_PID : Z; xi_PIDStartTime : Z }.
#[export] Instance exitedIdentity_eq_dec : EqDecision exitedIdentity.
Proof. solve_decision. Defined.
Definition zero_identity : exitedIdentity := mkIdentity 0 0.

Definition validateExitedIdentity (identity : exitedIdentity) : option error :=
  fail_if ((xi_PID identity <=? 0)%Z || (xi_PIDStartTime identity =? 0)%Z)
    (Errorf "invalid persisted exited process identity %d/%d").

Definition identity_fields : list (string * setter exitedIdentity) := [
  ("pid", field dec_int64 xi_PID (λ x i, mkIdentity x (xi_PIDStartTime i)));
  ("pid_start_time",
    field dec_uint64 xi_PIDStartTime (λ x i, mkIdentity (xi_PID i) x)) ].
Definition identity_json (i : exitedIdentity) : json :=
  JObj [("pid", JInt (xi_PID i)); ("pid_start_time", JInt (xi_PIDStartTime i))].
Definition decode_identity (j : json) : res exitedIdentity :=
  decode_struct false identity_fields j zero_identity.

Definition exitedIdentityPath (id : string) : path := (DCtr, id +:+ ".exit").
Definition exitedIdentityRequiredPath (id : string) : path :=
  (DCtr, id +:+ ".exit-required").
Definition containerPath (id : string) : path := (DCtr, id +:+ ".json").

Definition writeExitedIdentityUnlocked (id : string) (pid pidStartTime : Z)
    : M unit :=
  ensure (validateID id);;
  let identity := mkIdentity pid pidStartTime in
  ensure (validateExitedIdentity identity);;
  wrapm "persist exited process identity: %w"
    (atomicWriteFile (exitedIdentityPath id) (FJson false (identity_json identity))).

(** [os.IsNotExist(err)] after a read: the absent file is no error. *)
Definition read_optional (msg : string) (p : path) : M (option file_data) :=
  r ← attempt (readRegularStateFile p);
  match r with
  | Ok data => mret (Some data)
  | Fail e => if errors_Is e ErrNotExist then mret None else throw (Wrapf msg e)
  end.

Definition readExitedIdentityUnlocked (id : string) : M (option exitedIdentity) :=
  ensure (validateID id);;
  data ← read_optional "read exited process identity: %w" (exitedIdentityPath id);
  match data with
  | None => mret None
  | Some data =>
    identity ← lift (wrapf "unmarshal exited process identity: %w"
      (j ← json_of data; decode_identity j));
    ensure (validateExitedIdentity identity);;
    mret (Some identity)
  end.

Definition exitedIdentityRequiredUnlocked (id : string) : M bool :=
  ensure (validateID id);;
  data ← read_optional "read exited identity requirement: %w"
           (exitedIdentityRequiredPath id);
  match data with
  | None => mret false
  | Some data =>
    ensure (fail_if (negb (String.eqb (data_text data) ("1" +:+ str1 (chr 10))))
      (Errorf "invalid persisted exited identity requirement"));;
    mret true
  end.

Definition clearExitedIdentityUnlocked (id : string) : M unit :=
  ensure (validateID id);;
  removeStateFileDurable (exitedIdentityPath id) "exited process identity".

(** * Cgroup ownership *)

Definition cgroupOwnershipSchemaVersion : Z := 1.

Record CgroupOwnership := mkCgroup {
  cg_Name : string; cg_PID : Z; cg_PIDStartTime : Z }.
#[export] Instance CgroupOwnership_eq_dec : EqDecision CgroupOwnership.
Proof. solve_decision. Defined.

Definition cgroupOwnershipPath (id : string) : path := (DCtr, id +:+ ".cgroup").

Definition cgroup_name_char (c : Ascii.ascii) : bool :=
  is_alnum c || bool_decide (c = "-"%char) || bool_decide (c = "_"%char) ||
  bool_decide (c = "."%char).

Definition validatePersistedCgroupName (name : string) : option error :=
  if String.eqb name "" then Some (Errorf "cgroup name must not be empty")
  else if (255 <? len name)%Z then Some (Errorf "cgroup name exceeds 255 bytes")
  else if negb (str_forallb cgroup_name_char name) then
    Some (Errorf "cgroup name %q contains invalid character %q")
  else fail_if (String.eqb name "." || String.eqb name "..")
    (Errorf "invalid cgroup name %q").

Definition validateCgroupOwnership (o : CgroupOwnership) : option error :=
  validatePersistedCgroupName (cg_Name o) >>!
  fail_if ((cg_PID o <=? 0)%Z || (cg_PIDStartTime o =? 0)%Z)
    (Errorf "invalid cgroup process identity %d/%d").

(** [persistedCgroupOwnership] as [json.Marshal] prints it. *)
Definition cgroup_json (id : string) (o : CgroupOwnership) : json :=
  JObj [("schema_version", JInt cgroupOwnershipSchemaVersion);
        ("container_id", enc_string id);
        ("name", enc_string (cg_Name o));
        ("pid", JInt (cg_PID o));
        ("pid_start_time", JInt (cg_PIDStartTime o))].

(** A decoded ownership envelope: raw provenance fields and the payload. *)
Record owner_envelope (A : Type) := mkOwnerEnvelope {
  env_SchemaVersion : option json; env_ContainerID : option json; env_body : A }.
Arguments mkOwnerEnvelope {_}.
Arguments env_SchemaVersion {_}. Arguments env_ContainerID {_}.
Arguments env_body {_}.

Definition owner_envelope_fields {A} (body : list (string * setter A))
    : list (string * setter (owner_envelope A)) :=
  [("schema_version", λ j e, Ok (mkOwnerEnvelope (Some j) (env_ContainerID e) (env_body e)));
   ("container_id", λ j e, Ok (mkOwnerEnvelope (env_SchemaVersion e) (Some j) (env_body e)))]
  ++ ((λ kf : string * setter A, (fst kf, λ j e,
        b ← snd kf j (env_body e);
        Ok (mkOwnerEnvelope (env_SchemaVersion e) (env_ContainerID e) b))) <$> body).

(** The provenance check shared (textually) by [decodeCgroupOwnership] and
    [decodeNetworkOwnership]; [version] is the supported schema version. *)
Definition check_provenance (version : Z) (id : string)
    (schemaVersion containerID : option json) : option error :=
  match schemaVersion, containerID with
  | None, None => None
  | Some sv, Some cid =>
    match dec_int64 sv 0 with
    | Fail e => Some (Wrapf "invalid persisted ownership schema_version: %w" e)
    | Ok v =>
      if negb (v =? version)%Z then
        Some (Errorf "unsupported persisted ownership schema_version %d")
      else match dec_string cid "" with
      | Fail e => Some (Wrapf "invalid persisted ownership container_id: %w" e)
      | Ok c =>
        wrap_err "invalid persisted ownership container_id: %w" (validateID c) >>!
        fail_if (negb (String.eqb c id))
          (Errorf "ownership storage key %q does not match persisted container_id %q")
      end
    end
  | _, _ => Some (Errorf
      "invalid persisted ownership provenance: schema_version and container_id must both be present")
  end.

Definition zero_cgroup : CgroupOwnership := mkCgroup "" 0 0.
Definition cgroup_fields : list (string * setter CgroupOwnership) := [
  ("name", field dec_string cg_Name (λ x o, mkCgroup x (cg_PID o) (cg_PIDStartTime o)));
  ("pid", field dec_int64 cg_PID (λ x o, mkCgroup (cg_Name o) x (cg_PIDStartTime o)));
  ("pid_start_time",
    field dec_uint64 cg_PIDStartTime (λ x o, mkCgroup (cg_Name o) (cg_PID o) x)) ].

Definition decodeCgroupOwnership (id : string) (data : file_data)
    : res CgroupOwnership :=
  envelope ← wrapf "unmarshal cgroup ownership: %w"
    (j ← json_of data;
     decode_struct false (owner_envelope_fields cgroup_fields) j
       (mkOwnerEnvelope None None zero_cgroup));
  _ ← check (check_provenance cgroupOwnershipSchemaVersion id
        (env_SchemaVersion envelope) (env_ContainerID envelope));
  let ownership := env_body envelope in
  _ ← check (wrap_err "invalid persisted cgroup ownership: %w"
        (validateCgroupOwnership ownership));
  Ok ownership.

Definition writeCgroupOwnershipUnlocked (id : string) (ownership : CgroupOwnership)
    : M unit :=
  ensure (validateID id);;
  ensure (validateCgroupOwnership ownership);;
  atomicWriteFile (cgroupOwnershipPath id) (FJson false (cgroup_json id ownership)).

Definition readCgroupOwnershipUnlocked (id : string) : M (option CgroupOwnership) :=
  ensure (validateID id);;
  data ← read_optional "read cgroup ownership: %w" (cgroupOwnershipPath id);
  match data with
  | None => mret None
  | Some data => o ← lift (decodeCgroupOwnership id data); mret (Some o)
  end.

Definition clearCgroupOwnershipUnlocked (id : string) : M unit :=
  ensure (validateID id);;
  removeStateFileDurable (cgroupOwnershipPath id) "cgroup ownership".

(** * Network ownership *)

Definition networkOwnershipSchemaVersion : Z := 1.

Record PortForwardingOwnership := mkPortForwarding {
  pf_HostPort : Z; pf_ContainerPort : Z; pf_ContainerIP : string;
  pf_Protocol : string }.
#[export] Instance PortForwardingOwnership_eq_dec :
  EqDecision PortForwardingOwnership.
Proof. solve_decision. Defined.

Record NetworkOwnership := mkNetwork {
  no_Owner : string; no_PID : Z; no_PIDStartTime : Z; no_VethHost : string;
  no_Mappings : slice PortForwardingOwnership }.
#[export] Instance NetworkOwnership_eq_dec : EqDecision NetworkOwnership.
Proof. solve_decision. Defined.

Definition networkOwnershipPath (id : string) : path := (DCtr, id +:+ ".network").

(** The rune loop accepts ASCII only, so it is a byte loop. *)
Definition validateNetworkOwner (owner : string) : option error :=
  if negb (has_prefix owner "minicontainer:") then
    Some (Errorf "invalid network owner %q")
  else if (len owner <=? len "minicontainer:")%Z || (128 <? len owner)%Z then
    Some (Errorf "invalid network owner length %d")
  else fail_if (negb (str_forallb cgroup_name_char
                        (str_drop (String.length "minicontainer:") owner)))
    (Errorf "invalid network owner character %q").

Definition veth_char (c : Ascii.ascii) : bool := is_lower c || byte_in 50 55 c.
Definition validateNetworkVethHost (name : string) : option error :=
  if negb (len name =? 15)%Z || negb (has_prefix name "vh") then
    Some (Errorf "invalid network veth host %q")
  else fail_if (negb (str_forallb veth_char (str_drop 2 name)))
    (Errorf "invalid network veth host %q").

Definition validatePortForwardingOwnership (m : PortForwardingOwnership)
    : option error :=
  if (pf_HostPort m <? 1)%Z || (65535 <? pf_HostPort m)%Z ||
     (pf_ContainerPort m <? 1)%Z || (65535 <? pf_ContainerPort m)%Z then
    Some (Errorf "invalid port mapping %d:%d")
  else match ParseIP (pf_ContainerIP m) with
  | None => Some (Errorf "invalid container IP %q")
  | Some _ => fail_if (negb (String.eqb (pf_Protocol m) "tcp") &&
                       negb (String.eqb (pf_Protocol m) "udp"))
      (Errorf "invalid port protocol %q")
  end.

(** The key of the [seen] map: host port and protocol. *)
Definition ingress_key (m : PortForwardingOwnership) : string :=
  pretty (pf_HostPort m) +:+ "/" +:+ pf_Protocol m.
Fixpoint validate_mappings (seen : gset string) (l : list PortForwardingOwnership)
    : option error :=
  match l with
  | [] => None
  | m :: l =>
    validatePortForwardingOwnership m >>!
    if decide (ingress_key m ∈ seen)
    then Some (Errorf "duplicate network host ingress %s")
    else validate_mappings ({[ingress_key m]} ∪ seen) l
  end.

Definition validateNetworkOwnership (o : NetworkOwnership) : option error :=
  validateNetworkOwner (no_Owner o) >>!
  fail_if ((no_PID o <=? 0)%Z || (no_PIDStartTime o =? 0)%Z)
    (Errorf "invalid network process identity %d/%d") >>!
  (if String.eqb (no_VethHost o) "" then None
   else validateNetworkVethHost (no_VethHost o)) >>!
  fail_if (String.eqb (no_VethHost o) "" && (slice_len (no_Mappings o) =? 0)%Z)
    (Errorf "network ownership has no resources") >>!
  fail_if (256 <? slice_len (no_Mappings o))%Z
    (Errorf "network ownership has too many port mappings: %d") >>!
  validate_mappings ∅ (slice_list (no_Mappings o)).

Definition mapping_json (m : PortForwardingOwnership) : json :=
  JObj [("host_port", JInt (pf_HostPort m));
        ("container_port", JInt (pf_ContainerPort m));
        ("container_ip", enc_string (pf_ContainerIP m));
        ("protocol", enc_string (pf_Protocol m))].
Definition network_json (id : string) (o : NetworkOwnership) : json :=
  JObj ([("schema_version", JInt networkOwnershipSchemaVersion);
         ("container_id", enc_string id);
         ("owner", enc_string (no_Owner o));
         ("pid", JInt (no_PID o));
         ("pid_start_time", JInt (no_PIDStartTime o))]
    ++ omitempty (String.eqb (no_VethHost o) "") "veth_host"
         (enc_string (no_VethHost o))
    ++ [("mappings", enc_slice mapping_json (no_Mappings o))]).

Definition zero_mapping : PortForwardingOwnership := mkPortForwarding 0 0 "" "".
Definition mapping_fields : list (string * setter PortForwardingOwnership) := [
  ("host_port", field dec_int64 pf_HostPort (λ x m,
     mkPortForwarding x (pf_ContainerPort m) (pf_ContainerIP m) (pf_Protocol m)));
  ("container_port", field dec_int64 pf_ContainerPort (λ x m,
     mkPortForwarding (pf_HostPort m) x (pf_ContainerIP m) (pf_Protocol m)));
  ("container_ip", field dec_string pf_ContainerIP (λ x m,
     mkPortForwarding (pf_HostPort m) (pf_ContainerPort m) x (pf_Protocol m)));
  ("protocol", field dec_string pf_Protocol (λ x m,
     mkPortForwarding (pf_HostPort m) (pf_ContainerPort m) (pf_ContainerIP m) x)) ].

Definition zero_network : NetworkOwnership := mkNetwork "" 0 0 "" None.
Definition network_fields : list (string * setter NetworkOwnership) := [
  ("owner", field dec_string no_Owner (λ x o,
     mkNetwork x (no_PID o) (no_PIDStartTime o) (no_VethHost o) (no_Mappings o)));
  ("pid", field dec_int64 no_PID (λ x o,
     mkNetwork (no_Owner o) x (no_PIDStartTime o) (no_VethHost o) (no_Mappings o)));
  ("pid_start_time", field dec_uint64 no_PIDStartTime (λ x o,
     mkNetwork (no_Owner o) (no_PID o) x (no_VethHost o) (no_Mappings o)));
  ("veth_host", field dec_string no_VethHost (λ x o,
     mkNetwork (no_Owner o) (no_PID o) (no_PIDStartTime o) x (no_Mappings o)));
  ("mappings", field
     (dec_slice (decode_struct false mapping_fields) zero_mapping)
     no_Mappings (λ x o,
     mkNetwork (no_Owner o) (no_PID o) (no_PIDStartTime o) (no_VethHost o) x)) ].

Definition decodeNetworkOwnership (id : string) (data : file_data)
    : res NetworkOwnership :=
  envelope ← wrapf "unmarshal network ownership: %w"
    (j ← json_of data;
     decode_struct false (owner_envelope_fields network_fields) j
       (mkOwnerEnvelope None None zero_network));
  _ ← check (check_provenance networkOwnershipSchemaVersion id
        (env_SchemaVersion envelope) (env_ContainerID envelope));
  let ownership := env_body envelope in
  _ ← check (wrap_err "invalid persisted network ownership: %w"
        (validateNetworkOwnership ownership));
  Ok ownership.

Definition writeNetworkOwnershipUnlocked (id : string) (ownership : NetworkOwnership)
    : M unit :=
  ensure (validateID id);;
  ensure (validateNetworkOwnership ownership);;
  atomicWriteFile (networkOwnershipPath id)
    (FJson false (network_json id ownership)).

Definition readNetworkOwnershipUnlocked (id : string) : M (option NetworkOwnership) :=
  ensure (validateID id);;
  data ← read_optional "read network ownership: %w" (networkOwnershipPath id);
  match data with
  | None => mret None
  | Some data => o ← lift (decodeNetworkOwnership id data); mret (Some o)
  end.

Definition clearNetworkOwnershipUnlocked (id : string) : M unit :=
  ensure (validateID id);;
  removeStateFileDurable (networkOwnershipPath id) "network ownership".

(** [a.Mappings[i] != b.Mappings[i]] at every index, after the lengths agree. *)
Definition networkOwnershipEqual (a b : NetworkOwnership) : bool :=
  if negb (String.eqb (no_Owner a) (no_Owner b)) || negb (no_PID a =? no_PID b)%Z
     || negb (no_PIDStartTime a =? no_PIDStartTime b)%Z
     || negb (String.eqb (no_VethHost a) (no_VethHost b))
     || negb (slice_len (no_Mappings a) =? slice_len (no_Mappings b))%Z
  then false
  else forallb (λ xy : PortForwardingOwnership * PortForwardingOwnership,
      bool_decide (fst xy = snd xy))
    (zip (slice_list (no_Mappings a)) (slice_list (no_Mappings b))).

Example validateNetworkOwnership_ex :
  let m p proto := mkPortForwarding p 80 "10.0.0.2" proto in
  let o l := mkNetwork "minicontainer:abc" 7 9 "" (Some l) in
  validateNetworkOwnership (o [m 8080 "tcp"; m 8080 "udp"]) = None ∧
  validateNetworkOwnership (o [m 8080 "tcp"; m 8080 "tcp"]) ≠ None ∧
  validateNetworkOwnership (o []) ≠ None.
Proof. repeat split; vm_compute; congruence. Qed.
