(* ===== verification/OwnershipFacts.v ===== *)
(** What the ownership proofs read back as: the decoders accept exactly what the
    writers stored, for the container it was stored under. *)
From S2P Require Import Prelude GoStrings Decimal Json Fs FsLogic Container.
From S2P Require Import Net.
From S2P Require Import Ownership.

(** * ASCII strings *)

Definition is_ascii (c : Ascii.ascii) : bool := (byte_val c <? 128)%N.

Lemma ascii_runes s :
  str_forallb is_ascii s = true →
  utf8_coerce s = s ∧ forallb rune_ok (runes s) = true.
Proof.
  induction s as [|c s IH]; [done|]. cbn [str_forallb]. intros [Hc Hs]%andb_true_iff.
  destruct (IH Hs) as [IH1 IH2]. unfold utf8_coerce in *. cbn [runes].
  unfold is_ascii in Hc. rewrite Hc. cbn [concat_runes forallb]. split; [|done].
  rewrite IH1. done.
Qed.
Lemma ascii_json_safe s : str_forallb is_ascii s = true → json_safe s.
Proof. intros H. by apply ascii_runes. Qed.

Lemma byte_in_ascii lo hi c : (hi < 128)%N → byte_in lo hi c = true → is_ascii c = true.
Proof.
  unfold byte_in, is_ascii. intros ? [_ H]%andb_true_iff. apply N.leb_le in H.
  apply N.ltb_lt. lia.
Qed.
Lemma cgroup_name_char_ascii c : cgroup_name_char c = true → is_ascii c = true.
Proof.
  unfold cgroup_name_char, is_alnum, is_lower, is_upper, is_digit.
  intros H. repeat (apply orb_true_iff in H as [H|H]);
    [eapply byte_in_ascii, H; lia..| | |]; by apply bool_decide_eq_true_1 in H as ->.
Qed.
Lemma validateID_safe_name name :
  validatePersistedCgroupName name = None → json_safe name.
Proof.
  unfold validatePersistedCgroupName. repeat case_match; try done.
  intros _. bool_simp. apply ascii_json_safe.
  eapply str_forallb_impl, H1. apply cgroup_name_char_ascii.
Qed.

(** * Decoding member by member *)

Lemma decode_cons {A} strict (fields : list (string * setter A)) k v l a f :
  find_field fields k = Some f →
  decode_members strict fields ((k, v) :: l) a
  = (a' ← f v a; decode_members strict fields l a').
Proof. cbn. by intros ->. Qed.

Lemma decode_cons_Ok' {A} strict (fields : list (string * setter A)) k v l a a' f :
  find_field fields k = Some f → f v a = Ok a' →
  decode_members strict fields ((k, v) :: l) a = decode_members strict fields l a'.
Proof. cbn. by intros -> ->. Qed.
(** An integer member: it is in range and set, or the decoding fails. *)
Lemma decode_cons_int {A} strict (fields : list (string * setter A)) k v l a lo hi
    old (put : Z → A) f :
  find_field fields k = Some f → f v a = (x ← dec_int lo hi v old; Ok (put x)) →
  decode_members strict fields ((k, v) :: l) a
  = (x ← dec_int lo hi v old; decode_members strict fields l (put x)).
Proof. cbn. intros -> ->. by destruct (dec_int _ _ _ _). Qed.

Lemma dec_int_eq lo hi z old x : dec_int lo hi (JInt z) old = Ok x → x = z ∧ lo ≤ z ≤ hi.
Proof.
  unfold dec_int. destruct (_ && _) eqn:E; [|done]. intros [= <-]. bool_simp. lia.
Qed.

(** The provenance members name the container. *)
Lemma check_provenance_ok version id :
  in_int64 version → validateID id = None → json_safe id →
  check_provenance version id (Some (JInt version)) (Some (enc_string id)) = None.
Proof.
  intros Hv Hid Hs. unfold check_provenance, dec_int64.
  rewrite dec_int_in by exact Hv. rewrite Z.eqb_refl. cbn [negb].
  rewrite dec_enc_string, Hs, Hid. cbn. by rewrite String.eqb_refl.
Qed.

Section cgroup.
Context (id : string) (o : CgroupOwnership).

Lemma decode_cgroup_members :
  decode_struct false (owner_envelope_fields cgroup_fields) (cgroup_json id o)
    (mkOwnerEnvelope None None zero_cgroup)
  = (p ← dec_int64 (JInt (cg_PID o)) 0;
     t ← dec_uint64 (JInt (cg_PIDStartTime o)) 0;
     Ok (mkOwnerEnvelope (Some (JInt 1)) (Some (enc_string id))
       (mkCgroup (utf8_coerce (cg_Name o)) p t))).
Proof.
  unfold cgroup_json. cbn [decode_struct].
  erewrite decode_cons_Ok'; [|reflexivity..].
  erewrite decode_cons_Ok'; [|reflexivity..].
  erewrite decode_cons_Ok'; [|reflexivity|].
  2: { cbn -[dec_string enc_string]. unfold field. cbn -[dec_string enc_string].
       rewrite dec_enc_string. reflexivity. }
  cbn [env_SchemaVersion env_ContainerID env_body cg_PID cg_PIDStartTime].
  erewrite (decode_cons_int _ _ "pid" _ _ _ min_int64 max_int64 0 
    (λ x, mkOwnerEnvelope _ _ (mkCgroup _ x _))); [|reflexivity|].
  2: { unfold field, dec_int64. cbn. by destruct (dec_int _ _ _ _). }
  unfold dec_int64. destruct (dec_int min_int64 _ _ _) as [p|]; [|done].
  cbn [mbind res_bind].
  erewrite (decode_cons_int _ _ "pid_start_time" _ _ _ 0 max_uint64 0 
    (λ x, mkOwnerEnvelope _ _ (mkCgroup _ _ x))); [|reflexivity|].
  2: { unfold field, dec_uint64. cbn. by destruct (dec_int _ _ _ _). }
  unfold dec_uint64. by destruct (dec_int 0 max_uint64 _ _).
Qed.

Lemma decode_cgroup_inv b o' :
  validateCgroupOwnership o = None →
  decodeCgroupOwnership id (FJson b (cgroup_json id o)) = Ok o' → o' = o.
Proof.
  intros Hv. unfold decodeCgroupOwnership. cbn [json_of mbind res_bind].
  rewrite decode_cgroup_members.
  destruct (dec_int64 _ _) as [p|] eqn:Hp; [|done].
  destruct (dec_uint64 _ _) as [t|] eqn:Ht; [|done].
  apply dec_int_eq in Hp as [-> _], Ht as [-> _].
  intros (? & H0 & H)%res_bind_Ok. injection H0 as <-.
  apply res_bind_Ok in H as (? & _ & H). apply res_bind_Ok in H as (? & _ & H).
  injection H as <-. cbn [env_body].
  unfold validateCgroupOwnership in Hv. apply err_first_None in Hv as [Hn _].
  rewrite (validateID_safe_name _ Hn). by destruct o.
Qed.

Lemma decode_cgroup_ok b :
  validateID id = None → json_safe id → validateCgroupOwnership o = None →
  in_int64 (cg_PID o) → in_uint64 (cg_PIDStartTime o) →
  decodeCgroupOwnership id (FJson b (cgroup_json id o)) = Ok o.
Proof.
  intros Hid Hs Hv Hp Ht. unfold decodeCgroupOwnership. cbn [json_of mbind res_bind].
  rewrite decode_cgroup_members.
  unfold dec_int64, dec_uint64. rewrite !dec_int_in by done.
  cbn [mbind res_bind wrapf env_SchemaVersion env_ContainerID env_body].
  change (JInt 1) with (JInt cgroupOwnershipSchemaVersion).
  rewrite check_provenance_ok by done. cbn [check mbind res_bind].
  assert (Hn := Hv). unfold validateCgroupOwnership in Hn. apply err_first_None in Hn as [Hn _].
  rewrite (validateID_safe_name _ Hn). 
  assert (mkCgroup (cg_Name o) (cg_PID o) (cg_PIDStartTime o) = o) as ->
    by (by destruct o).
  by rewrite Hv.
Qed.
End cgroup.

(** * The characters of IP address literals *)

Lemma is_digit_ascii c : is_digit c = true → is_ascii c = true.
Proof. apply byte_in_ascii. lia. Qed.
Definition ip_char (c : Ascii.ascii) : bool :=
  is_digit c || byte_in 97 102 c || byte_in 65 70 c || bool_decide (c = "."%char) ||
  bool_decide (c = ":"%char).
Lemma ip_char_ascii c : ip_char c = true → is_ascii c = true.
Proof.
  unfold ip_char. intros H. repeat (apply orb_true_iff in H as [H|H]);
    [eapply byte_in_ascii, H; lia..| |]; by apply bool_decide_eq_true_1 in H as ->.
Qed.
Lemma is_digit_ip c : is_digit c = true → ip_char c = true.
Proof. unfold ip_char. by intros ->. Qed.
Lemma hex_val_ip c v : hex_val c = Some v → ip_char c = true.
Proof.
  unfold hex_val, ip_char. destruct (is_digit c); [done|].
  destruct (byte_in 97 102 c); [done|]. by destruct (byte_in 65 70 c).
Qed.
Lemma parse_digits_ip acc s v :
  parse_digits acc s = Some v → str_forallb ip_char s = true.
Proof.
  revert acc. induction s as [|c s IH]; [done|]. cbn. intros acc H.
  unfold digit_val in H. destruct (is_digit c) eqn:E; [|done].
  rewrite (is_digit_ip _ E). by eapply IH.
Qed.
Lemma parse_uint_ip m s v : parse_uint m s = Some v → str_forallb ip_char s = true.
Proof.
  unfold parse_uint. destruct s as [|c s]; [done|].
  destruct (parse_digits 0 _) eqn:E; [|done]. intros _. by eapply parse_digits_ip.
Qed.
Lemma parse_octet_ip s v : parse_octet s = Some v → str_forallb ip_char s = true.
Proof.
  unfold parse_octet. intros H. destruct s as [|c s]; [done|].
  destruct (parse_uint 255 (String c s)) eqn:E; [by eapply parse_uint_ip|].
  exfalso. revert H. repeat case_match; congruence.
Qed.
Lemma str_split_ip c s :
  ip_char c = true →
  Forall (λ t, str_forallb ip_char t = true) (str_split c s) →
  str_forallb ip_char s = true.
Proof.
  intros Hc. induction s as [|d s IH]; [done|]. cbn [str_split].
  case_bool_decide as Hd; [subst d|].
  - intros [_ H]%Forall_cons. cbn. by rewrite Hc, IH.
  - destruct (str_split c s) as [|x r]; intros [Hx Hr]%Forall_cons.
    + cbn in Hx |- *. apply andb_true_iff in Hx as [-> _]. by apply IH.
    + cbn in Hx |- *. apply andb_true_iff in Hx as [-> Hx].
      apply IH. by constructor.
Qed.
Lemma parse_ipv4_ip s a : parse_ipv4 s = Some a → str_forallb ip_char s = true.
Proof.
  intros H. apply (str_split_ip "."%char); [done|].
  unfold parse_ipv4 in H.
  destruct (str_split "." s) as [|x1 [|x2 [|x3 [|x4 [|]]]]]; try done.
  destruct (parse_octet x1) eqn:E1; [|done]. destruct (parse_octet x2) eqn:E2; [|done].
  destruct (parse_octet x3) eqn:E3; [|done]. destruct (parse_octet x4) eqn:E4; [|done].
  repeat constructor; by eapply parse_octet_ip.
Qed.
Lemma take_hex_ip s off acc off' acc' r :
  take_hex s off acc = (off', acc', r) →
  str_forallb ip_char r = true → str_forallb ip_char s = true.
Proof.
  revert off acc. induction s as [|c s IH]; intros off acc H Hr; [done|].
  cbn in H. destruct (hex_val c) as [v|] eqn:E.
  - cbn. rewrite (hex_val_ip _ _ E). by eapply IH.
  - by injection H as _ _ <-.
Qed.
Lemma ipv6_loop_ip fuel i bytes ell s b e :
  parse_ipv6_loop fuel i bytes ell s = Some (b, e, "") →
  str_forallb ip_char s = true.
Proof.
  revert i bytes ell s. induction fuel as [|fuel IH]; intros i bytes ell s H.
  { cbn in H. by injection H as _ _ ->. }
  cbn [parse_ipv6_loop] in H.
  destruct (take_hex s 0 0) as [[off acc] r] eqn:Ht.
  destruct ((off =? 0)%Z || (4 <? off)%Z); [done|].
  destruct r as [|c r]; [by eapply take_hex_ip|].
  assert (Hdot : parse_ipv4 s ≠ None → str_forallb ip_char s = true).
  { destruct (parse_ipv4 s) eqn:E; [|done]. intros _. by eapply parse_ipv4_ip. }
  assert (Hcolon : ∀ t, r = t → str_forallb ip_char t = true → ip_char c = true →
    str_forallb ip_char s = true).
  { intros t -> Htt Hc. eapply take_hex_ip; [exact Ht|]. cbn. by rewrite Hc. }
  destruct (decide (c = "."%char)) as [->|Hnd].
  { apply Hdot. intros Hn. rewrite Hn in H. repeat case_match; done. }
  destruct (decide (c = ":"%char)) as [->|Hnc].
  - destruct r as [|d r]; [done|].
    destruct (decide (d = ":"%char)) as [->|Hd].
    + destruct ell; [done|]. destruct r as [|x r]; [by apply (Hcolon _ eq_refl)|].
      apply (Hcolon _ eq_refl); [|done]. apply IH in H. by cbn in *.
    + apply (Hcolon _ eq_refl); [|done]. apply (IH (i + 2) (bytes ++ [acc / 256; acc mod 256]) ell).
      revert H Hd. clear. destruct d as [[] [] [] [] [] [] [] []]; done.
  - exfalso. revert H Hnd Hnc. clear. destruct c as [[] [] [] [] [] [] [] []]; done.
Qed.

Lemma parse_ipv6_ip s a : parse_ipv6 s = Some a → str_forallb ip_char s = true.
Proof.
  assert (Hloop : ∀ ell r x, (x ← parse_ipv6_loop 8 0 [] ell r;
      let '(bytes, ell, rest) := x in
      let n := length bytes in
      if negb (String.eqb rest "") then None
      else match ell with
      | None => if (n =? 16)%nat then Some bytes else None
      | Some e => if (n <? 16)%nat then
          Some (take (Z.to_nat e) bytes ++ replicate (16 - n) 0
                ++ drop (Z.to_nat e) bytes) else None
      end) = Some x → str_forallb ip_char r = true).
  { intros ell r x H.
    destruct (parse_ipv6_loop 8 0 [] ell r) as [[[b e] rest]|] eqn:E; [|done].
    cbn in H. destruct (String.eqb rest "") eqn:Er; [|done].
    apply String.eqb_eq in Er as ->. by eapply ipv6_loop_ip. }
  unfold parse_ipv6. revert Hloop. generalize (parse_ipv6_loop 8 0 []).
  intros loop Hloop H. destruct s as [|c s]; [done|].
  destruct (decide (c = ":"%char)) as [->|Hc].
  - destruct s as [|d s]; [by eapply (Hloop None)|].
    destruct (decide (d = ":"%char)) as [->|Hd].
    + destruct s as [|x s]; [done|]. apply Hloop in H. by cbn in *.
    + apply (Hloop None _ a). revert H Hd. clear.
      destruct d as [[] [] [] [] [] [] [] []]; done.
  - apply (Hloop None _ a). revert H Hc. clear.
    destruct c as [[] [] [] [] [] [] [] []]; done.
Qed.

Lemma ParseIP_ip s a : ParseIP s = Some a → str_forallb ip_char s = true.
Proof.
  unfold ParseIP. intros H. destruct (first_of s) as [c|]; [|done].
  destruct (decide (c = "."%char)) as [->|Hd].
  { destruct (parse_ipv4 s) eqn:E; [|done]. by eapply parse_ipv4_ip. }
  destruct (decide (c = ":"%char)) as [->|Hc].
  { destruct (contains_byte s "%"); [done|]. by eapply parse_ipv6_ip. }
  exfalso. revert H Hd Hc. clear. destruct c as [[] [] [] [] [] [] [] []]; done.
Qed.
Lemma ParseIP_ascii s a : ParseIP s = Some a → str_forallb is_ascii s = true.
Proof. intros H. eapply str_forallb_impl, ParseIP_ip, H. apply ip_char_ascii. Qed.

(** * Network ownership *)

Lemma has_prefix_split s p :
  has_prefix s p = true → s = p +:+ str_drop (String.length p) s.
Proof.
  revert s. induction p as [|c p IH]; intros s H; [done|].
  destruct s as [|d s]; [done|]. unfold has_prefix in *. cbn in H.
  destruct (Ascii.ascii_dec c d) as [->|]; [|done].
  rewrite string_app_cons. cbn. f_equal. by apply IH.
Qed.


Lemma mapping_strings_safe m :
  validatePortForwardingOwnership m = None →
  json_safe (pf_ContainerIP m) ∧ json_safe (pf_Protocol m).
Proof.
  unfold validatePortForwardingOwnership. destruct (_ || _); [done|].
  destruct (ParseIP _) eqn:Hip; [|done]. intros H%fail_if_None.
  split; [by eapply ascii_json_safe, ParseIP_ascii|].
  apply andb_false_iff in H as [H|H]; apply negb_false_iff, String.eqb_eq in H;
    by rewrite H.
Qed.

Lemma decode_mapping_ok m :
  validatePortForwardingOwnership m = None →
  decode_struct false mapping_fields (mapping_json m) zero_mapping = Ok m.
Proof.
  intros Hv. destruct (mapping_strings_safe _ Hv) as [Hip Hpr].
  unfold validatePortForwardingOwnership in Hv. destruct (_ || _) eqn:E; [done|].
  bool_simp. unfold mapping_json. cbn [decode_struct].
  erewrite (decode_cons_int _ _ "host_port" _ _ _ min_int64 max_int64 0
    (λ x, mkPortForwarding x 0 "" "")); [|reflexivity|reflexivity].
  rewrite dec_int_in by (unfold min_int64, max_int64; lia). cbn [mbind res_bind].
  erewrite (decode_cons_int _ _ "container_port" _ _ _ min_int64 max_int64 0
    (λ x, mkPortForwarding _ x "" "")); [|reflexivity|reflexivity].
  rewrite dec_int_in by (unfold min_int64, max_int64; lia). cbn [mbind res_bind].
  unfold enc_string. rewrite Hip, Hpr.
  erewrite decode_cons_Ok'; [|reflexivity|reflexivity].
  erewrite decode_cons_Ok'; [|reflexivity|reflexivity].
  cbn [decode_members]. rewrite Hip, Hpr. by destruct m.
Qed.

Lemma decode_mappings_ok seen l :
  validate_mappings seen l = None →
  dec_list (decode_struct false mapping_fields) zero_mapping (mapping_json <$> l) = Ok l.
Proof.
  revert seen. induction l as [|m l IH]; intros seen; [done|].
  cbn [validate_mappings]. intros [Hm Hl]%err_first_None.
  destruct (decide _); [done|]. cbn [fmap list_fmap dec_list].
  rewrite decode_mapping_ok by done. cbn [mbind res_bind].
  by rewrite (IH _ Hl).
Qed.

Lemma network_strings_safe o :
  validateNetworkOwnership o = None →
  json_safe (no_Owner o) ∧ json_safe (no_VethHost o) ∧
  dec_slice (decode_struct false mapping_fields) zero_mapping
    (enc_slice mapping_json (no_Mappings o)) None = Ok (no_Mappings o).
Proof.
  unfold validateNetworkOwnership.
  intros (Ho & (_ & (Hv & (_ & (_ & Hm)%err_first_None)%err_first_None)%err_first_None)%err_first_None)%err_first_None.
  split_and!.
  - unfold validateNetworkOwner in Ho.
    destruct (has_prefix (no_Owner o) "minicontainer:") eqn:Hp; [|done]. cbn [negb] in Ho.
    destruct (_ || _); [done|]. apply fail_if_None, negb_false_iff in Ho.
    apply ascii_json_safe. rewrite (has_prefix_split _ _ Hp), str_forallb_app.
    apply andb_true_iff. split; [done|].
    eapply str_forallb_impl, Ho. apply cgroup_name_char_ascii.
  - destruct (String.eqb (no_VethHost o) "") eqn:E.
    { apply String.eqb_eq in E. by rewrite E. }
    unfold validateNetworkVethHost in Hv.
    destruct (has_prefix (no_VethHost o) "vh") eqn:Hp;
      [|by rewrite orb_true_r in Hv]. rewrite orb_false_r in Hv.
    destruct (negb _); [done|]. apply fail_if_None, negb_false_iff in Hv.
    apply ascii_json_safe. rewrite (has_prefix_split _ _ Hp), str_forallb_app.
    apply andb_true_iff. split; [done|].
    eapply str_forallb_impl, Hv. intros c Hc. unfold veth_char, is_lower in Hc.
    apply orb_true_iff in Hc as [Hc|Hc]; (eapply byte_in_ascii; [|exact Hc]; lia).
  - destruct (no_Mappings o) as [l|]; [|done]. cbn [enc_slice dec_slice].
    change (slice_list (Some l)) with l in Hm. by rewrite (decode_mappings_ok _ _ Hm).
Qed.

Section network.
Context (id : string) (o : NetworkOwnership).
Hypothesis Hv : validateNetworkOwnership o = None.

Lemma decode_network_members :
  decode_struct false (owner_envelope_fields network_fields) (network_json id o)
    (mkOwnerEnvelope None None zero_network)
  = (p ← dec_int64 (JInt (no_PID o)) 0;
     t ← dec_uint64 (JInt (no_PIDStartTime o)) 0;
     Ok (mkOwnerEnvelope (Some (JInt 1)) (Some (enc_string id))
       (mkNetwork (no_Owner o) p t (no_VethHost o) (no_Mappings o)))).
Proof.
  destruct (network_strings_safe o Hv) as (Hown & Hveth & Hmap).
  unfold network_json. cbn [decode_struct]. unfold enc_string at 2 3.
  rewrite Hown, Hveth. cbn [app].
  erewrite decode_cons_Ok'; [|reflexivity..].
  erewrite decode_cons_Ok'; [|reflexivity..].
  erewrite decode_cons_Ok'; [|reflexivity..].
  rewrite Hown.
  erewrite (decode_cons_int _ _ "pid" _ _ _ min_int64 max_int64 0
    (λ x, mkOwnerEnvelope _ _ (mkNetwork _ x _ _ _))); [|reflexivity|].
  2: { unfold field, dec_int64. cbn. by destruct (dec_int _ _ _ _). }
  unfold dec_int64. destruct (dec_int min_int64 _ _ _) as [p|]; [|done].
  cbn [mbind res_bind].
  erewrite (decode_cons_int _ _ "pid_start_time" _ _ _ 0 max_uint64 0
    (λ x, mkOwnerEnvelope _ _ (mkNetwork _ _ x _ _))); [|reflexivity|].
  2: { unfold field, dec_uint64. cbn. by destruct (dec_int _ _ _ _). }
  unfold dec_uint64. destruct (dec_int 0 max_uint64 _ _) as [t|]; [|done].
  cbn [mbind res_bind].
  assert (Hm : ∀ e : owner_envelope NetworkOwnership, no_Mappings (env_body e) = None →
    decode_members false (owner_envelope_fields network_fields)
      [("mappings", enc_slice mapping_json (no_Mappings o))] e
    = Ok (mkOwnerEnvelope (env_SchemaVersion e) (env_ContainerID e)
        (mkNetwork (no_Owner (env_body e)) (no_PID (env_body e))
          (no_PIDStartTime (env_body e)) (no_VethHost (env_body e)) (no_Mappings o)))).
  { intros e He. erewrite decode_cons_Ok'; [|reflexivity|].
    2: { cbn [snd]. unfold field. rewrite He, Hmap. reflexivity. }
    done. }
  unfold omitempty. destruct (String.eqb (no_VethHost o) "") eqn:E.
  - apply String.eqb_eq in E. cbn [app]. rewrite Hm by done. by rewrite E.
  - cbn [app]. erewrite decode_cons_Ok'; [|reflexivity..].
    rewrite Hm by done. cbn. by rewrite Hveth.
Qed.

Lemma decode_network_inv b o' :
  decodeNetworkOwnership id (FJson b (network_json id o)) = Ok o' → o' = o.
Proof.
  unfold decodeNetworkOwnership. cbn [json_of mbind res_bind].
  rewrite decode_network_members.
  destruct (dec_int64 _ _) as [p|] eqn:Hp; [|done].
  destruct (dec_uint64 _ _) as [t|] eqn:Ht; [|done].
  apply dec_int_eq in Hp as [-> _], Ht as [-> _].
  intros (? & H0 & H)%res_bind_Ok. injection H0 as <-.
  apply res_bind_Ok in H as (? & _ & H). apply res_bind_Ok in H as (? & _ & H).
  injection H as <-. cbn [env_body]. by destruct o.
Qed.

Lemma decode_network_ok b :
  validateID id = None → json_safe id →
  in_int64 (no_PID o) → in_uint64 (no_PIDStartTime o) →
  decodeNetworkOwnership id (FJson b (network_json id o)) = Ok o.
Proof.
  intros Hid Hs Hp Ht. unfold decodeNetworkOwnership. cbn [json_of mbind res_bind].
  rewrite decode_network_members. unfold dec_int64, dec_uint64.
  rewrite !dec_int_in by done.
  cbn [mbind res_bind wrapf env_SchemaVersion env_ContainerID env_body].
  change (JInt 1) with (JInt networkOwnershipSchemaVersion).
  rewrite check_provenance_ok by done. cbn [check mbind res_bind].
  assert (mkNetwork (no_Owner o) (no_PID o) (no_PIDStartTime o) (no_VethHost o)
    (no_Mappings o) = o) as -> by (by destruct o).
  by rewrite Hv.
Qed.
End network.
