(* ===== verification/Sizes.v ===== *)
(** Size bounds: what a validated cgroup ownership prints to stays far below the
    limit of a state file, so the reader's size check never refuses what the
    writer stored (the writer does not check it itself). *)
From S2P Require Import Prelude GoStrings Json Fs FsLogic Container Net.
From S2P Require Import Ownership.

#[local] Open Scope nat_scope.

Lemma raw_runes_runes s : raw_runes (runes s) = s.
Proof.
  induction s as [s IH] using (induction_ltof1 _ String.length).
  unfold ltof in IH. destruct s as [|a s1]; [done|]. cbn [runes].
  assert (Hbad : raw_runes (bad_rune a :: runes s1) = String a s1).
  { cbn [raw_runes bad_rune rune_bytes]. unfold str1.
    by rewrite string_app_cons, string_app_nil_l, IH by (cbn; lia). }
  destruct (byte_val a <? 128)%N.
  { cbn [raw_runes rune_bytes]. unfold str1.
    by rewrite string_app_cons, string_app_nil_l, IH by (cbn; lia). }
  destruct s1 as [|b s2]; [done|].
  destruct (utf8_two a b).
  { cbn [raw_runes rune2 rune_bytes]. unfold str1.
    by rewrite !string_app_cons, string_app_nil_l, IH by (cbn; lia). }
  destruct s2 as [|c s3]; [done|].
  destruct (utf8_three a b c).
  { cbn [raw_runes rune3 rune_bytes]. unfold str1.
    by rewrite !string_app_cons, string_app_nil_l, IH by (cbn; lia). }
  destruct s3 as [|d s4]; [done|].
  destruct (utf8_four a b c d); [|done].
  cbn [raw_runes rune4 rune_bytes]. unfold str1.
  by rewrite !string_app_cons, string_app_nil_l, IH by (cbn; lia).
Qed.

(** Every rune of a decoded string has at least one byte; the two line
    separators have three. *)
Lemma runes_nonempty s :
  Forall (λ r, 1 ≤ String.length (rune_bytes r)) (runes s).
Proof.
  induction s as [s IH] using (induction_ltof1 _ String.length).
  unfold ltof in IH. destruct s as [|a s1]; [constructor|]. cbn [runes].
  assert (H1 : Forall (λ r, 1 ≤ String.length (rune_bytes r)) (runes s1))
    by (apply IH; cbn; lia).
  repeat (match goal with
    | |- Forall _ (if ?b then _ else _) => destruct b
    | |- Forall _ (match ?t with "" => _ | String _ _ => _ end) =>
        destruct t eqn:?; subst
    end); repeat (constructor; [cbn; lia|]);
    solve [done | constructor | apply IH; cbn; lia].
Qed.

Lemma escape_rune_length r :
  1 ≤ String.length (rune_bytes r) →
  String.length (escape_rune r) ≤ 6 * String.length (rune_bytes r).
Proof.
  intros Hr. unfold escape_rune.
  destruct (negb _); [cbn; lia|].
  destruct (rune_val r =? 8232)%N; [cbn; lia|].
  destruct (rune_val r =? 8233)%N; [cbn; lia|].
  destruct (rune_bytes r) as [|c [|]]; [cbn in *; lia| |cbn; lia].
  cbn zeta. repeat case_match; try (cbn; lia).
  unfold hex_byte, str1.
  generalize (hex_digit (byte_val c / 16)), (hex_digit (byte_val c mod 16)).
  intros. cbn [String.length]. rewrite string_length_app. cbn [String.length]. lia.
Qed.

Lemma print_string_length s :
  String.length (print_string s) ≤ 6 * String.length s + 2.
Proof.
  unfold print_string. cbn [String.length].
  assert (H : ∀ l, Forall (λ r, 1 ≤ String.length (rune_bytes r)) l →
    String.length (foldr (λ r t, escape_rune r +:+ t) (str1 quote) l)
    ≤ 6 * String.length (raw_runes l) + 1).
  { induction 1 as [|r l Hr _ IH]; [cbn; lia|]. cbn [foldr raw_runes].
    rewrite !string_length_app. pose proof (escape_rune_length r Hr). lia. }
  pose proof (H (runes s) (runes_nonempty s)) as Hl.
  rewrite raw_runes_runes in Hl. lia.
Qed.

Lemma pretty_N_go_length k x s :
  (x < 10 ^ N.of_nat k)%N →
  String.length (pretty_N_go x s) ≤ k + String.length s.
Proof.
  revert x s. induction k as [|k IH]; intros x s Hx.
  { assert (x = 0%N) as -> by (cbn in Hx; lia). by rewrite pretty_N_go_0. }
  destruct (decide (x = 0)%N) as [->|Hn]; [rewrite pretty_N_go_0; lia|].
  rewrite pretty_N_go_step by lia.
  transitivity (k + String.length (String (pretty_N_char (x `mod` 10)) s));
    [|cbn; lia].
  apply IH. apply N.Div0.div_lt_upper_bound.
  rewrite Nat2N.inj_succ, N.pow_succ_r' in Hx. lia.
Qed.

Lemma pretty_Z_length z :
  (- 10 ^ 20 < z < 10 ^ 20)%Z → String.length (pretty z) ≤ 21.
Proof.
  intros Hz.
  assert (Hn : ∀ n : N, (n < 10 ^ 20)%N → String.length (pretty n) ≤ 20).
  { intros n Hn. unfold pretty, pretty_N. case_decide; [cbn; lia|].
    pose proof (pretty_N_go_length 20 n "" Hn). cbn [String.length] in *. lia. }
  destruct z as [|p|p]; [cbn; lia| |].
  - change (String.length (pretty (Npos p)) ≤ 21). rewrite Hn; lia.
  - change (String.length ("-" +:+ pretty (Npos p)) ≤ 21).
    rewrite string_length_app. cbn [String.length].
    assert (String.length (pretty (Npos p)) ≤ 20) by (apply Hn; lia). lia.
Qed.

Lemma str_join_length sep l :
  String.length (str_join sep l) ≤
    foldr (λ x n, String.length x + String.length sep + n) 0 l.
Proof.
  induction l as [|x [|y l] IH]; [done|cbn; lia|].
  change (str_join sep (x :: y :: l)) with (x +:+ sep +:+ str_join sep (y :: l)).
  rewrite !string_length_app. cbn [foldr] in *. lia.
Qed.

Lemma utf8_coerce_length s : String.length (utf8_coerce s) ≤ 3 * String.length s.
Proof.
  assert (H : ∀ l, Forall (λ r, 1 ≤ String.length (rune_bytes r)) l →
    String.length (concat_runes l) ≤ 3 * String.length (raw_runes l)).
  { induction 1 as [|r l Hr _ IH]; [cbn; lia|]. cbn [concat_runes raw_runes].
    rewrite !string_length_app. unfold rune_text.
    destruct (rune_ok r); [lia|]. change (String.length replacement) with 3. lia. }
  pose proof (H (runes s) (runes_nonempty s)) as Hl.
  by rewrite raw_runes_runes in Hl.
Qed.

Section cgroup_size.
Context (id : string) (o : CgroupOwnership).
Hypothesis Hid : validateID id = None.
Hypothesis Ho : validateCgroupOwnership o = None.
Hypothesis Hpid : in_int64 (cg_PID o).
Hypothesis Hpst : in_uint64 (cg_PIDStartTime o).

Lemma id_length : String.length id ≤ 240.
Proof.
  unfold validateID, maxContainerIDBytes, len in Hid. repeat case_match; try done.
  bool_simp. lia.
Qed.
Lemma name_length : String.length (cg_Name o) ≤ 255.
Proof.
  unfold validateCgroupOwnership, validatePersistedCgroupName, len in Ho.
  apply err_first_None in Ho as [Hn _]. repeat case_match; try done. bool_simp. lia.
Qed.

Lemma member_length k v n :
  String.length (print false 1 v) ≤ n →
  String.length (print_string k +:+ ":" +:+ print false 1 v)
  ≤ 6 * String.length k + n + 3.
Proof.
  intros Hv. rewrite !string_length_app. pose proof (print_string_length k).
  cbn [String.length]. lia.
Qed.

Lemma cgroup_size :
  (data_len (FJson false (cgroup_json id o)) ≤ 20000)%Z.
Proof.
  pose proof id_length. pose proof name_length.
  pose proof (print_string_length (utf8_coerce id)) as L1.
  pose proof (print_string_length (utf8_coerce (cg_Name o))) as L2.
  pose proof (utf8_coerce_length id). pose proof (utf8_coerce_length (cg_Name o)).
  assert (L3 : String.length (pretty (cg_PID o)) ≤ 21)
    by (apply pretty_Z_length; unfold in_int64, min_int64, max_int64 in Hpid; lia).
  assert (L4 : String.length (pretty (cg_PIDStartTime o)) ≤ 21)
    by (apply pretty_Z_length; unfold in_uint64, max_uint64 in Hpst; lia).
  unfold data_len, len.
  enough (String.length (data_text (FJson false (cgroup_json id o))) ≤ 10 * 1000) by lia.
  unfold data_text, cgroup_json. cbn [print fmap list_fmap fst snd].
  unfold print_members. rewrite !string_length_app.
  pose proof (str_join_length ","
    [print_string "schema_version" +:+ ":" +:+ print false 1 (JInt cgroupOwnershipSchemaVersion);
     print_string "container_id" +:+ ":" +:+ print false 1 (enc_string id);
     print_string "name" +:+ ":" +:+ print false 1 (enc_string (cg_Name o));
     print_string "pid" +:+ ":" +:+ print false 1 (JInt (cg_PID o));
     print_string "pid_start_time" +:+ ":" +:+ print false 1 (JInt (cg_PIDStartTime o))])
    as L.
  etransitivity; [apply Nat.add_le_mono; [reflexivity|apply Nat.add_le_mono; [exact L|reflexivity]]|].
  cbn [foldr].
  pose proof (member_length "schema_version" (JInt 1) 1 ltac:(vm_compute; lia)).
  pose proof (member_length "container_id" (enc_string id) _ L1).
  pose proof (member_length "name" (enc_string (cg_Name o)) _ L2).
  pose proof (member_length "pid" (JInt (cg_PID o)) _ L3).
  pose proof (member_length "pid_start_time" (JInt (cg_PIDStartTime o)) _ L4).
  unfold cgroupOwnershipSchemaVersion. cbn [String.length] in *. lia.
Qed.

Lemma cgroup_readable w :
  w_fs w !! cgroupOwnershipPath id = Some (NFile (FJson false (cgroup_json id o)) 1) →
  regular_at w (cgroupOwnershipPath id) = Some (FJson false (cgroup_json id o)).
Proof.
  intros Hw. unfold regular_at. rewrite Hw.
  replace (1 <? 1)%Z with false by done. cbn [orb].
  rewrite (proj2 (Z.ltb_ge _ _)); [done|].
  unfold maxStateFileBytes. pose proof cgroup_size.
  change (Z.shiftl 4 20) with 4194304%Z. lia.
Qed.
End cgroup_size.
