(* ===== verification/Generation.v ===== *)
(** Stopped generations: the lifecycle metadata persisted next to a container
    record, its teardown snapshot (stopped_generation_schema.go), the writers of
    a record revision (revision.go), the read of a record
    ([Store.getUnlocked] of state.go), the migration of pre-schema records, and
    the retirement of the legacy sidecars. *)
From S2P Require Import Prelude GoStrings Json Fs FsLogic Container Net.
From S2P Require Import Ownership.

Open Scope go_scope.

(** * Reading a record (state.go) *)

Definition getUnlocked (id : string) : M Container :=
  w ← get_world;
  if w_closed w then throw ErrStoreClosed
  else
    r ← attempt (readRegularStateFile (containerPath id));
    match r with
    | Fail e =>
      if errors_Is e ErrNotExist then throw (Wrapf "container %q not found: %w" e)
      else throw (Wrapf "read container state: %w" e)
    | Ok data =>
      lift (wrapf "unmarshal container state: %w"
        (unmarshalContainerStateForID data id))
    end.

(** * Writing a record (revision.go) *)

Definition currentStoppedGenerationSchemaVersion : Z := 1.

(** The lifecycle members that follow the record, for each branch of the
    switch. *)
Definition lifecycle_members (status : string) (requireExitIdentity : bool)
    (identity : option exitedIdentity) : list (string * json) :=
  match requireExitIdentity, identity with
  | true, Some i =>
    [("state_schema_version", JInt currentContainerStateSchemaVersion);
     ("stopped_generation_schema_version",
       JInt currentStoppedGenerationSchemaVersion);
     ("exit_identity_required", JBool true);
     ("exit_identity", identity_json i)]
  | true, None => [("exit_identity_required", JBool true)]
  | false, _ =>
    if String.eqb status StatusStopped then
      [("state_schema_version", JInt currentContainerStateSchemaVersion);
       ("legacy_dns_cleanup_authorized", JBool true)]
    else [("state_schema_version", JInt currentContainerStateSchemaVersion)]
  end.

Definition record_json (c : Container) (extra : list (string * json)) : res json :=
  members ← container_members c; Ok (JObj (members ++ extra)).

Definition writeContainerRevisionWithExitPolicyUnlocked (c : Container)
    (revision : Z) (requireExitIdentity : bool)
    (identity : option exitedIdentity) : M Container :=
  let copy := set_Revision revision c in
  ensure match identity with
    | None => None
    | Some i =>
      fail_if (negb requireExitIdentity)
        (Errorf "exit identity requires lifecycle capability") >>!
      validateExitedIdentity i
    end;;
  j ← lift (wrapf "marshal container: %w" (record_json copy
        (lifecycle_members (Status copy) requireExitIdentity identity)));
  let data := FJson true j in
  ensure (validateStateFileWrite data);;
  atomicWriteFile (containerPath (ID c)) data;;
  mret copy.

(** * The teardown snapshot (stopped_generation_schema.go) *)

Record lifecycleSnapshot := mkRaw {
  raw_status : string;
  raw_revision : Z;
  raw_stateVersion : option json;
  raw_version : option json;
  raw_exitIdentityRequired : option json;
  raw_exitIdentity : option json;
  raw_legacyDNSCleanupAuthorized : option json }.
Definition zero_raw : lifecycleSnapshot := mkRaw "" 0 None None None None None.

Definition raw_fields : list (string * setter lifecycleSnapshot) := [
  ("status", λ j r, x ← dec_string j (raw_status r);
     Ok (mkRaw x (raw_revision r) (raw_stateVersion r) (raw_version r)
       (raw_exitIdentityRequired r) (raw_exitIdentity r)
       (raw_legacyDNSCleanupAuthorized r)));
  ("revision", λ j r, x ← dec_uint64 j (raw_revision r);
     Ok (mkRaw (raw_status r) x (raw_stateVersion r) (raw_version r)
       (raw_exitIdentityRequired r) (raw_exitIdentity r)
       (raw_legacyDNSCleanupAuthorized r)));
  ("state_schema_version", λ j r,
     Ok (mkRaw (raw_status r) (raw_revision r) (Some j) (raw_version r)
       (raw_exitIdentityRequired r) (raw_exitIdentity r)
       (raw_legacyDNSCleanupAuthorized r)));
  ("stopped_generation_schema_version", λ j r,
     Ok (mkRaw (raw_status r) (raw_revision r) (raw_stateVersion r) (Some j)
       (raw_exitIdentityRequired r) (raw_exitIdentity r)
       (raw_legacyDNSCleanupAuthorized r)));
  ("exit_identity_required", λ j r,
     Ok (mkRaw (raw_status r) (raw_revision r) (raw_stateVersion r)
       (raw_version r) (Some j) (raw_exitIdentity r)
       (raw_legacyDNSCleanupAuthorized r)));
  ("exit_identity", λ j r,
     Ok (mkRaw (raw_status r) (raw_revision r) (raw_stateVersion r)
       (raw_version r) (raw_exitIdentityRequired r) (Some j)
       (raw_legacyDNSCleanupAuthorized r)));
  ("legacy_dns_cleanup_authorized", λ j r,
     Ok (mkRaw (raw_status r) (raw_revision r) (raw_stateVersion r)
       (raw_version r) (raw_exitIdentityRequired r) (raw_exitIdentity r)
       (Some j))) ].

Definition decode_raw (data : file_data) : res lifecycleSnapshot :=
  wrapf "unmarshal stopped generation lifecycle snapshot: %w"
    (j ← json_of data; decode_struct false raw_fields j zero_raw).

Definition readStoppedGenerationLifecycleSnapshotUnlocked (id : string)
    : M lifecycleSnapshot :=
  ensure (validateID id);;
  data ← readRegularStateFile (containerPath id);
  lift (decode_raw data).

(** [stateVersioned] is [Some] of the state version, and so on: a flag of the Go
    struct together with the value it guards. *)
Record teardownSnapshot := mkSnapshot {
  sn_status : string;
  sn_revision : Z;
  sn_stateVersion : option Z;
  sn_version : option Z;
  sn_required : option bool;
  sn_identity : option exitedIdentity;
  sn_legacyDNS : option bool }.
#[export] Instance teardownSnapshot_eq_dec : EqDecision teardownSnapshot.
Proof. solve_decision. Defined.

Definition sn_versioned (s : teardownSnapshot) : bool := bool_decide (is_Some (sn_version s)).
Definition sn_stateVersioned (s : teardownSnapshot) : bool :=
  bool_decide (is_Some (sn_stateVersion s)).
Definition sn_requirementPresent (s : teardownSnapshot) : bool :=
  bool_decide (is_Some (sn_required s)).
Definition sn_capability (s : teardownSnapshot) : bool := default false (sn_required s).
Definition sn_identityEmbedded (s : teardownSnapshot) : bool :=
  bool_decide (is_Some (sn_identity s)).
Definition sn_legacyDNSCleanupPresent (s : teardownSnapshot) : bool :=
  bool_decide (is_Some (sn_legacyDNS s)).
Definition stale_snapshot (status : string) (revision : Z) : teardownSnapshot :=
  mkSnapshot status revision None None None None None.

Definition dec_version (current : Z) (raw : option json) : res (option Z) :=
  match raw with
  | None => Ok None
  | Some j =>
    v ← wrapf "unmarshal schema version: %w" (dec_uint32 j 0);
    if (v =? 0)%Z then Fail (Errorf "invalid schema version 0")
    else if negb (v =? current)%Z then
      Fail (Errorf "unsupported schema version %d (current %d)")
    else Ok (Some v)
  end.

(** A flag that is persisted only as [true]. *)
Definition dec_flag (msg : string) (raw : option json) : res (option bool) :=
  match raw with
  | None => Ok None
  | Some j =>
    b ← wrapf "unmarshal flag: %w" (dec_bool j false);
    if b : bool then Ok (Some true) else Fail (Errorf msg)
  end.

(** [stoppedGenerationLifecycleSnapshot.teardownSnapshot] *)
Definition raw_teardownSnapshot (raw : lifecycleSnapshot) : res teardownSnapshot :=
  stateVersion ← dec_version currentContainerStateSchemaVersion
                   (raw_stateVersion raw);
  version ← dec_version currentStoppedGenerationSchemaVersion (raw_version raw);
  required ← dec_flag "invalid persisted exit identity requirement: false"
               (raw_exitIdentityRequired raw);
  identity ← match raw_exitIdentity raw with
    | None => Ok None
    | Some JNull => Fail (Errorf "invalid persisted exit identity: null")
    | Some j =>
      i ← wrapf "unmarshal embedded exited process identity: %w" (decode_identity j);
      _ ← check (validateExitedIdentity i);
      Ok (Some i)
    end;
  legacy ← dec_flag "invalid legacy DNS cleanup authorization: false"
             (raw_legacyDNSCleanupAuthorized raw);
  let s := mkSnapshot (raw_status raw) (raw_revision raw) stateVersion version
             required identity legacy in
  _ ← check (fail_if (sn_legacyDNSCleanupPresent s &&
        (sn_versioned s || sn_requirementPresent s || sn_identityEmbedded s))
        (Errorf "legacy DNS cleanup authorization conflicts with exact stopped-generation metadata"));
  Ok s.

Definition readStoppedGenerationTeardownSnapshotUnlocked (id : string)
    : M teardownSnapshot :=
  raw ← readStoppedGenerationLifecycleSnapshotUnlocked id;
  lift (raw_teardownSnapshot raw).

(** * exit_identity.go: the identity of the current record *)

Definition containerEmbeddedExitedIdentityUnlocked (id : string)
    : M (option exitedIdentity) :=
  snapshot ← readStoppedGenerationTeardownSnapshotUnlocked id;
  mret (sn_identity snapshot).

(** [None]: no requirement is present. *)
Definition containerExitIdentityRequirementUnlocked (id : string)
    : M (option bool) :=
  snapshot ← readStoppedGenerationTeardownSnapshotUnlocked id;
  mret (sn_required snapshot).

Definition readCurrentExitedIdentityUnlocked (id : string)
    : M (option exitedIdentity) :=
  snapshot ← readStoppedGenerationTeardownSnapshotUnlocked id;
  match sn_identity snapshot with
  | Some i =>
    ensure (fail_if (negb (sn_requirementPresent snapshot) ||
                     negb (sn_capability snapshot))
      (Errorf "persisted exit identity exists without required lifecycle capability"));;
    mret (Some i)
  | None =>
    if sn_versioned snapshot then
      throw (Errorf "versioned stopped generation is missing embedded exit identity")
    else readExitedIdentityUnlocked id
  end.

(** * Writers (revision.go) *)

(** [err != nil && !errors.Is(err, os.ErrNotExist)]: a missing record reads as
    the zero value. *)
Definition or_missing {A} (zero : A) (m : M A) : M A :=
  r ← attempt m;
  match r with
  | Ok a => mret a
  | Fail e => if errors_Is e ErrNotExist then mret zero else throw e
  end.

Definition writeContainerRevisionUnlocked (c : Container) (revision : Z)
    : M Container :=
  if negb (String.eqb (Status c) StatusStopped) then
    writeContainerRevisionWithExitPolicyUnlocked c revision false None
  else
    requirement ← or_missing None (containerExitIdentityRequirementUnlocked (ID c));
    identity ← or_missing None (containerEmbeddedExitedIdentityUnlocked (ID c));
    let required := default false requirement in
    match identity with
    | Some i =>
      if negb (bool_decide (is_Some requirement)) || negb required then
        throw (Errorf "persisted exit identity exists without required lifecycle capability")
      else writeContainerRevisionWithExitPolicyUnlocked c revision true (Some i)
    | None =>
      writeContainerRevisionWithExitPolicyUnlocked c revision
        (bool_decide (is_Some requirement) && required) None
    end.

Definition revision_overflow : error := Errorf "container %s revision overflow".

Definition writeContainerNextRevisionUnlocked (c : Container) : M Container :=
  ensure (fail_if (Revision c =? max_uint64)%Z revision_overflow);;
  writeContainerRevisionUnlocked c (Revision c + 1).

Definition writeStoppedContainerNextRevisionUnlocked (c : Container)
    (pid pidStartTime : Z) : M Container :=
  ensure (fail_if (Revision c =? max_uint64)%Z revision_overflow);;
  let identity := mkIdentity pid pidStartTime in
  ensure (validateExitedIdentity identity);;
  writeContainerRevisionWithExitPolicyUnlocked c (Revision c + 1) true
    (Some identity).

Definition saveContainerCASUnlocked (c : Container) : M Container :=
  r ← attempt (readRegularStateFile (containerPath (ID c)));
  match r with
  | Ok data =>
    current ← lift (wrapf "unmarshal current container state: %w"
                 (unmarshalContainerStateForID data (ID c)));
    ensure (fail_if (negb (Revision current =? Revision c)%Z)
      (Wrapf "%w for %s: caller=%d current=%d" ErrRevisionConflict));;
    ensure (fail_if (Revision current =? max_uint64)%Z revision_overflow);;
    writeContainerRevisionUnlocked c (Revision current + 1)
  | Fail e =>
    if errors_Is e ErrNotExist then
      ensure (fail_if (negb (Revision c =? 0)%Z)
        (Wrapf "%w for %s: record was deleted after revision %d"
           ErrRevisionConflict));;
      writeContainerRevisionUnlocked c 1
    else throw (Wrapf "read current container state: %w" e)
  end.

(** * Migration of pre-schema records (stopped_generation_schema.go) *)

Definition lacks_authority : error :=
  Errorf "container state schema version %d lacks explicit stopped-generation teardown authority".

Definition migrateStoppedGenerationSnapshotUnlocked (id : string) (revision : Z)
    (snapshot : teardownSnapshot) : M teardownSnapshot :=
  if sn_versioned snapshot || sn_legacyDNSCleanupPresent snapshot then mret snapshot
  else
    ensure (fail_if (sn_stateVersioned snapshot) lacks_authority);;
    identity ← match sn_identity snapshot with
      | Some i =>
        ensure (fail_if (negb (sn_requirementPresent snapshot) ||
                         negb (sn_capability snapshot))
          (Errorf "persisted exit identity exists without required lifecycle capability"));;
        mret (Some i)
      | None =>
        legacyIdentity ← readExitedIdentityUnlocked id;
        match legacyIdentity with
        | None => mret None
        | Some i =>
          let authorized :=
            sn_requirementPresent snapshot && sn_capability snapshot in
          authorized ← (if authorized then mret true
                        else exitedIdentityRequiredUnlocked id);
          ensure (fail_if (negb authorized)
            (Errorf "legacy exited process identity exists without required capability marker"));;
          mret (Some i)
        end
      end;
    match identity with
    | None => mret snapshot
    | Some i =>
      container ← getUnlocked id;
      if negb (String.eqb (Status container) StatusStopped) ||
         negb (Revision container =? revision)%Z
      then mret (stale_snapshot (Status container) (Revision container))
      else
        wrapm "migrate stopped generation teardown metadata: %w"
          (writeContainerRevisionWithExitPolicyUnlocked container revision true
             (Some i));;
        mret (mkSnapshot (sn_status snapshot) (sn_revision snapshot)
          (Some currentContainerStateSchemaVersion)
          (Some currentStoppedGenerationSchemaVersion) (Some true) (Some i)
          (sn_legacyDNS snapshot))
    end.

Definition authorizeLegacyDNSCleanupSnapshotUnlocked (id : string) (revision : Z)
    (snapshot : teardownSnapshot) : M teardownSnapshot :=
  if sn_versioned snapshot || sn_requirementPresent snapshot ||
     sn_identityEmbedded snapshot || sn_legacyDNSCleanupPresent snapshot
  then mret snapshot
  else
    ensure (fail_if (sn_stateVersioned snapshot) lacks_authority);;
    required ← exitedIdentityRequiredUnlocked id;
    identity ← readExitedIdentityUnlocked id;
    if required || bool_decide (is_Some identity) then mret snapshot
    else
      container ← getUnlocked id;
      if negb (String.eqb (Status container) StatusStopped) ||
         negb (Revision container =? revision)%Z
      then mret (stale_snapshot (Status container) (Revision container))
      else
        j ← lift (wrapf "marshal legacy DNS cleanup migration state: %w"
              (record_json container
                [("state_schema_version", JInt currentContainerStateSchemaVersion);
                 ("legacy_dns_cleanup_authorized", JBool true)]));
        wrapm "persist legacy DNS cleanup migration state: %w"
          (atomicWriteFile (containerPath id) (FJson true j));;
        mret (mkSnapshot (sn_status snapshot) (sn_revision snapshot)
          (Some currentContainerStateSchemaVersion) (sn_version snapshot)
          (sn_required snapshot) (sn_identity snapshot) (Some true)).

Definition validateLegacyDNSCleanupSidecarsUnlocked (id : string)
    (snapshot : teardownSnapshot) : M unit :=
  if negb (sn_legacyDNSCleanupPresent snapshot) ||
     negb (default false (sn_legacyDNS snapshot)) then mret tt
  else
    required ← exitedIdentityRequiredUnlocked id;
    identity ← readExitedIdentityUnlocked id;
    ensure (fail_if (required || bool_decide (is_Some identity))
      (Errorf "legacy DNS cleanup authorization conflicts with exited identity sidecar metadata")).

(** legacy_exit_sidecar_retirement.go *)
Definition retireLegacyStoppedGenerationSidecarsUnlocked (id : string) : M unit :=
  ensure (validateID id);;
  wrapm "retire legacy exited process identity: %w"
    (removeStateFileDurable (exitedIdentityPath id) "exited process identity");;
  wrapm "retire legacy exited identity requirement: %w"
    (removeStateFileDurable (exitedIdentityRequiredPath id)
       "exited identity requirement").

Definition current_stopped (revision : Z) (s : teardownSnapshot) : bool :=
  String.eqb (sn_status s) StatusStopped && (sn_revision s =? revision)%Z.

(** The snapshot, and whether [revision] is the current stopped revision. *)
Definition readStoppedGenerationTeardownSnapshotForRevisionUnlocked (id : string)
    (revision : Z) : M (teardownSnapshot * bool) :=
  raw ← readStoppedGenerationLifecycleSnapshotUnlocked id;
  if negb (String.eqb (raw_status raw) StatusStopped) ||
     negb (raw_revision raw =? revision)%Z
  then mret (stale_snapshot (raw_status raw) (raw_revision raw), false)
  else
    snapshot ← lift (raw_teardownSnapshot raw);
    if sn_versioned snapshot then
      retireLegacyStoppedGenerationSidecarsUnlocked id;; mret (snapshot, true)
    else if sn_legacyDNSCleanupPresent snapshot then
      validateLegacyDNSCleanupSidecarsUnlocked id snapshot;; mret (snapshot, true)
    else
      migrated ← migrateStoppedGenerationSnapshotUnlocked id revision snapshot;
      if negb (current_stopped revision migrated) then mret (migrated, false)
      else if sn_versioned migrated then
        retireLegacyStoppedGenerationSidecarsUnlocked id;; mret (migrated, true)
      else
        classified ← authorizeLegacyDNSCleanupSnapshotUnlocked id revision migrated;
        if negb (current_stopped revision classified) then mret (classified, false)
        else
          (if sn_legacyDNSCleanupPresent classified
           then validateLegacyDNSCleanupSidecarsUnlocked id classified
           else mret tt);;
          mret (classified, true).

Definition stoppedGenerationSchemaVersionUnlocked (id : string) : M (option Z) :=
  snapshot ← readStoppedGenerationTeardownSnapshotUnlocked id;
  mret (sn_version snapshot).
