(* ===== verification/GenerationFacts.v ===== *)
(** What a record and its lifecycle metadata read back as: the decoding of the
    documents [Generation] writes, and the properties every decoded record
    has. *)
From S2P Require Import Prelude GoStrings Json Fs FsLogic Container Net.
From S2P Require Import Ownership Generation.

(** * Members a decoder does not know *)

Definition unknown_to {A} (fields : list (string * setter A))
    (kv : string * json) : Prop := find_field fields (fst kv) = None.

Lemma decode_unknown {A} (fields : list (string * setter A)) l a :
  Forall (unknown_to fields) l → decode_members false fields l a = Ok a.
Proof.
  induction 1 as [|[k v] l Hk _ IH]; [done|]. cbn. unfold unknown_to in Hk.
  cbn in Hk. by rewrite Hk.
Qed.

Lemma unknown_omitempty {A} (fields : list (string * setter A)) b k v :
  find_field fields k = None → Forall (unknown_to fields) (omitempty b k v).
Proof. destruct b; by repeat constructor. Qed.

(** * Decoded values are in range and valid UTF-8 *)

(** A property of the target that every setter of a table keeps. *)
Definition keeps {A} (P : A → Prop) (kf : string * setter A) : Prop :=
  ∀ j a a', P a → snd kf j a = Ok a' → P a'.

Lemma find_field_In {A} (fields : list (string * setter A)) k f :
  find_field fields k = Some f → ∃ k', (k', f) ∈ fields.
Proof.
  assert (Hl : ∀ eq, lookup_key eq k fields = Some f → ∃ k', (k', f) ∈ fields).
  { intros eq H. unfold lookup_key in H.
    destruct (find _ fields) as [[k' f']|] eqn:E; [|done].
    injection H as ->. apply find_some in E as [E _].
    exists k'. by apply list_elem_of_In. }
  unfold find_field. destruct (lookup_key String.eqb k fields) eqn:E; [|eauto].
  intros [= ->]. eauto.
Qed.

Lemma decode_members_keeps {A} (P : A → Prop) strict fields l a a' :
  Forall (keeps P) fields → P a →
  decode_members strict fields l a = Ok a' → P a'.
Proof.
  intros Hf. revert a. induction l as [|[k v] l IH]; cbn; intros a Ha H.
  { by injection H as <-. }
  destruct (find_field fields k) as [f|] eqn:Hk.
  - destruct (f v a) as [a1|] eqn:Hs; [|done]. cbn in H.
    apply find_field_In in Hk as [k' Hin].
    eapply IH; [|exact H]. rewrite Forall_forall in Hf.
    exact (Hf _ Hin _ _ _ Ha Hs).
  - destruct strict; [done|]. cbn in H. eauto.
Qed.

Definition safe_slice (s : slice string) : Prop := Forall json_safe (slice_list s).
Definition opt_time_ok (t : option time) : Prop :=
  match t with None => True | Some t => time_ok t = true end.

(** The properties of every record read from disk. *)
Record good_container (c : Container) : Prop := {
  good_ranges : container_ranges c;
  good_ID : json_safe (ID c);
  good_Status : json_safe (Status c);
  good_Health : json_safe (Health c);
  good_RootFS : json_safe (RootFS c);
  good_Command : safe_slice (Command c);
  good_Hostname : json_safe (Hostname c);
  good_CreatedAt : time_ok (CreatedAt c) = true;
  good_StartedAt : opt_time_ok (StartedAt c);
  good_FinishedAt : opt_time_ok (FinishedAt c);
  good_Env : safe_slice (Env c) }.

Lemma dec_string_safe j old x :
  json_safe old → dec_string j old = Ok x → json_safe x.
Proof.
  destruct j; cbn; try done.
  - by intros ? [= <-].
  - intros ? [= <-]. apply json_safe_coerce.
Qed.
Lemma dec_int_range lo hi j old x :
  lo ≤ old ≤ hi → dec_int lo hi j old = Ok x → lo ≤ x ≤ hi.
Proof.
  intros Ho. unfold dec_int. destruct j; try done.
  - by intros [= <-].
  - destruct (_ && _) eqn:E; [|done]. intros [= <-]. bool_simp. lia.
Qed.
Lemma dec_time_time_ok j old x :
  time_ok old = true → dec_time j old = Ok x → time_ok x = true.
Proof.
  destruct j; cbn; try done; [by intros ? [= <-]|].
  intros _. destruct (time_ok s) eqn:E; [|done]. by intros [= <-].
Qed.
Lemma dec_time_ptr_ok j old x : dec_time_ptr j old = Ok x → opt_time_ok x.
Proof.
  unfold dec_time_ptr. destruct j; cbn; try done.
  - by intros [= <-].
  - destruct (time_ok s) eqn:E; [|done]. by intros [= <-].
Qed.
Lemma dec_list_Forall {A} (P : A → Prop) dec zero l xs :
  P zero → (∀ j old x, P old → dec j old = Ok x → P x) →
  dec_list dec zero l = Ok xs → Forall P xs.
Proof.
  intros Hz Hd. revert xs. induction l as [|j l IH]; cbn; intros xs H.
  { injection H as <-. constructor. }
  destruct (dec j zero) eqn:E; [|done]. cbn in H.
  destruct (dec_list dec zero l) eqn:E2; [|done]. injection H as <-.
  constructor; eauto.
Qed.
Lemma dec_strings_safe j old x : dec_strings j old = Ok x → safe_slice x.
Proof.
  unfold dec_strings, dec_slice. destruct j; try done.
  - intros [= <-]. constructor.
  - destruct (dec_list dec_string "" l) eqn:E; [|done]. intros [= <-].
    eapply dec_list_Forall; [..|exact E]; [done|]. apply dec_string_safe.
Qed.

Lemma good_zero : good_container zero_container.
Proof. split; try done; try constructor; repeat split; vm_compute; done. Qed.

Lemma keeps_field {T} k (dec : json → T → res T) get set :
  (∀ c j x, good_container c → dec j (get c) = Ok x → good_container (set x c)) →
  keeps (λ e : envelope, good_container (fst e)) (k, lift_setter (field dec get set)).
Proof.
  intros H j [c r] a' Hc. unfold lift_setter, field; cbn [fst snd].
  destruct (dec j (get c)) as [x|] eqn:E; [|done]. intros [= <-]. cbn. eauto.
Qed.

Ltac good_set :=
  intros c j x [] H;
  let go := (split; cbn; try done) in
  first
  [ apply dec_string_safe in H; [go|done]
  | apply dec_strings_safe in H; go
  | apply dec_time_time_ok in H; [go|done]
  | apply dec_time_ptr_ok in H; go
  | unfold dec_uint64, dec_int64 in H;
    apply dec_int_range in H; [|unfold container_ranges, in_uint64, in_int64 in *; naive_solver];
    go; unfold container_ranges, in_uint64, in_int64 in *; naive_solver ].

Lemma envelope_keeps_good :
  Forall (keeps (λ e : envelope, good_container (fst e))) envelope_fields.
Proof.
  unfold envelope_fields, container_fields.
  repeat (apply List.Forall_cons || apply List.Forall_nil);
    try (apply keeps_field; good_set).
  intros j e a' He. cbn. by intros [= <-].
Qed.

Lemma unmarshal_good data id c :
  unmarshalContainerStateForID data id = Ok c → good_container c ∧ ID c = id.
Proof.
  unfold unmarshalContainerStateForID, Container_UnmarshalJSON.
  destruct (json_of data) as [j|]; [|done]. cbn.
  destruct (decode_struct _ _ _ _) as [e|] eqn:Hd; [|done]. cbn.
  destruct (check _) as [|]; [|done]. cbn.
  destruct (String.eqb _ _) eqn:Hid; [|done]. intros [= <-].
  split; [|by apply String.eqb_eq]. destruct j; cbn in Hd; try done.
  - injection Hd as <-. apply good_zero.
  - eapply (decode_members_keeps (λ e : envelope, good_container (fst e)));
      [apply envelope_keeps_good| |exact Hd]. apply good_zero.
Qed.

(** * Reading back a written record *)

(** The lifecycle metadata a writer branch leaves, as a snapshot. *)
Definition written_snapshot (c : Container) (require : bool)
    (identity : option exitedIdentity) : teardownSnapshot :=
  match require, identity with
  | true, Some i => mkSnapshot (Status c) (Revision c) (Some 1) (Some 1)
                      (Some true) (Some i) None
  | true, None => mkSnapshot (Status c) (Revision c) None None (Some true) None None
  | false, _ =>
    if String.eqb (Status c) StatusStopped
    then mkSnapshot (Status c) (Revision c) (Some 1) None None None (Some true)
    else mkSnapshot (Status c) (Revision c) (Some 1) None None None None
  end.

Definition good_identity (i : exitedIdentity) : Prop :=
  in_int64 (xi_PID i) ∧ in_uint64 (xi_PIDStartTime i) ∧
  validateExitedIdentity i = None.

Lemma decode_identity_json i :
  good_identity i → decode_identity (identity_json i) = Ok i.
Proof.
  intros (H1 & H2 & _). unfold decode_identity, identity_json. cbn [decode_struct].
  cbn [decode_members].
  change (find_field identity_fields "pid") with
    (Some (field dec_int64 xi_PID (λ x i, mkIdentity x (xi_PIDStartTime i)))).
  change (find_field identity_fields "pid_start_time") with
    (Some (field dec_uint64 xi_PIDStartTime (λ x i, mkIdentity (xi_PID i) x))).
  unfold field, dec_int64, dec_uint64. rewrite dec_int_in by done.
  cbn [mbind res_bind]. rewrite dec_int_in by done. by destruct i.
Qed.

Lemma decode_lifecycle_members status require identity c :
  ∃ raw, decode_members false envelope_fields
      (lifecycle_members status require identity) (c, None) = Ok (c, raw) ∧
    check_state_version raw = None.
Proof.
  destruct require, identity; cbn [lifecycle_members].
  1, 2: eexists; split; reflexivity.
  all: destruct (String.eqb status StatusStopped);
    eexists; split; reflexivity.
Qed.

Lemma record_json_read c extra j id :
  container_ranges c → json_safe (ID c) → ID c = id →
  record_json c extra = Ok j →
  (∃ raw, decode_members false envelope_fields extra (persisted c, None)
     = Ok (persisted c, raw) ∧ check_state_version raw = None) →
  unmarshalContainerStateForID (FJson true j) id = Ok (persisted c).
Proof.
  intros Hr Hs <- Hj (raw & He & Hv). unfold record_json in Hj.
  destruct (container_members c) as [members|] eqn:Hm; [|done].
  injection Hj as <-.
  unfold unmarshalContainerStateForID, Container_UnmarshalJSON. cbn [json_of].
  cbn [mbind res_bind decode_struct].
  rewrite (decode_app_Ok _ _ _ _ _ _ (container_members_decode _ _ Hr Hm)), He.
  cbn [mbind res_bind fst snd]. rewrite Hv. cbn [check mbind res_bind].
  unfold persisted at 1. cbn [ID]. rewrite Hs, String.eqb_refl. done.
Qed.

(** The members of a record, for the lifecycle reader: only the status and the
    revision matter. *)
Lemma members_raw c l :
  container_ranges c → container_members c = Ok l →
  decode_members false raw_fields l zero_raw
  = Ok (mkRaw (utf8_coerce (Status c)) (Revision c) None None None None None).
Proof.
  intros (Hr & _) Hl. unfold container_members in Hl.
  destruct (enc_time (CreatedAt c)) as [created|] eqn:Hct; [|done].
  destruct (enc_time_ptr "started_at" _) as [started|] eqn:Hst; [|done].
  destruct (enc_time_ptr "finished_at" _) as [finished|] eqn:Hfi; [|done].
  cbv beta iota delta [mbind res_bind] in Hl. apply (inj Ok) in Hl as <-.
  assert (Hptr : ∀ k t m, enc_time_ptr k t = Ok m → find_field raw_fields k = None →
    Forall (unknown_to raw_fields) m).
  { intros k [t|] m; cbn; [|by intros [= <-] _; constructor].
    destruct (enc_time t); [|done]. intros [= <-] Hk. by repeat constructor. }
  assert (Hsingle : ∀ k v, find_field raw_fields k = None →
    Forall (unknown_to raw_fields) [(k, v)]) by (by repeat constructor).
  rewrite (decode_app_Ok _ _ _ _ _ _ (decode_unknown _ _ zero_raw (Hsingle "id" _ eq_refl))).
  rewrite (decode_app_Ok _ _ _ _ _ (mkRaw "" (Revision c) None None None None None)).
  2: { destruct (Revision c =? 0) eqn:E; cbn [omitempty].
       - apply Z.eqb_eq in E. by rewrite E.
       - transitivity (a ← (x ← dec_uint64 (JInt (Revision c)) 0;
           Ok (mkRaw "" x None None None None None)); Ok a); [reflexivity|].
         unfold dec_uint64. by rewrite dec_int_in. }
  rewrite (decode_app_Ok _ _ _ _ _ _ (decode_unknown _ _ _ (Hsingle "pid" _ eq_refl))).
  rewrite (decode_app_Ok _ _ _ _ _ _ (decode_unknown _ _ _
    (unknown_omitempty raw_fields _ "pid_start_time" _ eq_refl))).
  rewrite (decode_app_Ok _ _ _ _ _
    (mkRaw (utf8_coerce (Status c)) (Revision c) None None None None None)).
  2: { transitivity (a ← (x ← dec_string (enc_string (Status c)) "";
         Ok (mkRaw x (Revision c) None None None None None)); Ok a); [reflexivity|].
       by rewrite dec_enc_string. }
  apply decode_unknown. repeat apply Forall_app_2.
  - by apply unknown_omitempty.
  - by repeat constructor.
  - by eapply Hptr.
  - by eapply Hptr.
  - by apply Hsingle.
  - by apply unknown_omitempty.
Qed.

Lemma record_json_snapshot c require identity j :
  container_ranges c → json_safe (Status c) →
  (∀ i, identity = Some i → good_identity i) →
  record_json c (lifecycle_members (Status c) require identity) = Ok j →
  (raw ← decode_raw (FJson true j); raw_teardownSnapshot raw)
  = Ok (written_snapshot c require identity).
Proof.
  intros Hr Hs Hi Hj. unfold record_json in Hj.
  destruct (container_members c) as [members|] eqn:Hm; [|done].
  injection Hj as <-. unfold decode_raw. cbn [json_of mbind res_bind decode_struct].
  rewrite (decode_app_Ok _ _ _ _ _ _ (members_raw _ _ Hr Hm)), Hs.
  destruct require, identity as [i|]; cbn [lifecycle_members written_snapshot].
  - transitivity (
      i' ← wrapf "unmarshal embedded exited process identity: %w"
        (decode_identity (identity_json i));
      _ ← check (validateExitedIdentity i');
      Ok (mkSnapshot (Status c) (Revision c) (Some 1) (Some 1) (Some true)
        (Some i') None)).
    { unfold raw_teardownSnapshot. cbn -[decode_identity validateExitedIdentity].
      destruct (decode_identity _); [|done].
      cbn -[validateExitedIdentity]. by destruct (validateExitedIdentity a). }
    pose proof (Hi _ eq_refl) as Hg. rewrite decode_identity_json by done.
    cbn -[validateExitedIdentity]. destruct Hg as (_ & _ & ->). done.
  - reflexivity.
  - destruct (String.eqb (Status c) StatusStopped); reflexivity.
  - destruct (String.eqb (Status c) StatusStopped); reflexivity.
Qed.
