(* ===== verification/Store.v ===== *)
(** The container operations of [state.Store]: state.go, lifecycle.go,
    created_lifecycle.go, delete_lifecycle.go, generation_lock.go, hostname.go,
    close.go, the exported parts of exit_identity.go, cgroup_ownership.go and
    network_ownership.go, and container_stop_signal.go.

    A method runs under the store mutex and, for a mutation, the cross-process
    file lock, so one call is one step of the system.  The values a Go method
    returns beside a non-nil error are zero values and are not represented. *)
From S2P Require Import Prelude GoStrings Json Fs FsLogic Container Net.
From S2P Require Import Ownership Generation.

Open Scope go_scope.

(** The receiver of the methods that check it. *)
Inductive store_ref := NilStore | AStore.
Definition check_store (s : store_ref) : option error :=
  match s with NilStore => Some (Errorf "state store is nil") | AStore => None end.

(** * store_lock_linux.go *)

Definition lockStateFile : M unit :=
  w ← get_world;
  if w_closed w then throw ErrStoreClosed
  else wrapm "lock state store: %w" (sys "flock").
Definition unlockStateFile : M unit :=
  w ← get_world;
  if w_closed w then mret tt
  else wrapm "unlock state store: %w" (sys "flock").
(** [lockStateFile] with the deferred [unlockStateFile]. *)
Definition locked {A} (m : M A) : M A :=
  lockStateFile;; defer unlockStateFile m.
(** A read checks only that the store is open. *)
Definition open_store : M unit :=
  w ← get_world; if w_closed w then throw ErrStoreClosed else mret tt.

(** [Store.Close]: releases the handles; idempotent. *)
Definition Close (s : store_ref) : M unit :=
  match s with
  | NilStore => mret tt
  | AStore =>
    w ← get_world;
    r ← attempt (if w_closed w then mret tt
                 else wrapm "close state lock: %w" (sys "close"));
    modify (with_closed true);;
    match r with Ok _ => mret tt | Fail e => throw e end
  end.

(** * Records (state.go) *)

(** [Save]: the record with its new revision. *)
Definition Save (c : option Container) : M Container :=
  match c with
  | None => throw (Errorf "container state is nil")
  | Some c =>
    ensure (validateID (ID c));;
    locked (saveContainerCASUnlocked c)
  end.

Definition Get (id : string) : M Container :=
  ensure (validateID id);; getUnlocked id.
Definition Load (id : string) : M Container := Get id.

(** The entries of a directory, sorted by name. *)
Definition dir_entries (fs : gmap path node) (d : dirname) : list (string * node) :=
  merge_sort (λ a b : string * node, String.leb (fst a) (fst b))
    (omap (λ pn : path * node,
        if decide (fst (fst pn) = d) then Some (snd (fst pn), snd pn) else None)
      (map_to_list fs)).
Definition os_ReadDir (d : dirname) : M (list (string * node)) :=
  sys "readdir";; w ← get_world; mret (dir_entries (w_fs w) d).

Definition is_dir (n : node) : bool := match n with NDir => true | _ => false end.
(** The identifiers of the ".json" entries that are not directories. *)
Definition json_ids (l : list (string * node)) : list string :=
  omap (λ e : string * node,
    if is_dir (snd e) || negb (String.eqb (path_ext (fst e)) ".json") then None
    else Some (str_take (String.length (fst e) - 5) (fst e))) l.

Definition Resolve (idOrPrefix : string) : M Container :=
  ensure (validateID idOrPrefix);;
  open_store;;
  r ← attempt (getUnlocked idOrPrefix);
  match r with
  | Ok c => mret c
  | Fail exactErr =>
    if negb (errors_Is exactErr ErrNotExist) then
      throw (Wrapf "resolve exact container %q: %w" exactErr)
    else
      entries ← wrapm "read container state dir: %w" (os_ReadDir DCtr);
      match filter (λ id, has_prefix id idOrPrefix) (json_ids entries) with
      | [] => throw (Errorf "no container matched prefix %q")
      | [id] => getUnlocked id
      | _ => throw (Errorf "ambiguous container prefix %q matched multiple IDs (%v)")
      end
  end.

Fixpoint load_all (ids : list string) : M (list Container) :=
  match ids with
  | [] => mret []
  | id :: ids =>
    c ← wrapm "load container state %q: %w" (getUnlocked id);
    cs ← load_all ids;
    mret (c :: cs)
  end.
Definition List_ : M (list Container) :=
  open_store;;
  entries ← wrapm "read container state dir: %w" (os_ReadDir DCtr);
  load_all (json_ids entries).

(** The checks shared by [Delete], [DeleteIfNotRunning] and [MarkRunning]: no
    durable cleanup may be pending. *)
Definition no_pending_ownership (action : string) (id : string) : M unit :=
  ownership ← wrapm ("read pending cgroup ownership before " +:+ action)
                (readCgroupOwnershipUnlocked id);
  ensure (fail_if (bool_decide (is_Some ownership))
    (Errorf "container %s has pending cgroup cleanup for %s (%d/%d)"));;
  network ← wrapm ("read pending network ownership before " +:+ action)
              (readNetworkOwnershipUnlocked id);
  ensure (fail_if (bool_decide (is_Some network))
    (Errorf "container %s has pending network cleanup for %s (%d/%d)")).

Definition Delete (id : string) : M unit :=
  ensure (validateID id);;
  locked (
    no_pending_ownership "deleting container %s: %w" id;;
    removeStateFileDurable (containerPath id) "container state").

(** * lifecycle.go *)

Definition bound_to (c : Container) (pid pidStartTime : Z) : bool :=
  (PID c =? pid)%Z && (PIDStartTime c =? pidStartTime)%Z.

Definition MarkRunning (s : store_ref) (id : string) (pid pidStartTime : Z)
    (startedAt : time) : M unit :=
  ensure (check_store s);;
  ensure (validateID id);;
  ensure (fail_if (pid <=? 0)%Z (Errorf "invalid container PID %d"));;
  ensure (fail_if (pidStartTime =? 0)%Z
    (Errorf "process start time must be non-zero"));;
  locked (
    c ← getUnlocked id;
    ensure (fail_if
      (String.eqb (Status c) StatusRunning && negb (bound_to c pid pidStartTime))
      (Errorf "container %s is already bound to running process %d/%d"));;
    (if negb (String.eqb (Status c) StatusRunning)
     then no_pending_ownership "starting container %s: %w" id else mret tt);;
    let c := set_PID pid c in
    let c := set_PIDStartTime pidStartTime c in
    let c := set_Status StatusRunning c in
    let c := set_StartedAt (Some startedAt) c in
    let c := set_FinishedAt None c in
    let c := set_ExitCode 0 c in
    writeContainerNextRevisionUnlocked c;;
    ignore (clearExitedIdentityUnlocked id)).

Definition MarkStoppedIfIdentity (s : store_ref) (id : string)
    (pid pidStartTime exitCode : Z) (finishedAt : time) : M bool :=
  ensure (check_store s);;
  ensure (validateID id);;
  ensure (fail_if ((pid <=? 0)%Z || (pidStartTime =? 0)%Z)
    (Errorf "invalid process identity %d/%d"));;
  locked (
    c ← getUnlocked id;
    if String.eqb (Status c) StatusStopped then
      if negb (ExitCode c =? -1)%Z || (exitCode =? -1)%Z then mret false
      else
        exited ← wrapm "read exited identity for exit-code reconciliation: %w"
                   (readCurrentExitedIdentityUnlocked id);
        match exited with
        | None => mret false
        | Some exited =>
          if negb (xi_PID exited =? pid)%Z ||
             negb (xi_PIDStartTime exited =? pidStartTime)%Z
          then mret false
          else
            let c := set_FinishedAt (Some finishedAt) c in
            let c := set_ExitCode exitCode c in
            writeContainerNextRevisionUnlocked c;;
            mret true
        end
    else if negb (String.eqb (Status c) StatusRunning) ||
            negb (bound_to c pid pidStartTime)
    then mret false
    else
      let c := set_Status StatusStopped c in
      let c := set_PID 0 c in
      let c := set_PIDStartTime 0 c in
      let c := set_FinishedAt (Some finishedAt) c in
      let c := set_ExitCode exitCode c in
      writeStoppedContainerNextRevisionUnlocked c pid pidStartTime;;
      ignore (clearExitedIdentityUnlocked id);;
      mret true).

(** * created_lifecycle.go *)

Definition MarkStoppedIfCreated (s : store_ref) (id : string) (exitCode : Z)
    (finishedAt : time) : M bool :=
  ensure (check_store s);;
  ensure (validateID id);;
  locked (
    c ← getUnlocked id;
    if negb (String.eqb (Status c) StatusCreated) then mret false
    else
      ensure (fail_if (negb (PID c =? 0)%Z || negb (PIDStartTime c =? 0)%Z)
        (Errorf "created container %s unexpectedly carries process identity %d/%d"));;
      ownership ← wrapm "read cgroup ownership before recording startup failure for container %s: %w"
                    (readCgroupOwnershipUnlocked id);
      ensure (fail_if (bool_decide (is_Some ownership))
        (Errorf "created container %s has cgroup ownership for %s (%d/%d); refusing synthetic stop"));;
      network ← wrapm "read network ownership before recording startup failure for container %s: %w"
                  (readNetworkOwnershipUnlocked id);
      ensure (fail_if (bool_decide (is_Some network))
        (Errorf "created container %s has network ownership for %s (%d/%d); refusing synthetic stop"));;
      exited ← wrapm "read exited identity before recording startup failure for container %s: %w"
                 (readExitedIdentityUnlocked id);
      ensure (fail_if (bool_decide (is_Some exited))
        (Errorf "created container %s has exited-generation identity %d/%d; refusing synthetic stop"));;
      let c := set_Status StatusStopped c in
      let c := set_FinishedAt (Some finishedAt) c in
      let c := set_ExitCode exitCode c in
      writeContainerNextRevisionUnlocked c;;
      mret true).

(** * delete_lifecycle.go *)

Definition DeleteIfNotRunning (s : store_ref) (id : string) : M unit :=
  ensure (check_store s);;
  ensure (validateID id);;
  locked (
    c ← getUnlocked id;
    ensure (fail_if (String.eqb (Status c) StatusRunning)
      (Wrapf "%w: container %s has process %d/%d; refusing deletion"
         ErrContainerRunning));;
    no_pending_ownership "deleting container %s: %w" id;;
    exited ← wrapm "read exited identity before deleting container %s: %w"
               (readExitedIdentityUnlocked id);
    (if bool_decide (is_Some exited)
     then wrapm "clear exited identity before deleting container %s: %w"
            (clearExitedIdentityUnlocked id)
     else mret tt);;
    r ← attempt (removeStateFileDurable (containerPath id) "container state");
    match r, exited with
    | Ok _, _ => mret tt
    | Fail e, None => throw e
    | Fail e, Some exited =>
      restore ← attempt (writeExitedIdentityUnlocked id (xi_PID exited)
                           (xi_PIDStartTime exited));
      match restore with
      | Ok _ => throw e
      | Fail e' => throw (Joined e (Wrapf
          "restore exited identity after failed container deletion: %w" e'))
      end
    end).

(** * generation_lock.go *)

(** The callback runs under the state lock; an unlock failure is joined to its
    error. *)
Definition WithRunningGenerationLocked (s : store_ref) (id : string)
    (pid pidStartTime : Z) (fn : option (M unit)) : M unit :=
  ensure (check_store s);;
  ensure (validateID id);;
  ensure (fail_if ((pid <=? 0)%Z || (pidStartTime =? 0)%Z)
    (Errorf "container %s has invalid process generation %d/%d"));;
  match fn with
  | None => throw (Errorf "running generation callback is nil")
  | Some fn =>
    open_store;;
    lockStateFile;;
    result ← attempt (
      current ← wrapm "load current container %s under generation lock: %w"
                  (getUnlocked id);
      ensure (fail_if (negb (String.eqb (Status current) StatusRunning) ||
                       negb (bound_to current pid pidStartTime))
        (Errorf "container %s running generation changed: expected %d/%d, found status=%s generation=%d/%d"));;
      fn);
    unlock ← attempt unlockStateFile;
    match errors_Join (match result with Ok _ => None | Fail e => Some e end)
                      (match unlock with Ok _ => None | Fail e => Some e end) with
    | None => mret tt
    | Some e => throw e
    end
  end.

(** * hostname.go *)

Definition SetHostnameIfNotRunning (s : store_ref) (id hostname : string) : M unit :=
  ensure (check_store s);;
  ensure (validateID id);;
  ensure (fail_if (String.eqb hostname "") (Errorf "hostname cannot be empty"));;
  locked (
    c ← getUnlocked id;
    if String.eqb (Status c) StatusRunning then
      throw (Errorf "container %s is running; stop it before renaming")
    else if negb (String.eqb (Status c) StatusCreated) &&
            negb (String.eqb (Status c) StatusStopped) then
      throw (Errorf "container %s has unknown lifecycle status %q; refusing rename")
    else if String.eqb (Hostname c) hostname then mret tt
    else
      wrapm "persist hostname for container %s: %w"
        (writeContainerNextRevisionUnlocked (set_Hostname hostname c));;
      mret tt).

(** * Ownership proofs: cgroup_ownership.go, network_ownership.go *)

Definition GetCgroupOwnership (s : store_ref) (id : string)
    : M (option CgroupOwnership) :=
  ensure (check_store s);;
  ensure (validateID id);;
  open_store;;
  readCgroupOwnershipUnlocked id.

Definition MarkCgroupOwnedIfIdentity (s : store_ref) (id : string)
    (pid pidStartTime : Z) (name : string) : M unit :=
  ensure (check_store s);;
  ensure (validateID id);;
  let ownership := mkCgroup name pid pidStartTime in
  ensure (validateCgroupOwnership ownership);;
  locked (
    c ← getUnlocked id;
    ensure (fail_if (negb (String.eqb (Status c) StatusRunning) ||
                     negb (bound_to c pid pidStartTime))
      (Errorf "container %s is not bound to process %d/%d while recording cgroup ownership"));;
    existing ← readCgroupOwnershipUnlocked id;
    match existing with
    | Some existing =>
      if bool_decide (existing = ownership) then mret tt
      else throw (Errorf "container %s already has pending cgroup ownership for %s (%d/%d)")
    | None => writeCgroupOwnershipUnlocked id ownership
    end).

Definition ClearCgroupOwnershipIfMatch (s : store_ref) (id : string)
    (ownership : CgroupOwnership) : M bool :=
  ensure (check_store s);;
  ensure (validateID id);;
  ensure (validateCgroupOwnership ownership);;
  locked (
    existing ← readCgroupOwnershipUnlocked id;
    if bool_decide (existing = Some ownership) then
      c ← getUnlocked id;
      ensure (fail_if (String.eqb (Status c) StatusRunning)
        (Errorf "refusing to clear cgroup ownership for running container %s"));;
      clearCgroupOwnershipUnlocked id;;
      mret true
    else mret false).

Definition GetNetworkOwnership (s : store_ref) (id : string)
    : M (option NetworkOwnership) :=
  ensure (check_store s);;
  ensure (validateID id);;
  open_store;;
  readNetworkOwnershipUnlocked id.

Definition MarkNetworkOwnedIfIdentity (s : store_ref) (id : string)
    (ownership : NetworkOwnership) : M unit :=
  ensure (check_store s);;
  ensure (validateID id);;
  ensure (validateNetworkOwnership ownership);;
  locked (
    c ← getUnlocked id;
    ensure (fail_if (negb (String.eqb (Status c) StatusRunning) ||
        negb (bound_to c (no_PID ownership) (no_PIDStartTime ownership)))
      (Errorf "container %s is not bound to process %d/%d while recording network ownership"));;
    existing ← readNetworkOwnershipUnlocked id;
    match existing with
    | Some existing =>
      if networkOwnershipEqual existing ownership then mret tt
      else throw (Errorf "container %s already has pending network ownership for %s (%d/%d)")
    | None => writeNetworkOwnershipUnlocked id ownership
    end).

Definition ClearNetworkOwnershipIfMatch (s : store_ref) (id : string)
    (ownership : NetworkOwnership) : M bool :=
  ensure (check_store s);;
  ensure (validateID id);;
  ensure (validateNetworkOwnership ownership);;
  locked (
    existing ← readNetworkOwnershipUnlocked id;
    match existing with
    | None => mret false
    | Some existing =>
      if negb (networkOwnershipEqual existing ownership) then mret false
      else
        c ← getUnlocked id;
        ensure (fail_if (String.eqb (Status c) StatusRunning &&
            negb (bound_to c (no_PID ownership) (no_PIDStartTime ownership)))
          (Errorf "refusing to clear network ownership for stale generation %d/%d while container %s runs as %d/%d"));;
        clearNetworkOwnershipUnlocked id;;
        mret true
    end).

(** * exit_identity.go *)

Definition GetExitedIdentity (s : store_ref) (id : string)
    : M (option exitedIdentity) :=
  ensure (check_store s);;
  ensure (validateID id);;
  locked (readCurrentExitedIdentityUnlocked id).

(** The answer of the revision-bound queries: [current] says that the queried
    revision is still the stopped one. *)
Record identity_answer := mkAnswer {
  an_identity : option exitedIdentity; (* pid, pidStartTime when ok *)
  an_current : bool;
  an_required : bool }.

Definition GetExitedIdentityForStoppedRevision (s : store_ref) (id : string)
    (revision : Z) : M identity_answer :=
  ensure (check_store s);;
  ensure (validateID id);;
  locked (
    '(snapshot, current) ←
      readStoppedGenerationTeardownSnapshotForRevisionUnlocked id revision;
    if negb current then mret (mkAnswer None false false)
    else match sn_identity snapshot with
    | Some i =>
      ensure (fail_if (negb (sn_requirementPresent snapshot) ||
                       negb (sn_capability snapshot))
        (Errorf "persisted exit identity exists without required lifecycle capability"));;
      mret (mkAnswer (Some i) true false)
    | None =>
      ensure (fail_if (sn_versioned snapshot)
        (Errorf "versioned stopped generation is missing embedded exit identity"));;
      identity ← readExitedIdentityUnlocked id;
      mret (mkAnswer identity true false)
    end).

Definition GetStoppedExitIdentityPolicy (s : store_ref) (id : string)
    (revision : Z) : M identity_answer :=
  ensure (check_store s);;
  ensure (validateID id);;
  locked (
    '(snapshot, current) ←
      readStoppedGenerationTeardownSnapshotForRevisionUnlocked id revision;
    if negb current then mret (mkAnswer None false false)
    else if sn_versioned snapshot then
      ensure (fail_if (negb (sn_requirementPresent snapshot) ||
                       negb (sn_capability snapshot))
        (Errorf "versioned stopped generation is missing required exit identity capability"));;
      match sn_identity snapshot with
      | None => throw (Errorf "versioned stopped generation is missing embedded exit identity")
      | Some i => mret (mkAnswer (Some i) true true)
      end
    else match sn_identity snapshot with
    | Some i =>
      ensure (fail_if (negb (sn_requirementPresent snapshot) ||
                       negb (sn_capability snapshot))
        (Errorf "persisted exit identity exists without required lifecycle capability"));;
      mret (mkAnswer (Some i) true true)
    | None =>
      identity ← readExitedIdentityUnlocked id;
      match identity with
      | Some i => mret (mkAnswer (Some i) true true)
      | None =>
        if sn_requirementPresent snapshot then
          mret (mkAnswer None true (sn_capability snapshot))
        else
          required ← exitedIdentityRequiredUnlocked id;
          mret (mkAnswer None true required)
      end
    end).

(** [(current, required)] *)
Definition StoppedRevisionRequiresExitedIdentity (s : store_ref) (id : string)
    (revision : Z) : M (bool * bool) :=
  ensure (check_store s);;
  ensure (validateID id);;
  locked (
    '(snapshot, current) ←
      readStoppedGenerationTeardownSnapshotForRevisionUnlocked id revision;
    if negb current then mret (false, false)
    else if sn_versioned snapshot then
      ensure (fail_if (negb (sn_requirementPresent snapshot) ||
                       negb (sn_capability snapshot))
        (Errorf "versioned stopped generation is missing required exit identity capability"));;
      mret (true, true)
    else if sn_requirementPresent snapshot then mret (true, sn_capability snapshot)
    else
      required ← exitedIdentityRequiredUnlocked id;
      mret (true, required)).

(** * container_stop_signal.go *)

Definition defaultContainerStopSignal : string := "SIGTERM".
Definition stopSignalPath (id : string) : path := (DCtr, id +:+ ".stop-signal").

Definition SaveContainerStopSignal (id signal : string) : M unit :=
  ensure (validateID id);;
  let signal := trim_space signal in
  ensure (fail_if (String.eqb signal "")
    (Errorf "container stop signal cannot be empty"));;
  locked (atomicWriteFile (stopSignalPath id)
            (FText (signal +:+ str1 (chr 10)))).

Definition ContainerStopSignal (id : string) : M string :=
  ensure (validateID id);;
  open_store;;
  data ← read_optional "read container stop signal: %w" (stopSignalPath id);
  match data with
  | None => mret defaultContainerStopSignal
  | Some data =>
    let signal := trim_space (data_text data) in
    ensure (fail_if (String.eqb signal "")
      (Errorf "container %s has empty persisted stop signal"));;
    mret signal
  end.
