(* ===== verification/StoreFacts.v ===== *)
(** Specifications of the building blocks of the store operations, for every
    fault schedule: reads of a record, of its teardown snapshot and of its
    sidecars, and writes of a record revision. *)
From S2P Require Import Prelude GoStrings Json Fs FsLogic Container Net.
From S2P Require Import Ownership Generation GenerationFacts Store.

(** * File names of one container are apart *)

Fixpoint last_bytes (n : nat) (s : string) : string :=
  match s with
  | "" => ""
  | String c s' => if (String.length s <=? n)%nat then s else last_bytes n s'
  end.
Lemma last_bytes_app a s : last_bytes (String.length s) (a +:+ s) = s.
Proof.
  induction a as [|c a IH].
  - rewrite string_app_nil_l. destruct s as [|d s]; [done|].
    cbn [last_bytes]. by rewrite Nat.leb_refl.
  - rewrite string_app_cons. cbn [last_bytes].
    destruct (_ <=? _)%nat eqn:E; [|done].
    apply Nat.leb_le in E. cbn [String.length] in E.
    rewrite string_length_app in E. lia.
Qed.
Lemma last_bytes_le n a s :
  (n ≤ String.length s)%nat → last_bytes n (a +:+ s) = last_bytes n s.
Proof.
  intros Hn. induction a as [|c a IH]; [done|].
  rewrite string_app_cons. cbn [last_bytes].
  destruct (_ <=? n)%nat eqn:E; [|done].
  apply Nat.leb_le in E. cbn [String.length] in E.
  rewrite string_length_app in E. lia.
Qed.

Lemma suffix_ne (n : nat) a b s t :
  (n ≤ String.length s)%nat → (n ≤ String.length t)%nat →
  last_bytes n s ≠ last_bytes n t → a +:+ s ≠ b +:+ t.
Proof.
  intros Hs Ht Hne H. apply Hne. by rewrite <- (last_bytes_le n a s), H, last_bytes_le.
Qed.

(** Decides [p ≠ q] for two file names of containers with different
    suffixes. *)
Ltac path_ne :=
  let H := fresh in
  intros H; injection H; clear H; intros H; revert H;
  first [ apply (suffix_ne 2); [cbn; lia|cbn; lia|done]
        | intros H; by apply string_app_inj_r in H ].

Lemma containerPath_inj id id' : containerPath id = containerPath id' → id = id'.
Proof. intros [= H]. by apply string_app_inj_r in H. Qed.

(** * What the disk says about a container *)

Definition record_at (w : world) (id : string) : option Container :=
  match regular_at w (containerPath id) with
  | Some d => match unmarshalContainerStateForID d id with
      | Ok c => Some c | Fail _ => None end
  | None => None
  end.
Definition snapshot_at (w : world) (id : string) : option teardownSnapshot :=
  match regular_at w (containerPath id) with
  | Some d => match raw ← decode_raw d; raw_teardownSnapshot raw with
      | Ok s => Some s | Fail _ => None end
  | None => None
  end.
Definition cgroup_at (w : world) (id : string) : option CgroupOwnership :=
  match regular_at w (cgroupOwnershipPath id) with
  | Some d => match decodeCgroupOwnership id d with
      | Ok o => Some o | Fail _ => None end
  | None => None
  end.
Definition network_at (w : world) (id : string) : option NetworkOwnership :=
  match regular_at w (networkOwnershipPath id) with
  | Some d => match decodeNetworkOwnership id d with
      | Ok o => Some o | Fail _ => None end
  | None => None
  end.

(** Two worlds with the same entry at [p]. *)
Definition same_at (p : path) (w w' : world) : Prop := w_fs w' !! p = w_fs w !! p.

Lemma same_at_regular p w w' : same_at p w w' → regular_at w' p = regular_at w p.
Proof. unfold same_at, regular_at. by intros ->. Qed.
Lemma same_same_at p w w' : same w w' → same_at p w w'.
Proof. intros [H _]. unfold same_at. by rewrite H. Qed.

Lemma record_at_same id w w' :
  same_at (containerPath id) w w' → record_at w' id = record_at w id.
Proof. intros H. unfold record_at. by rewrite (same_at_regular _ _ _ H). Qed.
Lemma snapshot_at_same id w w' :
  same_at (containerPath id) w w' → snapshot_at w' id = snapshot_at w id.
Proof. intros H. unfold snapshot_at. by rewrite (same_at_regular _ _ _ H). Qed.
Lemma cgroup_at_same id w w' :
  same_at (cgroupOwnershipPath id) w w' → cgroup_at w' id = cgroup_at w id.
Proof. intros H. unfold cgroup_at. by rewrite (same_at_regular _ _ _ H). Qed.
Lemma network_at_same id w w' :
  same_at (networkOwnershipPath id) w w' → network_at w' id = network_at w id.
Proof. intros H. unfold network_at. by rewrite (same_at_regular _ _ _ H). Qed.

Lemma record_at_good w id c :
  record_at w id = Some c → good_container c ∧ ID c = id.
Proof.
  unfold record_at. destruct (regular_at _ _); [|done].
  destruct (unmarshalContainerStateForID _ _) eqn:E; [|done].
  intros [= <-]. by eapply unmarshal_good.
Qed.
Lemma record_at_present w id c :
  record_at w id = Some c → is_Some (w_fs w !! containerPath id).
Proof. unfold record_at, regular_at. destruct (w_fs w !! _); eauto. done. Qed.

(** * Errors of decoders never look like a missing file *)

Definition clean_err (e : error) : Prop := errors_Is e ErrNotExist = false.
Definition clean {A} (r : res A) : Prop := ∀ e, r = Fail e → clean_err e.

Lemma clean_Ok {A} (a : A) : clean (Ok a).
Proof. done. Qed.
Lemma clean_Errorf {A} msg : clean (@Fail A (Errorf msg)).
Proof. by intros e [= <-]. Qed.
Lemma clean_bind {A B} (r : res A) (k : A → res B) :
  clean r → (∀ a, r = Ok a → clean (k a)) → clean (r ≫= k).
Proof. intros Hr Hk. destruct r as [a|e]; cbn; [by apply Hk|]. intros e' [= <-]. by apply Hr. Qed.
Lemma clean_wrapf {A} msg (r : res A) : clean r → clean (wrapf msg r).
Proof. intros Hr. destruct r as [a|e]; cbn; [done|]. intros e' [= <-]. by apply (Hr e). Qed.
Lemma clean_check_fail_if b msg : clean (check (fail_if b (Errorf msg))).
Proof. destruct b; cbn; [apply clean_Errorf|done]. Qed.
Lemma clean_type_error {A} : clean (@type_error A).
Proof. apply clean_Errorf. Qed.

Create HintDb clean discriminated.
#[export] Hint Resolve clean_Ok clean_Errorf clean_bind clean_wrapf
  clean_check_fail_if clean_type_error : clean.

Lemma clean_json_of d : clean (json_of d).
Proof. destruct d; cbn; auto with clean. Qed.
Lemma clean_dec_int lo hi j z : clean (dec_int lo hi j z).
Proof. unfold dec_int. destruct j; auto with clean. destruct (_ && _); auto with clean. Qed.
Lemma clean_dec_string j z : clean (dec_string j z).
Proof. destruct j; cbn; auto with clean. Qed.
Lemma clean_dec_bool j z : clean (dec_bool j z).
Proof. destruct j; cbn; auto with clean. Qed.
#[export] Hint Resolve clean_json_of clean_dec_int clean_dec_string clean_dec_bool
  : clean.

Lemma clean_decode_members {A} (fields : list (string * setter A)) l a :
  Forall (λ kf, ∀ j a, clean (snd kf j a)) fields →
  clean (decode_members false fields l a).
Proof.
  intros Hf. revert a. induction l as [|[k v] l IH]; intros a; cbn; [done|].
  apply clean_bind; [|auto]. destruct (find_field fields k) as [f|] eqn:Hk; [|done].
  apply find_field_In in Hk as [k' Hin]. rewrite Forall_forall in Hf.
  exact (Hf _ Hin v a).
Qed.
Lemma clean_decode_struct {A} (fields : list (string * setter A)) j a :
  Forall (λ kf, ∀ j a, clean (snd kf j a)) fields →
  clean (decode_struct false fields j a).
Proof.
  intros Hf. destruct j; cbn; auto with clean. by apply clean_decode_members.
Qed.

Lemma clean_decode_raw d : clean (decode_raw d).
Proof.
  unfold decode_raw. apply clean_wrapf, clean_bind; [apply clean_json_of|].
  intros j _. apply clean_decode_struct. unfold raw_fields.
  repeat constructor; intros; unfold dec_uint64; cbn [snd]; auto with clean.
Qed.

Lemma clean_check e : (∀ e', e = Some e' → clean_err e') → clean (check e).
Proof. destruct e; cbn; intros H; [|done]. intros e' [= <-]. by apply H. Qed.
Lemma clean_validateExitedIdentity i e :
  validateExitedIdentity i = Some e → clean_err e.
Proof. intros [_ <-]%fail_if_Some. done. Qed.
Lemma clean_validateID id e : validateID id = Some e → clean_err e.
Proof.
  unfold validateID. repeat case_match; try by intros [= <-].
  by intros [_ <-]%fail_if_Some.
Qed.

Lemma clean_dec_version cur raw : clean (dec_version cur raw).
Proof.
  destruct raw; cbn; [|done]. apply clean_bind;
    [apply clean_wrapf; unfold dec_uint32; auto with clean|].
  intros v _. repeat case_match; auto with clean.
Qed.
Lemma clean_dec_flag msg raw : clean (dec_flag msg raw).
Proof.
  destruct raw; cbn; [|done]. apply clean_bind; [auto with clean|].
  intros []; auto with clean.
Qed.
Lemma clean_decode_identity j : clean (decode_identity j).
Proof.
  apply clean_decode_struct. unfold identity_fields.
  repeat constructor; intros; unfold field, dec_int64, dec_uint64; cbn [snd];
    auto with clean.
Qed.

Lemma clean_raw_teardownSnapshot raw : clean (raw_teardownSnapshot raw).
Proof.
  unfold raw_teardownSnapshot. apply clean_bind; [apply clean_dec_version|].
  intros sv _. apply clean_bind; [apply clean_dec_version|].
  intros v _. apply clean_bind; [apply clean_dec_flag|].
  intros r _. apply clean_bind.
  { destruct (raw_exitIdentity raw) as [[]|]; auto with clean.
    all: apply clean_bind; [apply clean_wrapf, clean_decode_identity|];
      intros i _; apply clean_bind; [|done];
      apply clean_check, clean_validateExitedIdentity. }
  intros i _. apply clean_bind; [apply clean_dec_flag|].
  intros l _. apply clean_bind; [apply clean_check_fail_if|done].
Qed.

(** * Reads *)

Lemma wp_getUnlocked id Q w :
  (∀ w' c, same w w' → record_at w id = Some c → Q (Ret c) w') →
  (∀ w' o, same w w' → (∃ e, o = Err e) ∨ o = Crash → Q o w') →
  wp (getUnlocked id) Q w.
Proof.
  intros HR HE. unfold getUnlocked. do 2 wp_step.
  destruct (w_closed w); [wp_step; apply HE; eauto|].
  do 2 wp_step. apply wp_readRegularStateFile.
  - intros w' d Hs Hd. wp_step.
    + apply HR; [done|]. unfold record_at. rewrite Hd.
      apply wrapf_Ok in H. by rewrite H.
    + apply HE; eauto.
  - intros w' e Hs He. destruct (errors_Is e ErrNotExist); wp_step; apply HE; eauto.
  - intros w' Hs. apply HE; eauto.
Qed.

Lemma wp_readSnapshot id Q w :
  (∀ w' s, same w w' → snapshot_at w id = Some s → Q (Ret s) w') →
  (∀ w' e, same w w' →
     (errors_Is e ErrNotExist = true → w_fs w !! containerPath id = None) →
     Q (Err e) w') →
  (∀ w', same w w' → Q Crash w') →
  wp (readStoppedGenerationTeardownSnapshotUnlocked id) Q w.
Proof.
  intros HR HE HC. unfold readStoppedGenerationTeardownSnapshotUnlocked,
    readStoppedGenerationLifecycleSnapshotUnlocked.
  assert (Hclean : ∀ w' e, same w w' → clean_err e → Q (Err e) w').
  { intros w' e Hs He. apply HE; [done|]. by rewrite He. }
  do 3 wp_step; [|apply Hclean; [done|by eapply clean_validateID]].
  wp_step. apply wp_readRegularStateFile.
  - intros w' d Hs Hd. wp_step.
    + wp_step; [|apply Hclean; [done|by eapply clean_raw_teardownSnapshot]].
      apply HR; [done|]. unfold snapshot_at. rewrite Hd, H0. cbn. by rewrite H1.
    + apply Hclean; [done|by eapply clean_decode_raw].
  - intros w' e Hs He. apply HE; [done|]. intros Hn. by apply He in Hn as [? _].
  - done.
Qed.

(** A sidecar read: absence is an answer. *)
Lemma wp_read_optional msg p Q w :
  (∀ w', same w w' → w_fs w !! p = None → Q (Ret None) w') →
  (∀ w' d, same w w' → regular_at w p = Some d → Q (Ret (Some d)) w') →
  (∀ w' o, same w w' → (∃ e, o = Err e) ∨ o = Crash → Q o w') →
  wp (read_optional msg p) Q w.
Proof.
  intros HN HR HE. unfold read_optional. do 2 wp_step.
  apply wp_readRegularStateFile.
  - intros w' d Hs Hd. wp_step. by apply HR.
  - intros w' e Hs He. destruct (errors_Is e ErrNotExist) eqn:E; wp_step.
    + apply HN; [done|]. by apply He.
    + apply HE; eauto.
  - intros w' Hs. apply HE; eauto.
Qed.

Section sidecar_reads.
Context (id : string) (w : world).

Lemma wp_readCgroup Q :
  (∀ w', same w w' → w_fs w !! cgroupOwnershipPath id = None →
     Q (Ret None) w') →
  (∀ w' o, same w w' → cgroup_at w id = Some o → Q (Ret (Some o)) w') →
  (∀ w' o, same w w' → (∃ e, o = Err e) ∨ o = Crash → Q o w') →
  wp (readCgroupOwnershipUnlocked id) Q w.
Proof.
  intros HN HR HE. unfold readCgroupOwnershipUnlocked.
  do 2 wp_step; [|apply HE; eauto]. wp_step. apply wp_read_optional.
  - intros w' Hs Hp. wp_step. by apply HN.
  - intros w' d Hs Hd. do 2 wp_step; [wp_step; apply HR; [done|]|apply HE; eauto].
    unfold cgroup_at. by rewrite Hd, H0.
  - intros w' o Hs [[e ->]| ->]; apply HE; eauto.
Qed.

Lemma wp_readNetwork Q :
  (∀ w', same w w' → w_fs w !! networkOwnershipPath id = None →
     Q (Ret None) w') →
  (∀ w' o, same w w' → network_at w id = Some o → Q (Ret (Some o)) w') →
  (∀ w' o, same w w' → (∃ e, o = Err e) ∨ o = Crash → Q o w') →
  wp (readNetworkOwnershipUnlocked id) Q w.
Proof.
  intros HN HR HE. unfold readNetworkOwnershipUnlocked.
  do 2 wp_step; [|apply HE; eauto]. wp_step. apply wp_read_optional.
  - intros w' Hs Hp. wp_step. by apply HN.
  - intros w' d Hs Hd. do 2 wp_step; [wp_step; apply HR; [done|]|apply HE; eauto].
    unfold network_at. by rewrite Hd, H0.
  - intros w' o Hs [[e ->]| ->]; apply HE; eauto.
Qed.

Lemma wp_readExited Q :
  (∀ w', same w w' → w_fs w !! exitedIdentityPath id = None →
     Q (Ret None) w') →
  (∀ w' i, same w w' → is_Some (w_fs w !! exitedIdentityPath id) →
     validateExitedIdentity i = None → Q (Ret (Some i)) w') →
  (∀ w' o, same w w' → (∃ e, o = Err e) ∨ o = Crash → Q o w') →
  wp (readExitedIdentityUnlocked id) Q w.
Proof.
  intros HN HR HE. unfold readExitedIdentityUnlocked.
  do 2 wp_step; [|apply HE; eauto]. wp_step. apply wp_read_optional.
  - intros w' Hs Hp. wp_step. by apply HN.
  - intros w' d Hs Hd. do 2 wp_step; [|apply HE; eauto].
    do 2 wp_step; [wp_step; apply HR|apply HE; eauto]; try done.
    unfold regular_at in Hd. destruct (w_fs w !! _); [eauto|done].
  - intros w' o Hs [[e ->]| ->]; apply HE; eauto.
Qed.

Lemma wp_readExitedRequired Q :
  (∀ w', same w w' → w_fs w !! exitedIdentityRequiredPath id = None →
     Q (Ret false) w') →
  (∀ w', same w w' → is_Some (w_fs w !! exitedIdentityRequiredPath id) →
     Q (Ret true) w') →
  (∀ w' o, same w w' → (∃ e, o = Err e) ∨ o = Crash → Q o w') →
  wp (exitedIdentityRequiredUnlocked id) Q w.
Proof.
  intros HN HR HE. unfold exitedIdentityRequiredUnlocked.
  do 2 wp_step; [|apply HE; eauto]. wp_step. apply wp_read_optional.
  - intros w' Hs Hp. wp_step. by apply HN.
  - intros w' d Hs Hd. do 2 wp_step; [wp_step; apply HR|apply HE; eauto]; [done|].
    unfold regular_at in Hd. destruct (w_fs w !! _); [eauto|done].
  - intros w' o Hs [[e ->]| ->]; apply HE; eauto.
Qed.
End sidecar_reads.

(** * Writes *)

(** [w'] is [w] with the record of [id] replaced by [c] and the lifecycle
    metadata of the given writer branch. *)
Record written (id : string) (c : Container) (require : bool)
    (identity : option exitedIdentity) (w w' : world) : Prop := {
  wr_others : ∀ q, q ≠ containerPath id → same_at q w w';
  wr_closed : w_closed w' = w_closed w;
  wr_record : record_at w' id = Some (persisted c);
  wr_snapshot : snapshot_at w' id = Some (written_snapshot c require identity) }.

Lemma same_written id c r i w w' w'' :
  same w w' → written id c r i w' w'' → written id c r i w w''.
Proof.
  intros [H1 H2] []. split; try done; [|congruence].
  intros q Hq. unfold same_at in *. rewrite <- H1. auto.
Qed.
Lemma written_same id c r i w w' w'' :
  written id c r i w w' → same w' w'' → written id c r i w w''.
Proof.
  intros [] Hs. split.
  - intros q Hq. unfold same_at in *. rewrite (proj1 Hs). auto.
  - destruct Hs. congruence.
  - by rewrite (record_at_same _ _ _ (same_same_at _ _ _ Hs)).
  - by rewrite (snapshot_at_same _ _ _ (same_same_at _ _ _ Hs)).
Qed.

Lemma wp_writePolicy c revision require identity Q w :
  container_ranges (set_Revision revision c) →
  json_safe (ID c) → json_safe (Status c) →
  (∀ i, identity = Some i → in_int64 (xi_PID i) ∧ in_uint64 (xi_PIDStartTime i)) →
  let c' := set_Revision revision c in
  (∀ w', written (ID c) c' require identity w w' → Q (Ret c') w') →
  (∀ w' o, same w w' ∨ written (ID c) c' require identity w w' →
     (∃ e, o = Err e) ∨ o = Crash → Q o w') →
  wp (writeContainerRevisionWithExitPolicyUnlocked c revision require identity) Q w.
Proof.
  intros Hr Hid Hst Hi c' HR HE.
  unfold writeContainerRevisionWithExitPolicyUnlocked. fold c'.
  do 2 wp_step; [|apply HE; eauto]. do 2 wp_step; [|apply HE; eauto].
  apply wrapf_Ok in H0. do 2 wp_step; [|apply HE; eauto].
  unfold validateStateFileWrite in H1. apply fail_if_None in H1.
  assert (Hw : ∀ w', updated (containerPath (ID c)) (Some (NFile (FJson true a) 1)) w w' →
    written (ID c) c' require identity w w').
  { intros w' Hu.
    assert (Hreg : regular_at w' (containerPath (ID c)) = Some (FJson true a)).
    { unfold regular_at. rewrite (updated_lookup _ _ _ _ Hu).
      cbn [orb]. change (1 <? 1) with false. cbn [orb]. by rewrite H1. }
    split.
    - intros q Hq. by eapply updated_lookup_ne.
    - apply Hu.
    - unfold record_at. rewrite Hreg.
      rewrite (record_json_read c' _ _ (ID c) Hr Hid eq_refl H0); [done|].
      apply decode_lifecycle_members.
    - unfold snapshot_at. rewrite Hreg.
      rewrite (record_json_snapshot c' require identity a Hr Hst); [done| |done].
      intros i ->. destruct (Hi i eq_refl). split_and!; try done.
      by apply err_first_None in H as [_ ?]. }
  wp_step. apply wp_atomicWriteFile.
  - intros w' Hu. wp_step. by apply HR, Hw.
  - intros w' o [Hs|Hu] [[e ->]| ->]; apply HE; eauto.
Qed.

(** The writer branch [writeContainerRevisionUnlocked] takes for a stopped
    record: the capability and identity that are on disk. *)
Definition kept_policy (w : world) (id : string) (require : bool)
    (identity : option exitedIdentity) : Prop :=
  (w_fs w !! containerPath id = None ∧ require = false ∧ identity = None) ∨
  ∃ s, snapshot_at w id = Some s ∧ identity = sn_identity s ∧
       require = sn_capability s ∧ (is_Some identity → require = true).

Lemma kept_policy_same w w' id r i :
  same w w' → kept_policy w' id r i → kept_policy w id r i.
Proof.
  intros Hs. unfold kept_policy.
  rewrite (snapshot_at_same _ _ _ (same_same_at _ _ _ Hs)), (proj1 Hs). done.
Qed.

Lemma identity_fields_keep :
  Forall (keeps (λ i, in_int64 (xi_PID i) ∧ in_uint64 (xi_PIDStartTime i)))
    identity_fields.
Proof.
  repeat (apply List.Forall_cons || apply List.Forall_nil).
  all: intros j a a' [] Hj; cbn in Hj; unfold field, dec_int64, dec_uint64 in Hj;
    (destruct (dec_int _ _ _ _) eqn:E; [|done]); injection Hj as <-;
    apply dec_int_range in E; done.
Qed.

Lemma snapshot_identity_good w id s i :
  snapshot_at w id = Some s → sn_identity s = Some i → good_identity i.
Proof.
  unfold snapshot_at. destruct (regular_at _ _) as [f|]; [|done].
  destruct (raw ← decode_raw f; raw_teardownSnapshot raw) as [s'|] eqn:H; [|done].
  intros [= <-] Hid. apply res_bind_Ok in H as (raw & _ & H).
  unfold raw_teardownSnapshot in H.
  apply res_bind_Ok in H as (sv & _ & H). apply res_bind_Ok in H as (v & _ & H).
  apply res_bind_Ok in H as (r & _ & H). apply res_bind_Ok in H as (oi & Hi & H).
  apply res_bind_Ok in H as (l & _ & H). apply res_bind_Ok in H as ([] & _ & H).
  injection H as <-. cbn in Hid. subst oi.
  assert (Hd : ∃ j, decode_identity j = Ok i ∧ validateExitedIdentity i = None).
  { destruct (raw_exitIdentity raw) as [j|]; [|done].
    destruct j; try done.
    all: destruct (decode_identity _) as [i'|] eqn:E; cbn -[validateExitedIdentity] in Hi;
      [|done].
    all: destruct (validateExitedIdentity i') eqn:Ev; [done|].
    all: injection Hi as <-; eauto. }
  destruct Hd as (j & Hd & Hv). unfold decode_identity in Hd.
  assert (Hg : in_int64 (xi_PID i) ∧ in_uint64 (xi_PIDStartTime i)).
  { destruct j; cbn in Hd; try done.
    - injection Hd as <-. by repeat split.
    - eapply (decode_members_keeps (λ i, in_int64 (xi_PID i) ∧ in_uint64 (xi_PIDStartTime i)));
        [apply identity_fields_keep| |exact Hd]. by repeat split. }
  destruct Hg. by split.
Qed.

Lemma wp_or_missing {A} (zero : A) (m : M A) Q w :
  wp m (λ o w', match o with
    | Ret a => Q (Ret a) w'
    | Err e => if errors_Is e ErrNotExist then Q (Ret zero) w' else Q (Err e) w'
    | Crash => Q Crash w' end) w →
  wp (or_missing zero m) Q w.
Proof.
  intros H. unfold or_missing. do 2 wp_step. eapply wp_conseq; [exact H|].
  intros [a|e|] w' HQ; [by wp_step| |done].
  destruct (errors_Is e ErrNotExist); by wp_step.
Qed.

Lemma wp_keep_policy id Q w :
  (∀ w' requirement identity, same w w' →
     (is_Some identity → requirement = Some true) ∨ True →
     ((w_fs w !! containerPath id = None ∧ requirement = None ∧ identity = None) ∨
      ∃ s, snapshot_at w id = Some s ∧ requirement = sn_required s ∧
           identity = sn_identity s) →
     Q (Ret (requirement, identity)) w') →
  (∀ w' o, same w w' → (∃ e, o = Err e) ∨ o = Crash → Q o w') →
  wp (requirement ← or_missing None (containerExitIdentityRequirementUnlocked id);
      identity ← or_missing None (containerEmbeddedExitedIdentityUnlocked id);
      mret (requirement, identity)) Q w.
Proof.
  intros HR HE. wp_step. apply wp_or_missing.
  unfold containerExitIdentityRequirementUnlocked. wp_step. apply wp_readSnapshot.
  - intros w1 s Hs1 Hsn. do 2 wp_step. apply wp_or_missing.
    unfold containerEmbeddedExitedIdentityUnlocked. wp_step. apply wp_readSnapshot.
    + intros w2 s2 Hs2 Hsn2. do 2 wp_step. apply HR; [eauto|auto|].
      rewrite (snapshot_at_same _ _ _ (same_same_at _ _ _ Hs1)), Hsn in Hsn2.
      injection Hsn2 as <-. right; eauto.
    + intros w2 e Hs2 He. destruct (errors_Is e ErrNotExist); [|apply HE; eauto].
      specialize (He eq_refl). rewrite (proj1 Hs1) in He.
      unfold snapshot_at, regular_at in Hsn. by rewrite He in Hsn.
    + intros w2 Hs2. apply HE; eauto.
  - intros w1 e Hs1 He. destruct (errors_Is e ErrNotExist); [|apply HE; eauto].
    specialize (He eq_refl). wp_step. apply wp_or_missing.
    unfold containerEmbeddedExitedIdentityUnlocked. wp_step. apply wp_readSnapshot.
    + intros w2 s2 Hs2 Hsn2. unfold snapshot_at, regular_at in Hsn2.
      by rewrite (proj1 Hs1), He in Hsn2.
    + intros w2 e2 Hs2 He2. destruct (errors_Is e2 ErrNotExist); [|apply HE; eauto].
      wp_step. apply HR; eauto.
    + intros w2 Hs2. apply HE; eauto.
  - intros w1 Hs1. apply HE; eauto.
Qed.

Lemma wp_writeRevision c revision Q w :
  container_ranges (set_Revision revision c) →
  json_safe (ID c) → json_safe (Status c) →
  let c' := set_Revision revision c in
  let ok require identity :=
    (Status c = StatusStopped ∧ kept_policy w (ID c) require identity) ∨
    (Status c ≠ StatusStopped ∧ require = false ∧ identity = None) in
  (∀ w' require identity, ok require identity →
     written (ID c) c' require identity w w' → Q (Ret c') w') →
  (∀ w' o, same w w' ∨ (∃ require identity, ok require identity ∧
       written (ID c) c' require identity w w') →
     (∃ e, o = Err e) ∨ o = Crash → Q o w') →
  wp (writeContainerRevisionUnlocked c revision) Q w.
Proof.
  intros Hr Hid Hst c' ok HR HE. unfold writeContainerRevisionUnlocked.
  destruct (String.eqb (Status c) StatusStopped) eqn:Es; cbn [negb].
  2: { apply String.eqb_neq in Es. apply wp_writePolicy; try done.
       - intros w' Hw. eapply HR; [|done]. right; eauto.
       - intros w' o Hw. apply HE. destruct Hw as [|Hw]; [auto|].
         right. do 2 eexists. split; [|done]. right; eauto. }
  apply String.eqb_eq in Es.
  enough (wp (ri ← (requirement ← or_missing None (containerExitIdentityRequirementUnlocked (ID c));
      identity ← or_missing None (containerEmbeddedExitedIdentityUnlocked (ID c));
      mret (requirement, identity));
      match snd ri with
    | Some i =>
      if negb (bool_decide (is_Some (fst ri))) || negb (default false (fst ri)) then
        throw (Errorf "persisted exit identity exists without required lifecycle capability")
      else writeContainerRevisionWithExitPolicyUnlocked c revision true (Some i)
    | None =>
      writeContainerRevisionWithExitPolicyUnlocked c revision
        (bool_decide (is_Some (fst ri)) && default false (fst ri)) None
    end) Q w) as H.
  { revert H. unfold wp, mbind, M_bind, mret, M_ret. cbn.
    destruct (or_missing None (containerExitIdentityRequirementUnlocked _) w) as [[] w1]; [|done..].
    by destruct (or_missing None (containerEmbeddedExitedIdentityUnlocked _) w1) as [[] ?]. }
  wp_step. apply wp_keep_policy; [|intros w1 o ? [[e ->]| ->]; apply HE; eauto].
  intros w1 requirement identity Hs1 _ Hpol. cbn [fst snd].
  assert (Hreq : ∀ s, snapshot_at w (ID c) = Some s → requirement = sn_required s →
    bool_decide (is_Some requirement) && default false requirement = sn_capability s).
  { intros s _ ->. unfold sn_capability. by destruct (sn_required s) as [[]|]. }
  destruct identity as [i|].
  - destruct Hpol as [(_ & _ & ?)|(s & Hsn & Hrq & Hi)]; [done|].
    specialize (Hreq s Hsn Hrq).
    destruct (negb _ || negb _) eqn:Eb; [wp_step; apply HE; eauto|].
    bool_simp.
    assert (Hok : ok true (Some i)).
    { left. split; [done|]. right. exists s. split_and!; try done.
      rewrite <- Hreq. rewrite bool_decide_eq_true_2 by done. done. }
    apply wp_writePolicy; try done.
    + intros i' [= <-]. by destruct (snapshot_identity_good w (ID c) s i) as (? & ? & _).
    + intros w' Hw. eapply HR; [exact Hok|]. by eapply same_written.
    + intros w' o [Hs|Hw] Ho; apply HE; try done; [eauto|].
      right. do 2 eexists. split; [exact Hok|]. by eapply same_written.
  - assert (Hok : ok (bool_decide (is_Some requirement) && default false requirement) None).
    { left. split; [done|]. destruct Hpol as [(? & -> & _)|(s & Hsn & Hrq & Hi)].
      - by left.
      - right. exists s. split_and!; try done; by apply Hreq. }
    apply wp_writePolicy; try done.
    + intros w' Hw. eapply HR; [exact Hok|]. by eapply same_written.
    + intros w' o [Hs|Hw] Ho; apply HE; try done; [eauto|].
      right. do 2 eexists. split; [exact Hok|]. by eapply same_written.
Qed.
