(* ===== verification/StoreOps.v ===== *)
(** What every mutation of [Store] does to the state directory, for all fault
    schedules: either nothing but the removal of retired exit sidecars, or one
    whole new revision of one record, or one ownership proof written or
    removed. *)
From S2P Require Import Prelude GoStrings Json Fs FsLogic Container Net.
From S2P Require Import Ownership Generation GenerationFacts Store StoreFacts.

(** * The effects *)

Definition exit_paths (id : string) : list path :=
  [exitedIdentityPath id; exitedIdentityRequiredPath id].

(** Only the retired exit sidecars of [id] may have gone. *)
Definition quiet (id : string) (w w' : world) : Prop :=
  only_removed (exit_paths id) w w'.

(** The record of [id] is the new revision [c], with the lifecycle metadata of
    the given writer branch. *)
Definition rewritten (id : string) (c : Container) (require : bool)
    (identity : option exitedIdentity) (w w' : world) : Prop :=
  ∃ w1, written id c require identity w w1 ∧ quiet id w1 w'.

Lemma same_quiet id w w' : same w w' → quiet id w w'.
Proof. apply same_only_removed. Qed.
Lemma quiet_trans id w1 w2 w3 : quiet id w1 w2 → quiet id w2 w3 → quiet id w1 w3.
Proof.
  intros H1 H2. eapply only_removed_weaken;
    [|exact (only_removed_trans _ _ _ _ _ H1 H2)].
  intros q [?|?]%elem_of_app; done.
Qed.
Lemma written_rewritten id c r i w w' : written id c r i w w' → rewritten id c r i w w'.
Proof. intros H. exists w'. split; [done|]. by apply same_quiet. Qed.
Lemma rewritten_quiet id c r i w w' w'' :
  rewritten id c r i w w' → quiet id w' w'' → rewritten id c r i w w''.
Proof. intros (w1 & ? & ?) ?. exists w1. split; [done|]. by eapply quiet_trans. Qed.
Lemma same_rewritten id c r i w w' w'' :
  same w w' → rewritten id c r i w' w'' → rewritten id c r i w w''.
Proof. intros ? (w1 & ? & ?). exists w1. split; [|done]. by eapply same_written. Qed.

Create HintDb store discriminated.
#[export] Hint Resolve same_quiet written_rewritten same_refl : store.

Lemma not_exit_path_record id id' : containerPath id' ∉ exit_paths id.
Proof.
  unfold exit_paths. intros [H|[H|H]%elem_of_cons]%elem_of_cons; [..|set_solver];
    revert H; path_ne.
Qed.

Lemma quiet_lookup id q w w' : quiet id w w' → q ∉ exit_paths id → same_at q w w'.
Proof. intros (H & _). apply H. Qed.

Lemma quiet_record id w w' : quiet id w w' → record_at w' id = record_at w id.
Proof.
  intros H. apply record_at_same. eapply quiet_lookup; [done|].
  apply not_exit_path_record.
Qed.
Lemma quiet_snapshot id w w' : quiet id w w' → snapshot_at w' id = snapshot_at w id.
Proof.
  intros H. apply snapshot_at_same. eapply quiet_lookup; [done|].
  apply not_exit_path_record.
Qed.

Section rewritten_facts.
Context (id : string) (c : Container) (r : bool) (i : option exitedIdentity).
Context (w w' : world) (H : rewritten id c r i w w').

Lemma rewritten_record : record_at w' id = Some (persisted c).
Proof.
  destruct H as (w1 & [] & Hq). rewrite (record_at_same id w1); [done|].
  eapply quiet_lookup; [done|]. apply not_exit_path_record.
Qed.
Lemma rewritten_snapshot : snapshot_at w' id = Some (written_snapshot c r i).
Proof.
  destruct H as (w1 & [] & Hq). rewrite (snapshot_at_same id w1); [done|].
  eapply quiet_lookup; [done|]. apply not_exit_path_record.
Qed.
Lemma rewritten_others q :
  q ≠ containerPath id → q ∉ exit_paths id → same_at q w w'.
Proof.
  destruct H as (w1 & [] & Hq). intros Hne Hx. unfold same_at.
  rewrite (quiet_lookup _ _ _ _ Hq Hx). by apply wr_others.
Qed.
End rewritten_facts.

(** * The lock *)

Lemma wp_locked {A} (m : M A) Q w :
  (∀ w', same w w' → w_closed w = false →
     wp m (λ o w1, ∀ w2, same w1 w2 → Q o w2 ∧ Q Crash w2) w') →
  (∀ w' o, same w w' → (∃ e, o = Err e) ∨ o = Crash → Q o w') →
  wp (locked m) Q w.
Proof.
  intros Hm HE. unfold locked, lockStateFile. do 3 wp_step.
  destruct (w_closed w) eqn:Hc; [wp_step; apply HE; eauto|].
  do 2 wp_step; [|apply HE; eauto|apply HE; eauto].
  wp_step. eapply wp_conseq; [by apply Hm|]. intros o w1 HQ.
  assert (Hu : wp unlockStateFile (λ o' w'', match o' with
    Crash => Q Crash w'' | _ => Q o w'' end) w1).
  { unfold unlockStateFile. do 2 wp_step.
    destruct (w_closed w1); [wp_step; by apply HQ|].
    wp_step. wp_step; by apply HQ. }
  destruct o; [exact Hu|exact Hu|]. by apply HQ.
Qed.

(** A post-condition that is kept when the process dies on the way out. *)
Lemma wp_locked' {A} (m : M A) (Q : outcome A → world → Prop) w :
  (∀ o w1 w2, same w1 w2 → Q o w1 → Q o w2) →
  (∀ o w1, Q o w1 → Q Crash w1) →
  (∀ w' o, same w w' → (∃ e, o = Err e) ∨ o = Crash → Q o w') →
  (∀ w', same w w' → w_closed w = false → wp m Q w') →
  wp (locked m) Q w.
Proof.
  intros Hs Hc HE Hm. apply wp_locked; [|done].
  intros w' Hw Hcl. eapply wp_conseq; [by apply Hm|].
  intros o w1 HQ w2 H2. split; [by eapply Hs|]. eapply Hc, Hs; done.
Qed.

(** * The next revision *)

(** The writer branch [writeContainerRevisionUnlocked] takes for [c]. *)
Definition policy_ok (w : world) (c : Container) (r : bool)
    (i : option exitedIdentity) : Prop :=
  (Status c = StatusStopped ∧ kept_policy w (ID c) r i) ∨
  (Status c ≠ StatusStopped ∧ r = false ∧ i = None).

Lemma policy_ok_same w w' c r i : same w w' → policy_ok w' c r i → policy_ok w c r i.
Proof.
  intros Hs [[? H]|H]; [left|by right]. split; [done|]. by eapply kept_policy_same.
Qed.
Lemma policy_ok_running w c r i :
  Status c ≠ StatusStopped → policy_ok w c r i → r = false ∧ i = None.
Proof. intros ? [[]|(_ & ? & ?)]; done. Qed.

Definition next_revision (c : Container) : Container :=
  set_Revision (Revision c + 1) c.

Lemma next_ranges c :
  container_ranges c → Revision c ≠ max_uint64 → container_ranges (next_revision c).
Proof.
  unfold container_ranges, in_uint64. destruct c; cbn. intros (? & ? & ? & ?) ?.
  split_and!; try done; lia.
Qed.

Lemma wp_writeNext c Q w :
  container_ranges c → json_safe (ID c) → json_safe (Status c) →
  (∀ w' r i, policy_ok w c r i → Revision c ≠ max_uint64 →
     written (ID c) (next_revision c) r i w w' → Q (Ret (next_revision c)) w') →
  (∀ w' o, same w w' ∨ (∃ r i, policy_ok w c r i ∧ Revision c ≠ max_uint64 ∧
       written (ID c) (next_revision c) r i w w') →
     (∃ e, o = Err e) ∨ o = Crash → Q o w') →
  wp (writeContainerNextRevisionUnlocked c) Q w.
Proof.
  intros Hr Hid Hst HR HE. unfold writeContainerNextRevisionUnlocked.
  do 2 wp_step; [|apply HE; eauto]. apply fail_if_None in H. bool_simp.
  apply wp_writeRevision; [by apply next_ranges|done..| |].
  - intros w' r i Hok Hw. by eapply HR.
  - intros w' o [?|(r & i & Hok & Hw)] Ho; apply HE; try done; [by left|].
    right. by exists r, i.
Qed.

Lemma wp_writeStoppedNext c pid pst Q w :
  container_ranges c → json_safe (ID c) → json_safe (Status c) →
  in_int64 pid → in_uint64 pst →
  let i := mkIdentity pid pst in
  (∀ w', validateExitedIdentity i = None → Revision c ≠ max_uint64 →
     written (ID c) (next_revision c) true (Some i) w w' →
     Q (Ret (next_revision c)) w') →
  (∀ w' o, same w w' ∨ (validateExitedIdentity i = None ∧ Revision c ≠ max_uint64 ∧
       written (ID c) (next_revision c) true (Some i) w w') →
     (∃ e, o = Err e) ∨ o = Crash → Q o w') →
  wp (writeStoppedContainerNextRevisionUnlocked c pid pst) Q w.
Proof.
  intros Hr Hid Hst Hp Hs i HR HE. unfold writeStoppedContainerNextRevisionUnlocked.
  do 2 wp_step; [|apply HE; eauto]. apply fail_if_None in H. bool_simp.
  do 2 wp_step; [|apply HE; eauto].
  apply wp_writePolicy; [by apply next_ranges|done..| | |].
  - intros i' [= <-]. done.
  - intros w' Hw. by apply HR.
  - intros w' o [?|Hw] Ho; apply HE; try done; [by left|by right].
Qed.

(** * Operations that rewrite one record *)

(** The outcome of such an operation on [id]: a quiet one, or one where a record
    [c] was replaced by [c'] as [allowed] says. *)
Section mutates.
Context {A : Type} (id : string).
Context (allowed : Container → Container → bool → option exitedIdentity → Prop).
Context (quiet_ret wrote_ret : A → Prop).

Definition mutates (w : world) (o : outcome A) (w' : world) : Prop :=
  (quiet id w w' ∧ ∀ a, o = Ret a → quiet_ret a) ∨
  (∃ c c' r i, record_at w id = Some c ∧ allowed c c' r i ∧
     rewritten id c' r i w w' ∧ ∀ a, o = Ret a → wrote_ret a).

Lemma mutates_same w o w1 w2 : same w1 w2 → mutates w o w1 → mutates w o w2.
Proof.
  intros Hs [[Hq Ha]|(c & c' & r & i & Hc & Hal & Hw & Ha)]; [left|right].
  - split; [|done]. eapply quiet_trans; [done|]. by apply same_quiet.
  - exists c, c', r, i. split_and!; try done.
    eapply rewritten_quiet; [done|]. by apply same_quiet.
Qed.
Lemma mutates_crash w o w' : mutates w o w' → mutates w Crash w'.
Proof. intros [[? _]|(c & c' & r & i & ? & ? & ? & _)]; [by left|right]. naive_solver. Qed.
Lemma mutates_fail w w' o :
  same w w' → (∃ e, o = Err e) ∨ o = Crash → mutates w o w'.
Proof.
  intros Hs Ho. left. split; [by apply same_quiet|].
  by intros a ->; destruct Ho as [[]|].
Qed.

Lemma wp_locked_mutates (m : M A) w :
  (∀ w', same w w' → w_closed w = false → wp m (mutates w) w') →
  wp (locked m) (mutates w) w.
Proof.
  intros Hm. apply wp_locked'; [| | |done].
  - intros o w1 w2. apply mutates_same.
  - intros o w1. apply mutates_crash.
  - intros w1 o. apply mutates_fail.
Qed.
End mutates.

Lemma mutates_failed {A} id allowed (qr wr : A → Prop) w w1 w' o :
  same w w1 → same w1 w' → (∃ e, o = Err e) ∨ o = Crash →
  mutates id allowed qr wr w o w'.
Proof. intros ? ? ?. apply mutates_fail; [by etransitivity|done]. Qed.

Ltac store_fail :=
  solve [ apply mutates_fail; [by eauto|eauto]
        | eapply mutates_failed; eauto ].

(** [m], run in [w], writes the record [c'] of [id] under one of the [allowed]
    writer branches, or fails before or after that write. *)
Definition writes (m : M Container) (id : string) (c' : Container)
    (allowed : bool → option exitedIdentity → Prop) (w : world) : Prop :=
  ∀ Q : outcome Container → world → Prop,
    (∀ w' r i, allowed r i → written id c' r i w w' → Q (Ret c') w') →
    (∀ w' o, same w w' ∨ (∃ r i, allowed r i ∧ written id c' r i w w') →
       (∃ e, o = Err e) ∨ o = Crash → Q o w') →
    wp m Q w.

Lemma writes_wrapm msg m id c' al w :
  writes m id c' al w → writes (wrapm msg m) id c' al w.
Proof.
  intros Hm Q HR HE. wp_step. apply Hm; [done|].
  intros w' o Hw [[e ->]| ->]; apply HE; eauto.
Qed.

Lemma writes_next c id w :
  ID c = id → container_ranges c → json_safe (ID c) → json_safe (Status c) →
  writes (writeContainerNextRevisionUnlocked c) id (next_revision c)
    (λ r i, policy_ok w c r i ∧ Revision c ≠ max_uint64) w.
Proof.
  intros <- ? ? ? Q HR HE. apply wp_writeNext; try done.
  - intros w' r i ? ?. by apply HR.
  - intros w' o [?|(r & i & ? & ? & ?)]; apply HE; [by left|].
    right. by exists r, i.
Qed.

Lemma writes_stopped_next c id pid pst w :
  ID c = id → container_ranges c → json_safe (ID c) → json_safe (Status c) →
  in_int64 pid → in_uint64 pst →
  writes (writeStoppedContainerNextRevisionUnlocked c pid pst) id (next_revision c)
    (λ r i, r = true ∧ i = Some (mkIdentity pid pst) ∧ Revision c ≠ max_uint64 ∧
      validateExitedIdentity (mkIdentity pid pst) = None) w.
Proof.
  intros <- ? ? ? ? ? Q HR HE. apply wp_writeStoppedNext; try done.
  - intros w' ? ?. by apply HR.
  - intros w' o [?|(? & ? & ?)]; apply HE; [by left|].
    right. by exists true, (Some (mkIdentity pid pst)).
Qed.

(** An operation that ends with such a write, followed by steps that only
    remove retired sidecars. *)
Lemma wp_mutate_writes {A} id allowed (qr wr : A → Prop) al w w1 c c' m
    (k : Container → M A) :
  same w w1 → record_at w id = Some c → writes m id c' al w1 →
  (∀ r i, al r i → allowed c c' r i) →
  (∀ w2, wp (k c') (λ o w3, quiet id w2 w3 ∧ ∀ a, o = Ret a → wr a) w2) →
  wp (m ≫= k) (mutates id allowed qr wr w) w1.
Proof.
  intros Hs Hc Hm Hal Hk. wp_step. apply Hm.
  - intros w2 r i Hr Hw. eapply wp_conseq; [apply Hk|]. cbn beta.
    intros o w3 [Hq Ho]. right. exists c, c', r, i. split_and!; auto.
    eapply rewritten_quiet; [|exact Hq]. apply written_rewritten. by eapply same_written.
  - intros w2 o Hw Ho.
    assert (Hf : ∀ o : outcome A, (∃ e, o = Err e) ∨ o = Crash →
      mutates id allowed qr wr w o w2).
    { intros o' Ho'. destruct Hw as [Hs2|(r & i & Hr & Hw)].
      - apply mutates_fail; [by transitivity w1|done].
      - right. exists c, c', r, i. split_and!; auto.
        + apply written_rewritten. by eapply same_written.
        + intros a ->. by destruct Ho' as [[]|]. }
    destruct Ho as [[e ->]| ->]; apply Hf; eauto.
Qed.

Definition running_of (c : Container) (pid pst : Z) (started : time) : Container :=
  set_ExitCode 0 (set_FinishedAt None (set_StartedAt (Some started)
    (set_Status StatusRunning (set_PIDStartTime pst (set_PID pid c))))).
Definition stopped_of (c : Container) (exitCode : Z) (finished : time) : Container :=
  set_ExitCode exitCode (set_FinishedAt (Some finished) (set_PIDStartTime 0
    (set_PID 0 (set_Status StatusStopped c)))).

Section no_pending.
Context (id : string).
Lemma wp_no_pending action Q w :
  (∀ w', same w w' → w_fs w !! cgroupOwnershipPath id = None →
     w_fs w !! networkOwnershipPath id = None → Q (Ret tt) w') →
  (∀ w' o, same w w' → (∃ e, o = Err e) ∨ o = Crash → Q o w') →
  wp (no_pending_ownership action id) Q w.
Proof.
  intros HR HE. unfold no_pending_ownership. do 2 wp_step. apply wp_readCgroup.
  2: { intros w1 o Hs _. do 2 wp_step; [done|apply HE; eauto]. }
  2: { intros w1 o Hs [[e ->]| ->]; apply HE; eauto. }
  intros w1 Hs1 Hc. do 2 wp_step; [|done]. do 2 wp_step. apply wp_readNetwork.
  - intros w2 Hs2 Hn. wp_step; [|done]. apply HR; [by transitivity w1|done|].
    by rewrite <- (proj1 Hs1).
  - intros w2 o Hs2 _. wp_step; [done|]. apply HE; [by transitivity w1|eauto].
  - intros w2 o Hs2 [[e ->]| ->]; (apply HE; [by transitivity w1|eauto]).
Qed.
End no_pending.

Lemma wp_clearExited id Q w :
  (∀ w' o, quiet id w w' → o = Ret tt ∨ (∃ e, o = Err e) ∨ o = Crash → Q o w') →
  wp (clearExitedIdentityUnlocked id) Q w.
Proof.
  intros HQ. unfold clearExitedIdentityUnlocked.
  do 2 wp_step; [|apply HQ; eauto with store].
  assert (Hd : durable_removal (exitedIdentityPath id) "exited process identity"
    ⊆ exit_paths id) by (intros q; unfold exit_paths; cbn; set_solver).
  apply wp_removeStateFileDurable.
  - intros w' [H' _]. apply HQ; [|by left]. by eapply only_removed_weaken.
  - intros w' o H' Ho. apply HQ; [|by right]. by eapply only_removed_weaken.
Qed.

Lemma record_at_pre_same id w w' c :
  same w w' → record_at w' id = Some c → record_at w id = Some c.
Proof. intros Hs. by rewrite (record_at_same _ _ _ (same_same_at _ _ _ Hs)). Qed.

Ltac good_record H :=
  let G := fresh "Hgood" in let E := fresh "Hid" in
  destruct (record_at_good _ _ _ H) as [G E].

(** Range and UTF-8 goals about a changed record follow from those of the record
    read. *)
Ltac ranges :=
  repeat match goal with
  | H : good_container ?c |- _ => destruct H; destruct c
  end;
  unfold container_ranges, in_uint64, in_int64, max_uint64, min_int64, max_int64 in *;
  cbn in *; try done; try lia; naive_solver lia.

Section MarkRunning_spec.
Context (id : string) (pid pst : Z) (started : time).
Hypothesis Hpid : in_int64 pid.
Hypothesis Hpst : in_uint64 pst.

(** No other generation is running, and a new generation starts only when no
    cleanup of an earlier one is pending. *)
Definition may_run (w : world) (c c' : Container) (r : bool)
    (i : option exitedIdentity) : Prop :=
  (0 < pid ∧ pst ≠ 0) ∧ r = false ∧ i = None ∧ Revision c ≠ max_uint64 ∧
  c' = next_revision (running_of c pid pst started) ∧
  (if String.eqb (Status c) StatusRunning then bound_to c pid pst = true
   else w_fs w !! cgroupOwnershipPath id = None ∧
        w_fs w !! networkOwnershipPath id = None).

Lemma running_of_ok c :
  good_container c → let c1 := running_of c pid pst started in
  container_ranges c1 ∧ json_safe (ID c1) ∧ json_safe (Status c1) ∧
  Revision c1 = Revision c ∧ ID c1 = ID c.
Proof.
  destruct c. intros [(? & _ & _ & ?)]. cbn in *. split_and!; try done.
Qed.

Lemma wp_mark_running_write w w1 c :
  same w w1 → record_at w id = Some c → 0 < pid ∧ pst ≠ 0 →
  (if String.eqb (Status c) StatusRunning then bound_to c pid pst = true
   else w_fs w !! cgroupOwnershipPath id = None ∧
        w_fs w !! networkOwnershipPath id = None) →
  wp (writeContainerNextRevisionUnlocked (running_of c pid pst started);;
      ignore (clearExitedIdentityUnlocked id))
    (mutates id (may_run w) (λ _, False) (λ _, True) w) w1.
Proof.
  intros Hs Hc Hp Hg. good_record Hc.
  destruct (running_of_ok c Hgood) as (Hr & Hi & Hst & Hrev & Hid').
  eapply wp_mutate_writes; [done..| | |].
  - apply writes_next; [by rewrite Hid'|done..].
  - intros r i [Hok Hm]. rewrite Hrev in Hm.
    apply policy_ok_running in Hok as [-> ->]; [|done].
    unfold may_run. split_and!; solve [done | apply Hp].
  - intros w2. wp_step. apply wp_clearExited.
    intros w3 o Hq [->|[[e ->]| ->]]; done.
Qed.

Lemma wp_MarkRunning s w :
  wp (MarkRunning s id pid pst started)
    (mutates id (may_run w) (λ _, False) (λ _, True) w) w.
Proof.
  unfold MarkRunning. do 2 wp_step; [|store_fail]. do 2 wp_step; [|store_fail].
  do 2 wp_step; [|store_fail]. do 2 wp_step; [|store_fail].
  apply fail_if_None in H1, H2. bool_simp.
  apply wp_locked_mutates. intros w1 Hs1 _. wp_step.
  apply wp_getUnlocked; [|intros ? ? ? [[? ->]| ->]; store_fail].
  intros w2 c Hs2 Hc.
  apply (record_at_pre_same _ _ _ _ Hs1) in Hc.
  assert (Hs : same w w2) by (by transitivity w1).
  do 2 wp_step; [|store_fail]. apply fail_if_None in H3.
  destruct (String.eqb (Status c) StatusRunning) eqn:Est; cbn [negb andb] in *.
  - do 2 wp_step. apply negb_false_iff in H3.
    apply wp_mark_running_write; [done..|]. by rewrite Est.
  - wp_step. apply wp_no_pending; [|intros ? ? ? [[? ->]| ->]; store_fail].
    intros w3 Hs3 Hcg Hn. rewrite (proj1 Hs) in Hcg, Hn.
    apply wp_mark_running_write; [by transitivity w2|done..|]. by rewrite Est.
Qed.
End MarkRunning_spec.

(** The exited identity of the current record: embedded, or else in the legacy
    sidecar. *)
Definition identity_on_disk (w : world) (id : string) (i : exitedIdentity) : Prop :=
  ∃ s, snapshot_at w id = Some s ∧
    (sn_identity s = Some i ∨
     sn_identity s = None ∧ is_Some (w_fs w !! exitedIdentityPath id)).

Lemma wp_readCurrentExited id Q w :
  (∀ w' s, same w w' → snapshot_at w id = Some s → sn_identity s = None →
     w_fs w !! exitedIdentityPath id = None → Q (Ret None) w') →
  (∀ w' i, same w w' → identity_on_disk w id i → Q (Ret (Some i)) w') →
  (∀ w' o, same w w' → (∃ e, o = Err e) ∨ o = Crash → Q o w') →
  wp (readCurrentExitedIdentityUnlocked id) Q w.
Proof.
  intros HN HR HE. unfold readCurrentExitedIdentityUnlocked. wp_step.
  apply wp_readSnapshot; [|intros; apply HE; eauto..].
  intros w1 s Hs1 Hsn. destruct (sn_identity s) as [i|] eqn:Hi.
  - do 2 wp_step; [|apply HE; eauto]. wp_step. apply HR; [done|].
    exists s. auto.
  - destruct (sn_versioned s); [wp_step; apply HE; eauto|].
    apply wp_readExited.
    + intros w2 Hs2 Hn. eapply HN; [by transitivity w1|done..|].
      by rewrite <- (proj1 Hs1).
    + intros w2 i Hs2 Hn _. apply HR; [by transitivity w1|].
      exists s. split; [done|]. right. by rewrite <- (proj1 Hs1).
    + intros w2 o Hs2. apply HE. by transitivity w1.
Qed.

Section MarkStopped_spec.
Context (id : string) (pid pst exitCode : Z) (finished : time).
Hypothesis Hpid : in_int64 pid.
Hypothesis Hpst : in_uint64 pst.
Hypothesis Hexit : in_int64 exitCode.

(** The exact running generation stops, or the unknown exit code of the
    stopped one is filled in. *)
Definition may_stop (w : world) (c c' : Container) (r : bool)
    (i : option exitedIdentity) : Prop :=
  Revision c ≠ max_uint64 ∧ (0 < pid ∧ pst ≠ 0) ∧
  ((Status c = StatusRunning ∧ bound_to c pid pst = true ∧
    c' = next_revision (stopped_of c exitCode finished) ∧
    r = true ∧ i = Some (mkIdentity pid pst)) ∨
   (Status c = StatusStopped ∧ ExitCode c = -1 ∧ exitCode ≠ -1 ∧
    identity_on_disk w id (mkIdentity pid pst) ∧
    c' = next_revision (set_ExitCode exitCode (set_FinishedAt (Some finished) c)) ∧
    kept_policy w id r i)).

(** A call that changed nothing saw no such running process. *)
Definition still (w : world) (changed : bool) : Prop :=
  changed = false ∧ ∀ c, record_at w id = Some c → Status c = StatusRunning →
    bound_to c pid pst = false.

Lemma wp_mark_stopped_running w w1 c :
  same w w1 → record_at w id = Some c → 0 < pid ∧ pst ≠ 0 →
  Status c = StatusRunning → bound_to c pid pst = true →
  wp (writeStoppedContainerNextRevisionUnlocked
        (stopped_of c exitCode finished) pid pst;;
      ignore (clearExitedIdentityUnlocked id);; mret true)
    (mutates id (may_stop w) (still w) (λ b, b = true) w) w1.
Proof.
  intros Hs Hc Hp Hst Hb. good_record Hc.
  eapply wp_mutate_writes; [done..| | |].
  - apply writes_stopped_next; try done.
    all: ranges.
  - intros r i (-> & -> & Hm & _). split; [by destruct c|]. split; [done|]. by left.
  - intros w2. do 2 wp_step. apply wp_clearExited.
    intros w3 o Hq [->|[[e ->]| ->]]; repeat wp_step; split; try done; naive_solver.
Qed.

Lemma wp_mark_stopped_upgrade w w1 c :
  same w w1 → record_at w id = Some c → 0 < pid ∧ pst ≠ 0 →
  Status c = StatusStopped → ExitCode c = -1 → exitCode ≠ -1 →
  identity_on_disk w id (mkIdentity pid pst) →
  wp (writeContainerNextRevisionUnlocked
        (set_ExitCode exitCode (set_FinishedAt (Some finished) c));; mret true)
    (mutates id (may_stop w) (still w) (λ b, b = true) w) w1.
Proof.
  intros Hs Hc Hp Hst Hx Hx' Hi. good_record Hc.
  eapply wp_mutate_writes; [done..| | |].
  - apply writes_next; ranges.
  - intros r i [Hok Hm]. split; [by destruct c|]. split; [done|]. right.
    split_and!; try done. apply (policy_ok_same w) in Hok; [|done].
    destruct Hok as [[_ Hk]|[Hne _]]; [|by destruct c].
    by rewrite <- Hid; destruct c.
  - intros w2. wp_step. split; [by apply same_quiet|naive_solver].
Qed.

Lemma wp_MarkStoppedIfIdentity s w :
  wp (MarkStoppedIfIdentity s id pid pst exitCode finished)
    (mutates id (may_stop w) (still w) (λ b, b = true) w) w.
Proof.
  unfold MarkStoppedIfIdentity. do 2 wp_step; [|store_fail].
  do 2 wp_step; [|store_fail]. do 2 wp_step; [|store_fail].
  apply fail_if_None in H1. bool_simp.
  apply wp_locked_mutates. intros w1 Hs1 _. wp_step.
  apply wp_getUnlocked; [|intros ? ? ? [[? ->]| ->]; store_fail].
  intros w2 c Hs2 Hc. apply (record_at_pre_same _ _ _ _ Hs1) in Hc.
  assert (Hs : same w w2) by (by transitivity w1).
  assert (Hfalse : ∀ w', (Status c = StatusRunning → bound_to c pid pst = false) →
    same w2 w' → wp (mret false) (mutates id (may_stop w) (still w) (λ b, b = true) w) w').
  { intros w' Hn Hs'. wp_step. left. split; [apply same_quiet; by transitivity w2|].
    intros a [= <-]. split; [done|]. intros c0 Hc0. by replace c0 with c by congruence. }
  destruct (String.eqb (Status c) StatusStopped) eqn:Est.
  - apply String.eqb_eq in Est.
    assert (Hn : Status c = StatusRunning → bound_to c pid pst = false) by (by rewrite Est).
    destruct (negb _ || _) eqn:Ex; [by apply Hfalse|]. bool_simp.
    do 2 wp_step. apply wp_readCurrentExited;
      [intros; by apply Hfalse| |intros ? ? ? [[? ->]| ->]; store_fail].
    intros w3 i Hs3 Hi. destruct (_ || _) eqn:Em; [by apply Hfalse|]. bool_simp.
    apply wp_mark_stopped_upgrade; try done; [by transitivity w2|].
    destruct i as [p q]. cbn in *. subst p q.
    destruct Hi as (sn & Hsn & Hi). exists sn.
    rewrite (proj1 Hs) in Hi.
    by rewrite <- (snapshot_at_same _ _ _ (same_same_at _ _ _ Hs)).
  - destruct (negb _ || _) eqn:Er.
    { apply Hfalse; [|done]. intros Hr. by rewrite Hr in Er; destruct (bound_to c pid pst). }
    bool_simp.
    apply wp_mark_stopped_running; try done. by apply String.eqb_eq.
Qed.
End MarkStopped_spec.

Section MarkStoppedIfCreated_spec.
Context (id : string) (exitCode : Z) (finished : time).
Hypothesis Hexit : in_int64 exitCode.

(** A created record that never had a process stops. *)
Definition may_fail_startup (w : world) (c c' : Container) (r : bool)
    (i : option exitedIdentity) : Prop :=
  Revision c ≠ max_uint64 ∧ Status c = StatusCreated ∧ PID c = 0 ∧
  PIDStartTime c = 0 ∧
  w_fs w !! cgroupOwnershipPath id = None ∧
  w_fs w !! networkOwnershipPath id = None ∧
  w_fs w !! exitedIdentityPath id = None ∧
  c' = next_revision (set_ExitCode exitCode (set_FinishedAt (Some finished)
         (set_Status StatusStopped c))) ∧
  kept_policy w id r i.

Lemma wp_MarkStoppedIfCreated s w :
  wp (MarkStoppedIfCreated s id exitCode finished)
    (mutates id (may_fail_startup w) (λ b, b = false) (λ b, b = true) w) w.
Proof.
  unfold MarkStoppedIfCreated. do 2 wp_step; [|store_fail].
  do 2 wp_step; [|store_fail].
  apply wp_locked_mutates. intros w1 Hs1 _. wp_step.
  apply wp_getUnlocked; [|intros ? ? ? [[? ->]| ->]; store_fail].
  intros w2 c Hs2 Hc. apply (record_at_pre_same _ _ _ _ Hs1) in Hc.
  assert (Hs : same w w2) by (by transitivity w1).
  destruct (negb _) eqn:Est.
  { wp_step. left. split; [by apply same_quiet|naive_solver]. }
  apply negb_false_iff, String.eqb_eq in Est.
  do 2 wp_step; [|store_fail]. apply fail_if_None in H1. bool_simp.
  do 2 wp_step. apply wp_readCgroup;
    [|intros ? ? ? ?; do 2 wp_step; [done|store_fail]
     |intros ? ? ? [[? ->]| ->]; store_fail].
  intros w3 Hs3 Hcg. assert (Hs' : same w w3) by (by transitivity w2).
  do 2 wp_step; [|store_fail]. do 2 wp_step. apply wp_readNetwork;
    [|intros ? ? ? ?; do 2 wp_step; [done|store_fail]
     |intros ? ? ? [[? ->]| ->]; store_fail].
  intros w4 Hs4 Hn. assert (Hs'' : same w w4) by (by transitivity w3).
  do 2 wp_step; [|store_fail]. do 2 wp_step. apply wp_readExited;
    [|intros; do 2 wp_step; [done|store_fail]
     |intros ? ? ? [[? ->]| ->]; store_fail].
  intros w5 Hs5 Hx. assert (Hs5' : same w w5) by (by transitivity w4).
  do 2 wp_step; [|done]. good_record Hc.
  rewrite (proj1 Hs) in Hcg. rewrite (proj1 Hs') in Hn. rewrite (proj1 Hs'') in Hx.
  eapply wp_mutate_writes; [done..| | |].
  - apply writes_next; ranges.
  - intros r i [Hok Hm]. apply (policy_ok_same w) in Hok; [|done].
    destruct Hok as [[_ Hk]|[Hne _]]; [|by destruct c].
    replace (ID _) with id in Hk by (by destruct c).
    unfold may_fail_startup. split_and!; try done.
  - intros w6. wp_step. split; [by apply same_quiet|naive_solver].
Qed.
End MarkStoppedIfCreated_spec.

Section SetHostname_spec.
Context (id hostname : string).
(** Only a container that is not running is renamed. *)
Definition may_rename (w : world) (c c' : Container) (r : bool)
    (i : option exitedIdentity) : Prop :=
  Revision c ≠ max_uint64 ∧ hostname ≠ "" ∧ Hostname c ≠ hostname ∧
  (Status c = StatusCreated ∨ Status c = StatusStopped) ∧
  c' = next_revision (set_Hostname hostname c) ∧
  policy_ok w (set_Hostname hostname c) r i.

Lemma wp_SetHostnameIfNotRunning s w :
  wp (SetHostnameIfNotRunning s id hostname)
    (mutates id (may_rename w) (λ _, True) (λ _, True) w) w.
Proof.
  unfold SetHostnameIfNotRunning. do 2 wp_step; [|store_fail].
  do 2 wp_step; [|store_fail]. do 2 wp_step; [|store_fail].
  apply fail_if_None, String.eqb_neq in H1.
  apply wp_locked_mutates. intros w1 Hs1 _. wp_step.
  apply wp_getUnlocked; [|intros ? ? ? [[? ->]| ->]; store_fail].
  intros w2 c Hs2 Hc. apply (record_at_pre_same _ _ _ _ Hs1) in Hc.
  assert (Hs : same w w2) by (by transitivity w1).
  destruct (String.eqb (Status c) StatusRunning); [wp_step; store_fail|].
  destruct (negb _ && negb _) eqn:Est; [wp_step; store_fail|].
  destruct (String.eqb (Hostname c) hostname) eqn:Eh.
  { wp_step. left. split; [by apply same_quiet|done]. }
  apply String.eqb_neq in Eh. good_record Hc.
  eapply wp_mutate_writes; [done|done|apply writes_wrapm, writes_next; ranges| |].
  - intros r i [Hok Hm]. apply (policy_ok_same w) in Hok; [|done].
    unfold may_rename. split_and!; try done.
    apply andb_false_iff in Est as [E|E]; apply negb_false_iff, String.eqb_eq in E; auto.
  - intros w3. wp_step. split; [by apply same_quiet|done].
Qed.
End SetHostname_spec.

(** * Save *)

Section Save_spec.
Context (c : Container).
Hypothesis Hranges : container_ranges c.
Hypothesis Hid : json_safe (ID c).
Hypothesis Hst : json_safe (Status c).

(** The revision check: [c] carries the revision on disk, or 0 where there is
    no record. *)
Definition cas_ok (w : world) : Prop :=
  Revision c ≠ max_uint64 ∧
  ((∃ cur, record_at w (ID c) = Some cur ∧ Revision cur = Revision c) ∨
   (w_fs w !! containerPath (ID c) = None ∧ Revision c = 0)).

Definition saves (w : world) (o : outcome Container) (w' : world) : Prop :=
  (same w w' ∧ ∀ a, o ≠ Ret a) ∨
  (cas_ok w ∧ ∃ r i, policy_ok w c r i ∧
     written (ID c) (next_revision c) r i w w' ∧
     ∀ a, o = Ret a → a = next_revision c).

Lemma saves_fail w w' o :
  same w w' → (∃ e, o = Err e) ∨ o = Crash → saves w o w'.
Proof. left. split; [done|]. intros a ->. by destruct H0 as [[]|]. Qed.

Lemma wp_save_write w w1 :
  same w w1 → cas_ok w →
  wp (writeContainerRevisionUnlocked c (Revision c + 1)) (saves w) w1.
Proof.
  intros Hs Hcas. apply wp_writeRevision; try done.
  - apply next_ranges; [done|apply Hcas].
  - intros w2 r i Hok Hw. right. split; [done|]. exists r, i.
    split_and!; [by apply (policy_ok_same w w1)|by eapply same_written|].
    by intros a [= <-].
  - intros w2 o [Hs2|(r & i & Hok & Hw)] Ho.
    + apply saves_fail; [by transitivity w1|done].
    + right. split; [done|]. exists r, i.
      split_and!; [by apply (policy_ok_same w w1)|by eapply same_written|].
      intros a ->. by destruct Ho as [[]|].
Qed.

Lemma wp_saveCAS w w1 :
  same w w1 → wp (saveContainerCASUnlocked c) (saves w) w1.
Proof.
  intros Hs. unfold saveContainerCASUnlocked. do 2 wp_step.
  apply wp_readRegularStateFile.
  - intros w2 d Hs2 Hd. assert (Hs' : same w w2) by (by transitivity w1).
    do 2 wp_step; [|apply saves_fail; eauto]. apply wrapf_Ok in H.
    do 2 wp_step; [|apply saves_fail; eauto].
    do 2 wp_step; [|apply saves_fail; eauto].
    apply fail_if_None in H0, H1. bool_simp. rewrite H0. apply wp_save_write; [done|].
    split; [congruence|]. left. exists a. split; [|done]. unfold record_at.
    by rewrite <- (same_regular_at _ _ _ Hs), Hd, H.
  - intros w2 e Hs2 He. assert (Hs' : same w w2) by (by transitivity w1).
    destruct (errors_Is e ErrNotExist); [|wp_step; apply saves_fail; eauto].
    do 2 wp_step; [|apply saves_fail; eauto]. apply fail_if_None in H. bool_simp.
    change 1 with (0 + 1). rewrite <- H. apply wp_save_write; [done|].
    split; [by rewrite H|]. right. split; [|done].
    rewrite <- (proj1 Hs). by apply He.
  - intros w2 Hs2. apply saves_fail; [by transitivity w1|eauto].
Qed.

Lemma wp_Save w : wp (Save (Some c)) (saves w) w.
Proof.
  unfold Save. do 2 wp_step; [|apply saves_fail; eauto].
  apply wp_locked'.
  - intros o w1 w2 Hs [[Hq Ho]|(Hcas & r & i & ? & Hw & ?)]; [left|right].
    + split; [|done]. by transitivity w1.
    + split; [done|]. exists r, i. split_and!; try done. by eapply written_same.
  - intros o w1 [[Hq Ho]|(Hcas & r & i & ? & Hw & ?)]; [left|right]; [done|].
    split; [done|]. by exists r, i.
  - intros; by apply saves_fail.
  - intros w1 Hs _. by apply wp_saveCAS.
Qed.
End Save_spec.

(** * Deletion *)

(** The entries a deletion of [id] may remove. *)
Definition record_paths (id : string) : list path :=
  containerPath id :: exit_paths id.

(** What a deletion, finished or not, leaves: nothing but the record and its
    exit sidecars is touched, the record is whole or gone, and no sidecar
    appears. *)
Record erased (id : string) (w w' : world) : Prop := {
  er_others : ∀ q, q ∉ record_paths id → same_at q w w';
  er_record : w_fs w' !! containerPath id = w_fs w !! containerPath id ∨
              w_fs w' !! containerPath id = None;
  er_exit : ∀ q, q ∈ exit_paths id → w_fs w !! q = None → w_fs w' !! q = None }.

(** The outcome of a deletion: the record goes only when [allowed]. *)
Definition deletes (id : string) (allowed : Prop) (w : world) (o : outcome unit)
    (w' : world) : Prop :=
  erased id w w' ∧
  (w_fs w' !! containerPath id = w_fs w !! containerPath id ∨ allowed) ∧
  ∀ a, o = Ret a → allowed ∧ ∀ q, q ∈ record_paths id → w_fs w' !! q = None.

Lemma durable_container id :
  durable_removal (containerPath id) "container state" = record_paths id.
Proof.
  unfold durable_removal, exit_sidecars, containerPath, record_paths.
  rewrite String.eqb_refl. cbn [fst snd].
  assert (Hs : has_suffix (id +:+ ".json") ".json" = true).
  { unfold has_suffix. rewrite string_length_app.
    assert (Hd : ∀ s t, str_drop (String.length s) (s +:+ t) = t).
    { intros s t. induction s as [|x s IH]; [done|]. by rewrite string_app_cons. }
    replace (String.length id + String.length ".json" - String.length ".json")%nat
      with (String.length id) by lia.
    rewrite Hd, bool_decide_eq_true_2 by done.
    rewrite (proj2 (Nat.leb_le _ _)) by lia. done. }
  rewrite Hs. unfold trim_suffix. rewrite Hs, string_length_app.
  assert (Ht : ∀ s t, str_take (String.length s) (s +:+ t) = s).
  { intros s t. induction s as [|x s IH]; [by destruct t|].
    rewrite string_app_cons. cbn. by rewrite IH. }
  replace (String.length id + String.length ".json" - String.length ".json")%nat
    with (String.length id) by lia.
  by rewrite Ht.
Qed.

Lemma only_removed_erased id w w' : only_removed (record_paths id) w w' → erased id w w'.
Proof.
  intros (H1 & H2 & _). split; [done|apply H2|].
  intros q _ Hn. destruct (H2 q); congruence.
Qed.
Lemma erased_trans id w1 w2 w3 : erased id w1 w2 → erased id w2 w3 → erased id w1 w3.
Proof.
  intros [] []. unfold same_at in *. split; [| |by auto].
  - intros q Hq. unfold same_at. etransitivity; auto.
  - destruct er_record1 as [->|]; auto.
Qed.
Lemma same_erased id w w' : same w w' → erased id w w'.
Proof. intros H. by apply only_removed_erased, same_only_removed. Qed.
Lemma quiet_erased id w w' : quiet id w w' → erased id w w'.
Proof.
  intros H. apply only_removed_erased. eapply only_removed_weaken; [|done].
  unfold record_paths. set_solver.
Qed.

Lemma deletes_same id al w o w1 w2 :
  same w1 w2 → deletes id al w o w1 → deletes id al w o w2.
Proof.
  intros Hs (He & Hr & Ho). split_and!.
  - eapply erased_trans; [done|]. by apply same_erased.
  - by rewrite (proj1 Hs).
  - intros a Ha. rewrite (proj1 Hs). eauto.
Qed.
Lemma deletes_crash id al w o w1 : deletes id al w o w1 → deletes id al w Crash w1.
Proof. intros (He & Hr & _). by split_and!. Qed.
Lemma deletes_fail id al w w' o :
  same w w' → (∃ e, o = Err e) ∨ o = Crash → deletes id al w o w'.
Proof.
  intros Hs Ho. split_and!; [by apply same_erased|left; by rewrite (proj1 Hs)|].
  intros a ->. by destruct Ho as [[]|].
Qed.

Lemma wp_remove_record id (al : Prop) w w1 :
  al → same w w1 →
  wp (removeStateFileDurable (containerPath id) "container state") (deletes id al w) w1.
Proof.
  intros Hal Hs. apply wp_removeStateFileDurable; rewrite durable_container.
  - intros w2 [Hr Ha]. split_and!; [|by right|naive_solver].
    eapply erased_trans; [by apply same_erased|]. by apply only_removed_erased.
  - intros w2 o Hr Ho. split_and!; [|by right|by intros a ->; destruct Ho as [[]|]].
    eapply erased_trans; [by apply same_erased|]. by apply only_removed_erased.
Qed.

Definition no_owners (w : world) (id : string) : Prop :=
  w_fs w !! cgroupOwnershipPath id = None ∧ w_fs w !! networkOwnershipPath id = None.

Lemma wp_Delete id w : wp (Delete id) (deletes id (no_owners w id) w) w.
Proof.
  unfold Delete. do 2 wp_step; [|apply deletes_fail; eauto].
  apply wp_locked'; [intros *; apply deletes_same|intros *; apply deletes_crash
                    |intros *; apply deletes_fail|].
  intros w1 Hs1 _. wp_step. apply wp_no_pending.
  - intros w2 Hs2 Hc Hn. rewrite (proj1 Hs1) in Hc, Hn.
    apply wp_remove_record; [done|by transitivity w1].
  - intros w2 o Hs2 [[e ->]| ->]; (apply deletes_fail; [by transitivity w1|eauto]).
Qed.

(** [DeleteIfNotRunning] deletes only what is not running and has no pending
    cleanup. *)
Definition may_delete (w : world) (id : string) : Prop :=
  no_owners w id ∧ ∃ c, record_at w id = Some c ∧ Status c ≠ StatusRunning.

Lemma wp_writeExited id i Q w :
  (∀ w' o, (∀ q, q ≠ exitedIdentityPath id → same_at q w w') → Q o w') →
  wp (writeExitedIdentityUnlocked id (xi_PID i) (xi_PIDStartTime i)) Q w.
Proof.
  intros HQ. unfold writeExitedIdentityUnlocked.
  do 2 wp_step; [|by apply HQ]. do 2 wp_step; [|by apply HQ]. wp_step.
  apply wp_atomicWriteFile.
  - intros w' Hu. apply HQ. intros q Hq. by eapply updated_lookup_ne.
  - intros w' o Hu Ho. assert (∀ q, q ≠ exitedIdentityPath id → same_at q w w').
    { intros q Hq. destruct Hu as [[Hs _]|Hu]; [unfold same_at; by rewrite Hs|].
      by eapply updated_lookup_ne. }
    destruct Ho as [[e ->]| ->]; by apply HQ.
Qed.

(** The record removal with the restore of the exited identity on failure. *)
Lemma wp_delete_restore id (al : Prop) exited w w1 :
  al → erased id w w1 → 
  (exited ≠ None → w_fs w !! exitedIdentityPath id ≠ None) →
  wp (r ← attempt (removeStateFileDurable (containerPath id) "container state");
      match r, exited with
      | Ok _, _ => mret tt
      | Fail e, None => throw e
      | Fail e, Some exited =>
        restore ← attempt (writeExitedIdentityUnlocked id (xi_PID exited)
                             (xi_PIDStartTime exited));
        match restore with
        | Ok _ => throw e
        | Fail e' => throw (Joined e (Wrapf
            "restore exited identity after failed container deletion: %w" e'))
        end
      end) (deletes id al w) w1.
Proof.
  intros Hal Her Hx. do 2 wp_step.
  eapply wp_conseq; [by apply (wp_remove_record id al w1 w1)|].
  intros o w2 (He2 & _ & Ho).
  assert (He : erased id w w2) by (by eapply erased_trans).
  destruct o as [[]|e|].
  - wp_step. split_and!; [done|by right|]. intros [] _. by apply (Ho tt).
  - destruct exited as [i|].
    + do 2 wp_step. apply wp_writeExited. intros w3 o Hs3.
      assert (He3 : erased id w w3).
      { destruct He. split.
        - intros q Hq. unfold same_at. rewrite Hs3; [by apply er_others0|].
          intros ->. apply Hq. unfold record_paths, exit_paths. set_solver.
        - rewrite Hs3; [done|path_ne].
        - intros q Hq Hn. rewrite Hs3; [auto|]. intros ->. by apply Hx. }
      destruct o as [[]|e'|]; cbn beta iota; try wp_step; split_and!; try done; by right.
    + wp_step. split_and!; try done. by right.
  - split_and!; try done. by right.
Qed.

Lemma wp_DeleteIfNotRunning s id w :
  wp (DeleteIfNotRunning s id) (deletes id (may_delete w id) w) w.
Proof.
  unfold DeleteIfNotRunning. do 2 wp_step; [|apply deletes_fail; eauto].
  do 2 wp_step; [|apply deletes_fail; eauto].
  apply wp_locked'; [intros *; apply deletes_same|intros *; apply deletes_crash
                    |intros *; apply deletes_fail|].
  intros w1 Hs1 _. wp_step. apply wp_getUnlocked;
    [|intros ? ? ? [[? ->]| ->]; (apply deletes_fail; [by transitivity w1|eauto])].
  intros w2 c Hs2 Hc. apply (record_at_pre_same _ _ _ _ Hs1) in Hc.
  assert (Hs : same w w2) by (by transitivity w1).
  do 2 wp_step; [|apply deletes_fail; eauto].
  apply fail_if_None, String.eqb_neq in H1. wp_step. apply wp_no_pending;
    [|intros ? ? ? [[? ->]| ->]; (apply deletes_fail; [by transitivity w2|eauto])].
  intros w3 Hs3 Hcg Hn. rewrite (proj1 Hs) in Hcg, Hn.
  assert (Hal : may_delete w id) by (split; [done|eauto]).
  assert (Hs' : same w w3) by (by transitivity w2).
  do 2 wp_step. apply wp_readExited;
    [| |intros ? ? ? [[? ->]| ->]; (apply deletes_fail; [by transitivity w3|eauto])].
  - intros w4 Hs4 _. rewrite bool_decide_eq_false_2 by (by intros []). do 2 wp_step.
    apply (wp_delete_restore id _ None); [done| |done].
    apply same_erased. by transitivity w3.
  - intros w4 i Hs4 Hx _. rewrite (proj1 Hs') in Hx. rewrite bool_decide_eq_true_2 by eauto.
    do 2 wp_step. apply wp_clearExited. intros w5 o Hq Ho.
    assert (He : erased id w w5).
    { eapply erased_trans; [|by apply quiet_erased].
      apply same_erased. by transitivity w3. }
    destruct Ho as [->|[[e ->]| ->]].
    + apply (wp_delete_restore id _ (Some i)); [done|done|]. intros _ Hn'.
      rewrite Hn' in Hx. by destruct Hx.
    + split_and!; try done. by right.
    + split_and!; try done. by right.
Qed.

(** * Ownership proofs *)

(** A proof is recorded: [p] takes the content [n] when [allowed], and success
    without a write means [already]. *)
Definition marks (p : path) (n : node) (allowed already : Prop) (w : world)
    (o : outcome unit) (w' : world) : Prop :=
  (same w w' ∧ ∀ a, o = Ret a → already) ∨ (allowed ∧ updated p (Some n) w w').

(** A proof is cleared. *)
Definition clears (p : path) (allowed : Prop) (w : world) (o : outcome bool)
    (w' : world) : Prop :=
  (same w w' ∧ ∀ a, o = Ret a → a = false) ∨
  (allowed ∧ only_removed [p] w w' ∧ ∀ a, o = Ret a → a = true ∧ all_removed [p] w w').

Section marks_rules.
Context (p : path) (n : node) (al already : Prop).

Lemma marks_fail w w' o :
  same w w' → (∃ e, o = Err e) ∨ o = Crash → marks p n al already w o w'.
Proof.
  intros Hs Ho. left. split; [done|]. intros a ->. by destruct Ho as [[]|].
Qed.
Lemma wp_locked_marks m w :
  (∀ w', same w w' → wp m (marks p n al already w) w') →
  wp (locked m) (marks p n al already w) w.
Proof.
  intros Hm. apply wp_locked'; [| |intros; by apply marks_fail|auto].
  - intros o w1 w2 Hs [[? ?]|[? ?]]; [left|right].
    + split; [by transitivity w1|done].
    + split; [done|]. by eapply updated_same.
  - intros o w1 [[? ?]|?]; [by left|by right].
Qed.
Lemma wp_atomic_marks data w w1 :
  n = NFile data 1 → al → same w w1 →
  wp (atomicWriteFile p data) (marks p n al already w) w1.
Proof.
  intros Hn Hal Hs. apply wp_atomicWriteFile; rewrite <- ?Hn.
  - intros w2 Hu. right. split; [done|]. by eapply same_updated.
  - intros w2 o [Hs2|Hu] Ho.
    + apply marks_fail; [by transitivity w1|done].
    + right. split; [done|]. by eapply same_updated.
Qed.

End marks_rules.

Lemma wp_unbind {A B} (m : M A) (k : A → M B) Q w :
  wp (m ≫= k) Q w →
  wp m (λ o w', match o with
    | Ret a => wp (k a) Q w' | Err e => Q (Err e) w' | Crash => Q Crash w'
    end) w.
Proof. unfold wp, mbind, M_bind. by destruct (m w) as [[] ?]. Qed.

Section clears_rules.
Context (p : path) (al : Prop).

Lemma clears_fail w w' o :
  same w w' → (∃ e, o = Err e) ∨ o = Crash → clears p al w o w'.
Proof.
  intros Hs Ho. left. split; [done|]. intros a ->. by destruct Ho as [[]|].
Qed.
Lemma wp_locked_clears m w :
  (∀ w', same w w' → wp m (clears p al w) w') →
  wp (locked m) (clears p al w) w.
Proof.
  intros Hm. apply wp_locked'; [| |intros; by apply clears_fail|auto].
  - intros o w1 w2 Hs [[? ?]|(? & ? & Ho)]; [left|right].
    + split; [by transitivity w1|done].
    + split_and!; [done|by eapply only_removed_same|].
      intros a Ha. destruct (Ho a Ha). split; [done|]. by eapply all_removed_same.
  - intros o w1 [[? ?]|(? & ? & ?)]; [by left|by right].
Qed.
Lemma wp_remove_clears label w w1 :
  String.eqb label "container state" = false → al → same w w1 →
  wp (removeStateFileDurable p label;; mret true) (clears p al w) w1.
Proof.
  intros Hl Hal Hs. wp_step.
  assert (Hd : durable_removal p label = [p]) by (unfold durable_removal; by rewrite Hl).
  apply wp_removeStateFileDurable; rewrite Hd.
  - intros w2 Hr. wp_step. right. split_and!; [done|..].
    + apply (only_removed_trans [] [p] w w1 w2); [by apply same_only_removed|apply Hr].
    + intros a [= <-]. split; [done|]. split; [|apply Hr].
      apply (only_removed_trans [] [p] w w1 w2); [by apply same_only_removed|apply Hr].
  - intros w2 o Hr [[e ->]| ->]; right; (split_and!; [done| |done]);
      apply (only_removed_trans [] [p] w w1 w2); (done || by apply same_only_removed).
Qed.
End clears_rules.

Definition running_as (w : world) (id : string) (pid pst : Z) : Prop :=
  ∃ c, record_at w id = Some c ∧ Status c = StatusRunning ∧ bound_to c pid pst = true.

Section cgroup_marks.
Context (id : string).

Definition may_own_cgroup (w : world) (o : CgroupOwnership) : Prop :=
  validateCgroupOwnership o = None ∧ running_as w id (cg_PID o) (cg_PIDStartTime o) ∧
  w_fs w !! cgroupOwnershipPath id = None.

Lemma wp_MarkCgroupOwned s pid pst name w :
  let o := mkCgroup name pid pst in
  wp (MarkCgroupOwnedIfIdentity s id pid pst name)
    (marks (cgroupOwnershipPath id) (NFile (FJson false (cgroup_json id o)) 1)
       (may_own_cgroup w o) (cgroup_at w id = Some o) w) w.
Proof.
  intros own. unfold MarkCgroupOwnedIfIdentity. fold own.
  do 2 wp_step; [|apply marks_fail; eauto]. do 2 wp_step; [|apply marks_fail; eauto].
  do 2 wp_step; [|apply marks_fail; eauto].
  apply wp_locked_marks. intros w1 Hs1. wp_step. apply wp_getUnlocked;
    [|intros ? ? ? [[? ->]| ->]; apply marks_fail; eauto].
  intros w2 c Hs2 Hc. apply (record_at_pre_same _ _ _ _ Hs1) in Hc.
  assert (Hs : same w w2) by (by transitivity w1).
  do 2 wp_step; [|apply marks_fail; eauto]. apply fail_if_None in H2. bool_simp.
  assert (Hrun : running_as w id pid pst).
  { exists c. split_and!; [done|by apply String.eqb_eq|done]. }
  wp_step. apply wp_readCgroup;
    [| |intros ? ? ? [[? ->]| ->]; (apply marks_fail; [by transitivity w2|eauto])].
  - intros w3 Hs3 Hn. unfold writeCgroupOwnershipUnlocked.
    rewrite (proj1 Hs) in Hn. assert (Hs' : same w w3) by (by transitivity w2).
    do 2 wp_step; [|apply marks_fail; eauto]. do 2 wp_step; [|apply marks_fail; eauto].
    by apply (wp_atomic_marks _ _ _ _ _ w).
  - intros w3 o Hs3 Ho. assert (Hs' : same w w3) by (by transitivity w2).
    case_bool_decide as He; wp_step; [|apply marks_fail; eauto].
    left. split; [done|]. intros _ _. subst o.
    by rewrite <- (cgroup_at_same _ _ _ (same_same_at _ _ _ Hs)).
Qed.

Definition may_disown_cgroup (w : world) (o : CgroupOwnership) : Prop :=
  cgroup_at w id = Some o ∧ ∃ c, record_at w id = Some c ∧ Status c ≠ StatusRunning.

Lemma wp_ClearCgroup s o w :
  wp (ClearCgroupOwnershipIfMatch s id o)
    (clears (cgroupOwnershipPath id) (may_disown_cgroup w o) w) w.
Proof.
  unfold ClearCgroupOwnershipIfMatch.
  do 2 wp_step; [|apply clears_fail; eauto]. do 2 wp_step; [|apply clears_fail; eauto].
  do 2 wp_step; [|apply clears_fail; eauto].
  apply wp_locked_clears. intros w1 Hs1. wp_step.
  assert (Hfalse : ∀ w', same w w' → wp (mret false)
    (clears (cgroupOwnershipPath id) (may_disown_cgroup w o) w) w').
  { intros w' Hs'. wp_step. left. split; [done|naive_solver]. }
  apply wp_readCgroup;
    [|..|intros ? ? ? [[? ->]| ->]; (apply clears_fail; [by transitivity w1|eauto])].
  { intros w2 Hs2 _. rewrite bool_decide_eq_false_2 by done. apply Hfalse.
    by transitivity w1. }
  intros w2 o' Hs2 Ho. assert (Hs : same w w2) by (by transitivity w1).
  case_bool_decide as He; [|by apply Hfalse]. injection He as ->.
  wp_step. apply wp_getUnlocked;
    [|intros ? ? ? [[? ->]| ->]; (apply clears_fail; [by transitivity w2|eauto])].
  intros w3 c Hs3 Hc. apply (record_at_pre_same _ _ _ _ Hs) in Hc.
  assert (Hs' : same w w3) by (by transitivity w2).
  do 2 wp_step; [|apply clears_fail; eauto]. apply fail_if_None, String.eqb_neq in H2.
  unfold clearCgroupOwnershipUnlocked. wp_step.
  do 2 wp_step; [|apply clears_fail; eauto].
  apply wp_unbind, wp_remove_clears; [done| |done].
  split; [by rewrite <- (cgroup_at_same _ _ _ (same_same_at _ _ _ Hs1))|eauto].
Qed.
End cgroup_marks.

Section network_marks.
Context (id : string).

Definition may_own_network (w : world) (o : NetworkOwnership) : Prop :=
  validateNetworkOwnership o = None ∧ running_as w id (no_PID o) (no_PIDStartTime o) ∧
  w_fs w !! networkOwnershipPath id = None.
Definition network_recorded (w : world) (o : NetworkOwnership) : Prop :=
  ∃ o', network_at w id = Some o' ∧ networkOwnershipEqual o' o = true.

Lemma wp_MarkNetworkOwned s o w :
  wp (MarkNetworkOwnedIfIdentity s id o)
    (marks (networkOwnershipPath id) (NFile (FJson false (network_json id o)) 1)
       (may_own_network w o) (network_recorded w o) w) w.
Proof.
  unfold MarkNetworkOwnedIfIdentity.
  do 2 wp_step; [|apply marks_fail; eauto]. do 2 wp_step; [|apply marks_fail; eauto].
  do 2 wp_step; [|apply marks_fail; eauto].
  apply wp_locked_marks. intros w1 Hs1. wp_step. apply wp_getUnlocked;
    [|intros ? ? ? [[? ->]| ->]; apply marks_fail; eauto].
  intros w2 c Hs2 Hc. apply (record_at_pre_same _ _ _ _ Hs1) in Hc.
  assert (Hs : same w w2) by (by transitivity w1).
  do 2 wp_step; [|apply marks_fail; eauto]. apply fail_if_None in H2. bool_simp.
  assert (Hrun : running_as w id (no_PID o) (no_PIDStartTime o)).
  { exists c. split_and!; [done|by apply String.eqb_eq|done]. }
  wp_step. apply wp_readNetwork;
    [| |intros ? ? ? [[? ->]| ->]; (apply marks_fail; [by transitivity w2|eauto])].
  - intros w3 Hs3 Hn. unfold writeNetworkOwnershipUnlocked.
    rewrite (proj1 Hs) in Hn. assert (Hs' : same w w3) by (by transitivity w2).
    do 2 wp_step; [|apply marks_fail; eauto]. do 2 wp_step; [|apply marks_fail; eauto].
    by apply (wp_atomic_marks _ _ _ _ _ w).
  - intros w3 o' Hs3 Ho. assert (Hs' : same w w3) by (by transitivity w2).
    destruct (networkOwnershipEqual o' o) eqn:He; wp_step; [|apply marks_fail; eauto].
    left. split; [done|]. intros _ _. exists o'. split; [|done].
    by rewrite <- (network_at_same _ _ _ (same_same_at _ _ _ Hs)).
Qed.

Definition may_disown_network (w : world) (o : NetworkOwnership) : Prop :=
  network_recorded w o ∧ ∃ c, record_at w id = Some c ∧
    (Status c = StatusRunning → bound_to c (no_PID o) (no_PIDStartTime o) = true).

Lemma wp_ClearNetwork s o w :
  wp (ClearNetworkOwnershipIfMatch s id o)
    (clears (networkOwnershipPath id) (may_disown_network w o) w) w.
Proof.
  unfold ClearNetworkOwnershipIfMatch.
  do 2 wp_step; [|apply clears_fail; eauto]. do 2 wp_step; [|apply clears_fail; eauto].
  do 2 wp_step; [|apply clears_fail; eauto].
  apply wp_locked_clears. intros w1 Hs1. wp_step.
  assert (Hfalse : ∀ w', same w w' → wp (mret false)
    (clears (networkOwnershipPath id) (may_disown_network w o) w) w').
  { intros w' Hs'. wp_step. left. split; [done|naive_solver]. }
  apply wp_readNetwork;
    [|..|intros ? ? ? [[? ->]| ->]; (apply clears_fail; [by transitivity w1|eauto])].
  { intros w2 Hs2 _. apply Hfalse. by transitivity w1. }
  intros w2 o' Hs2 Ho. assert (Hs : same w w2) by (by transitivity w1).
  destruct (networkOwnershipEqual o' o) eqn:He; cbn [negb]; [|by apply Hfalse].
  wp_step. apply wp_getUnlocked;
    [|intros ? ? ? [[? ->]| ->]; (apply clears_fail; [by transitivity w2|eauto])].
  intros w3 c Hs3 Hc. apply (record_at_pre_same _ _ _ _ Hs) in Hc.
  assert (Hs' : same w w3) by (by transitivity w2).
  do 2 wp_step; [|apply clears_fail; eauto]. apply fail_if_None in H2.
  unfold clearNetworkOwnershipUnlocked. wp_step.
  do 2 wp_step; [|apply clears_fail; eauto].
  apply wp_unbind, wp_remove_clears; [done| |done].
  split.
  - exists o'. split; [|done].
    by rewrite <- (network_at_same _ _ _ (same_same_at _ _ _ Hs1)).
  - exists c. split; [done|]. intros Hr. apply String.eqb_eq in Hr.
    rewrite Hr in H2. by apply negb_false_iff in H2.
Qed.
End network_marks.

(** * Reads and queries *)

Lemma wp_Get id Q w :
  (∀ w' c, same w w' → record_at w id = Some c → Q (Ret c) w') →
  (∀ w' o, same w w' → (∃ e, o = Err e) ∨ o = Crash → Q o w') →
  wp (Get id) Q w.
Proof.
  intros HR HE. unfold Get. do 2 wp_step; [|apply HE; eauto].
  by apply wp_getUnlocked.
Qed.

Lemma wp_SaveContainerStopSignal id signal w :
  wp (SaveContainerStopSignal id signal)
    (λ o w', ∀ q, q ≠ stopSignalPath id → same_at q w w') w.
Proof.
  assert (Hsame : ∀ w', same w w' → ∀ q, q ≠ stopSignalPath id → same_at q w w').
  { intros w' Hs q _. by apply same_same_at. }
  unfold SaveContainerStopSignal. do 2 wp_step; [|auto]. do 2 wp_step; [|auto].
  apply wp_locked'; [|done|auto|].
  - intros o w1 w2 Hs H' q Hq. unfold same_at. rewrite (proj1 Hs). by apply H'.
  - intros w1 Hs _. apply wp_atomicWriteFile.
    + intros w2 Hu q Hq. unfold same_at.
      by rewrite (updated_lookup_ne _ _ _ _ _ Hu Hq), (proj1 Hs).
    + intros w2 o Hm _ q Hq. unfold same_at. rewrite <- (proj1 Hs).
      destruct Hm as [[Hs2 _]|Hu]; [by rewrite Hs2|]. by eapply updated_lookup_ne.
Qed.
