(* ===== verification/StoreSystem.v ===== *)
(** The store as a transition system: any number of processes calling the
    operations of [Store] on one state directory, each call with its own faults
    and crash point.  The invariant says what every reachable state directory
    holds, record by record. *)
From S2P Require Import Prelude GoStrings Json Fs FsLogic Container Net.
From S2P Require Import Ownership Generation GenerationFacts Store StoreFacts.
From S2P Require Import StoreOps.

(** * The invariant of one container *)

(** The states of a container record: its lifecycle metadata [s] and the process
    generation that durable cleanup may still name. *)
Inductive lifecycle (c : Container) (s : teardownSnapshot) :
    option exitedIdentity → Prop :=
  | life_created :
    Status c = StatusCreated → PID c = 0 → PIDStartTime c = 0 →
    s = written_snapshot c false None → lifecycle c s None
  | life_running :
    Status c = StatusRunning → 0 < PID c → PIDStartTime c ≠ 0 →
    s = written_snapshot c false None →
    lifecycle c s (Some (mkIdentity (PID c) (PIDStartTime c)))
  | life_stopped i :
    Status c = StatusStopped → PID c = 0 → PIDStartTime c = 0 →
    validateExitedIdentity i = None →
    s = written_snapshot c true (Some i) → lifecycle c s (Some i)
  | life_startup_failed :
    Status c = StatusStopped → PID c = 0 → PIDStartTime c = 0 →
    s = written_snapshot c false None → lifecycle c s None.

(** The ownership proofs of [id] name the generation [gen]. *)
Definition cgroup_owner (id : string) (gen : option exitedIdentity)
    (entry : option node) : Prop :=
  match entry with
  | None => True
  | Some n => ∃ o, n = NFile (FJson false (cgroup_json id o)) 1 ∧
      validateCgroupOwnership o = None ∧
      gen = Some (mkIdentity (cg_PID o) (cg_PIDStartTime o))
  end.
Definition network_owner (id : string) (gen : option exitedIdentity)
    (entry : option node) : Prop :=
  match entry with
  | None => True
  | Some n => ∃ o, n = NFile (FJson false (network_json id o)) 1 ∧
      validateNetworkOwnership o = None ∧
      gen = Some (mkIdentity (no_PID o) (no_PIDStartTime o))
  end.

Inductive record_inv (w : world) (id : string) : Prop :=
  | inv_absent :
    w_fs w !! containerPath id = None → no_owners w id → record_inv w id
  | inv_present c s gen :
    record_at w id = Some c → snapshot_at w id = Some s → lifecycle c s gen →
    cgroup_owner id gen (w_fs w !! cgroupOwnershipPath id) →
    network_owner id gen (w_fs w !! networkOwnershipPath id) →
    record_inv w id.

(** No legacy sidecar exists: the current writers embed the exited identity. *)
Definition no_sidecars (w : world) (id : string) : Prop :=
  ∀ q, q ∈ exit_paths id → w_fs w !! q = None.

Definition container_inv (w : world) (id : string) : Prop :=
  record_inv w id ∧ no_sidecars w id.

(** * What the invariant reads *)

Definition core_paths (id : string) : list path :=
  [containerPath id; cgroupOwnershipPath id; networkOwnershipPath id;
   exitedIdentityPath id; exitedIdentityRequiredPath id].

Lemma container_inv_ext w w' id :
  (∀ q, q ∈ core_paths id → same_at q w w') →
  container_inv w id → container_inv w' id.
Proof.
  intros Hs [Hr Hn]. unfold core_paths in Hs. split.
  - assert (Hj : same_at (containerPath id) w w') by (apply Hs; set_solver).
    assert (Hc : same_at (cgroupOwnershipPath id) w w') by (apply Hs; set_solver).
    assert (Hnw : same_at (networkOwnershipPath id) w w') by (apply Hs; set_solver).
    destruct Hr as [Ha [Ho1 Ho2]|c s gen Hc1 Hs1 Hl Hco Hno].
    + apply inv_absent; [by rewrite Hj|]. split; [by rewrite Hc|by rewrite Hnw].
    + eapply inv_present; [by rewrite (record_at_same _ _ _ Hj)
        |by rewrite (snapshot_at_same _ _ _ Hj)|done|by rewrite Hc|by rewrite Hnw].
  - intros q Hq. rewrite Hs; [by apply Hn|]. unfold exit_paths in Hq. set_solver.
Qed.

(** Files of different containers are apart. *)
Lemma core_paths_apart id id' q :
  id ≠ id' → q ∈ core_paths id → q ∉ core_paths id'.
Proof.
  intros Hne. unfold core_paths. rewrite !elem_of_cons, !elem_of_nil.
  intros Hq Hq'.
  destruct_or! Hq; try done; subst q; destruct_or! Hq'; try done; revert Hq';
    solve [ path_ne | intros [= Hq']; by apply string_app_inj_r in Hq' ].
Qed.

(** An operation on [id] that leaves the files of the others alone. *)
Definition frame (id : string) (w w' : world) : Prop :=
  ∀ i q, i ≠ id → q ∈ core_paths i → same_at q w w'.

Lemma frame_intro id w w' :
  (∀ q, q ∉ core_paths id → same_at q w w') → frame id w w'.
Proof. intros H i q Hne Hq. apply H. by eapply core_paths_apart. Qed.

(** * The abstract container *)

(** What a client of the store may rely on: the state of a container and the
    number of its revisions. *)
Inductive astate :=
  | AAbsent
  | ACreated (rev : Z)
  | ARunning (g : exitedIdentity) (rev : Z)
  | AStopped (g : exitedIdentity) (rev : Z)   (* the exit of generation g *)
  | AFailed (rev : Z).                        (* stopped without a process *)

Definition arev (a : astate) : Z :=
  match a with
  | AAbsent => 0
  | ACreated n | ARunning _ n | AStopped _ n | AFailed n => n
  end.
Definition set_arev (n : Z) (a : astate) : astate :=
  match a with
  | AAbsent => AAbsent
  | ACreated _ => ACreated n
  | ARunning g _ => ARunning g n
  | AStopped g _ => AStopped g n
  | AFailed _ => AFailed n
  end.
Definition is_running (a : astate) : bool :=
  match a with ARunning _ _ => true | _ => false end.

(** The transitions of the abstract container.  A generation starts only from a
    state that is not running, only the running generation stops, and its exit
    stays known until the next start. *)
Inductive astep : astate → astate → Prop :=
  | as_stay a : astep a a
  | as_create : astep AAbsent (ACreated 1)
  | as_touch a : a ≠ AAbsent → astep a (set_arev (arev a + 1) a)
  | as_run a g : a ≠ AAbsent → is_running a = false →
      validateExitedIdentity g = None → astep a (ARunning g (arev a + 1))
  | as_stop g n : astep (ARunning g n) (AStopped g (n + 1))
  | as_fail n : astep (ACreated n) (AFailed (n + 1))
  | as_delete a : astep a AAbsent.

Definition abs_of (c : Container) (s : teardownSnapshot) : astate :=
  if String.eqb (Status c) StatusCreated then ACreated (Revision c)
  else if String.eqb (Status c) StatusRunning then
    ARunning (mkIdentity (PID c) (PIDStartTime c)) (Revision c)
  else match sn_identity s with
  | Some i => AStopped i (Revision c)
  | None => AFailed (Revision c)
  end.
Definition abs (w : world) (id : string) : astate :=
  match record_at w id, snapshot_at w id with
  | Some c, Some s => abs_of c s
  | _, _ => AAbsent
  end.

Lemma abs_same id w w' : same_at (containerPath id) w w' → abs w' id = abs w id.
Proof.
  intros H. unfold abs.
  by rewrite (record_at_same _ _ _ H), (snapshot_at_same _ _ _ H).
Qed.
Lemma abs_missing id w : w_fs w !! containerPath id = None → abs w id = AAbsent.
Proof. intros H. unfold abs, record_at, regular_at. by rewrite H. Qed.

(** One operation on [id]: its invariant is kept, the files of the others are
    left alone, and the abstract container makes a step; it appears only when [creates]. *)
Record good_step (creates : Prop) (id : string) (w w' : world) : Prop := {
  gs_inv : container_inv w' id;
  gs_frame : frame id w w';
  gs_abs : astep (abs w id) (abs w' id);
  gs_create : abs w id = AAbsent → abs w' id = AAbsent ∨ creates }.

Lemma good_step_weaken (P Q : Prop) id w w' :
  (P → Q) → good_step P id w w' → good_step Q id w w'.
Proof. intros HPQ []. split; try done. naive_solver. Qed.

Lemma frame_inv id w w' :
  (∀ i, container_inv w i) → frame id w w' → container_inv w' id →
  ∀ i, container_inv w' i.
Proof.
  intros Hinv Hf Hid i. destruct (decide (i = id)) as [->|Hne]; [done|].
  apply (container_inv_ext w); [|done]. intros q Hq. by apply (Hf i).
Qed.

(** * Each effect keeps the invariant *)

Section effects.
Context (id : string) (w w' : world).
Hypothesis Hinv : container_inv w id.

Lemma quiet_frame : quiet id w w' → frame id w w'.
Proof. intros H. apply frame_intro. intros q Hq. eapply quiet_lookup; [done|]. unfold core_paths, exit_paths in *. set_solver. Qed.

Lemma inv_quiet : quiet id w w' → container_inv w' id.
Proof.
  intros Hq. apply (container_inv_ext w); [|done]. intros q Hin. unfold same_at.
  destruct (decide (q ∈ exit_paths id)) as [Hx|Hx].
  - destruct Hinv as [_ Hn]. specialize (Hn q Hx).
    destruct Hq as (_ & Hq & _). destruct (Hq q); congruence.
  - by eapply quiet_lookup.
Qed.

Lemma quiet_step : quiet id w w' → good_step False id w w'.
Proof.
  intros Hq. assert (Ha : abs w' id = abs w id).
  { apply abs_same. eapply quiet_lookup; [done|]. apply not_exit_path_record. }
  split; [by apply inv_quiet|by apply quiet_frame|rewrite Ha; apply as_stay|].
  rewrite Ha. by left.
Qed.

(** The record read, its state and the generation its proofs name. *)
Lemma inv_record c :
  record_at w id = Some c →
  ∃ s gen, snapshot_at w id = Some s ∧ lifecycle c s gen ∧
    cgroup_owner id gen (w_fs w !! cgroupOwnershipPath id) ∧
    network_owner id gen (w_fs w !! networkOwnershipPath id).
Proof.
  destruct Hinv as [[Ha _|c' s gen Hc Hs Hl Hco Hno] _]; intros Hr.
  - apply record_at_present in Hr as [? Hr]. congruence.
  - rewrite Hc in Hr. injection Hr as ->. eauto 10.
Qed.

(** A new revision keeps the invariant when its state fits the proofs. *)
Lemma inv_rewritten (creates : Prop) c r i gen :
  rewritten id c r i w w' →
  lifecycle (persisted c) (written_snapshot c r i) gen →
  astep (abs w id) (abs_of (persisted c) (written_snapshot c r i)) →
  (abs w id = AAbsent → creates) →
  cgroup_owner id gen (w_fs w !! cgroupOwnershipPath id) →
  network_owner id gen (w_fs w !! networkOwnershipPath id) →
  good_step creates id w w'.
Proof.
  intros Hrw Hl Has Hcr Hco Hno. pose proof (rewritten_others _ _ _ _ _ _ Hrw) as Hoth.
  assert (Hcg : same_at (cgroupOwnershipPath id) w w').
  { apply Hoth; [path_ne|]. unfold exit_paths.
    intros [H|[H|H]%elem_of_cons]%elem_of_cons; [revert H; path_ne..|set_solver]. }
  assert (Hnw : same_at (networkOwnershipPath id) w w').
  { apply Hoth; [path_ne|]. unfold exit_paths.
    intros [H|[H|H]%elem_of_cons]%elem_of_cons; [revert H; path_ne..|set_solver]. }
  split; [split| | |].
  - eapply inv_present; [by eapply rewritten_record|by eapply rewritten_snapshot
      |done|by rewrite Hcg|by rewrite Hnw].
  - intros q Hq. destruct Hrw as (w1 & [] & Hqu). destruct Hinv as [_ Hn].
    specialize (Hn q Hq). rewrite <- (wr_others q) in Hn.
    + destruct Hqu as (_ & Hqu & _). destruct (Hqu q); congruence.
    + intros ->. by apply not_exit_path_record in Hq.
  - apply frame_intro. intros q Hq. unfold core_paths, exit_paths in *.
    apply Hoth; unfold exit_paths; set_solver.
  - unfold abs at 2. erewrite rewritten_record, rewritten_snapshot by done. done.
  - intros Ha. right. auto.
Qed.
End effects.

(** Two different statuses of one record. *)
Ltac status_clash :=
  match goal with
  | H1 : Status ?c = _, H2 : Status ?c = _ |- _ => exfalso; rewrite H1 in H2; done
  end.

Lemma status_safe c s gen : lifecycle c s gen → json_safe (Status c).
Proof. intros [-> | -> | ? -> | ->]; reflexivity. Qed.

Lemma abs_of_persisted c r i gen :
  lifecycle c (written_snapshot c r i) gen →
  abs_of (persisted c) (written_snapshot c r i) = abs_of c (written_snapshot c r i).
Proof.
  intros Hl. apply status_safe in Hl. unfold abs_of, persisted.
  cbn [Status Revision PID PIDStartTime]. by rewrite Hl.
Qed.

Lemma abs_of_rev c s : abs_of c s ≠ AAbsent ∧ arev (abs_of c s) = Revision c.
Proof. unfold abs_of. by repeat case_match. Qed.

(** The abstract state of a record that keeps status and process. *)
Lemma lifecycle_touch c c' s s' gen :
  lifecycle c s gen → lifecycle c' s' gen → Status c' = Status c →
  PID c' = PID c → PIDStartTime c' = PIDStartTime c →
  Revision c' = Revision c + 1 → astep (abs_of c s) (abs_of c' s').
Proof.
  intros Hl Hl' Hst Hp Hps Hr.
  assert (Ht : abs_of c' s' = set_arev (arev (abs_of c s) + 1) (abs_of c s)).
  { unfold abs_of. rewrite Hst, Hp, Hps, Hr.
    destruct (String.eqb _ StatusCreated) eqn:E1; [done|].
    destruct (String.eqb _ StatusRunning) eqn:E2; [done|].
    assert (Hs : ∀ c s, lifecycle c s gen → Status c = StatusStopped →
      sn_identity s = gen).
    { intros c0 s0 Hl0 Hst0.
      destruct Hl0 as [H|H|i0 H _ _ _ ->|H _ _ ->]; try status_clash; [done|].
      unfold written_snapshot. by rewrite H. }
    assert (Hc : Status c = StatusStopped).
    { destruct Hl as [H|H|i0 H|H]; try (by rewrite H in E1); try (by rewrite H in E2);
        done. }
    rewrite (Hs c s), (Hs c' s') by congruence. by destruct gen. }
  rewrite Ht. apply as_touch. unfold abs_of. by repeat case_match.
Qed.

Lemma lifecycle_persisted c r i gen :
  lifecycle c (written_snapshot c r i) gen →
  lifecycle (persisted c) (written_snapshot c r i) gen.
Proof.
  intros Hl. pose proof (status_safe _ _ _ Hl) as Hs.
  assert (Hw : ∀ r i, written_snapshot (persisted c) r i = written_snapshot c r i).
  { intros [] []; unfold written_snapshot, persisted; cbn [Status Revision];
      by rewrite Hs. }
  assert (Hst : Status (persisted c) = Status c) by exact Hs.
  inversion Hl as [H1 H2 H3 H4|H1 H2 H3 H4|i' H1 H2 H3 H4 H5|H1 H2 H3 H4]; subst gen.
  - apply life_created; [by rewrite Hst|done..|by rewrite Hw].
  - apply (life_running (persisted c)); [by rewrite Hst|done..|by rewrite Hw].
  - apply life_stopped; [by rewrite Hst|done..|by rewrite Hw].
  - apply life_startup_failed; [by rewrite Hst|done..|by rewrite Hw].
Qed.

(** A revision that keeps the status and the process keeps the state. *)
Lemma kept_lifecycle w cur c s gen r i :
  ID c = ID cur → Status c = Status cur → PID c = PID cur →
  PIDStartTime c = PIDStartTime cur →
  snapshot_at w (ID cur) = Some s → lifecycle cur s gen → policy_ok w c r i →
  lifecycle c (written_snapshot c r i) gen.
Proof.
  intros Hid Hst Hp Hps Hs Hl Hok.
  assert (Hk : Status cur = StatusStopped →
    i = sn_identity s ∧ r = sn_capability s).
  { intros Hc. destruct Hok as [[_ [(Hn & _)|(s' & Hs' & Hi & Hr & _)]]|[Hne _]].
    - rewrite Hid in Hn. unfold snapshot_at, regular_at in Hs. by rewrite Hn in Hs.
    - rewrite Hid, Hs in Hs'. by injection Hs' as <-.
    - congruence. }
  assert (Hn : Status cur ≠ StatusStopped → i = None ∧ r = false).
  { intros Hc. destruct Hok as [[? _]|(_ & ? & ?)]; [congruence|done]. }
  inversion Hl as [H1 H2 H3 H4|H1 H2 H3 H4|i' H1 H2 H3 H4 H5|H1 H2 H3 H4]; subst gen s.
  - destruct Hn as [-> ->]; [by rewrite H1|]. apply life_created; congruence.
  - destruct Hn as [-> ->]; [by rewrite H1|]. rewrite <- Hp, <- Hps.
    apply life_running; solve [congruence | lia].
  - destruct (Hk H1) as [-> ->]. cbn. apply life_stopped; solve [congruence | done].
  - destruct (Hk H1) as [-> ->]. unfold written_snapshot at 2 3. rewrite H1. cbn.
    apply life_startup_failed; solve [congruence | done].
Qed.

Lemma stop_of_created w cur c s gen r i :
  ID c = ID cur → snapshot_at w (ID cur) = Some s → lifecycle cur s gen →
  Status cur = StatusCreated → kept_policy w (ID cur) r i →
  r = false ∧ i = None.
Proof.
  intros Hid Hs Hl Hst [(_ & ? & ?)|(s' & Hs' & Hi & Hr & _)]; [done|].
  rewrite Hs in Hs'. injection Hs' as <-.
  inversion Hl as [H1 H2 H3 H4|H1|i' H1|H1]; try (rewrite H1 in Hst; done).
  subst s. unfold written_snapshot in Hi, Hr. rewrite Hst in Hi, Hr. done.
Qed.

Section operations.
Context (id : string) (w : world).
Hypothesis Hinv : container_inv w id.

Lemma mutates_inv {A} allowed (qr wr : A → Prop) o w' :
  (∀ c c' r i s gen, record_at w id = Some c → ID c = id →
     snapshot_at w id = Some s → lifecycle c s gen →
     cgroup_owner id gen (w_fs w !! cgroupOwnershipPath id) →
     network_owner id gen (w_fs w !! networkOwnershipPath id) →
     allowed c c' r i → ∃ gen', lifecycle c' (written_snapshot c' r i) gen' ∧
       astep (abs_of c s) (abs_of c' (written_snapshot c' r i)) ∧
       cgroup_owner id gen' (w_fs w !! cgroupOwnershipPath id) ∧
       network_owner id gen' (w_fs w !! networkOwnershipPath id)) →
  mutates id allowed qr wr w o w' → good_step False id w w'.
Proof.
  intros Hal [[Hq _]|(c & c' & r & i & Hc & Ha & Hw & _)].
  - by apply quiet_step.
  - destruct (inv_record _ _ Hinv _ Hc) as (s & gen & Hs & Hl & Hco & Hno).
    good_record Hc.
    destruct (Hal c c' r i s gen) as (gen' & Hl' & Has & Hco' & Hno'); try done.
    assert (Habsc : abs w id = abs_of c s) by (unfold abs; by rewrite Hc, Hs).
    eapply inv_rewritten; try done; [by apply lifecycle_persisted|..].
    + by rewrite (abs_of_persisted _ _ _ _ Hl'), Habsc.
    + rewrite Habsc. by destruct (abs_of_rev c s).
Qed.

Lemma MarkRunning_inv s pid pst t o w' :
  in_int64 pid → in_uint64 pst →
  MarkRunning s id pid pst t w = (o, w') → good_step False id w w'.
Proof.
  intros Hp Hq Hrun. pose proof (wp_MarkRunning id pid pst t Hp Hq s w) as Hwp.
  unfold wp in Hwp. rewrite Hrun in Hwp. eapply mutates_inv, Hwp.
  intros c c' r i sn gen Hc Hid Hs Hl Hco Hno (Hpos & -> & -> & Hm & -> & Hg).
  assert (Hl' : lifecycle (next_revision (running_of c pid pst t))
    (written_snapshot (next_revision (running_of c pid pst t)) false None)
    (Some (mkIdentity pid pst))).
  { destruct c, Hpos. by apply (life_running (next_revision (running_of _ pid pst t))). }
  assert (Hv : validateExitedIdentity (mkIdentity pid pst) = None).
  { unfold validateExitedIdentity. apply fail_if_None, orb_false_iff. cbn. lia. }
  assert (Habs : abs_of (next_revision (running_of c pid pst t))
    (written_snapshot (next_revision (running_of c pid pst t)) false None)
    = ARunning (mkIdentity pid pst) (Revision c + 1)) by (by destruct c).
  destruct (String.eqb (Status c) StatusRunning) eqn:Est.
  - assert (Hst := Est). apply String.eqb_eq in Hst. unfold bound_to in Hg. bool_simp.
    inversion Hl as [H1|H1|i' H1|H1]; [status_clash| |status_clash..]. subst gen.
    eexists. split; [exact Hl'|]. rewrite Habs, <- H, <- H0. split; [|done].
    unfold abs_of. rewrite Hst. cbn.
    by apply (as_touch (ARunning (mkIdentity (PID c) (PIDStartTime c)) (Revision c))).
  - destruct Hg as [Hcg Hnw]. eexists. split; [exact Hl'|].
    rewrite Hcg, Hnw. split; [|done].
    rewrite Habs. destruct (abs_of_rev c sn) as [Hne <-]. apply as_run; try done.
    unfold abs_of. rewrite Est. by repeat case_match.
Qed.

Lemma MarkStopped_inv s pid pst code t o w' :
  in_int64 pid → in_uint64 pst → in_int64 code →
  MarkStoppedIfIdentity s id pid pst code t w = (o, w') →
  good_step False id w w'.
Proof.
  intros Hp Hq Hx Hrun.
  pose proof (wp_MarkStoppedIfIdentity id pid pst code t Hp Hq Hx s w) as Hwp.
  unfold wp in Hwp. rewrite Hrun in Hwp. eapply mutates_inv, Hwp.
  intros c c' r i sn gen Hc Hid Hs Hl Hco Hno
    (Hm & Hpos & [(Hst & Hb & -> & -> & ->)|(Hst & Hx1 & Hx2 & Hi & -> & Hk)]).
  - exists gen. unfold bound_to in Hb. bool_simp.
    inversion Hl as [H1|H1|i' H1|H1]; [status_clash| |status_clash..]. subst gen.
    rewrite H, H0 in *. split_and!; [| |done..].
    + destruct c. apply life_stopped; try done.
      unfold validateExitedIdentity. apply fail_if_None, orb_false_iff. cbn. lia.
    + unfold abs_of at 1. rewrite Hst, H, H0. destruct c. cbn. apply as_stop.
  - exists gen. set (c' := next_revision _).
    assert (Hl' : lifecycle c' (written_snapshot c' r i) gen).
    { apply (kept_lifecycle w c _ sn); try (by destruct c); [by rewrite Hid|].
      left. split; [by destruct c|].
      by replace (ID _) with id by (by destruct c). }
    split_and!; [done| |done..]. by eapply lifecycle_touch; [..|destruct c].
Qed.

Lemma MarkStoppedIfCreated_inv s code t o w' :
  in_int64 code →
  MarkStoppedIfCreated s id code t w = (o, w') → good_step False id w w'.
Proof.
  intros Hx Hrun.
  pose proof (wp_MarkStoppedIfCreated id code t Hx s w) as Hwp.
  unfold wp in Hwp. rewrite Hrun in Hwp. eapply mutates_inv, Hwp.
  intros c c' r i sn gen Hc Hid Hs Hl Hco Hno
    (Hm & Hst & Hp & Hps & Hcg & Hnw & _ & -> & Hk).
  exists None. rewrite Hcg, Hnw. rewrite <- Hid in Hs, Hk.
  destruct (stop_of_created w c c sn gen r i) as [-> ->]; try done.
  split_and!; [| |done..].
  - destruct c. by apply life_startup_failed.
  - unfold abs_of at 1. rewrite Hst. destruct c. cbn. apply as_fail.
Qed.

Lemma SetHostname_inv s h o w' :
  SetHostnameIfNotRunning s id h w = (o, w') → good_step False id w w'.
Proof.
  intros Hrun. pose proof (wp_SetHostnameIfNotRunning id h s w) as Hwp.
  unfold wp in Hwp. rewrite Hrun in Hwp. eapply mutates_inv, Hwp.
  intros c c' r i sn gen Hc Hid Hs Hl Hco Hno (Hm & _ & _ & _ & -> & Hk).
  exists gen. set (c' := next_revision _).
  assert (Hl' : lifecycle c' (written_snapshot c' r i) gen).
  { apply (kept_lifecycle w c _ sn); try (by destruct c); by rewrite Hid. }
  split_and!; [done| |done..]. by eapply lifecycle_touch; [..|destruct c].
Qed.

Lemma core_not_record q :
  q ∈ core_paths id → q ∉ record_paths id →
  q = cgroupOwnershipPath id ∨ q = networkOwnershipPath id.
Proof. unfold core_paths, record_paths, exit_paths. set_solver. Qed.

Lemma owner_not_record q :
  q = cgroupOwnershipPath id ∨ q = networkOwnershipPath id → q ∉ record_paths id.
Proof.
  unfold record_paths, exit_paths. rewrite !elem_of_cons, elem_of_nil.
  intros Hq Hq'. destruct_or! Hq'; try done; destruct_or! Hq; subst q;
    revert Hq'; path_ne.
Qed.

Lemma deletes_inv (al : Prop) o w' :
  (al → no_owners w id) → deletes id al w o w' →
  good_step False id w w'.
Proof.
  intros Hal (He & Hr & _).
  assert (Hown : ∀ q, q = cgroupOwnershipPath id ∨ q = networkOwnershipPath id →
    same_at q w w') by (intros q Hq; by apply He, owner_not_record).
  assert (Hx : no_sidecars w' id).
  { intros q Hq. apply He; [done|]. by apply Hinv. }
  assert (Hkept : w_fs w' !! containerPath id = w_fs w !! containerPath id →
    container_inv w' id).
  { intros Hj. apply (container_inv_ext w); [|done]. intros q Hq.
    destruct (decide (q ∈ record_paths id)) as [Hin|Hn]; [|by apply He].
    unfold record_paths in Hin. apply elem_of_cons in Hin as [->|Hin]; [done|].
    unfold same_at. rewrite (Hx q Hin). destruct Hinv as [_ Hi]. by rewrite Hi. }
  split.
  - destruct Hr as [Hr|Ha]; [by apply Hkept|].
    destruct He as [_ [Hj|Hj] _]; [by apply Hkept|].
    split; [|done]. apply inv_absent; [done|].
    destruct (Hal Ha). split; rewrite Hown; auto.
  - apply frame_intro. intros q Hq. apply He. intros Hin. apply Hq.
    unfold core_paths, record_paths, exit_paths in *. set_solver.
  - destruct He as [_ [Hj|Hj] _].
    + rewrite (abs_same id w w' Hj). apply as_stay.
    + rewrite (abs_missing id w' Hj). apply as_delete.
  - intros Ha. left. destruct He as [_ [Hj|Hj] _].
    + by rewrite (abs_same id w w' Hj).
    + by rewrite (abs_missing id w' Hj).
Qed.

(** An operation that only touches an ownership proof. *)
Lemma owner_only_inv p w' :
  p = cgroupOwnershipPath id ∨ p = networkOwnershipPath id →
  (∀ q, q ≠ p → same_at q w w') →
  (∀ c s gen, record_at w id = Some c → snapshot_at w id = Some s →
     lifecycle c s gen →
     cgroup_owner id gen (w_fs w !! cgroupOwnershipPath id) →
     network_owner id gen (w_fs w !! networkOwnershipPath id) →
     cgroup_owner id gen (w_fs w' !! cgroupOwnershipPath id) ∧
     network_owner id gen (w_fs w' !! networkOwnershipPath id)) →
  (w_fs w !! containerPath id = None → same_at p w w') →
  good_step False id w w'.
Proof.
  intros Hp Hs Hown Habs.
  assert (Hrec : ∀ q, q ∈ record_paths id → same_at q w w').
  { intros q Hq. apply Hs. intros ->. by apply owner_not_record in Hp. }
  assert (Hj : same_at (containerPath id) w w').
  { apply Hrec. unfold record_paths. set_solver. }
  split; [split| | |].
  - destruct Hinv as [[Ha Ho|c sn gen Hc Hsn Hl Hco Hno] _].
    + apply inv_absent; [by rewrite Hj|]. specialize (Habs Ha).
      assert (Hall : ∀ q, same_at q w w').
      { intros q. destruct (decide (q = p)) as [->|]; auto. }
      destruct Ho. by split; rewrite Hall.
    + destruct (Hown c sn gen) as [Hco' Hno']; try done.
      eapply inv_present; [by rewrite (record_at_same _ _ _ Hj)
        |by rewrite (snapshot_at_same _ _ _ Hj)|done..].
  - intros q Hq. rewrite Hrec; [by apply Hinv|]. unfold record_paths. set_solver.
  - apply frame_intro. intros q Hq. apply Hs. intros ->. apply Hq.
    unfold core_paths. set_solver.
  - rewrite (abs_same id w w' Hj). apply as_stay.
  - rewrite (abs_same id w w' Hj). by left.
Qed.

Lemma running_generation c s gen pid pst :
  lifecycle c s gen → record_at w id = Some c → running_as w id pid pst →
  gen = Some (mkIdentity pid pst).
Proof.
  intros Hl Hc (c' & Hc' & Hst & Hb). rewrite Hc in Hc'. injection Hc' as <-.
  unfold bound_to in Hb. bool_simp.
  inversion Hl as [H1|H1|i' H1|H1]; [status_clash| |status_clash..]. congruence.
Qed.

Lemma same_inv w' : same w w' → good_step False id w w'.
Proof.
  intros Hs. by apply quiet_step, same_quiet.
Qed.

Lemma running_present pid pst : running_as w id pid pst → w_fs w !! containerPath id ≠ None.
Proof. intros (c & Hc & _) Hn. apply record_at_present in Hc as [? ?]. congruence. Qed.

Lemma MarkCgroupOwned_inv s pid pst name o w' :
  MarkCgroupOwnedIfIdentity s id pid pst name w = (o, w') →
  good_step False id w w'.
Proof.
  intros Hrun. pose proof (wp_MarkCgroupOwned id s pid pst name w) as Hwp.
  unfold wp in Hwp. rewrite Hrun in Hwp.
  destruct Hwp as [[Hs _]|[(Hv & Hr & _) Hu]]; [by apply same_inv|].
  apply (owner_only_inv (cgroupOwnershipPath id)); [by left| | |].
  - intros q Hq. by eapply updated_lookup_ne.
  - intros c sn gen Hc Hsn Hl Hco Hno. cbn [fst snd] in Hu.
    rewrite (updated_lookup _ _ _ _ Hu).
    rewrite (updated_lookup_ne _ _ _ _ (networkOwnershipPath id) Hu) by path_ne.
    split; [|done]. eexists. split_and!; [done|done|].
    by eapply running_generation.
  - intros Hn. by apply running_present in Hr.
Qed.

Lemma MarkNetworkOwned_inv s own o w' :
  MarkNetworkOwnedIfIdentity s id own w = (o, w') →
  good_step False id w w'.
Proof.
  intros Hrun. pose proof (wp_MarkNetworkOwned id s own w) as Hwp.
  unfold wp in Hwp. rewrite Hrun in Hwp.
  destruct Hwp as [[Hs _]|[(Hv & Hr & _) Hu]]; [by apply same_inv|].
  apply (owner_only_inv (networkOwnershipPath id)); [by right| | |].
  - intros q Hq. by eapply updated_lookup_ne.
  - intros c sn gen Hc Hsn Hl Hco Hno. cbn [fst snd] in Hu.
    rewrite (updated_lookup _ _ _ _ Hu).
    rewrite (updated_lookup_ne _ _ _ _ (cgroupOwnershipPath id) Hu) by path_ne.
    split; [done|]. eexists. split_and!; [done|done|].
    by eapply running_generation.
  - intros Hn. by apply running_present in Hr.
Qed.

Lemma clears_inv p al o w' :
  p = cgroupOwnershipPath id ∨ p = networkOwnershipPath id →
  clears p al w o w' → good_step False id w w'.
Proof.
  intros Hp [[Hs _]|(_ & (H1 & H2 & _) & _)]; [by apply same_inv|].
  apply (owner_only_inv p); [done| | |].
  - intros q Hq. apply H1. set_solver.
  - intros c sn gen _ _ _ Hco Hno.
    destruct (H2 (cgroupOwnershipPath id)) as [-> | ->],
      (H2 (networkOwnershipPath id)) as [-> | ->]; done.
  - intros Hn. destruct Hinv as [[_ [Hc Hw]|c s gen Hc _ _ _ _] _].
    + unfold same_at. destruct (H2 p) as [|H']; [done|]. rewrite H'.
      by destruct Hp as [-> | ->].
    + apply record_at_present in Hc as [? ?]. congruence.
Qed.

(** A record saved under the identifier: a new created one, or the record on
    disk with its status and process unchanged. *)
Lemma Save_inv c o w' :
  ID c = id → container_ranges c → json_safe (ID c) → json_safe (Status c) →
  (w_fs w !! containerPath id = None → Revision c = 0 →
     Status c = StatusCreated ∧ PID c = 0 ∧ PIDStartTime c = 0) →
  (∀ cur, record_at w id = Some cur → Revision cur = Revision c →
     Status c = Status cur ∧ PID c = PID cur ∧ PIDStartTime c = PIDStartTime cur) →
  Save (Some c) w = (o, w') → good_step (Revision c = 0) id w w'.
Proof.
  intros Hid Hr Hsid Hsst Hnew Hup Hrun.
  pose proof (wp_Save c Hr Hsid Hsst w) as Hwp.
  unfold wp in Hwp. rewrite Hrun in Hwp.
  destruct Hwp as [[Hs _]|([Hm Hcas] & r & i & Hok & Hw & _)]; [by apply (good_step_weaken False), same_inv|].
  rewrite Hid in *. cbn [fst snd] in Hw. apply written_rewritten in Hw.
  destruct Hcas as [(cur & Hcur & Hrev)|[Ha Hz]].
  - destruct (inv_record _ _ Hinv _ Hcur) as (s & gen & Hs & Hl & Hco & Hno).
    destruct (Hup cur Hcur Hrev) as (Hst & Hp & Hps). good_record Hcur.
    assert (Hl' : lifecycle (next_revision c) (written_snapshot (next_revision c) r i) gen).
    { eapply (kept_lifecycle w cur _ s gen); try done;
        destruct c; cbn in *; congruence. }
    assert (Ha : abs w id = abs_of cur s) by (unfold abs; by rewrite Hcur, Hs).
    eapply inv_rewritten; [done|done|by apply lifecycle_persisted|..|exact Hco|exact Hno].
    + rewrite (abs_of_persisted _ _ _ _ Hl'), Ha.
      eapply lifecycle_touch; [done|done|destruct c; cbn in *; congruence..].
    + rewrite Ha. by destruct (abs_of_rev cur s).
  - destruct (Hnew Ha Hz) as (Hst & Hp & Hps).
    destruct Hok as [[Hst' _]|(_ & -> & ->)]; [status_clash|].
    destruct Hinv as [[_ [Hc Hn]|c0 s gen Hc0 _ _ _ _] _].
    + assert (Hl' : lifecycle (next_revision c)
        (written_snapshot (next_revision c) false None) None)
        by (destruct c; by apply life_created).
      eapply (inv_rewritten _ _ _ Hinv _ _ _ _ None Hw);
        [by apply lifecycle_persisted| |done|by rewrite Hc|by rewrite Hn].
      rewrite (abs_of_persisted _ _ _ _ Hl'), (abs_missing id w Ha).
      assert (abs_of (next_revision c) (written_snapshot (next_revision c) false None)
        = ACreated 1) as -> by (destruct c; cbn in *; subst; done).
      apply as_create.
    + apply record_at_present in Hc0 as [? ?]. congruence.
Qed.
End operations.

(** * The revision-bound queries *)

Lemma wp_retire id Q w :
  (∀ w' o, quiet id w w' → o = Ret tt ∨ (∃ e, o = Err e) ∨ o = Crash → Q o w') →
  wp (retireLegacyStoppedGenerationSidecarsUnlocked id) Q w.
Proof.
  intros HQ. unfold retireLegacyStoppedGenerationSidecarsUnlocked.
  do 2 wp_step; [|apply HQ; eauto with store].
  assert (H1 : durable_removal (exitedIdentityPath id) "exited process identity"
    ⊆ exit_paths id) by (unfold exit_paths; cbn; set_solver).
  assert (H2 : durable_removal (exitedIdentityRequiredPath id) "exited identity requirement"
    ⊆ exit_paths id) by (unfold exit_paths; cbn; set_solver).
  do 2 wp_step. apply wp_removeStateFileDurable.
  - intros w1 [Hr1 _]. pose proof (only_removed_weaken _ _ _ _ H1 Hr1) as Hq1.
    wp_step. apply wp_removeStateFileDurable.
    + intros w2 [Hr2 _]. apply HQ; [|by left]. eapply quiet_trans; [exact Hq1|].
      exact (only_removed_weaken _ _ _ _ H2 Hr2).
    + intros w2 o Hr2 Ho. assert (quiet id w w2).
      { eapply quiet_trans; [exact Hq1|]. exact (only_removed_weaken _ _ _ _ H2 Hr2). }
      destruct Ho as [[e ->]| ->]; apply HQ; eauto.
  - intros w1 o Hr1 Ho. assert (quiet id w w1) by exact (only_removed_weaken _ _ _ _ H1 Hr1).
    destruct Ho as [[e ->]| ->]; apply HQ; eauto.
Qed.

Lemma wp_validateLegacyDNS id s Q w :
  (∀ w' o, same w w' → o = Ret tt ∨ (∃ e, o = Err e) ∨ o = Crash → Q o w') →
  wp (validateLegacyDNSCleanupSidecarsUnlocked id s) Q w.
Proof.
  intros HQ. unfold validateLegacyDNSCleanupSidecarsUnlocked.
  destruct (negb _ || negb _); [wp_step; apply HQ; auto|].
  wp_step.
  assert (Hid : ∀ b w1, same w w1 →
    wp (identity ← readExitedIdentityUnlocked id;
        ensure (fail_if (b || bool_decide (is_Some identity))
          (Errorf "legacy DNS cleanup authorization conflicts with exited identity sidecar metadata"))) Q w1).
  { intros b w1 Hs1. wp_step. apply wp_readExited.
    - intros w2 Hs2 _. wp_step; (apply HQ; [by transitivity w1|eauto]).
    - intros w2 i Hs2 _ _. wp_step; (apply HQ; [by transitivity w1|eauto]).
    - intros w2 o Hs2 [[e ->]| ->]; (apply HQ; [by transitivity w1|eauto]). }
  apply wp_readExitedRequired; [by intros; apply Hid..|].
  intros w1 o Hs1 [[e ->]| ->]; apply HQ; eauto.
Qed.

Definition is_current (w : world) (id : string) (revision : Z) (s : teardownSnapshot)
    : Prop :=
  ∃ c gen, record_at w id = Some c ∧ snapshot_at w id = Some s ∧
    Status c = StatusStopped ∧ Revision c = revision ∧ lifecycle c s gen.

Lemma raw_snapshot_fields raw s :
  raw_teardownSnapshot raw = Ok s →
  sn_status s = raw_status raw ∧ sn_revision s = raw_revision raw.
Proof.
  unfold raw_teardownSnapshot. intros H.
  apply res_bind_Ok in H as (? & _ & H). apply res_bind_Ok in H as (? & _ & H).
  apply res_bind_Ok in H as (? & _ & H). apply res_bind_Ok in H as (? & _ & H).
  apply res_bind_Ok in H as (? & _ & H). apply res_bind_Ok in H as ([] & _ & H).
  by injection H as <-.
Qed.

Lemma lifecycle_snapshot c s gen :
  lifecycle c s gen → sn_status s = Status c ∧ sn_revision s = Revision c.
Proof.
  assert (∀ r i, sn_status (written_snapshot c r i) = Status c ∧
    sn_revision (written_snapshot c r i) = Revision c).
  { intros [] []; unfold written_snapshot; repeat case_match; done. }
  by intros [? ? ? ->|? ? ? ->|? ? ? ? ? ->|? ? ? ->].
Qed.

Lemma wp_readForRevision id revision Q w :
  container_inv w id →
  (∀ w' s, quiet id w w' → is_current w id revision s → Q (Ret (s, true)) w') →
  (∀ w' s, quiet id w w' → (∀ s', ¬ is_current w id revision s') →
     Q (Ret (s, false)) w') →
  (∀ w' o, quiet id w w' → (∃ e, o = Err e) ∨ o = Crash → Q o w') →
  wp (readStoppedGenerationTeardownSnapshotForRevisionUnlocked id revision) Q w.
Proof.
  intros [Hinv Hno] HR HN HE.
  unfold readStoppedGenerationTeardownSnapshotForRevisionUnlocked,
    readStoppedGenerationLifecycleSnapshotUnlocked.
  do 3 wp_step; [|apply HE; eauto with store]. wp_step.
  apply wp_readRegularStateFile; [|intros; apply HE; eauto with store..].
  intros w1 d Hs1 Hd. wp_step; [|apply HE; eauto with store].
  destruct (negb _ || negb _) eqn:Ecur.
  { wp_step. apply HN; [by eauto with store|].
    intros s' (c & gen & _ & Hs' & Hst & Hrev & Hl).
    destruct (lifecycle_snapshot _ _ _ Hl) as [F1 F2].
    unfold snapshot_at in Hs'. rewrite Hd, H0 in Hs'. cbn in Hs'.
    destruct (raw_teardownSnapshot a) as [s''|] eqn:Hraw; [|done].
    injection Hs' as ->. destruct (raw_snapshot_fields _ _ Hraw) as [E1 E2].
    apply orb_true_iff in Ecur as [E|E]; apply negb_true_iff in E;
      [apply String.eqb_neq in E|apply Z.eqb_neq in E]; congruence. }
  do 2 wp_step; [|apply HE; eauto with store]. bool_simp.
  apply String.eqb_eq in H2.
  assert (Hsn : snapshot_at w id = Some a0).
  { unfold snapshot_at. rewrite Hd, H0. cbn. by rewrite H1. }
  destruct (raw_snapshot_fields _ _ H1) as [E1 E2].
  destruct Hinv as [Hn _|c s gen Hc Hs Hl _ _].
  { unfold regular_at in Hd. by rewrite Hn in Hd. }
  rewrite Hsn in Hs. injection Hs as <-.
  destruct (lifecycle_snapshot _ _ _ Hl) as [F1 F2].
  assert (Hcur : is_current w id revision a0).
  { exists c, gen. split_and!; try done; congruence. }
  assert (Hcs : Status c = StatusStopped) by congruence.
  inversion Hl as [K1|K1|i' K1 _ _ _ Ks|K1 _ _ Ks]; try status_clash.
  - assert (sn_versioned a0 = true) as -> by (by rewrite Ks). wp_step.
    apply wp_retire. intros w2 o Hq Ho.
    assert (quiet id w w2) by (eapply quiet_trans; [by apply same_quiet|done]).
    destruct Ho as [->|[[e ->]| ->]]; [wp_step; by apply HR|apply HE; eauto..].
  - assert (sn_versioned a0 = false ∧ sn_legacyDNSCleanupPresent a0 = true)
      as [-> ->] by (rewrite Ks; unfold written_snapshot; by rewrite K1).
    wp_step. apply wp_validateLegacyDNS. intros w2 o Hs2 Ho.
    assert (quiet id w w2) by (apply same_quiet; by transitivity w1).
    destruct Ho as [->|[[e ->]| ->]]; [wp_step; by apply HR|apply HE; eauto..].
Qed.

(** The answer of the revision-bound queries: the generation whose exit the
    current stopped record preserves. *)
Definition answers (w : world) (id : string) (revision : Z) (a : identity_answer)
    (required : option exitedIdentity → bool) : Prop :=
  if an_current a
  then ∃ c s gen, record_at w id = Some c ∧ snapshot_at w id = Some s ∧
    Status c = StatusStopped ∧ Revision c = revision ∧ lifecycle c s gen ∧
    an_identity a = gen ∧ an_required a = required gen
  else a = mkAnswer None false false ∧ ∀ s, ¬ is_current w id revision s.

Definition query_post {A} (id : string) (good : A → Prop) (w : world)
    (o : outcome A) (w' : world) : Prop :=
  quiet id w w' ∧ ∀ a, o = Ret a → good a.

Section query_rules.
Context {A : Type} (id : string) (good : A → Prop).
Lemma query_fail w w' o :
  quiet id w w' → (∃ e, o = Err e) ∨ o = Crash → query_post id good w o w'.
Proof. intros Hq Ho. split; [done|]. intros a ->. by destruct Ho as [[]|]. Qed.
Lemma wp_locked_query m w :
  (∀ w', same w w' → wp m (query_post id good w) w') →
  wp (locked m) (query_post id good w) w.
Proof.
  intros Hm. apply wp_locked'; [| | |auto].
  - intros o w1 w2 Hs [Hq Ho]. split; [|done].
    eapply quiet_trans; [done|by apply same_quiet].
  - intros o w1 [Hq _]. by split.
  - intros w' o Hs. apply query_fail. by apply same_quiet.
Qed.
End query_rules.

Lemma is_current_same w w' id rev s :
  same w w' → is_current w' id rev s → is_current w id rev s.
Proof.
  intros Hs (c & gen & Hc & Hsn & ?). exists c, gen.
  rewrite (record_at_same _ _ _ (same_same_at _ _ _ Hs)) in Hc.
  by rewrite (snapshot_at_same _ _ _ (same_same_at _ _ _ Hs)) in Hsn.
Qed.

Section queries.
Context (s : store_ref) (id : string) (revision : Z) (w : world).
Hypothesis Hinv : container_inv w id.

(** The common prefix of the three queries. *)
Lemma wp_query {A} (good : A → Prop) (k : teardownSnapshot * bool → M A) w1 :
  same w w1 →
  (∀ w2 sn, quiet id w w2 → is_current w id revision sn →
     wp (k (sn, true)) (query_post id good w) w2) →
  (∀ w2 sn, quiet id w w2 → (∀ s', ¬ is_current w id revision s') →
     wp (k (sn, false)) (query_post id good w) w2) →
  wp (readStoppedGenerationTeardownSnapshotForRevisionUnlocked id revision ≫= k)
    (query_post id good w) w1.
Proof.
  intros Hs HR HN. wp_step.
  assert (Hq : ∀ w', quiet id w1 w' → quiet id w w').
  { intros w' Hq. eapply quiet_trans; [by apply same_quiet|done]. }
  destruct (same_inv id w Hinv w1 Hs) as [Hinv1 _ _ _].
  apply wp_readForRevision; [done|..].
  - intros w2 sn Hq2 Hc. apply HR; [by apply Hq|]. by eapply is_current_same.
  - intros w2 sn Hq2 Hc. apply HN; [by apply Hq|]. intros s' Hs'.
    apply (Hc s'). by apply (is_current_same _ w).
  - intros w2 o Hq2 [[e ->]| ->]; (apply query_fail; eauto).
Qed.

Lemma sidecar_missing w' p : quiet id w w' → p ∈ exit_paths id → w_fs w' !! p = None.
Proof.
  intros (_ & Hq & _) Hp. destruct Hinv as [_ Hn].
  destruct (Hq p) as [->|]; [by apply Hn|done].
Qed.

(** With no sidecars, the sidecar readers find nothing. *)
Lemma wp_no_exited {A} (good : A → Prop) (k : option exitedIdentity → M A) w1 :
  quiet id w w1 →
  (∀ w2, quiet id w w2 → wp (k None) (query_post id good w) w2) →
  wp (readExitedIdentityUnlocked id ≫= k) (query_post id good w) w1.
Proof.
  intros Hq Hk. wp_step. apply wp_readExited.
  - intros w2 Hs2 _. apply Hk. eapply quiet_trans; [done|by apply same_quiet].
  - intros w2 i Hs2 Hx _. rewrite sidecar_missing in Hx; [by destruct Hx|done|].
    unfold exit_paths. set_solver.
  - intros w2 o Hs2 Ho. assert (quiet id w w2)
      by (eapply quiet_trans; [done|by apply same_quiet]).
    destruct Ho as [[e ->]| ->]; apply query_fail; eauto.
Qed.
Lemma wp_not_required {A} (good : A → Prop) (k : bool → M A) w1 :
  quiet id w w1 →
  (∀ w2, quiet id w w2 → wp (k false) (query_post id good w) w2) →
  wp (exitedIdentityRequiredUnlocked id ≫= k) (query_post id good w) w1.
Proof.
  intros Hq Hk. wp_step. apply wp_readExitedRequired.
  - intros w2 Hs2 _. apply Hk. eapply quiet_trans; [done|by apply same_quiet].
  - intros w2 Hs2 Hx. rewrite sidecar_missing in Hx; [by destruct Hx|done|].
    unfold exit_paths. set_solver.
  - intros w2 o Hs2 Ho. assert (quiet id w w2)
      by (eapply quiet_trans; [done|by apply same_quiet]).
    destruct Ho as [[e ->]| ->]; apply query_fail; eauto.
Qed.

Lemma wp_GetStoppedExitIdentityPolicy :
  wp (GetStoppedExitIdentityPolicy s id revision)
    (query_post id (λ a, answers w id revision a (λ gen, bool_decide (is_Some gen))) w) w.
Proof.
  unfold GetStoppedExitIdentityPolicy.
  do 2 wp_step; [|apply query_fail; eauto with store].
  do 2 wp_step; [|apply query_fail; eauto with store].
  apply wp_locked_query. intros w1 Hs1. apply wp_query; [done|..]; cbn [negb];
    [|intros w2 sn Hq Hc; wp_step; split; [done|]; by intros a [= <-]].
  intros w2 sn Hq (c & gen & Hc & Hsn & Hst & Hrev & Hl).
  assert (Hans : ∀ a w', an_current a = true → quiet id w w' →
    an_identity a = gen → an_required a = bool_decide (is_Some gen) →
    wp (mret a) (query_post id (λ a, answers w id revision a
      (λ gen, bool_decide (is_Some gen))) w) w').
  { intros a w' Ha Hq' Hi Hr. wp_step. split; [done|]. intros a' [= <-].
    unfold answers. rewrite Ha. by exists c, sn, gen. }
  inversion Hl as [K1|K1|i' K1 _ _ _ Ks|K1 _ _ Ks]; try status_clash; subst gen.
  - rewrite Ks. cbn. wp_step. by apply Hans.
  - rewrite Ks. unfold written_snapshot. rewrite K1. cbn.
    apply wp_no_exited; [done..|]. intros w3 Hq3.
    apply wp_not_required; [done..|]. intros w4 Hq4. by apply Hans.
Qed.

Lemma wp_GetExitedIdentityForStoppedRevision :
  wp (GetExitedIdentityForStoppedRevision s id revision)
    (query_post id (λ a, answers w id revision a (λ _, false)) w) w.
Proof.
  unfold GetExitedIdentityForStoppedRevision.
  do 2 wp_step; [|apply query_fail; eauto with store].
  do 2 wp_step; [|apply query_fail; eauto with store].
  apply wp_locked_query. intros w1 Hs1. apply wp_query; [done|..]; cbn [negb];
    [|intros w2 sn Hq Hc; wp_step; split; [done|]; by intros a [= <-]].
  intros w2 sn Hq (c & gen & Hc & Hsn & Hst & Hrev & Hl).
  assert (Hans : ∀ a w', an_current a = true → quiet id w w' →
    an_identity a = gen → an_required a = false →
    wp (mret a) (query_post id (λ a, answers w id revision a (λ _, false)) w) w').
  { intros a w' Ha Hq' Hi Hr. wp_step. split; [done|]. intros a' [= <-].
    unfold answers. rewrite Ha. by exists c, sn, gen. }
  inversion Hl as [K1|K1|i' K1 _ _ _ Ks|K1 _ _ Ks]; try status_clash; subst gen.
  - rewrite Ks. cbn. wp_step. by apply Hans.
  - rewrite Ks. unfold written_snapshot. rewrite K1. cbn.
    apply wp_no_exited; [done..|]. intros w3 Hq3. by apply Hans.
Qed.

Lemma wp_StoppedRevisionRequires :
  wp (StoppedRevisionRequiresExitedIdentity s id revision) (query_post id (λ _, True) w) w.
Proof.
  unfold StoppedRevisionRequiresExitedIdentity.
  do 2 wp_step; [|apply query_fail; eauto with store].
  do 2 wp_step; [|apply query_fail; eauto with store].
  apply wp_locked_query. intros w1 Hs1. apply wp_query; [done|..]; cbn [negb];
    [|intros; wp_step; by split].
  intros w2 sn Hq _. destruct (sn_versioned sn).
  { do 2 wp_step; [wp_step; by split|apply query_fail; eauto]. }
  destruct (sn_requirementPresent sn); [wp_step; by split|].
  apply wp_not_required; [done..|]. intros w3 Hq3. wp_step. by split.
Qed.

Lemma wp_GetExitedIdentity :
  wp (GetExitedIdentity s id) (query_post id (λ _, True) w) w.
Proof.
  unfold GetExitedIdentity.
  do 2 wp_step; [|apply query_fail; eauto with store].
  do 2 wp_step; [|apply query_fail; eauto with store].
  apply wp_locked_query. intros w1 Hs1. apply wp_readCurrentExited.
  - intros. split; [|done]. apply same_quiet. by transitivity w1.
  - intros. split; [|done]. apply same_quiet. by transitivity w1.
  - intros w2 o Hs2. apply query_fail. apply same_quiet. by transitivity w1.
Qed.
End queries.
