(* ===== verification/StoreReach.v ===== *)
(** The reachable state directories.  Processes call the operations of [Store]
    in any order, each call with its own faults and crash point; they keep the
    records they read and save them back, changed in their metadata only.  The
    invariants of [StoreSystem] hold in every reachable state, and every call is
    a step of the abstract containers. *)
From S2P Require Import Prelude GoStrings Json Fs FsLogic Container Net.
From S2P Require Import Ownership OwnershipFacts Generation GenerationFacts.
From S2P Require Import Store StoreFacts StoreOps StoreSystem.

(** * Calls *)

(** The operations on one container that take no record. *)
Inductive call :=
  | CMarkRunning (s : store_ref) (pid pst : Z) (started : time)
  | CMarkStoppedIfIdentity (s : store_ref) (pid pst code : Z) (finished : time)
  | CMarkStoppedIfCreated (s : store_ref) (code : Z) (finished : time)
  | CSetHostname (s : store_ref) (hostname : string)
  | CDelete
  | CDeleteIfNotRunning (s : store_ref)
  | CMarkCgroupOwned (s : store_ref) (pid pst : Z) (name : string)
  | CClearCgroup (s : store_ref) (o : CgroupOwnership)
  | CMarkNetworkOwned (s : store_ref) (o : NetworkOwnership)
  | CClearNetwork (s : store_ref) (o : NetworkOwnership)
  | CExitPolicy (s : store_ref) (revision : Z)
  | CExitIdentity (s : store_ref) (revision : Z)
  | CExitRequired (s : store_ref) (revision : Z)
  | CGetExited (s : store_ref)
  | CStopSignal (signal : string).

(** The arguments have their Go types. *)
Definition call_typed (k : call) : Prop :=
  match k with
  | CMarkRunning _ pid pst _ => in_int64 pid ∧ in_uint64 pst
  | CMarkStoppedIfIdentity _ pid pst code _ =>
    in_int64 pid ∧ in_uint64 pst ∧ in_int64 code
  | CMarkStoppedIfCreated _ code _ => in_int64 code
  | _ => True
  end.

Definition drop {A} (m : M A) : M unit := m;; mret tt.

Definition run_call (id : string) (k : call) : M unit :=
  match k with
  | CMarkRunning s pid pst t => MarkRunning s id pid pst t
  | CMarkStoppedIfIdentity s pid pst code t =>
    drop (MarkStoppedIfIdentity s id pid pst code t)
  | CMarkStoppedIfCreated s code t => drop (MarkStoppedIfCreated s id code t)
  | CSetHostname s h => SetHostnameIfNotRunning s id h
  | CDelete => Delete id
  | CDeleteIfNotRunning s => DeleteIfNotRunning s id
  | CMarkCgroupOwned s pid pst name => MarkCgroupOwnedIfIdentity s id pid pst name
  | CClearCgroup s o => drop (ClearCgroupOwnershipIfMatch s id o)
  | CMarkNetworkOwned s o => MarkNetworkOwnedIfIdentity s id o
  | CClearNetwork s o => drop (ClearNetworkOwnershipIfMatch s id o)
  | CExitPolicy s rev => drop (GetStoppedExitIdentityPolicy s id rev)
  | CExitIdentity s rev => drop (GetExitedIdentityForStoppedRevision s id rev)
  | CExitRequired s rev => drop (StoppedRevisionRequiresExitedIdentity s id rev)
  | CGetExited s => drop (GetExitedIdentity s id)
  | CStopSignal signal => SaveContainerStopSignal id signal
  end.

Lemma drop_world {A} (m : M A) w : (drop m w).2 = (m w).2.
Proof. unfold drop, mbind, M_bind. by destruct (m w) as [[] ?]. Qed.

Lemma wp_world {A} (m : M A) (P : world → Prop) w :
  wp m (λ _ w', P w') w → P (m w).2.
Proof. done. Qed.

Lemma call_good id k w :
  container_inv w id → call_typed k → good_step False id w (run_call id k w).2.
Proof.
  intros Hinv Hk. destruct k; cbn [run_call call_typed] in *; rewrite ?drop_world.
  - destruct (MarkRunning s id pid pst started w) eqn:E. destruct Hk. cbn [snd].
    eapply (MarkRunning_inv id w Hinv); [..|exact E]; done.
  - destruct (MarkStoppedIfIdentity s id pid pst code finished w) eqn:E.
    destruct Hk as (? & ? & ?). cbn [snd]. eapply (MarkStopped_inv id w Hinv); [..|exact E]; done.
  - destruct (MarkStoppedIfCreated s id code finished w) eqn:E. cbn [snd].
    eapply (MarkStoppedIfCreated_inv id w Hinv); [..|exact E]; done.
  - destruct (SetHostnameIfNotRunning s id hostname w) eqn:E. cbn [snd].
    eapply (SetHostname_inv id w Hinv); [..|exact E]; done.
  - eapply deletes_inv; [done| |exact (wp_Delete id w)]. done.
  - eapply deletes_inv; [done| |exact (wp_DeleteIfNotRunning s id w)]. by intros [].
  - destruct (MarkCgroupOwnedIfIdentity s id pid pst name w) eqn:E. cbn [snd].
    eapply (MarkCgroupOwned_inv id w Hinv); [..|exact E]; done.
  - eapply clears_inv; [done|by left|exact (wp_ClearCgroup id s o w)].
  - destruct (MarkNetworkOwnedIfIdentity s id o w) eqn:E. cbn [snd].
    eapply (MarkNetworkOwned_inv id w Hinv); [..|exact E]; done.
  - eapply clears_inv; [done|by right|exact (wp_ClearNetwork id s o w)].
  - apply quiet_step; [done|].
    apply (wp_GetStoppedExitIdentityPolicy s id revision w Hinv).
  - apply quiet_step; [done|].
    apply (wp_GetExitedIdentityForStoppedRevision s id revision w Hinv).
  - apply quiet_step; [done|]. apply (wp_StoppedRevisionRequires s id revision w Hinv).
  - apply quiet_step; [done|]. apply (wp_GetExitedIdentity s id w).
  - pose proof (wp_SaveContainerStopSignal id signal w) as Hs. unfold wp in Hs.
    assert (Hne : ∀ i q, q ∈ core_paths i → q ≠ stopSignalPath id).
    { intros i q. unfold core_paths. rewrite !elem_of_cons, elem_of_nil.
      intros Hq. destruct_or! Hq; try done; subst q; path_ne. }
    assert (Hj : same_at (containerPath id) w (SaveContainerStopSignal id signal w).2)
      by (apply Hs, (Hne id); unfold core_paths; set_solver).
    split.
    + apply (container_inv_ext w); [|done]. intros q Hq. by eapply Hs, Hne.
    + intros i q _ Hq. by eapply Hs, Hne.
    + rewrite (abs_same _ _ _ Hj). apply as_stay.
    + rewrite (abs_same _ _ _ Hj). by left.
Qed.

(** * The system *)

(** The state directory, the records read by some process and the container
    identifiers handed out so far. *)
Record system := Sys {
  sy_world : world;
  sy_read : list Container;
  sy_used : gset string }.

(** A process starts a call on the directory: it has its own handles, temporary
    files, faults and map orders. *)
Definition opened (temps : gmap nat file_data) (closed : bool)
    (faults : list fault) (order : list bool) (w : world) : world :=
  World (w_fs w) temps closed faults order.

(** A caller of [Save] keeps the identity and the lifecycle of the record it
    read. *)
Definition metadata_of (c0 c : Container) : Prop :=
  ID c = ID c0 ∧ Revision c = Revision c0 ∧ Status c = Status c0 ∧
  PID c = PID c0 ∧ PIDStartTime c = PIDStartTime c0.

Definition returned (o : outcome Container) : list Container :=
  match o with Ret c => [c] | _ => [] end.

Inductive step : system → system → Prop :=
  | step_call w l u id k temps closed faults order :
    call_typed k →
    step (Sys w l u)
      (Sys (run_call id k (opened temps closed faults order w)).2 l u)
  | step_create w l u c o w' temps closed faults order :
    ID c ∉ u → json_safe (ID c) → container_ranges c → Revision c = 0 →
    Status c = StatusCreated → PID c = 0 → PIDStartTime c = 0 →
    Save (Some c) (opened temps closed faults order w) = (o, w') →
    step (Sys w l u) (Sys w' (returned o ++ l) ({[ID c]} ∪ u))
  | step_read w l u id o w' temps closed faults order :
    Get id (opened temps closed faults order w) = (o, w') →
    step (Sys w l u) (Sys w' (returned o ++ l) u)
  | step_save w l u c0 c o w' temps closed faults order :
    c0 ∈ l → metadata_of c0 c → container_ranges c →
    Save (Some c) (opened temps closed faults order w) = (o, w') →
    step (Sys w l u) (Sys w' (returned o ++ l) u).

Definition initial : system := Sys (World ∅ ∅ false [] []) [] ∅.

Inductive reachable : system → Prop :=
  | reach_init : reachable initial
  | reach_step s s' : reachable s → step s s' → reachable s'.

(** * The invariant of the system *)

(** A record some process read is not newer than the one on disk, and one with
    the revision on disk has its status and process. *)
Definition agrees (c cur : Container) : Prop :=
  Revision c ≤ Revision cur ∧
  (Revision c = Revision cur → Status c = Status cur ∧ PID c = PID cur ∧
     PIDStartTime c = PIDStartTime cur).

Record read_ok (w : world) (u : gset string) (c : Container) : Prop := {
  rd_ID : json_safe (ID c);
  rd_Status : json_safe (Status c);
  rd_used : ID c ∈ u;
  rd_revision : 1 ≤ Revision c;
  rd_agrees : ∀ cur, record_at w (ID c) = Some cur → agrees c cur }.

Record system_inv (s : system) : Prop := {
  si_containers : ∀ id, container_inv (sy_world s) id;
  si_revision : ∀ id c, record_at (sy_world s) id = Some c → 1 ≤ Revision c;
  si_used : ∀ id c, record_at (sy_world s) id = Some c → id ∈ sy_used s;
  si_read : ∀ c, c ∈ sy_read s → read_ok (sy_world s) (sy_used s) c }.

Lemma opened_same_fs temps closed faults order w q :
  same_at q w (opened temps closed faults order w).
Proof. done. Qed.

Lemma inv_opened temps closed faults order w id :
  container_inv w id → container_inv (opened temps closed faults order w) id.
Proof. by apply container_inv_ext. Qed.

Lemma abs_of_inj c c' s s' gen gen' :
  lifecycle c s gen → lifecycle c' s' gen' → abs_of c s = abs_of c' s' →
  Revision c = Revision c' ∧ Status c = Status c' ∧ PID c = PID c' ∧
  PIDStartTime c = PIDStartTime c'.
Proof.
  intros Hl Hl' Ha. assert (Hr : Revision c = Revision c').
  { destruct (abs_of_rev c s) as [_ <-], (abs_of_rev c' s') as [_ <-]. by rewrite Ha. }
  split; [done|].
  destruct Hl as [H1 H2 H3 ->|H1 H2 H3 ->|i1 H1 H2 H3 H4 ->|H1 H2 H3 ->],
    Hl' as [K1 K2 K3 ->|K1 K2 K3 ->|j1 K1 K2 K3 K4 ->|K1 K2 K3 ->];
    unfold abs_of, written_snapshot in Ha; rewrite H1, K1 in Ha; cbn in Ha;
    try discriminate Ha; try (split_and!; congruence).
Qed.

Lemma astep_rev a a' :
  astep a a' → a ≠ AAbsent → a' ≠ AAbsent → a' = a ∨ arev a' = arev a + 1.
Proof. intros [] ? ?; auto; try done. right. by destruct a0. Qed.

Section one_step.
Context (cr : Prop) (w w' : world) (id : string) (u : gset string).
Hypothesis Hstep : good_step cr id w w'.
Hypothesis Hinv : ∀ i, container_inv w i.
Hypothesis Hrev : ∀ i c, record_at w i = Some c → 1 ≤ Revision c.

Lemma step_others i : i ≠ id → record_at w' i = record_at w i.
Proof.
  intros Hne. apply record_at_same. eapply (gs_frame _ _ _ _ Hstep); [done|].
  unfold core_paths. set_solver.
Qed.

Lemma step_containers i : container_inv w' i.
Proof. eapply frame_inv; [done|apply Hstep..]. Qed.

(** The record on disk after the step, against the one before. *)
Lemma step_record cur' :
  record_at w' id = Some cur' →
  (∃ cur, record_at w id = Some cur ∧ Revision cur ≤ Revision cur' ∧
     (Revision cur = Revision cur' → Status cur = Status cur' ∧
        PID cur = PID cur' ∧ PIDStartTime cur = PIDStartTime cur')) ∨
  (w_fs w !! containerPath id = None ∧ cr ∧ Revision cur' = 1).
Proof.
  intros Hc'.
  destruct (inv_record id w' (step_containers id) cur' Hc')
    as (s' & gen' & Hs' & Hl' & _ & _).
  assert (Ha' : abs w' id = abs_of cur' s') by (unfold abs; by rewrite Hc', Hs').
  destruct (abs_of_rev cur' s') as [Hne' Hr'].
  destruct (Hinv id) as [[Hn _|cur s gen Hc Hs Hl _ _] _].
  - right. destruct Hstep as [_ _ Has Hcr].
    assert (Ha : abs w id = AAbsent) by by apply abs_missing.
    destruct (Hcr Ha) as [Hx|Hx]; [congruence|]. split_and!; [done..|].
    rewrite Ha, Ha' in Has. inversion Has as [a|H1|a Hne|a g Hne|g n H1|n H1|a H1];
      subst; try congruence. rewrite <- Hr', <- H. done.
  - left. exists cur. split; [done|].
    assert (Ha : abs w id = abs_of cur s) by (unfold abs; by rewrite Hc, Hs).
    destruct (abs_of_rev cur s) as [Hne Hr].
    destruct Hstep as [_ _ Has _]. rewrite Ha, Ha' in Has.
    assert (Hcase : abs_of cur' s' = abs_of cur s ∨
      arev (abs_of cur' s') = arev (abs_of cur s) + 1).
    { by apply astep_rev. }
    destruct Hcase as [Heq|Hplus].
    + destruct (abs_of_inj _ _ _ _ _ _ Hl Hl' (eq_sym Heq)) as (? & ? & ? & ?).
      split; [lia|done].
    + split; lia.
Qed.

Lemma step_revision i c : record_at w' i = Some c → 1 ≤ Revision c.
Proof.
  intros Hc. destruct (decide (i = id)) as [->|Hne].
  - destruct (step_record c Hc) as [(cur & Hcur & Hle & _)|(_ & _ & ->)]; [|lia].
    specialize (Hrev _ _ Hcur). lia.
  - rewrite step_others in Hc by done. eauto.
Qed.

Lemma step_read_ok c :
  (cr → id ∉ u) → read_ok w u c → read_ok w' u c.
Proof.
  intros Hcr []. split; try done. intros cur' Hcur'.
  destruct (decide (ID c = id)) as [Hid|Hne].
  - rewrite Hid in *. destruct (step_record cur' Hcur')
      as [(cur & Hcur & Hle & Heq)|(_ & Hx & _)]; [|by destruct (Hcr Hx)].
    destruct (rd_agrees0 cur Hcur) as [Ha Hb]. split; [lia|].
    intros Hr. destruct Hb as (-> & -> & ->); [lia|]. apply Heq. lia.
  - rewrite step_others in Hcur' by done. eauto.
Qed.
End one_step.

Lemma read_ok_used w u u' c : u ⊆ u' → read_ok w u c → read_ok w u' c.
Proof. intros Hu []. split; auto. Qed.

Lemma agrees_persisted c :
  json_safe (Status c) → agrees c (persisted c).
Proof.
  intros Hs. split; [done|]. intros _. unfold persisted. cbn [Status PID PIDStartTime].
  by rewrite Hs.
Qed.

(** Whatever a step leaves, the records read before it are not newer; [u'] are
    the identifiers used after it. *)
Lemma system_step (cr : Prop) w w' id l l' u u' :
  good_step cr id w w' → system_inv (Sys w l u) → (cr → (id ∉ u) ∧ (id ∈ u')) → u ⊆ u' →
  (∀ c, c ∈ l' → read_ok w' u' c) →
  system_inv (Sys w' (l' ++ l) u').
Proof.
  intros Hg [Hi Hr Hu Hl] Hcr Hsub Hl'. cbn in *. split; cbn.
  - by eapply step_containers.
  - intros i c. by eapply step_revision.
  - intros i c Hc. destruct (decide (i = id)) as [->|Hne].
    + destruct (step_record cr w w' id Hg Hi c Hc) as [(cur & Hcur & _)|(_ & Hx & _)].
      * by eapply Hsub, Hu.
      * by apply Hcr.
    + rewrite (step_others cr w w' id Hg) in Hc by done. by eapply Hsub, Hu.
  - intros c [Hc|Hc]%elem_of_app; [by apply Hl'|].
    apply (read_ok_used _ u); [done|].
    eapply step_read_ok; [done..| |by apply Hl]. naive_solver.
Qed.

Lemma Save_returned c w o w' :
  container_ranges c → json_safe (ID c) → json_safe (Status c) →
  Save (Some c) w = (o, w') →
  ∀ a, o = Ret a → a = next_revision c ∧
    record_at w' (ID c) = Some (persisted (next_revision c)) ∧ 0 ≤ Revision c.
Proof.
  intros Hr Hid Hst Hrun a ->. pose proof (wp_Save c Hr Hid Hst w) as Hwp.
  unfold wp in Hwp. rewrite Hrun in Hwp.
  destruct Hwp as [[_ H]|(_ & r & i & _ & Hw & Ha)]; [by destruct (H a)|].
  split_and!; [by apply Ha|apply Hw|apply Hr].
Qed.

Lemma saved_read_ok c w o w' u :
  container_ranges c → json_safe (ID c) → json_safe (Status c) → ID c ∈ u →
  Save (Some c) w = (o, w') → ∀ a, a ∈ returned o → read_ok w' u a.
Proof.
  intros Hr Hid Hst Hu Hrun a Ha. destruct o as [a'| |]; cbn in Ha; [|set_solver..].
  apply list_elem_of_singleton in Ha as ->.
  destruct (Save_returned c w _ w' Hr Hid Hst Hrun a' eq_refl) as (-> & Hc & Hp).
  assert (Hi : ID (next_revision c) = ID c) by (by destruct c).
  split; [by rewrite Hi|by destruct c|by rewrite Hi|destruct c; cbn in *; lia|].
  intros cur Hcur. rewrite Hi, Hc in Hcur. injection Hcur as <-.
  apply agrees_persisted. by destruct c.
Qed.

Lemma create_inv w l u c o w' :
  system_inv (Sys w l u) → ID c ∉ u → json_safe (ID c) → container_ranges c →
  Revision c = 0 → Status c = StatusCreated → PID c = 0 → PIDStartTime c = 0 →
  Save (Some c) w = (o, w') →
  system_inv (Sys w' (returned o ++ l) ({[ID c]} ∪ u)).
Proof.
  intros Hinv Hu Hid Hr Hrev Hst Hp Hps Hrun.
  assert (Hsst : json_safe (Status c)) by (by rewrite Hst).
  assert (Hno : ∀ cur, record_at w (ID c) = Some cur → False).
  { intros cur Hcur. apply Hu. by eapply (si_used _ Hinv). }
  eapply (system_step (Revision c = 0) w w' (ID c)); [|done|set_solver|set_solver|].
  - eapply (Save_inv (ID c) w (si_containers _ Hinv _) c); try done.
    intros cur Hcur. by destruct (Hno cur).
  - eapply saved_read_ok; try done. set_solver.
Qed.

Lemma save_inv w l u c0 c o w' :
  system_inv (Sys w l u) → c0 ∈ l → metadata_of c0 c → container_ranges c →
  Save (Some c) w = (o, w') → system_inv (Sys w' (returned o ++ l) u).
Proof.
  intros Hinv Hc0 (Hid & Hrev & Hst & Hp & Hps) Hr Hrun.
  destruct (si_read _ Hinv c0 Hc0) as [R1 R2 R3 R4 R5]. cbn in *.
  eapply (system_step False w w' (ID c)); [|done|done|done|].
  - apply (good_step_weaken (Revision c = 0)); [lia|].
    eapply (Save_inv (ID c) w (si_containers _ Hinv _) c);
      try done; [congruence|congruence|lia|].
    intros cur Hcur Hcr. rewrite Hid in Hcur. destruct (R5 cur Hcur) as [_ Heq].
    rewrite Hst, Hp, Hps. apply Heq. congruence.
  - eapply saved_read_ok; try done; congruence.
Qed.

Lemma read_inv w l u id o w' :
  system_inv (Sys w l u) → Get id w = (o, w') →
  system_inv (Sys w' (returned o ++ l) u).
Proof.
  intros Hinv Hrun.
  assert (Hwp : wp (Get id) (λ o w', same w w' ∧
    ∀ a, o = Ret a → record_at w id = Some a) w).
  { apply wp_Get; [intros w1 c Hs Hc; split; [done|]; by intros a [= <-]|].
    intros w1 o1 Hs Ho. split; [done|]. intros a ->. by destruct Ho as [[]|]. }
  unfold wp in Hwp. rewrite Hrun in Hwp. destruct Hwp as [Hs Ha]. cbn in Hs, Ha.
  eapply (system_step False w w' id); [|done|done|done|].
  - apply same_inv; [apply (si_containers _ Hinv)|done].
  - intros c Hc. destruct o as [a| |]; cbn in Hc; [|set_solver..].
    apply list_elem_of_singleton in Hc as ->.
    specialize (Ha a eq_refl). good_record Ha. destruct Hgood.
    split; try done; [by rewrite Hid; eapply (si_used _ Hinv)
      |by eapply (si_revision _ Hinv)|].
    intros cur Hcur. rewrite Hid in Hcur.
    rewrite (record_at_same _ _ _ (same_same_at _ _ _ Hs)), Ha in Hcur.
    injection Hcur as <-. by split.
Qed.

Lemma initial_inv : system_inv initial.
Proof.
  split; cbn.
  - intros id. split; [|done]. by apply inv_absent.
  - done.
  - done.
  - intros c Hc. set_solver.
Qed.

Lemma opened_inv w l u temps closed faults order :
  system_inv (Sys w l u) → system_inv (Sys (opened temps closed faults order w) l u).
Proof.
  intros [H1 H2 H3 H4]. split; try done; cbn in *.
  - intros id. by apply inv_opened.
  - intros c Hc. destruct (H4 c Hc). by split.
Qed.

Lemma step_inv s s' : system_inv s → step s s' → system_inv s'.
Proof.
  intros Hinv Hs. destruct Hs;
    apply (opened_inv _ _ _ temps closed faults order) in Hinv;
    [|by eapply create_inv|by eapply read_inv|by eapply save_inv].
  eapply (system_step False _ _ id _ []); try done; [|set_solver].
  apply call_good; [apply (si_containers _ Hinv)|done].
Qed.

Lemma reachable_inv s : reachable s → system_inv s.
Proof. induction 1 as [|s s' _ IH Hs]; [apply initial_inv|by eapply step_inv]. Qed.

(** * Steps of the abstract containers *)

Lemma good_step_astep cr i w w' id :
  good_step cr i w w' → astep (abs w id) (abs w' id).
Proof.
  intros Hg. destruct (decide (id = i)) as [->|Hne]; [apply Hg|].
  rewrite (abs_same id w w'); [apply as_stay|].
  eapply (gs_frame _ _ _ _ Hg); [done|]. unfold core_paths. set_solver.
Qed.

Lemma step_astep s s' id :
  reachable s → step s s' → astep (abs (sy_world s) id) (abs (sy_world s') id).
Proof.
  intros Hr%reachable_inv Hs. destruct Hs; cbn [sy_world];
    change (abs w id) with (abs (opened temps closed faults order w) id);
    apply (opened_inv _ _ _ temps closed faults order) in Hr.
  - eapply good_step_astep, call_good; [apply (si_containers _ Hr)|done].
  - eapply good_step_astep, (Save_inv (ID c) _ (si_containers _ Hr _) c); try done.
    + by rewrite H3.
    + intros cur Hcur. destruct H. by eapply (si_used _ Hr).
  - pose proof (wp_Get id0 (λ _ w', same (opened temps closed faults order w) w')
      (opened temps closed faults order w)) as Hwp.
    unfold wp in Hwp. rewrite H in Hwp. eapply good_step_astep, (same_inv id0);
      [apply (si_containers _ Hr)|]. apply Hwp; auto.
  - destruct H0 as (Hid & Hrev & Hst & Hp & Hps).
    destruct (si_read _ Hr c0 H) as [R1 R2 R3 R4 R5]. cbn in *.
    eapply good_step_astep, (Save_inv (ID c) _ (si_containers _ Hr _) c);
      try done; [congruence|congruence|lia|].
    intros cur Hcur Hcr. rewrite Hid in Hcur. destruct (R5 cur Hcur) as [_ Heq].
    rewrite Hst, Hp, Hps. apply Heq. congruence.
Qed.

(** * Ownership proofs read in a state of the invariant *)

Lemma lifecycle_generation c s g :
  lifecycle c s (Some g) →
  abs_of c s = ARunning g (Revision c) ∨ abs_of c s = AStopped g (Revision c).
Proof.
  intros Hl. unfold abs_of.
  inversion Hl as [H|H1|i H1 _ _ _ Hs|H]; subst; rewrite H1; cbn; auto.
Qed.

Definition names_generation (w : world) (id : string) (pid pst : Z) : Prop :=
  ∃ rev, abs w id = ARunning (mkIdentity pid pst) rev ∨
         abs w id = AStopped (mkIdentity pid pst) rev.

Lemma cgroup_at_current id w o :
  container_inv w id → cgroup_at w id = Some o →
  names_generation w id (cg_PID o) (cg_PIDStartTime o).
Proof.
  intros [Hinv _] Hwp.
  unfold cgroup_at, regular_at in Hwp.
  destruct Hinv as [_ [Hc _]|c s gen Hc Hs Hl Hco _]; [by rewrite Hc in Hwp|].
  destruct (w_fs w !! cgroupOwnershipPath id) as [n|] eqn:Hn; [|done].
  destruct Hco as (o0 & -> & Hv & ->).
  destruct (_ || _); [done|].
  destruct (decodeCgroupOwnership _ _) as [o1|] eqn:Hd; [|done].
  injection Hwp as ->. apply decode_cgroup_inv in Hd as ->; [|done].
  exists (Revision c). unfold abs. rewrite Hc, Hs. by apply lifecycle_generation.
Qed.

Lemma cgroup_current st id w o w' :
  container_inv w id → GetCgroupOwnership st id w = (Ret (Some o), w') →
  names_generation w id (cg_PID o) (cg_PIDStartTime o).
Proof.
  intros Hinv Hrun.
  assert (Hwp : wp (GetCgroupOwnership st id)
    (λ r _, r = Ret (Some o) → cgroup_at w id = Some o) w).
  { unfold GetCgroupOwnership. do 2 wp_step; [|done]. do 2 wp_step; [|done].
    unfold open_store. do 3 wp_step. destruct (w_closed w); wp_step; [done|].
    apply wp_readCgroup; [done|by intros ? ? ? ? [= <-]|by intros ? ? _ [[? ->]| ->]]. }
  unfold wp in Hwp. rewrite Hrun in Hwp. apply cgroup_at_current; [done|]. by apply Hwp.
Qed.

Lemma network_at_current id w o :
  container_inv w id → network_at w id = Some o →
  names_generation w id (no_PID o) (no_PIDStartTime o).
Proof.
  intros [Hinv _] Hwp.
  unfold network_at, regular_at in Hwp.
  destruct Hinv as [_ [_ Hc]|c s gen Hc Hs Hl _ Hno]; [by rewrite Hc in Hwp|].
  destruct (w_fs w !! networkOwnershipPath id) as [n|] eqn:Hn; [|done].
  destruct Hno as (o0 & -> & Hv & ->).
  destruct (_ || _); [done|].
  destruct (decodeNetworkOwnership _ _) as [o1|] eqn:Hd; [|done].
  injection Hwp as ->. apply decode_network_inv in Hd as ->; [|done].
  exists (Revision c). unfold abs. rewrite Hc, Hs. by apply lifecycle_generation.
Qed.

Lemma network_current st id w o w' :
  container_inv w id → GetNetworkOwnership st id w = (Ret (Some o), w') →
  names_generation w id (no_PID o) (no_PIDStartTime o).
Proof.
  intros Hinv Hrun.
  assert (Hwp : wp (GetNetworkOwnership st id)
    (λ r _, r = Ret (Some o) → network_at w id = Some o) w).
  { unfold GetNetworkOwnership. do 2 wp_step; [|done]. do 2 wp_step; [|done].
    unfold open_store. do 3 wp_step. destruct (w_closed w); wp_step; [done|].
    apply wp_readNetwork; [done|by intros ? ? ? ? [= <-]|by intros ? ? _ [[? ->]| ->]]. }
  unfold wp in Hwp. rewrite Hrun in Hwp. apply network_at_current; [done|]. by apply Hwp.
Qed.

(** * The exit policy, on abstract states *)

Lemma answers_policy w id rev a :
  container_inv w id →
  answers w id rev a (λ gen, bool_decide (is_Some gen)) →
  a = match abs w id with
      | AStopped g n => if (n =? rev)%Z then mkAnswer (Some g) true true
                        else mkAnswer None false false
      | AFailed n => mkAnswer None (n =? rev)%Z false
      | _ => mkAnswer None false false
      end.
Proof.
  intros [Hinv _] Ha. unfold answers in Ha. destruct (an_current a) eqn:Hcur.
  - destruct Ha as (c & s & gen & Hc & Hs & Hst & Hrev & Hl & Hi & Hr).
    unfold abs. rewrite Hc, Hs. destruct a as [i cu r]. cbn in Hcur, Hi, Hr. subst.
    inversion Hl as [K|K|j K _ _ _ Ks|K _ _ Ks]; try status_clash; subst;
      unfold abs_of, written_snapshot; rewrite K; cbn; by rewrite Z.eqb_refl.
  - destruct Ha as [-> Hn].
    destruct Hinv as [Hm _|c s gen Hc Hs Hl _ _]; [by rewrite abs_missing|].
    unfold abs. rewrite Hc, Hs.
    assert (Hne : Status c = StatusStopped → (Revision c =? rev)%Z = false).
    { intros Hst. apply Z.eqb_neq. intros Hrev. apply (Hn s). by exists c, gen. }
    inversion Hl as [K|K|j K _ _ _ Ks|K _ _ Ks]; subst; 
      unfold abs_of, written_snapshot; rewrite K; cbn; try done; by rewrite Hne.
Qed.
