(* ===== verification/StoreCalm.v ===== *)
(** Execution of the store operations when no call fails: what the reads return
    and what the revision-bound queries answer. *)
From S2P Require Import Prelude GoStrings Json Fs FsLogic Container Net.
From S2P Require Import Ownership OwnershipFacts Sizes Generation.
From S2P Require Import GenerationFacts Store StoreFacts StoreOps StoreSystem.
From S2P Require Import StoreReach.

(** A process that opened the store and meets no fault. *)
Definition fresh_process (w : world) : world := opened ∅ false [] [] w.

Lemma fresh_calm w : calm (fresh_process w) ∧ w_closed (fresh_process w) = false.
Proof. done. Qed.

Lemma attempt_calm_Ret {A} (m : M A) w a w' :
  m w = (Ret a, w') → attempt m w = (Ret (Ok a), w').
Proof. apply attempt_Ret. Qed.

Lemma record_data w id c :
  record_at w id = Some c →
  ∃ d, regular_at w (containerPath id) = Some d ∧
    unmarshalContainerStateForID d id = Ok c.
Proof.
  unfold record_at. destruct (regular_at _ _) as [d|]; [|done].
  destruct (unmarshalContainerStateForID d id) eqn:E; [|done].
  intros [= <-]. eauto.
Qed.

Lemma getUnlocked_calm w id c :
  calm w → w_closed w = false → record_at w id = Some c →
  getUnlocked id w = (Ret c, w).
Proof.
  intros Hw Hcl Hc. destruct (record_data _ _ _ Hc) as (d & Hd & Hu).
  unfold getUnlocked. erewrite bind_Ret; [|reflexivity]. rewrite Hcl.
  erewrite bind_Ret; [|by apply attempt_Ret, read_calm]. cbn beta iota.
  unfold lift, wrapf. by rewrite Hu.
Qed.

Lemma Get_calm w id c :
  calm w → w_closed w = false → validateID id = None → record_at w id = Some c →
  Get id w = (Ret c, w).
Proof.
  intros Hw Hcl Hid Hc. unfold Get. erewrite bind_Ret;
    [|unfold ensure; rewrite Hid; reflexivity]. by apply getUnlocked_calm.
Qed.

Lemma locked_calm {A} (m : M A) w o w' :
  calm w → w_closed w = false → m w = (o, w') → calm w' → o ≠ Crash →
  locked m w = (o, w').
Proof.
  intros Hw Hcl Hm Hw' Ho. unfold locked, lockStateFile.
  erewrite bind_Ret; [|erewrite bind_Ret; [|reflexivity]; rewrite Hcl;
    by apply wrapm_Ret, sys_calm].
  unfold defer. rewrite Hm.
  assert (Hu : unlockStateFile w' = (Ret tt, w')).
  { unfold unlockStateFile. erewrite bind_Ret; [|reflexivity].
    destruct (w_closed w'); [done|]. by apply wrapm_Ret, sys_calm. }
  destruct o; [by rewrite Hu..|done].
Qed.

Lemma read_optional_calm msg p w :
  calm w → w_fs w !! p = None → read_optional msg p w = (Ret None, w).
Proof.
  intros Hw Hp. unfold read_optional.
  erewrite bind_Ret; [|by apply attempt_Err, read_calm_missing]. done.
Qed.
Lemma read_optional_calm_some msg p w d :
  calm w → regular_at w p = Some d → read_optional msg p w = (Ret (Some d), w).
Proof.
  intros Hw Hp. unfold read_optional.
  erewrite bind_Ret; [|by apply attempt_Ret, read_calm]. done.
Qed.

Lemma snapshot_data w id s :
  snapshot_at w id = Some s →
  ∃ d raw, regular_at w (containerPath id) = Some d ∧ decode_raw d = Ok raw ∧
    raw_teardownSnapshot raw = Ok s.
Proof.
  unfold snapshot_at. destruct (regular_at _ _) as [d|]; [|done].
  destruct (decode_raw d) as [raw|] eqn:E; [|done]. cbn.
  destruct (raw_teardownSnapshot raw) eqn:E2; [|done]. intros [= <-]. eauto 10.
Qed.

(** The entries of the retired sidecars are gone. *)
Definition retired (id : string) (w : world) : world :=
  with_fs (delete (exitedIdentityRequiredPath id)) (with_fs (delete (exitedIdentityPath id)) w).

Lemma retire_calm id w :
  calm w → validateID id = None →
  retireLegacyStoppedGenerationSidecarsUnlocked id w = (Ret tt, retired id w).
Proof.
  intros Hw Hid. unfold retireLegacyStoppedGenerationSidecarsUnlocked.
  erewrite bind_Ret; [|unfold ensure; rewrite Hid; reflexivity].
  erewrite bind_Ret; [|by apply wrapm_Ret, remove_calm].
  by apply wrapm_Ret, remove_calm.
Qed.

(** A current stopped revision with the embedded identity. *)
Lemma read_revision_calm w id rev s :
  calm w → validateID id = None → snapshot_at w id = Some s →
  sn_status s = StatusStopped → sn_revision s = rev → sn_versioned s = true →
  readStoppedGenerationTeardownSnapshotForRevisionUnlocked id rev w
  = (Ret (s, true), retired id w).
Proof.
  intros Hw Hid Hs Hst Hrev Hv. destruct (snapshot_data _ _ _ Hs) as (d & raw & Hd & Hr & Ht).
  destruct (raw_snapshot_fields _ _ Ht) as [F1 F2].
  unfold readStoppedGenerationTeardownSnapshotForRevisionUnlocked,
    readStoppedGenerationLifecycleSnapshotUnlocked.
  erewrite bind_Ret; [|erewrite bind_Ret;
    [|unfold ensure; rewrite Hid; reflexivity];
    erewrite bind_Ret; [|by apply read_calm]; unfold lift; rewrite Hr; reflexivity].
  rewrite <- F1, Hst, <- F2, Hrev, Z.eqb_refl. cbn [String.eqb negb orb].
  replace (negb (StatusStopped =? StatusStopped)%string) with false by reflexivity.
  cbn [orb]. erewrite bind_Ret; [|unfold lift; rewrite Ht; reflexivity].
  rewrite Hv. erewrite bind_Ret; [|by apply retire_calm]. done.
Qed.

Lemma exit_identity_calm w id rev s i :
  calm w → w_closed w = false → validateID id = None →
  snapshot_at w id = Some s → sn_status s = StatusStopped → sn_revision s = rev →
  sn_version s = Some 1 → sn_required s = Some true → sn_identity s = Some i →
  GetExitedIdentityForStoppedRevision AStore id rev w
  = (Ret (mkAnswer (Some i) true false), retired id w).
Proof.
  intros Hw Hcl Hid Hs Hst Hrev Hv Hr Hi.
  unfold GetExitedIdentityForStoppedRevision.
  erewrite bind_Ret; [|reflexivity].
  erewrite bind_Ret; [|unfold ensure; rewrite Hid; reflexivity].
  apply locked_calm; [done..| |done|done].
  erewrite bind_Ret; [|apply read_revision_calm; try done; unfold sn_versioned; by rewrite Hv].
  cbn [negb]. rewrite Hi. unfold sn_requirementPresent, sn_capability. rewrite Hr.
  erewrite bind_Ret; [|reflexivity]. done.
Qed.

(** * Validations a successful call passed *)

Lemma ensure_Some {B} e (k : unit → M B) w : (ensure (Some e) ≫= k) w = (Err e, w).
Proof. done. Qed.
Lemma ensure_None {B} (k : unit → M B) w : (ensure None ≫= k) w = k tt w.
Proof. done. Qed.

Lemma Save_validID c w a w' : Save (Some c) w = (Ret a, w') → validateID (ID c) = None.
Proof.
  unfold Save. destruct (validateID (ID c)) eqn:E; [by rewrite ensure_Some|done].
Qed.

Lemma MarkCgroup_valid st id pid pst name w w' :
  MarkCgroupOwnedIfIdentity st id pid pst name w = (Ret tt, w') →
  validateID id = None ∧ validateCgroupOwnership (mkCgroup name pid pst) = None.
Proof.
  unfold MarkCgroupOwnedIfIdentity.
  destruct st; cbn [check_store]; [by rewrite ensure_Some|rewrite ensure_None].
  destruct (validateID id); [by rewrite ensure_Some|rewrite ensure_None].
  destruct (validateCgroupOwnership _); [by rewrite ensure_Some|done].
Qed.

Lemma cgroup_data w id o :
  cgroup_at w id = Some o → ∃ d, regular_at w (cgroupOwnershipPath id) = Some d ∧
    decodeCgroupOwnership id d = Ok o.
Proof.
  unfold cgroup_at. destruct (regular_at _ _) as [d|]; [|done].
  destruct (decodeCgroupOwnership id d) eqn:E; [|done]. intros [= <-]. eauto.
Qed.

Lemma GetCgroup_calm w id o :
  validateID id = None → cgroup_at w id = Some o →
  GetCgroupOwnership AStore id (fresh_process w) = (Ret (Some o), fresh_process w).
Proof.
  intros Hid Hat. destruct (cgroup_data _ _ _ Hat) as (d & Hd & Ho).
  unfold GetCgroupOwnership. cbn [check_store]. rewrite ensure_None, Hid, ensure_None.
  erewrite bind_Ret; [|reflexivity].
  unfold readCgroupOwnershipUnlocked. rewrite Hid, ensure_None.
  erewrite bind_Ret; [|by apply read_optional_calm_some].
  cbn beta iota. erewrite bind_Ret; [|unfold lift; rewrite Ho; reflexivity]. done.
Qed.
