(* ===== verification/StoreRuns.v ===== *)
(** A concrete run of the store, on which the properties are instantiated: a
    container is created, started, owns a cgroup, is stopped, loses the cgroup
    and is deleted. *)
From S2P Require Import Prelude GoStrings Json Fs FsLogic Container Net.
From S2P Require Import Ownership OwnershipFacts Sizes Generation.
From S2P Require Import GenerationFacts Store StoreFacts StoreOps StoreSystem.
From S2P Require Import StoreReach StoreCalm.

Definition run_time : time := "2024-01-02T03:04:05Z".
Definition run_container : Container :=
  mkContainer "c1" 0 0 0 StatusCreated "" "/rootfs" (Some ["/bin/sh"]) "host"
    run_time None None 0 None.
Definition empty_world : world := World ∅ ∅ false [] [].

(** The directory after each call of the run; the last of them is interrupted by
    a crash after its rename. *)
Definition run_created : world := (Save (Some run_container) empty_world).2.
Definition run_running : world := (MarkRunning AStore "c1" 7 9 run_time run_created).2.
Definition run_owned : world :=
  (MarkCgroupOwnedIfIdentity AStore "c1" 7 9 "cg1" run_running).2.
Definition run_stopped : world :=
  (MarkStoppedIfIdentity AStore "c1" 7 9 3 run_time run_owned).2.
Definition run_cleared : world :=
  (ClearCgroupOwnershipIfMatch AStore "c1" (mkCgroup "cg1" 7 9) run_stopped).2.
Definition run_deleted : world := (DeleteIfNotRunning AStore "c1" run_cleared).2.

Example run_states :
  abs run_created "c1" = ACreated 1 ∧
  abs run_running "c1" = ARunning (mkIdentity 7 9) 2 ∧
  abs run_stopped "c1" = AStopped (mkIdentity 7 9) 3 ∧
  cgroup_at run_stopped "c1" = Some (mkCgroup "cg1" 7 9) ∧
  cgroup_at run_cleared "c1" = None ∧
  abs run_deleted "c1" = AAbsent.
Proof. vm_compute. auto 10. Qed.

(** The same run as reachable states; a process keeps the record of the running
    container. *)
Definition reopen (w : world) : world := opened ∅ false [] [] w.
Definition sys_created : system :=
  let r := Save (Some run_container) (reopen empty_world) in
  Sys r.2 (returned r.1 ++ []) ({["c1"]} ∪ ∅).
Definition calls (k : call) (s : system) : system :=
  Sys (run_call "c1" k (reopen (sy_world s))).2 (sy_read s) (sy_used s).
Definition reads (s : system) : system :=
  let r := Get "c1" (reopen (sy_world s)) in
  Sys r.2 (returned r.1 ++ sy_read s) (sy_used s).
Definition sys_running : system := calls (CMarkRunning AStore 7 9 run_time) sys_created.
Definition sys_read : system := reads sys_running.
Definition sys_owned : system := calls (CMarkCgroupOwned AStore 7 9 "cg1") sys_read.
Definition sys_stopped : system :=
  calls (CMarkStoppedIfIdentity AStore 7 9 3 run_time) sys_owned.

Lemma sys_created_reachable : reachable sys_created.
Proof.
  eapply reach_step; [apply reach_init|].
  apply (step_create (World ∅ ∅ false [] []) [] ∅ run_container _ _ ∅ false [] []);
    [set_solver|reflexivity| |reflexivity..|apply surjective_pairing].
  vm_compute. intuition congruence.
Qed.

Lemma calls_step k s : call_typed k → step s (calls k s).
Proof. destruct s as [w l u]. intros Hk. by apply (step_call w l u "c1" k ∅ false [] []). Qed.
Lemma calls_reachable k s : call_typed k → reachable s → reachable (calls k s).
Proof.
  intros Hk Hs. eapply reach_step; [exact Hs|]. by apply calls_step.
Qed.
Lemma reads_reachable s : reachable s → reachable (reads s).
Proof.
  intros Hs. destruct s as [w l u]. eapply reach_step; [exact Hs|].
  apply (step_read w l u "c1" _ _ ∅ false [] []). apply surjective_pairing.
Qed.

Lemma sys_owned_reachable : reachable sys_owned.
Proof.
  apply calls_reachable; [done|]. apply reads_reachable.
  apply calls_reachable; [vm_compute; intuition congruence|].
  apply sys_created_reachable.
Qed.
Lemma sys_stopped_reachable : reachable sys_stopped.
Proof.
  apply calls_reachable; [vm_compute; intuition congruence|].
  apply sys_owned_reachable.
Qed.
