(* ===== verification/StoreProps.v ===== *)
(** The properties of the container store: what holds in every reachable state
    directory, and what each operation promises for every fault schedule. *)
From S2P Require Import Prelude GoStrings Json Fs FsLogic Container Net.
From S2P Require Import Ownership OwnershipFacts Sizes Generation.
From S2P Require Import GenerationFacts Store StoreFacts StoreOps StoreSystem.
From S2P Require Import StoreReach StoreCalm StoreRuns.

(** * Reachable state directories *)

(** C1. Whatever processes do, and wherever their calls fail or die, every
    container of a reachable state directory is absent without ownership
    proofs, or has a readable record in one of the states created, running,
    stopped with the embedded identity of the generation that exited, or failed
    before start; its cgroup and network ownership proofs name exactly the
    running generation, or the one whose exit the record preserves. *)
Theorem reachable_containers s id : reachable s → container_inv (sy_world s) id.
Proof. intros Hr. apply (si_containers _ (reachable_inv _ Hr)). Qed.

Lemma reachable_containers_witness :
  reachable sys_owned ∧ container_inv (sy_world sys_owned) "c1".
Proof.
  split; [apply sys_owned_reachable|].
  apply (reachable_containers sys_owned "c1"), sys_owned_reachable.
Defined.



(** C3. Compare-and-swap: when a process saves a record it read at some time and
    the save succeeds, the record on disk still had the revision it read, with
    the status and the process it read, so no lifecycle change is overwritten. *)
Theorem save_overwrites_nothing_newer s c0 c a w w' temps closed faults order :
  reachable s → c0 ∈ sy_read s → metadata_of c0 c → container_ranges c →
  w = opened temps closed faults order (sy_world s) →
  Save (Some c) w = (Ret a, w') →
  ∃ cur, record_at w (ID c0) = Some cur ∧ Revision cur = Revision c0 ∧
    Status cur = Status c0 ∧ PID cur = PID c0 ∧ PIDStartTime cur = PIDStartTime c0 ∧
    record_at w' (ID c0) = Some (persisted (next_revision c)).
Proof.
  intros Hr Hc0 (Hid & Hrev & Hst & Hp & Hps) Hrg -> Hrun.
  destruct (si_read _ (reachable_inv _ Hr) c0 Hc0) as [R1 R2 R3 R4 R5].
  assert (S1 : json_safe (ID c)) by congruence.
  assert (S2 : json_safe (Status c)) by congruence.
  destruct (Save_returned c _ _ w' Hrg S1 S2 Hrun a eq_refl) as (_ & Hw & _).
  pose proof (wp_Save c Hrg S1 S2 (opened temps closed faults order (sy_world s))) as Hwp.
  unfold wp in Hwp. rewrite Hrun in Hwp. cbn [fst snd] in Hwp.
  destruct Hwp as [[_ H]|([_ [(cur & Hcur & Hcr)|[_ Hz]]] & _)];
    [by destruct (H a)| |lia].
  rewrite Hid in Hcur, Hw. exists cur. destruct (R5 cur Hcur) as [_ Heq].
  destruct Heq as (? & ? & ?); [congruence|]. split_and!; congruence.
Qed.

(** The record read while running, with its health set, is saved. *)
Definition run_read : Container :=
  persisted (next_revision (running_of (persisted (next_revision run_container))
    7 9 run_time)).
Definition run_health : Container := set_Health "healthy" run_read.

Lemma save_overwrites_nothing_newer_witness :
  ∃ cur, record_at (reopen (sy_world sys_owned)) "c1" = Some cur ∧ Revision cur = 2.
Proof.
  destruct (save_overwrites_nothing_newer sys_owned run_read run_health
    (next_revision run_health) (reopen (sy_world sys_owned))
    (Save (Some run_health) (reopen (sy_world sys_owned))).2 ∅ false [] []
    sys_owned_reachable) as (cur & H1 & H2 & _).
  - vm_compute. left.
  - vm_compute. auto 10.
  - vm_compute. intuition congruence.
  - reflexivity.
  - vm_compute. reflexivity.
  - exists cur. split; [exact H1|]. rewrite H2. reflexivity.
Defined.

(** C8. A durable cleanup proof names the right generation: the cgroup ownership
    a process reads in a reachable state is that of the running generation or of
    the stopped generation whose exit the record preserves. *)
Theorem cgroup_ownership_is_current s st id o w w' temps closed faults order :
  reachable s → w = opened temps closed faults order (sy_world s) →
  GetCgroupOwnership st id w = (Ret (Some o), w') →
  ∃ rev, abs w id = ARunning (mkIdentity (cg_PID o) (cg_PIDStartTime o)) rev ∨
         abs w id = AStopped (mkIdentity (cg_PID o) (cg_PIDStartTime o)) rev.
Proof.
  intros Hr -> Hrun. eapply cgroup_current; [|exact Hrun].
  apply inv_opened, (si_containers _ (reachable_inv _ Hr)).
Qed.

Lemma cgroup_ownership_is_current_witness :
  ∃ rev, abs (reopen (sy_world sys_owned)) "c1" = ARunning (mkIdentity 7 9) rev ∨
         abs (reopen (sy_world sys_owned)) "c1" = AStopped (mkIdentity 7 9) rev.
Proof.
  apply (cgroup_ownership_is_current sys_owned AStore "c1" (mkCgroup "cg1" 7 9)
    (reopen (sy_world sys_owned)) (reopen (sy_world sys_owned)) ∅ false [] []
    sys_owned_reachable); vm_compute; reflexivity.
Defined.

(** C9. The same for the network ownership, whose port mappings and interfaces a
    cleanup process would tear down. *)
Theorem network_ownership_is_current s st id o w w' temps closed faults order :
  reachable s → w = opened temps closed faults order (sy_world s) →
  GetNetworkOwnership st id w = (Ret (Some o), w') →
  ∃ rev, abs w id = ARunning (mkIdentity (no_PID o) (no_PIDStartTime o)) rev ∨
         abs w id = AStopped (mkIdentity (no_PID o) (no_PIDStartTime o)) rev.
Proof.
  intros Hr -> Hrun. eapply network_current; [|exact Hrun].
  apply inv_opened, (si_containers _ (reachable_inv _ Hr)).
Qed.

Definition run_network : NetworkOwnership :=
  mkNetwork "minicontainer:c1" 7 9 ""
    (Some [mkPortForwarding 8080 80 "10.0.0.2" "tcp"]).
Definition sys_networked : system :=
  calls (CMarkNetworkOwned AStore run_network) sys_owned.

Lemma network_ownership_is_current_witness :
  ∃ rev, abs (reopen (sy_world sys_networked)) "c1" = ARunning (mkIdentity 7 9) rev ∨
         abs (reopen (sy_world sys_networked)) "c1" = AStopped (mkIdentity 7 9) rev.
Proof.
  apply (network_ownership_is_current sys_networked AStore "c1" run_network
    (reopen (sy_world sys_networked)) (reopen (sy_world sys_networked)) ∅ false [] []).
  - apply calls_reachable; [exact I|apply sys_owned_reachable].
  - reflexivity.
  - vm_compute. reflexivity.
Defined.

(** C5. In every reachable state the exit policy of a stopped revision is exact:
    an answer for the current stopped revision is the identity of the generation
    that exited (and then the identity is required for teardown), an answer for
    any other revision says that it is not current. *)
Theorem exit_policy_exact s st id rev a w w' temps closed faults order :
  reachable s → w = opened temps closed faults order (sy_world s) →
  GetStoppedExitIdentityPolicy st id rev w = (Ret a, w') →
  a = match abs w id with
      | AStopped g n => if (n =? rev)%Z then mkAnswer (Some g) true true
                        else mkAnswer None false false
      | AFailed n => mkAnswer None (n =? rev)%Z false
      | _ => mkAnswer None false false
      end.
Proof.
  intros Hr -> Hrun. set (w0 := opened _ _ _ _ _) in *.
  assert (Hinv : container_inv w0 id)
    by apply inv_opened, (si_containers _ (reachable_inv _ Hr)).
  pose proof (wp_GetStoppedExitIdentityPolicy st id rev w0 Hinv) as Hwp.
  unfold wp in Hwp. rewrite Hrun in Hwp. cbn [fst snd] in Hwp. destruct Hwp as [_ Ha].
  specialize (Ha a eq_refl). by apply answers_policy.
Qed.

Lemma exit_policy_exact_witness :
  mkAnswer (Some (mkIdentity 7 9)) true true =
  match abs (reopen (sy_world sys_stopped)) "c1" with
  | AStopped g n => if (n =? 3)%Z then mkAnswer (Some g) true true
                    else mkAnswer None false false
  | AFailed n => mkAnswer None (n =? 3)%Z false
  | _ => mkAnswer None false false
  end.
Proof.
  apply (exit_policy_exact sys_stopped AStore "c1" 3
    (mkAnswer (Some (mkIdentity 7 9)) true true) (reopen (sy_world sys_stopped))
    (GetStoppedExitIdentityPolicy AStore "c1" 3 (reopen (sy_world sys_stopped))).2
    ∅ false [] [] sys_stopped_reachable); vm_compute; reflexivity.
Defined.

(** * Operations, for every fault schedule *)

(** C6. [MarkRunning] never rebinds a container: when it succeeds, the record was
    either already running as this very process, or not running with no pending
    cgroup or network cleanup; the new record is running as this process with
    the next revision.  When it fails or dies, the record is unchanged or that
    same new record. *)
Theorem MarkRunning_binds st id pid pst t w o w' :
  in_int64 pid → in_uint64 pst →
  MarkRunning st id pid pst t w = (o, w') →
  (record_at w' id = record_at w id ∧ o ≠ Ret tt) ∨
  ∃ c, record_at w id = Some c ∧
    (Status c = StatusRunning → PID c = pid ∧ PIDStartTime c = pst) ∧
    (Status c ≠ StatusRunning → no_owners w id) ∧
    record_at w' id = Some (persisted (next_revision (running_of c pid pst t))).
Proof.
  intros Hp Hq Hrun. pose proof (wp_MarkRunning id pid pst t Hp Hq st w) as Hwp.
  unfold wp in Hwp. rewrite Hrun in Hwp. cbn [fst snd] in Hwp.
  destruct Hwp as [[Hqu Ho]|(c & c' & r & i & Hc & (_ & _ & _ & _ & -> & Hg) & Hw & _)].
  - left. split; [by eapply quiet_record|]. intros ->. by apply (Ho tt).
  - right. exists c. split_and!; [done|..|by eapply rewritten_record].
    + intros Hs. rewrite (proj2 (String.eqb_eq _ _) Hs) in Hg.
      unfold bound_to in Hg. bool_simp. done.
    + intros Hs. by rewrite (proj2 (String.eqb_neq _ _) Hs) in Hg.
Qed.

(** With a rename that fails once and a directory sync that fails. *)
Lemma MarkRunning_binds_witness :
  let w := with_faults [FOk; FOk; FOk; FOk; FOk; FOk; FOk; FOk; FFail] run_created in
  let r := MarkRunning AStore "c1" 7 9 run_time w in
  (record_at r.2 "c1" = record_at w "c1" ∧ r.1 ≠ Ret tt) ∨
  ∃ c, record_at w "c1" = Some c ∧
    (Status c = StatusRunning → PID c = 7 ∧ PIDStartTime c = 9) ∧
    (Status c ≠ StatusRunning → no_owners w "c1") ∧
    record_at r.2 "c1" = Some (persisted (next_revision (running_of c 7 9 run_time))).
Proof.
  apply (MarkRunning_binds AStore "c1" 7 9 run_time); [vm_compute; intuition congruence..|].
  apply surjective_pairing.
Defined.



(** C4. A stop is remembered: after [MarkStoppedIfIdentity] stopped a running
    record, whatever faults it met, any process that opens the store and asks for
    the exit of that revision is told exactly the process that stopped. *)
Theorem stop_is_remembered st id pid pst code t w w' c :
  in_int64 pid → in_uint64 pst → in_int64 code →
  record_at w id = Some c → Status c = StatusRunning → validateID id = None →
  MarkStoppedIfIdentity st id pid pst code t w = (Ret true, w') →
  record_at w' id = Some (persisted (next_revision (stopped_of c code t))) ∧
  (GetExitedIdentityForStoppedRevision AStore id (Revision c + 1) (fresh_process w')).1
  = Ret (mkAnswer (Some (mkIdentity pid pst)) true false).
Proof.
  intros Hp Hq Hx Hc Hst Hid Hrun.
  pose proof (wp_MarkStoppedIfIdentity id pid pst code t Hp Hq Hx st w) as Hwp.
  unfold wp in Hwp. rewrite Hrun in Hwp. cbn [fst snd] in Hwp.
  destruct Hwp as [[_ Ho]|(c' & c1 & r & i & Hc' & (_ & _ & Hal) & Hw & _)];
    [by destruct (Ho true eq_refl)|].
  rewrite Hc in Hc'. injection Hc' as <-.
  destruct Hal as [(_ & _ & -> & -> & ->)|(Hs & _)]; [|status_clash].
  split; [by eapply rewritten_record|].
  erewrite exit_identity_calm; [reflexivity|done|done|done|
    exact (rewritten_snapshot _ _ _ _ _ _ Hw)|..]; by destruct c.
Qed.

Lemma stop_is_remembered_witness :
  (GetExitedIdentityForStoppedRevision AStore "c1" 3 (fresh_process run_stopped)).1
  = Ret (mkAnswer (Some (mkIdentity 7 9)) true false).
Proof.
  destruct (stop_is_remembered AStore "c1" 7 9 3 run_time run_owned run_stopped
    (persisted (next_revision (running_of (persisted (next_revision run_container))
      7 9 run_time)))) as [_ H].
  - vm_compute. intuition congruence.
  - vm_compute. intuition congruence.
  - vm_compute. intuition congruence.
  - vm_compute. reflexivity.
  - reflexivity.
  - reflexivity.
  - vm_compute. reflexivity.
  - exact H.
Defined.



(** C10. [Save] is a compare-and-swap for every fault schedule: it writes only when
    the caller holds the revision on disk (0 for no record), fails without
    touching any file otherwise, and never wraps the revision around. *)
Theorem Save_compare_and_swap c w o w' :
  container_ranges c → json_safe (ID c) → json_safe (Status c) →
  Save (Some c) w = (o, w') →
  (w_fs w' = w_fs w ∧ ∀ a, o ≠ Ret a) ∨
  (Revision c ≠ max_uint64 ∧
   ((∃ cur, record_at w (ID c) = Some cur ∧ Revision cur = Revision c) ∨
    (w_fs w !! containerPath (ID c) = None ∧ Revision c = 0)) ∧
   record_at w' (ID c) = Some (persisted (next_revision c)) ∧
   ∀ q, q ≠ containerPath (ID c) → w_fs w' !! q = w_fs w !! q).
Proof.
  intros Hr Hid Hst Hrun. pose proof (wp_Save c Hr Hid Hst w) as Hwp.
  unfold wp in Hwp. rewrite Hrun in Hwp. cbn [fst snd] in Hwp.
  destruct Hwp as [[Hs Ho]|([Hm Hcas] & r & i & _ & Hw & _)]; [left|right].
  - split; [apply Hs|done].
  - split_and!; [done|done|apply Hw|apply Hw].
Qed.

(** A stale save, of the record created first, against the running one. *)
Lemma Save_compare_and_swap_witness :
  let c := set_Revision 1 run_container in
  w_fs (Save (Some c) run_running).2 = w_fs run_running ∧
  (Save (Some c) run_running).1 ≠ Ret c.
Proof.
  cbv zeta.
  destruct (Save_compare_and_swap (set_Revision 1 run_container) run_running
    (Save (Some (set_Revision 1 run_container)) run_running).1
    (Save (Some (set_Revision 1 run_container)) run_running).2)
    as [[H1 H2]|(_ & [(cur & Hc & Hr)|[Hn _]] & _)].
  - vm_compute. intuition congruence.
  - reflexivity.
  - reflexivity.
  - apply surjective_pairing.
  - split; [exact H1|]. apply H2.
  - exfalso. vm_compute in Hc. injection Hc as <-. vm_compute in Hr. congruence.
  - exfalso. vm_compute in Hn. congruence.
Defined.

(** C12. [DeleteIfNotRunning] never removes the record of a running container nor
    one with pending cleanup; when it succeeds the record and its exit sidecars
    are gone; when it fails or dies the record is whole or gone, and nothing but
    the record and its sidecars was touched. *)
Theorem DeleteIfNotRunning_safe st id w o w' :
  DeleteIfNotRunning st id w = (o, w') →
  (w_fs w' !! containerPath id = w_fs w !! containerPath id ∨
   w_fs w' !! containerPath id = None ∧ no_owners w id ∧
   ∃ c, record_at w id = Some c ∧ Status c ≠ StatusRunning) ∧
  (o = Ret tt → ∀ q, q ∈ record_paths id → w_fs w' !! q = None) ∧
  ∀ q, q ∉ record_paths id → w_fs w' !! q = w_fs w !! q.
Proof.
  intros Hrun. pose proof (wp_DeleteIfNotRunning st id w) as Hwp.
  unfold wp in Hwp. rewrite Hrun in Hwp. cbn [fst snd] in Hwp.
  destruct Hwp as ([Ho Hj _] & Hal & Hret). split_and!; [|by intros ->; eapply Hret|done].
  destruct Hj as [Hj|Hj]; [by left|]. destruct Hal as [Hal|[? ?]]; [by left|].
  by right.
Qed.

Lemma DeleteIfNotRunning_safe_witness :
  w_fs run_deleted !! containerPath "c1" = None.
Proof.
  destruct (DeleteIfNotRunning_safe AStore "c1" run_cleared (Ret tt) run_deleted)
    as (_ & H & _).
  - vm_compute. reflexivity.
  - apply (H eq_refl). unfold record_paths. apply list_elem_of_here.
Defined.

(** C13. Recording a cgroup ownership is durable and exclusive: after
    [MarkCgroupOwnedIfIdentity] succeeds the proof is on disk (it was written,
    or was already the same), the container was running as that process, and
    every process that opens the store reads that proof back. *)
Theorem cgroup_mark_then_get st id pid pst name w w' :
  in_int64 pid → in_uint64 pst → json_safe id → 
  MarkCgroupOwnedIfIdentity st id pid pst name w = (Ret tt, w') →
  (GetCgroupOwnership AStore id (fresh_process w')).1
  = Ret (Some (mkCgroup name pid pst)).
Proof.
  intros Hp Hq Hid Hrun.
  destruct (MarkCgroup_valid _ _ _ _ _ _ _ Hrun) as [Hv1 Hv2].
  pose proof (wp_MarkCgroupOwned id st pid pst name w) as Hwp.
  unfold wp in Hwp. rewrite Hrun in Hwp. cbn [fst snd] in Hwp.
  assert (Hat : cgroup_at w' id = Some (mkCgroup name pid pst)).
  { destruct Hwp as [[Hs Ho]|[_ Hu]].
    - rewrite (cgroup_at_same _ _ _ (same_same_at _ _ _ Hs)). by apply (Ho tt).
    - unfold cgroup_at. rewrite (cgroup_readable id (mkCgroup name pid pst) Hv1 Hv2 Hp Hq)
        by (by eapply updated_lookup).
      by rewrite decode_cgroup_ok. }
  by rewrite (GetCgroup_calm _ _ _ Hv1 Hat).
Qed.

Lemma cgroup_mark_then_get_witness :
  (GetCgroupOwnership AStore "c1" (fresh_process run_owned)).1
  = Ret (Some (mkCgroup "cg1" 7 9)).
Proof.
  apply (cgroup_mark_then_get AStore "c1" 7 9 "cg1" run_running);
    [vm_compute; intuition congruence..|reflexivity|vm_compute; reflexivity].
Defined.

(** C14. Cleanup proofs are only given up for the right generation: the cgroup
    proof of a running container is never cleared, and a clear with another
    owner than the recorded one changes nothing. *)
Theorem cgroup_clear_safe st id own w o w' :
  ClearCgroupOwnershipIfMatch st id own w = (o, w') →
  (w_fs w' = w_fs w ∧ o ≠ Ret true) ∨
  (cgroup_at w id = Some own ∧
   (∃ c, record_at w id = Some c ∧ Status c ≠ StatusRunning) ∧
   (o = Ret true → w_fs w' !! cgroupOwnershipPath id = None) ∧
   ∀ q, q ≠ cgroupOwnershipPath id → w_fs w' !! q = w_fs w !! q).
Proof.
  intros Hrun. pose proof (wp_ClearCgroup id st own w) as Hwp.
  unfold wp in Hwp. rewrite Hrun in Hwp. cbn [fst snd] in Hwp.
  destruct Hwp as [[Hs Ho]|([Hat Hc] & (H1 & _) & Hr)]; [left|right].
  - split; [apply Hs|]. intros ->. by specialize (Ho true eq_refl).
  - split_and!; [done|done| |by intros q Hq; apply H1; set_solver].
    intros ->. destruct (Hr true eq_refl) as [_ [_ Hn]]. apply Hn. set_solver.
Qed.

Lemma cgroup_clear_safe_witness :
  (ClearCgroupOwnershipIfMatch AStore "c1" (mkCgroup "cg1" 7 9) run_owned).1 ≠ Ret true.
Proof.
  destruct (cgroup_clear_safe AStore "c1" (mkCgroup "cg1" 7 9) run_owned
    (ClearCgroupOwnershipIfMatch AStore "c1" (mkCgroup "cg1" 7 9) run_owned).1
    (ClearCgroupOwnershipIfMatch AStore "c1" (mkCgroup "cg1" 7 9) run_owned).2)
    as [[_ H]|(_ & (c & Hc & Hst) & _)].
  - apply surjective_pairing.
  - exact H.
  - exfalso. vm_compute in Hc. injection Hc as <-. apply Hst. reflexivity.
Defined.

(** C15. [atomicWriteFile] is atomic for every fault schedule: the file is the old
    one or the whole new one, success means the new one, and no other entry of
    the state directories changes. *)
Theorem atomicWriteFile_atomic p data w o w' :
  atomicWriteFile p data w = (o, w') →
  (∀ q, q ≠ p → w_fs w' !! q = w_fs w !! q) ∧
  (w_fs w' !! p = w_fs w !! p ∨ w_fs w' !! p = Some (NFile data 1)) ∧
  (o = Ret tt → w_fs w' !! p = Some (NFile data 1)).
Proof.
  intros Hrun. enough (wp (atomicWriteFile p data) (λ o w',
    (∀ q, q ≠ p → w_fs w' !! q = w_fs w !! q) ∧
    (w_fs w' !! p = w_fs w !! p ∨ w_fs w' !! p = Some (NFile data 1)) ∧
    (o = Ret tt → w_fs w' !! p = Some (NFile data 1))) w) as Hwp
    by (unfold wp in Hwp; by rewrite Hrun in Hwp).
  assert (Hupd : ∀ w1 o1, updated p (Some (NFile data 1)) w w1 →
    (∀ q, q ≠ p → w_fs w1 !! q = w_fs w !! q) ∧
    (w_fs w1 !! p = w_fs w !! p ∨ w_fs w1 !! p = Some (NFile data 1)) ∧
    (o1 = Ret tt → w_fs w1 !! p = Some (NFile data 1))).
  { intros w1 o1 Hu. pose proof (updated_lookup _ _ _ _ Hu) as Hl.
    split_and!; [|by right|done]. intros q Hq. by eapply updated_lookup_ne. }
  apply wp_atomicWriteFile; [by intros; apply Hupd|].
  intros w1 o1 [[Hs _]|Hu] Ho; [|by apply Hupd]. rewrite Hs.
  split_and!; [done|by left|]. intros ->. by destruct Ho as [[]|].
Qed.

(** A crash at the rename. *)
Definition crash_world : world :=
  with_faults [FOk; FOk; FOk; FOk; FOk; FCrash] empty_world.

Lemma atomicWriteFile_atomic_witness :
  let w' := (atomicWriteFile (DCtr, "x.json") (FText "new") crash_world).2 in
  w_fs w' !! (DCtr, "x.json") = None ∨
  w_fs w' !! (DCtr, "x.json") = Some (NFile (FText "new") 1).
Proof.
  destruct (atomicWriteFile_atomic (DCtr, "x.json") (FText "new") crash_world _ _
    (surjective_pairing _)) as (_ & H & _). exact H.
Defined.
