(* ===== verification/NetFacts.v ===== *)
(** IPv4 arithmetic: an address is a number below 2^32, a network an interval
    of them, and printing an address or a network is inverse to parsing it. *)
From S2P Require Import Prelude GoStrings Json Decimal Net.

#[local] Open Scope Z_scope.
#[local] Ltac Zify.zify_post_hook ::= Z.to_euclidean_division_equations.

(** * Addresses as numbers *)

Definition octet (b : Z) : Prop := 0 ≤ b < 256.
#[export] Instance octet_dec b : Decision (octet b) := _.

(** A four-byte address. *)
Definition quad (a b c d : Z) : Prop := octet a ∧ octet b ∧ octet c ∧ octet d.
Definition v4 (l : ip) : Prop :=
  match l with [a; b; c; d] => quad a b c d | _ => False end.
#[export] Instance v4_dec l : Decision (v4 l).
Proof. destruct l as [|? [|? [|? [|? [|]]]]]; cbn; apply _. Defined.

Definition v4_val (l : ip) : Z := foldl (λ acc b, acc * 256 + b) 0 l.
Definition v4_of (z : Z) : ip :=
  [z / 16777216 mod 256; z / 65536 mod 256; z / 256 mod 256; z mod 256].

Lemma v4_inv l : v4 l → ∃ a b c d, l = [a; b; c; d] ∧ quad a b c d.
Proof. destruct l as [|a [|b [|c [|d [|]]]]]; cbn; try done. eauto 10. Qed.

Ltac v4_cases H :=
  let a := fresh "a" in let b := fresh "b" in let c := fresh "c" in
  let d := fresh "d" in
  apply v4_inv in H as (a & b & c & d & -> & H); unfold quad, octet in H;
  destruct H as (? & ? & ? & ?).

Lemma v4_val_range l : v4 l → 0 ≤ v4_val l < 4294967296.
Proof. intros H. v4_cases H. cbn. lia. Qed.
Lemma v4_of_v4 z : v4 (v4_of z).
Proof. unfold v4_of, v4, quad, octet. lia. Qed.
Lemma v4_val_of z : 0 ≤ z < 4294967296 → v4_val (v4_of z) = z.
Proof. intros H. cbn. lia. Qed.
Lemma v4_of_val l : v4 l → v4_of (v4_val l) = l.
Proof.
  intros H. v4_cases H. cbn [v4_val foldl]. unfold v4_of.
  repeat (f_equal; [lia|]). f_equal. lia.
Qed.
Lemma v4_val_inj l l' : v4 l → v4 l' → v4_val l = v4_val l' → l = l'.
Proof. intros H H' E. rewrite <- (v4_of_val l), <- (v4_of_val l'), E; done. Qed.

(** [incIP] is the successor modulo 2^32. *)
Lemma incIP_v4 l : v4 l →
  v4 (incIP l) ∧ v4_val (incIP l) = (v4_val l + 1) mod 4294967296.
Proof.
  intros H. v4_cases H. unfold incIP. cbn [inc_bytes].
  repeat case_match; simplify_eq; cbn [snd]; bool_simp;
    (split; [unfold v4, quad, octet; lia|cbn; lia]).
Qed.

Lemma To4_v4 l : v4 l → To4 l = Some l.
Proof. intros H. by v4_cases H. Qed.
Lemma To4_mapped l : v4 l → To4 (v4_prefix ++ l) = Some l.
Proof. intros H. by v4_cases H. Qed.

Lemma IP_Equal_v4 l l' : v4 l → v4 l' → IP_Equal l l' = bool_decide (l = l').
Proof.
  intros H H'. v4_cases H. v4_cases H'. unfold IP_Equal.
  rewrite (bool_decide_false (_ ∧ _ = v4_prefix ++ _)) by (cbn; naive_solver).
  rewrite (bool_decide_false (_ ∧ _ = v4_prefix ++ _)) by (cbn; naive_solver).
  by rewrite !orb_false_r.
Qed.
Lemma IP_Equal_mapped l l' : v4 l → v4 l' →
  IP_Equal (v4_prefix ++ l) l' = bool_decide (l = l').
Proof.
  intros H H'. v4_cases H. v4_cases H'. unfold IP_Equal.
  rewrite (bool_decide_false (v4_prefix ++ _ = _)) by (cbn; naive_solver).
  rewrite (bool_decide_false (length (v4_prefix ++ _) = _ ∧ _)) by (cbn; naive_solver).
  cbn [orb]. apply bool_decide_ext. cbn. naive_solver.
Qed.

(** * Printing and parsing *)

(** What holds of every octet holds by computation. *)
Lemma octet_forall (P : Z → bool) :
  forallb P (seqZ 0 256) = true → ∀ b, octet b → P b = true.
Proof.
  intros H b Hb. rewrite forallb_forall in H. apply H, list_elem_of_In, elem_of_seqZ.
  unfold octet in Hb. lia.
Qed.

Lemma octet_text b : octet b →
  parse_octet (pretty b) = Some b ∧ plain_decimal (pretty b) = true ∧
  (pretty b : string) ≠ "".
Proof.
  intros Hb.
  assert (H : (bool_decide (parse_octet (pretty b) = Some b) &&
    plain_decimal (pretty b) && negb (String.eqb (pretty b) "")) = true)
    by (revert b Hb; apply octet_forall; vm_compute; reflexivity).
  bool_simp. repeat split; try done. by apply String.eqb_neq.
Qed.

Lemma parse_ipv4_string l : v4 l → parse_ipv4 (str_join "." (pretty <$> l)) = Some l.
Proof.
  intros H. apply v4_inv in H as (a & b & c & d & -> & Ha & Hb & Hc & Hd).
  apply octet_text in Ha as (Pa & Da & _), Hb as (Pb & Db & _),
    Hc as (Pc & Dc & _), Hd as (Pd & Dd & _).
  cbn [fmap list_fmap str_join].
  rewrite !string_app_cons, !string_app_nil_l. unfold parse_ipv4.
  rewrite !str_split_app, digit_not_sep by done.
  rewrite Pa. cbn. rewrite Pb. cbn. rewrite Pc. cbn. by rewrite Pd.
Qed.

(** The first separator of [s] followed by text without one. *)
Lemma first_of_digits s t : plain_decimal s = true → first_of (s +:+ t) = first_of t.
Proof.
  intros Hs. induction s as [|c s IH]; [done|]. rewrite string_app_cons.
  unfold plain_decimal in *. cbn in Hs |- *. bool_simp.
  rewrite !bool_decide_false, IH by (try done; intros ->; done). done.
Qed.

Lemma ip_string_v4 l : v4 l → ip_string l = str_join "." (pretty <$> l).
Proof. intros H. unfold ip_string. by rewrite To4_v4. Qed.
Lemma ip_string_mapped l : v4 l → ip_string (v4_prefix ++ l) = ip_string l.
Proof. intros H. unfold ip_string. by rewrite To4_mapped, To4_v4. Qed.

Lemma first_of_v4 l t : v4 l → first_of (ip_string l +:+ t) = Some "."%char.
Proof.
  intros H. rewrite ip_string_v4 by done.
  apply v4_inv in H as (a & b & c & d & -> & Ha & Hb & Hc & Hd).
  cbn [fmap list_fmap str_join]. rewrite <- string_app_assoc.
  rewrite first_of_digits by (by apply octet_text). done.
Qed.

(** [net.ParseIP] inverts [IP.String] on IPv4 addresses. *)
Lemma ParseIP_string l : v4 l → ParseIP (ip_string l) = Some (v4_prefix ++ l).
Proof.
  intros H. unfold ParseIP. rewrite <- (string_app_nil_r (ip_string l)).
  rewrite first_of_v4, string_app_nil_r, ip_string_v4, parse_ipv4_string by done. done.
Qed.

Lemma ip_string_inj l l' : v4 l → v4 l' → ip_string l = ip_string l' → l = l'.
Proof.
  intros H H' E. apply (f_equal ParseIP) in E. rewrite !ParseIP_string in E by done.
  by simplify_eq.
Qed.

(** * IPv4 networks *)

(** A network with a four-byte mask as [ParseCIDR] makes it: the interval of
    addresses from its number. *)
Definition v4_net (n : IPNet) (ones : Z) : Prop :=
  0 ≤ ones ≤ 32 ∧ net_Mask n = CIDRMask ones 4 ∧ v4 (net_IP n) ∧
  mask_ip (net_IP n) (net_Mask n) = net_IP n.

(** The number of addresses of a network. *)
Definition net_size (ones : Z) : Z := 2 ^ (32 - ones).

Lemma mask_byte_octet ones k : 0 ≤ ones → octet (mask_byte ones k).
Proof.
  intros H. unfold mask_byte, octet. repeat case_match; bool_simp; try lia.
  assert (0 < 8 - (ones - 8 * Z.of_nat k) < 8) by lia.
  assert (2 ^ 1 <= 2 ^ (8 - (ones - 8 * Z.of_nat k)) <= 2 ^ 7)
    by (split; apply Z.pow_le_mono_r; lia). lia.
Qed.

(** Masking with the mask of a prefix length clears the low bits. *)
Lemma land_prefix b k : octet b → 0 ≤ k ≤ 8 →
  Z.land b (256 - 2 ^ k) = b / 2 ^ k * 2 ^ k.
Proof.
  intros Hb Hk. revert b Hb.
  assert (H : k ∈ seqZ 0 9) by (apply elem_of_seqZ; lia).
  intros b Hb. apply Z.eqb_eq. revert b Hb. apply octet_forall.
  revert k H Hk. rewrite <- Forall_forall. repeat constructor.
Qed.

(** The low bits of the [k]-th byte that a prefix length leaves free. *)
Definition free_bits (ones : Z) (k : Z) : Z := Z.max 0 (Z.min 8 (8 - (ones - 8 * k))).

Lemma land_mask_byte b ones k : octet b →
  Z.land b (mask_byte ones k) =
  b / 2 ^ free_bits ones (Z.of_nat k) * 2 ^ free_bits ones (Z.of_nat k).
Proof.
  intros Hb. unfold mask_byte, free_bits. repeat case_match; bool_simp.
  - rewrite Z.max_l by lia. change 255 with (256 - 2 ^ 0). apply land_prefix; [done|lia].
  - rewrite Z.max_r, Z.min_l by lia. change 0 with (256 - 2 ^ 8) at 1.
    apply land_prefix; [done|lia].
  - rewrite Z.max_r, Z.min_r by lia. apply land_prefix; [done|lia].
Qed.

Lemma ones_cases (P : Z → Prop) :
  Forall P (seqZ 0 33) → ∀ ones, 0 ≤ ones ≤ 32 → P ones.
Proof. rewrite Forall_forall. intros H ones ?. apply H, elem_of_seqZ. lia. Qed.

Ltac pow_simp :=
  repeat match goal with
  | |- context [2 ^ ?e] => let v := eval vm_compute in (2 ^ e) in change (2 ^ e) with v
  end.
Ltac all_ones tac :=
  apply ones_cases;
  let l := eval vm_compute in (seqZ 0 33) in change (seqZ 0 33) with l;
  repeat apply Forall_cons_2; [tac..|apply Forall_nil_2].

Lemma mask_v4 l ones : v4 l → 0 ≤ ones ≤ 32 →
  v4 (mask_ip l (CIDRMask ones 4)) ∧
  v4_val (mask_ip l (CIDRMask ones 4)) = v4_val l / net_size ones * net_size ones.
Proof.
  intros H Ho. unfold mask_ip. rewrite To4_v4 by done. cbn [length CIDRMask fmap list_fmap seq default].
  v4_cases H. cbn [length Nat.eqb zip_with default id].
  rewrite !land_mask_byte by done. revert ones Ho.
  all_ones ltac:(unfold net_size; pow_simp; cbn; unfold quad, octet; repeat split; lia).
Qed.

(** The complement of the mask sets the low bits. *)
Definition fill (a m : Z) : Z := Z.lor a (255 - m).

Lemma fill_prefix b k : octet b → 0 ≤ k ≤ 8 →
  fill (b / 2 ^ k * 2 ^ k) (256 - 2 ^ k) = b / 2 ^ k * 2 ^ k + 2 ^ k - 1.
Proof.
  intros Hb Hk. revert b Hb.
  assert (H : k ∈ seqZ 0 9) by (apply elem_of_seqZ; lia).
  intros b Hb. apply Z.eqb_eq. revert b Hb. apply octet_forall.
  revert k H Hk. rewrite <- Forall_forall. repeat constructor.
Qed.

Lemma mask_byte_free ones k : mask_byte ones k = 256 - 2 ^ free_bits ones (Z.of_nat k).
Proof.
  unfold mask_byte, free_bits. repeat case_match; bool_simp.
  - by rewrite Z.max_l by lia.
  - by rewrite Z.max_r, Z.min_l by lia.
  - by rewrite Z.max_r, Z.min_r by lia.
Qed.

Lemma fill_mask_byte b ones k : octet b →
  fill (Z.land b (mask_byte ones k)) (mask_byte ones k) =
  b / 2 ^ free_bits ones (Z.of_nat k) * 2 ^ free_bits ones (Z.of_nat k)
  + 2 ^ free_bits ones (Z.of_nat k) - 1.
Proof.
  intros Hb. rewrite land_mask_byte by done. rewrite mask_byte_free.
  apply fill_prefix; [done|]. unfold free_bits. lia.
Qed.

Lemma fill_v4 l ones : v4 l → 0 ≤ ones ≤ 32 →
  let b := zip_with fill (mask_ip l (CIDRMask ones 4)) (CIDRMask ones 4) in
  v4 b ∧ v4_val b = v4_val l / net_size ones * net_size ones + net_size ones - 1.
Proof.
  intros H Ho. unfold mask_ip. rewrite To4_v4 by done.
  cbn [length CIDRMask fmap list_fmap seq default].
  v4_cases H. cbn [length Nat.eqb zip_with default id].
  rewrite !fill_mask_byte by done. revert ones Ho.
  all_ones ltac:(unfold net_size; pow_simp; cbn; unfold quad, octet; repeat split; lia).
Qed.

Lemma same_masked_iff nn m a : length m = length nn → length a = length nn →
  same_masked nn m a = true ↔ zip_with Z.land nn m = zip_with Z.land a m.
Proof.
  revert m a. induction nn as [|x nn IH]; intros [|y m] [|z a] ? ?; try done.
  cbn in *. rewrite andb_true_iff, Z.eqb_eq, IH by lia.
  split; [by intros [-> ->]|by intros [= -> ->]].
Qed.

Lemma block_interval S x y : 0 < S → x mod S = 0 →
  x = y / S * S ↔ x ≤ y < x + S.
Proof.
  intros HS Hx. apply Z.mod_divide in Hx as [q ->]; [|lia]. split.
  - intros E. rewrite E. pose proof (Z.mul_div_le y S HS).
    pose proof (Z.mul_succ_div_gt y S HS). lia.
  - intros H. rewrite <- (Z.div_unique_pos y S q (y - q * S)); lia.
Qed.

Section v4_net.
Context (n : IPNet) (ones : Z) (Hn : v4_net n ones).

Lemma v4_net_IP : v4 (net_IP n).
Proof. apply Hn. Qed.
Lemma v4_net_size : 0 < net_size ones ≤ 4294967296.
Proof.
  destruct Hn as [Ho _]. clear Hn. revert ones Ho. all_ones ltac:(unfold net_size; pow_simp; lia).
Qed.

(** The number of a network is a multiple of its size, and the whole interval
    fits in 32 bits. *)
Lemma v4_net_aligned : v4_val (net_IP n) mod net_size ones = 0.
Proof.
  destruct Hn as (Ho & Hm & H4 & Hf). pose proof v4_net_size.
  pose proof (mask_v4 _ _ H4 Ho) as [_ E]. rewrite <- Hm, Hf in E.
  rewrite E. apply Z.mod_mul. lia.
Qed.
Lemma v4_net_top : v4_val (net_IP n) + net_size ones ≤ 4294967296.
Proof.
  pose proof v4_net_size. pose proof v4_net_aligned as Ha.
  pose proof (v4_val_range _ v4_net_IP).
  destruct Hn as (Ho & _ & _ & _).
  assert (Hd : 4294967296 = net_size ones * 2 ^ ones).
  { unfold net_size. rewrite <- Z.pow_add_r by lia. by replace (32 - ones + ones) with 32 by lia. }
  apply Z.mod_divide in Ha as [q Hq]; [|lia].
  set (S := net_size ones) in *. set (P := 2 ^ ones) in *. clearbody S P.
  assert (q < P) by (apply Z.mul_lt_mono_pos_r with S; lia).
  assert ((q + 1) * S ≤ P * S) by (apply Z.mul_le_mono_nonneg_r; lia). lia.
Qed.

Lemma network_number_v4 : network_number_and_mask n = Some (net_IP n, net_Mask n).
Proof.
  destruct Hn as (Ho & Hm & H4 & _). unfold network_number_and_mask.
  rewrite To4_v4 by done. cbn [default]. rewrite Hm. by v4_cases H4.
Qed.

(** A network contains exactly the addresses of its interval. *)
Lemma Contains_v4 l : v4 l →
  Contains n l = true ↔
  v4_val (net_IP n) ≤ v4_val l < v4_val (net_IP n) + net_size ones.
Proof.
  intros H. unfold Contains. rewrite network_number_v4, To4_v4 by done.
  cbn [default]. pose proof v4_net_aligned as Ha. pose proof v4_net_size.
  destruct Hn as (Ho & Hm & H4 & Hf).
  pose proof (mask_v4 _ _ H4 Ho) as [V1 E1]. pose proof (mask_v4 _ _ H Ho) as [V2 E2].
  rewrite <- Hm in V1, E1, V2, E2. rewrite same_masked_iff.
  2: rewrite Hm; by v4_cases H4. 2: clear -H H4; v4_cases H4; by v4_cases H.
  assert (Hz : ∀ k, v4 k → mask_ip k (net_Mask n) = zip_with Z.land k (net_Mask n)).
  { intros k Hk. unfold mask_ip. rewrite To4_v4 by done. by case_match. }
  rewrite <- !Hz by done.
  transitivity (v4_val (mask_ip (net_IP n) (net_Mask n)) = v4_val (mask_ip l (net_Mask n))).
  { split; [by intros ->|by apply v4_val_inj]. }
  rewrite Hf, E2. set (S := net_size ones) in *. set (x := v4_val (net_IP n)) in *.
  set (y := v4_val l). clearbody S x y. apply block_interval; [lia|done].
Qed.
Lemma Contains_mapped l : v4 l → Contains n (v4_prefix ++ l) = Contains n l.
Proof. intros H. unfold Contains. by rewrite To4_mapped, To4_v4. Qed.
End v4_net.

(** * Parsing networks *)

Lemma parse_octet_range s v : parse_octet s = Some v → octet v.
Proof.
  unfold parse_octet, octet. intros H.
  assert (H' : parse_uint 255 s = Some v) by (repeat case_match; done).
  apply parse_uint_range in H'. lia.
Qed.
Lemma parse_ipv4_v4 s l : parse_ipv4 s = Some l → v4 l.
Proof.
  unfold parse_ipv4. repeat case_match; try done. intros Hs.
  repeat (apply bind_Some in Hs as (? & ?%parse_octet_range & Hs)). by simplify_eq.
Qed.

Lemma mask_ip_mapped l m : v4 l → length m = 4%nat →
  mask_ip (v4_prefix ++ l) m = mask_ip l m.
Proof. intros H Hm. unfold mask_ip. by rewrite Hm, To4_mapped, To4_v4. Qed.

Lemma masked_v4_net l ones : v4 l → 0 ≤ ones ≤ 32 →
  v4_net (mkIPNet (mask_ip l (CIDRMask ones 4)) (CIDRMask ones 4)) ones.
Proof.
  intros H Ho. pose proof (mask_v4 l ones H Ho) as [V E].
  pose proof (mask_v4 _ ones V Ho) as [V' E'].
  repeat split; cbn [net_IP net_Mask]; [lia..|done|].
  apply v4_val_inj; [done..|]. rewrite E', E. rewrite Z.div_mul; [done|].
  unfold net_size. apply Z.pow_nonzero; lia.
Qed.

Lemma dtoi_nonneg s v : dtoi s = Some v → 0 ≤ v.
Proof.
  unfold dtoi. destruct s; [done|]. intros H.
  apply bind_Some in H as (x & Hx & H). case_match; [|done]. simplify_eq.
  by eapply parse_digits_nonneg in Hx.
Qed.

(** A network in dotted form. *)
Lemma ParseCIDR_v4 s n :
  ParseCIDR s = Some n → length (net_Mask n) = 4%nat → ∃ ones, v4_net n ones.
Proof.
  intros H Hl. unfold ParseCIDR in H.
  apply bind_Some in H as ([addr mask] & _ & H).
  apply bind_Some in H as (a & Ha & H). apply bind_Some in H as (o & Ho & H).
  apply dtoi_nonneg in Ho.
  destruct (8 * _ <? o) eqn:Hlt; [done|]. simplify_eq. cbn in Hl.
  unfold CIDRMask in *. rewrite length_fmap, length_seq in Hl. rewrite Hl in *.
  unfold ParseIP in Ha. bool_simp.
  assert (Hf : first_of addr = Some "."%char) by (repeat case_match; done).
  rewrite Hf in Ha. apply bind_Some in Ha as (b & Hb%parse_ipv4_v4 & Hab).
  injection Hab as <-. exists o.
  change (mask_ip _ _) with (mask_ip (v4_prefix ++ b) (mask_byte o <$> seq 0 4)).
  rewrite mask_ip_mapped by done. apply masked_v4_net; [done|lia].
Qed.

Lemma CIDRMask_length ones : 0 ≤ ones ≤ 32 →
  simpleMaskLength (CIDRMask ones 4) = Some ones ∧ dtoi (pretty ones) = Some ones.
Proof. revert ones. all_ones ltac:(split; vm_compute; reflexivity). Qed.

Lemma cut_byte_app c s t :
  str_forallb (λ d, bool_decide (d ≠ c)) s = true →
  cut_byte c (s +:+ String c t) = Some (s, t).
Proof.
  intros Hs. induction s as [|d s IH].
  { rewrite string_app_nil_l. cbn. by rewrite bool_decide_true. }
  rewrite string_app_cons. cbn in Hs |- *. apply andb_true_iff in Hs as [Hd Hs].
  apply bool_decide_eq_true_1 in Hd. rewrite bool_decide_false, IH by done. done.
Qed.

(** The text of an IPv4 address: digits and dots. *)
Lemma ip_string_chars l : v4 l →
  str_forallb (λ c, is_digit c || bool_decide (c = "."%char)) (ip_string l) = true.
Proof.
  intros H. rewrite ip_string_v4 by done.
  apply v4_inv in H as (a & b & c & d & -> & Ha & Hb & Hc & Hd).
  assert (Hx : ∀ x, octet x → str_forallb
    (λ c, is_digit c || bool_decide (c = "."%char)) (pretty x) = true).
  { intros x (_ & Hx & _)%octet_text. revert Hx. apply str_forallb_impl.
    by intros ? ->. }
  cbn [fmap list_fmap str_join]. rewrite !str_forallb_app, !Hx by done. done.
Qed.

(** [net.ParseCIDR] inverts [IPNet.String] on IPv4 networks. *)
Lemma ParseCIDR_String n ones : v4_net n ones → ParseCIDR (IPNet_String n) = Some n.
Proof.
  intros Hn. pose proof (network_number_v4 n ones Hn) as Hnn.
  unfold IPNet_String. rewrite Hnn. destruct Hn as (Ho & Hm & H4 & Hf).
  destruct (CIDRMask_length ones Ho) as [Hl Hd].
  rewrite Hm at 1. rewrite Hl. unfold ParseCIDR.
  rewrite string_app_cons, string_app_nil_l, cut_byte_app.
  2: { eapply str_forallb_impl; [|by apply ip_string_chars].
       intros c Hc. apply bool_decide_eq_true_2. by intros ->. }
  cbn. rewrite ParseIP_string by done. cbn.
  rewrite <- (string_app_nil_r (ip_string _)), first_of_v4 by done. rewrite Hd. cbn.
  rewrite (proj2 (Z.ltb_ge _ _)) by lia.
  change (mask_ip _ _) with (mask_ip (v4_prefix ++ net_IP n) (CIDRMask ones 4)).
  change (mkIPNet _ _) with
    (mkIPNet (mask_ip (v4_prefix ++ net_IP n) (CIDRMask ones 4)) (CIDRMask ones 4)).
  rewrite mask_ip_mapped, <- Hm, Hf by done. by destruct n.
Qed.
