(* ===== verification/Ipam.v ===== *)
(** Address management of the container bridge: the persistent address pools of
    [internal/network] (ipam.go, ipam_lock_linux.go, ipam_generation.go,
    ipam_reconcile.go).

    A pool file is read, changed and atomically replaced under the kernel lock
    of its network, so one operation is one step.  Go visits a map in any order:
    the definitions take the order as a parameter, any permutation of the
    entries. *)
From S2P Require Import Prelude GoStrings Json Fs Container Net.

Open Scope go_scope.

(** * Pools *)

Record IPAM := mkIPAM { ipam_dir : string; ipam_initErr : option error }.

Record SubnetPool := mkPool {
  Subnet : string;
  Allocated : gmap string string (* IP -> ContainerID *) }.
#[export] Instance SubnetPool_eq_dec : EqDecision SubnetPool.
Proof. solve_decision. Defined.

Definition ready (ipam : option IPAM) : option error :=
  match ipam with
  | None => Some (Errorf "IPAM manager is nil")
  | Some i =>
    match ipam_initErr i with
    | Some e => Some e
    | None => fail_if (String.eqb (ipam_dir i) "")
        (Errorf "IPAM directory is not configured")
    end
  end.

Definition validateNetworkName (name : string) : option error :=
  if String.eqb name "" then Some (Errorf "network name cannot be empty")
  else fail_if (String.eqb name "." || String.eqb name ".." ||
                contains_any name "/\:")
    (Errorf "invalid network name %q: path separators and relative components not allowed").

Definition validateContainerID (containerID : string) : option error :=
  fail_if (String.eqb (trim_space containerID) "")
    (Errorf "container ID cannot be empty").

Definition canonicalSubnet (cidr : string) : res (IPNet * string) :=
  let cidr := if String.eqb cidr "" then "172.20.0.0/24" else cidr in
  match ParseCIDR cidr with
  | None => Fail (Wrapf "invalid CIDR %q: %w" (Errorf "invalid CIDR address"))
  | Some n => Ok (n, IPNet_String n)
  end.

(** [^network.Mask[i]] on a byte is [255 - m]. *)
Definition subnetBroadcast (n : IPNet) : option ip :=
  ipv4 ← To4 (net_IP n);
  let '(ones, bits) := mask_Size (net_Mask n) in
  if negb (bits =? 32)%Z || (30 <? ones)%Z then None
  else Some (zip_with (λ a m, Z.lor a (255 - m)) ipv4 (net_Mask n)).

(** The reserved addresses: network, gateway and broadcast. *)
Definition is_reserved (n : IPNet) (a : ip) : bool :=
  IP_Equal a (net_IP n) || IP_Equal a (incIP (net_IP n)) ||
  match subnetBroadcast n with Some b => IP_Equal a b | None => false end.

(** The loop of [validatePoolAllocations]; [owners] maps an owner to its
    address. *)
Fixpoint validate_entries (n : IPNet) (owners : gmap string string)
    (l : list (string * string)) : option error :=
  match l with
  | [] => None
  | (ipStr, owner) :: l =>
    match ParseIP ipStr with
    | None => Some (Errorf "IPAM pool %q has invalid allocation address %q")
    | Some a =>
      fail_if (negb (String.eqb (ip_string a) ipStr))
        (Errorf "IPAM pool %q has invalid allocation address %q") >>!
      fail_if (negb (Contains n a))
        (Errorf "IPAM pool %q allocation %s is outside subnet %s") >>!
      fail_if (is_reserved n a)
        (Errorf "IPAM pool %q allocation %s uses a reserved subnet address") >>!
      wrap_err "IPAM pool %q allocation %s has invalid owner: %w"
        (validateContainerID owner) >>!
      match owners !! owner with
      | Some previousIP =>
        fail_if (negb (String.eqb previousIP ipStr))
          (Errorf "IPAM pool %q assigns container %q more than one address (%s, %s)")
      | None => None
      end >>!
      validate_entries n (<[owner := ipStr]> owners) l
    end
  end.

(** * base64.RawURLEncoding *)

Definition b64_char (v : N) : Ascii.ascii :=
  if (v <? 26)%N then chr (65 + v) else if (v <? 52)%N then chr (71 + v)
  else if (v <? 62)%N then chr (v - 4)
  else if (v =? 62)%N then "-"%char else "_"%char.
Definition b64_val (c : Ascii.ascii) : option N :=
  if is_upper c then Some (byte_val c - 65)%N
  else if is_lower c then Some (byte_val c - 71)%N
  else if is_digit c then Some (byte_val c + 4)%N
  else if bool_decide (c = "-"%char) then Some 62%N
  else if bool_decide (c = "_"%char) then Some 63%N else None.

(** [EncodeToString]: three bytes in four characters, no padding. *)
Fixpoint rawurl_encode (s : string) : string :=
  match s with
  | "" => ""
  | String a "" =>
    let v := byte_val a in
    String (b64_char (v / 4)) (str1 (b64_char (v mod 4 * 16)))
  | String a (String b "") =>
    let v := byte_val a in let w := byte_val b in
    String (b64_char (v / 4)) (String (b64_char (v mod 4 * 16 + w / 16))
      (str1 (b64_char (w mod 16 * 4))))
  | String a (String b (String c s)) =>
    let v := byte_val a in let w := byte_val b in let x := byte_val c in
    String (b64_char (v / 4)) (String (b64_char (v mod 4 * 16 + w / 16))
      (String (b64_char (w mod 16 * 4 + x / 64))
        (String (b64_char (x mod 64)) (rawurl_encode s))))
  end.

(** [DecodeString]: line breaks are skipped, unused trailing bits ignored. *)
Fixpoint rawurl_values (s : string) : option (list N) :=
  match s with
  | "" => Some []
  | String c s =>
    if (byte_val c =? 10)%N || (byte_val c =? 13)%N then rawurl_values s
    else v ← b64_val c; l ← rawurl_values s; Some (v :: l)
  end.
Definition b64_byte (n : N) : Ascii.ascii := chr (n mod 256).
Fixpoint rawurl_groups (l : list N) : option string :=
  match l with
  | [] => Some ""
  | [_] => None
  | [a; b] => Some (str1 (b64_byte (a * 4 + b / 16)))
  | [a; b; c] => Some (String (b64_byte (a * 4 + b / 16))
      (str1 (b64_byte (b * 16 + c / 4))))
  | a :: b :: c :: d :: l =>
    s ← rawurl_groups l;
    Some (String (b64_byte (a * 4 + b / 16)) (String (b64_byte (b * 16 + c / 4))
      (String (b64_byte (c * 64 + d)) s)))
  end.
Definition rawurl_decode (s : string) : option string :=
  l ← rawurl_values s; rawurl_groups l.

Example rawurl_ex :
  rawurl_encode "a" = "YQ" ∧ rawurl_encode "ab?" = "YWI_" ∧
  rawurl_decode "YWJj" = Some "abc" ∧ rawurl_decode "YR" = Some "a" ∧
  rawurl_decode "Y" = None ∧ rawurl_decode "YQ==" = None.
Proof. repeat split; vm_compute; reflexivity. Qed.

(** * Generation-scoped leases (ipam_generation.go, ipam_reconcile.go) *)

Record BridgeLeaseOwner := mkLeaseOwner {
  lo_ContainerID : string; lo_PID : Z; lo_PIDStartTime : Z }.
#[export] Instance BridgeLeaseOwner_eq_dec : EqDecision BridgeLeaseOwner.
Proof. solve_decision. Defined.

Definition lease_prefix : string := "generation:".

(** [BridgeLeaseOwner.key] *)
Definition key (o : BridgeLeaseOwner) : res string :=
  check (fail_if (String.eqb (trim_space (lo_ContainerID o)) "")
    (Errorf "bridge lease container ID cannot be empty"));;
  check (fail_if ((lo_PID o <=? 0)%Z || (lo_PIDStartTime o =? 0)%Z)
    (Errorf "invalid bridge lease process identity %d/%d"));;
  Ok (lease_prefix +:+ rawurl_encode (lo_ContainerID o) +:+ ":" +:+ pretty (lo_PID o)
      +:+ ":" +:+ pretty (lo_PIDStartTime o)).

Definition or_fail {A} (e : error) (o : option A) : res A :=
  match o with Some a => Ok a | None => Fail e end.

Definition ParseBridgeLeaseOwner (k : string) : res BridgeLeaseOwner :=
  if negb (has_prefix k lease_prefix)
  then Fail (Errorf "not a generation bridge lease owner")
  else match str_split ":"%char (str_drop (String.length lease_prefix) k) with
  | [p0; p1; p2] =>
    id ← or_fail (Wrapf "decode bridge lease container ID: %w"
      (Errorf "illegal base64 data")) (rawurl_decode p0);
    pid ← or_fail (Wrapf "parse bridge lease PID: %w"
      (Errorf "invalid syntax")) (parse_int p1);
    start ← or_fail (Wrapf "parse bridge lease PID start time: %w"
      (Errorf "invalid syntax")) (parse_uint max_uint64 p2);
    let owner := mkLeaseOwner id pid start in
    key owner;;
    Ok owner
  | _ => Fail (Errorf "invalid generation bridge lease owner %q")
  end.

(** The loop of [ReconcileGenerationIPs]: the remaining pool and the number of
    reclaimed leases. *)
Fixpoint reclaim (alive : BridgeLeaseOwner → bool) (l : list (string * string))
    (st : gmap string string * Z) : gmap string string * Z :=
  match l with
  | [] => st
  | (ip, k) :: l =>
    reclaim alive l
      match ParseBridgeLeaseOwner k with
      | Fail _ => st
      | Ok owner => if alive owner then st else (delete ip st.1, (st.2 + 1)%Z)
      end
  end.

(** * Pool files *)

Definition pool_path (networkName : string) : path := (DIpam, networkName +:+ ".json").
Definition lock_path (networkName : string) : path := (DIpam, networkName +:+ ".lock").

(** [map[string]string]: members are set one by one, a [null] sets the empty
    string. *)
Fixpoint dec_map_members (kvs : list (string * json)) (old : gmap string string)
    : res (gmap string string) :=
  match kvs with
  | [] => Ok old
  | (k, v) :: kvs =>
    x ← dec_string v "";
    dec_map_members kvs (<[utf8_coerce k := x]> old)
  end.
Definition dec_map (j : json) (old : gmap string string) : res (gmap string string) :=
  match j with
  | JObj kvs => dec_map_members kvs old
  | JNull => Ok ∅
  | _ => type_error
  end.

Definition pool_fields : list (string * setter SubnetPool) := [
  ("subnet", field dec_string Subnet (λ x p, mkPool x (Allocated p)));
  ("allocated", field dec_map Allocated (λ x p, mkPool (Subnet p) x)) ].
Definition key_le (a b : string * string) : Prop := String.leb a.1 b.1.
#[export] Instance key_le_dec a b : Decision (key_le a b) := _.
(** [json.Marshal] sorts the keys of a map. *)
Definition map_json (m : gmap string string) : json :=
  JObj ((λ kv : string * string, (utf8_coerce kv.1, enc_string kv.2))
        <$> merge_sort key_le (map_to_list m)).
Definition pool_json (p : SubnetPool) : json :=
  JObj [("subnet", enc_string (Subnet p)); ("allocated", map_json (Allocated p))].

Section ipam.
Context (order : gmap string string → list (string * string)).

Definition validatePoolAllocations (pool : SubnetPool) (network : IPNet)
    : option error := validate_entries network ∅ (order (Allocated pool)).

(** [os.Lstat] of a file, then [os.ReadFile]. *)
Definition lstat (msg : string) (p : path) : M (option node) :=
  wrapm msg (sys "lstat");; entry p.

Definition loadExistingPool (networkName : string) : M (option SubnetPool) :=
  n ← lstat "inspect IPAM pool %q: %w" (pool_path networkName);
  match n with
  | None => mret None
  | Some (NFile data _) =>
    wrapm "chmod IPAM pool %q: %w" (sys "chmod");;
    wrapm "read IPAM pool %q: %w" (sys "open");;
    wrapm "read IPAM pool %q: %w" (sys "read");;
    pool ← lift (wrapf "parse IPAM pool %q: %w"
      (j ← json_of data; decode_struct false pool_fields j (mkPool "" ∅)));
    '(network, canonicalCIDR) ← lift
      (wrapf "IPAM pool %q has invalid stored subnet %q: %w"
        (canonicalSubnet (Subnet pool)));
    let pool := mkPool canonicalCIDR (Allocated pool) in
    ensure (validatePoolAllocations pool network);;
    mret (Some pool)
  | Some _ => throw (Errorf "IPAM pool %q must be a regular file")
  end.

Definition loadPool (networkName expectedCIDR : string) : M SubnetPool :=
  pool ← loadExistingPool networkName;
  match pool with
  | None => mret (mkPool expectedCIDR ∅)
  | Some pool =>
    ensure (fail_if (negb (String.eqb (Subnet pool) expectedCIDR))
      (Errorf "IPAM pool %q subnet mismatch: stored %s, requested %s"));;
    mret pool
  end.

(** The deferred removal runs only before the rename. *)
Definition savePool (networkName : string) (pool : SubnetPool) : M unit :=
  h ← wrapm "create temporary pool file: %w" create_temp;
  r ← attempt (
    wrapm "chmod temporary pool file: %w" (sys "fchmod");;
    wrapm "write temporary pool file: %w" (write_temp h (FJson true (pool_json pool)));;
    wrapm "fsync temporary pool file: %w" (sys "fsync");;
    wrapm "close temporary pool file: %w" (sys "close");;
    wrapm "atomically replace pool file: %w" (rename_temp h (pool_path networkName)));
  match r with
  | Fail e => ignore (remove_temp h);; throw e
  | Ok _ =>
    wrapm "open IPAM directory for fsync: %w" (sys "open directory");;
    wrapm "fsync IPAM directory: %w" (sys "fsync directory")
  end.

(** [withIPAMNetworkLock]: the lock file is created when missing. *)
Definition withIPAMNetworkLock {A} (networkName : string) (fn : M A) : M A :=
  wrapm "open IPAM lock %q: %w" (
    sys "open";;
    n ← entry (lock_path networkName);
    match n with
    | None => modify (with_fs (insert (lock_path networkName) (NFile (FText "") 1)))
    | Some NSymlink => throw (EIO "open: too many levels of symbolic links")
    | Some NDir => throw (EIO "open: is a directory")
    | Some _ => mret tt
    end);;
  wrapm "inspect IPAM lock %q: %w" (sys "fstat");;
  n ← entry (lock_path networkName);
  ensure match n with
    | Some (NFile _ _) => None
    | _ => Some (Errorf "IPAM lock %q must be a regular file")
    end;;
  wrapm "chmod IPAM lock %q: %w" (sys "fchmod");;
  wrapm "lock IPAM network %q: %w" (sys "flock");;
  r ← attempt fn;
  u ← attempt (wrapm "unlock IPAM network %q: %w" (sys "flock"));
  match r, u with
  | Ok a, Ok _ => mret a
  | Ok _, Fail e => throw e
  | Fail e, Ok _ => throw e
  | Fail e, Fail e' => throw (Joined e e')
  end.

(** * Allocation *)

(** The search for a free address from [curr]: [None] when the fuel ran out,
    [Some None] when the subnet is exhausted. *)
Fixpoint find_free (fuel : nat) (netObj : IPNet) (broadcastIP : option ip)
    (allocated : gmap string string) (curr : ip) : option (option string) :=
  match fuel with
  | O => None
  | S fuel =>
    if negb (Contains netObj curr) then Some None
    else if match broadcastIP with Some b => IP_Equal curr b | None => false end
    then Some None
    else let ipStr := ip_string curr in
      match allocated !! ipStr with
      | None => Some (Some ipStr)
      | Some _ => find_free fuel netObj broadcastIP allocated (incIP curr)
      end
  end.

(** Every pass but the last finds a taken address, each at most once. *)
Definition search (netObj : IPNet) (pool : SubnetPool) : option (option string) :=
  find_free (S (size (Allocated pool))) netObj (subnetBroadcast netObj)
    (Allocated pool) (incIP (incIP (net_IP netObj))).

(** The addresses of an owner, in the order of the map. *)
Definition owned_by (containerID : string) (m : gmap string string)
    : option (string * string) :=
  find (λ kv : string * string, String.eqb kv.2 containerID) (order m).

Definition AllocateIP (ipam : option IPAM) (networkName cidr containerID : string)
    : M string :=
  ensure (ready ipam);;
  ensure (validateNetworkName networkName);;
  ensure (validateContainerID containerID);;
  '(netObj, canonicalCIDR) ← lift (canonicalSubnet cidr);
  withIPAMNetworkLock networkName (
    pool ← loadPool networkName canonicalCIDR;
    match owned_by containerID (Allocated pool) with
    | Some (allocatedIP, _) => mret allocatedIP
    | None =>
      match search netObj pool with
      | None => throw (Errorf "address search out of fuel")
      | Some None => throw (Errorf "subnet %s exhausted")
      | Some (Some ipStr) =>
        wrapm "save IPAM pool for %q: %w" (savePool networkName
          (mkPool (Subnet pool) (<[ipStr := containerID]> (Allocated pool))));;
        mret ipStr
      end
    end).

Definition ReleaseIP (ipam : option IPAM) (networkName containerID : string) : M unit :=
  ensure (ready ipam);;
  ensure (validateNetworkName networkName);;
  ensure (validateContainerID containerID);;
  withIPAMNetworkLock networkName (
    pool ← loadExistingPool networkName;
    match pool with
    | None => mret tt
    | Some pool =>
      match owned_by containerID (Allocated pool) with
      | None => mret tt
      | Some (ipStr, _) =>
        wrapm "save IPAM pool for %q: %w" (savePool networkName
          (mkPool (Subnet pool) (delete ipStr (Allocated pool))))
      end
    end).
Definition AllocateGenerationIP (ipam : option IPAM) (networkName cidr : string)
    (owner : BridgeLeaseOwner) : M string :=
  k ← lift (key owner);
  AllocateIP ipam networkName cidr k.

Definition ReleaseGenerationIP (ipam : option IPAM) (networkName : string)
    (owner : BridgeLeaseOwner) : M unit :=
  k ← lift (key owner);
  ReleaseIP ipam networkName k.

(** [alive = None] is the nil callback. *)
Definition ReconcileGenerationIPs (ipam : option IPAM) (networkName : string)
    (alive : option (BridgeLeaseOwner → bool)) : M Z :=
  ensure (ready ipam);;
  ensure (validateNetworkName networkName);;
  match alive with
  | None => throw (Errorf "bridge lease liveness callback is nil")
  | Some alive =>
    withIPAMNetworkLock networkName (
      pool ← loadExistingPool networkName;
      match pool with
      | None => mret 0
      | Some pool =>
        let '(m, reclaimed) :=
          reclaim alive (order (Allocated pool)) (Allocated pool, 0) in
        if (reclaimed =? 0)%Z then mret 0
        else
          wrapm "save reconciled IPAM pool for %q: %w"
            (savePool networkName (mkPool (Subnet pool) m));;
          mret reclaimed
      end)
  end.
End ipam.
