(* ===== verification/IpamFacts.v ===== *)
(** The pools of [Ipam] on IPv4 networks: which addresses are leased out, the
    search for a free one, and what a saved pool reads back as. *)
From S2P Require Import Prelude GoStrings Decimal Json Fs FsLogic Container.
From S2P Require Import Net.
From S2P Require Import Ownership OwnershipFacts NetFacts Ipam.

#[local] Open Scope Z_scope.

(** * Host addresses *)

(** The addresses a network leases: neither its number, nor the gateway next
    to it, nor the last one. *)
Definition host (n : IPNet) (ones : Z) (l : ip) : Prop :=
  v4 l ∧ v4_val (net_IP n) + 2 ≤ v4_val l ≤ v4_val (net_IP n) + net_size ones - 2.

(** The checks of [validatePoolAllocations] on an address. *)
Definition addr_ok (n : IPNet) (s : string) : Prop :=
  ∃ a, ParseIP s = Some a ∧ ip_string a = s ∧ Contains n a = true ∧
    is_reserved n a = false.

Section network.
Context (n : IPNet) (ones : Z) (Hn : v4_net n ones).

Lemma broadcast_v4 : subnetBroadcast n =
  if 30 <? ones then None
  else Some (v4_of (v4_val (net_IP n) + net_size ones - 1)).
Proof.
  pose proof (v4_net_size n ones Hn) as HS. pose proof (v4_net_aligned n ones Hn) as Ha.
  destruct Hn as (Ho & Hm & H4 & Hf). unfold subnetBroadcast. rewrite To4_v4 by done.
  cbn. unfold mask_Size. rewrite Hm at 1. destruct (CIDRMask_length ones Ho) as [-> _].
  rewrite Hm. change (length (CIDRMask ones 4)) with 4%nat. cbn [Z.eqb negb orb].
  destruct (30 <? ones); [done|]. f_equal.
  pose proof (fill_v4 _ ones H4 Ho) as [V E]. rewrite <- Hm, Hf in V, E.
  rewrite <- Hm. rewrite <- (v4_of_val (zip_with _ _ _)) by exact V. f_equal.
  etransitivity; [exact E|]. apply Z.mod_divide in Ha as [q ->]; [|lia].
  rewrite Z.div_mul by lia. lia.
Qed.

Lemma gateway_v4 : v4 (incIP (net_IP n)) ∧
  (2 ≤ net_size ones → v4_val (incIP (net_IP n)) = v4_val (net_IP n) + 1).
Proof.
  pose proof (v4_net_IP n ones Hn) as H4. pose proof (v4_net_top n ones Hn).
  destruct (incIP_v4 _ H4) as [V E]. split; [done|]. intros.
  pose proof (v4_val_range _ H4). rewrite E, Z.mod_small; lia.
Qed.

Lemma net_size_cases :
  (ones = 32 ∧ net_size ones = 1) ∨ (ones = 31 ∧ net_size ones = 2) ∨
  (ones ≤ 30 ∧ 4 ≤ net_size ones).
Proof.
  destruct Hn as (Ho & _). assert (ones = 32 ∨ ones = 31 ∨ ones ≤ 30) as [->|[->|H]] by lia;
    [by left|by right; left|]. right; right. split; [done|].
  change 4 with (2 ^ 2). apply Z.pow_le_mono_r; lia.
Qed.

(** A contained address is a host exactly when it is not reserved. *)
Lemma reserved_v4 l : v4 l → Contains n l = true →
  is_reserved n l = false ↔ host n ones l.
Proof.
  intros H Hc. pose proof (v4_net_IP n ones Hn) as H4.
  apply (Contains_v4 n ones Hn l H) in Hc. destruct gateway_v4 as [Vg Eg].
  unfold is_reserved, host. rewrite broadcast_v4.
  rewrite !IP_Equal_v4 by done. rewrite !orb_false_iff, !bool_decide_eq_false.
  assert (Hv : ∀ k, v4 k → l ≠ k ↔ v4_val l ≠ v4_val k).
  { intros k Hk. split; [|by intros ? ->]. intros Hne E. by apply Hne, v4_val_inj. }
  rewrite !Hv by done. pose proof (v4_val_range _ H). pose proof (v4_val_range _ H4).
  pose proof (v4_net_top n ones Hn).
  destruct net_size_cases as [[-> HS]|[[-> HS]|[? HS]]].
  - cbn [Z.ltb Z.compare Pos.compare Pos.compare_cont]. rewrite HS in *. lia.
  - cbn [Z.ltb Z.compare Pos.compare Pos.compare_cont]. rewrite HS in *.
    rewrite Eg by lia. lia.
  - rewrite (proj2 (Z.ltb_ge _ _)) by lia. rewrite Eg by lia.
    rewrite IP_Equal_v4, bool_decide_eq_false, Hv, v4_val_of by (try apply v4_of_v4; done || lia).
    split; [intros; split; [done|lia]|lia].
Qed.

Lemma reserved_mapped l : v4 l → is_reserved n (v4_prefix ++ l) = is_reserved n l.
Proof.
  intros H. unfold is_reserved. pose proof (v4_net_IP n ones Hn).
  destruct gateway_v4 as [Vg _].
  rewrite !IP_Equal_mapped, !IP_Equal_v4 by done. f_equal. rewrite broadcast_v4.
  destruct (30 <? ones); [done|].
  by rewrite IP_Equal_mapped, IP_Equal_v4 by (try apply v4_of_v4; done).
Qed.

Lemma host_v4 l : host n ones l → v4 l.
Proof. by intros []. Qed.
Lemma host_contains l : host n ones l → Contains n l = true ∧ is_reserved n l = false.
Proof.
  intros H. pose proof H as [V ?].
  assert (Hc : Contains n l = true) by (apply (Contains_v4 n ones Hn); [done|lia]).
  split; [done|]. by apply reserved_v4.
Qed.
End network.

(** The text of any integer has no colon and no percent sign. *)
Definition v4_char (c : Ascii.ascii) : bool :=
  bool_decide (c ≠ ":"%char) && bool_decide (c ≠ "%"%char).
Lemma digit_v4_char c : is_digit c = true → v4_char c = true.
Proof.
  intros H. unfold v4_char. rewrite !bool_decide_true; [done|..]; by intros ->.
Qed.
Lemma pretty_v4_char (z : Z) : str_forallb v4_char (pretty z) = true.
Proof.
  assert (Hp : ∀ p, str_forallb v4_char (pretty (Zpos p)) = true).
  { intros p. destruct (pretty_Z_digits (Zpos p)) as (H & _); [lia|].
    revert H. apply str_forallb_impl, digit_v4_char. }
  destruct z as [|p|p]; [done|apply Hp|].
  change (pretty (Zneg p) : string) with ("-" +:+ (pretty (Zpos p))).
  rewrite str_forallb_app, Hp. done.
Qed.

Lemma first_of_in s c : first_of s = Some c →
  ∃ p, (c = "."%char ∨ c = ":"%char ∨ c = "%"%char) ∧
    (p c = false → str_forallb p s = false) ∧ p = v4_char.
Proof.
  intros H. exists v4_char. split; [|split; [|done]].
  - induction s as [|d s IH]; [done|]. cbn in H.
    destruct (_ || _) eqn:E; [|auto]. simplify_eq.
    apply orb_true_iff in E as [[E|E]%orb_true_iff|E]; bool_simp; auto.
  - intros Hc. induction s as [|d s IH]; [done|]. cbn in H |- *.
    destruct (_ || _) eqn:E; [simplify_eq; by rewrite Hc|].
    by rewrite IH, andb_false_r.
Qed.

(** A text that [IP.String] prints for an IPv4 address is read as one of four
    octets. *)
Lemma ParseIP_dotted s a l :
  ParseIP s = Some a → ip_string a = s → To4 a = Some l → v4 l ∧ s = ip_string l.
Proof.
  intros Hp Hs Hl.
  assert (Hj : s = str_join "." (pretty <$> l)) by (rewrite <- Hs; unfold ip_string; by rewrite Hl).
  assert (Hlen : length l = 4%nat).
  { unfold To4 in Hl. destruct (length a =? 4)%nat eqn:E.
    - simplify_eq. by apply Nat.eqb_eq in E.
    - destruct (length a =? 16)%nat eqn:E'; [|done]. cbn in Hl.
      destruct (bool_decide _); [|done]. simplify_eq. apply Nat.eqb_eq in E'.
      rewrite length_drop. lia. }
  assert (Hc : str_forallb v4_char s = true).
  { rewrite Hj. destruct l as [|x [|y [|z [|w [|]]]]]; try done.
    cbn [fmap list_fmap str_join]. by rewrite !str_forallb_app, !pretty_v4_char. }
  unfold ParseIP in Hp. destruct (first_of s) as [c|] eqn:Hf; [|done].
  apply first_of_in in Hf as (p & Hcs & Hin & ->).
  destruct Hcs as [->|[->| ->]]; [|by rewrite Hin in Hc..].
  apply bind_Some in Hp as (b & Hb%parse_ipv4_v4 & Hab). injection Hab as <-.
  change (_ :: _) with (v4_prefix ++ b) in Hl. rewrite To4_mapped in Hl by done.
  simplify_eq. split; [done|]. by rewrite Hj, ip_string_v4.
Qed.

(** The addresses a valid pool may lease out are the texts of the hosts. *)
Lemma addr_ok_iff n ones s : v4_net n ones →
  addr_ok n s ↔ ∃ l, host n ones l ∧ s = ip_string l.
Proof.
  intros Hn. split.
  - intros (a & Hp & Hs & Hc & Hr).
    destruct (To4 a) as [l|] eqn:Hl.
    + destruct (ParseIP_dotted s a l Hp Hs Hl) as [V ->].
      exists l. split; [|done]. rewrite ParseIP_string in Hp by done. injection Hp as <-.
      change (_ :: _) with (v4_prefix ++ l) in *.
      rewrite Contains_mapped in Hc by done.
      rewrite (reserved_mapped n ones) in Hr by done.
      by apply (reserved_v4 n ones Hn).
    + exfalso. unfold Contains in Hc.
      rewrite (network_number_v4 n ones), Hl in Hc by done. cbn in Hc.
      pose proof (v4_net_IP n ones Hn) as V4. unfold To4 in Hl.
      destruct Hn as (_ & Hm & _). rewrite Hm in Hc.
      apply v4_inv in V4 as (? & ? & ? & ? & E & _). rewrite E in Hc.
      destruct a as [|? [|? [|? [|? [|]]]]]; cbn in Hc; try done;
        rewrite ?andb_false_r in Hc; done.
  - intros (l & Hh & ->). pose proof (host_v4 _ _ _ Hh) as V.
    destruct (host_contains _ _ Hn _ Hh) as [Hc Hr].
    exists (v4_prefix ++ l). rewrite ParseIP_string, ip_string_mapped by done.
    rewrite Contains_mapped, (reserved_mapped n ones) by done. done.
Qed.

(** * The search for a free address *)

Section search.
Context (n : IPNet) (ones : Z) (Hn : v4_net n ones) (m : gmap string string).

Definition taken (l : ip) : Prop := is_Some (m !! ip_string l).

(** What the search from [l] on returns. *)
Definition found (l : ip) (r : option (option string)) : Prop :=
  match r with
  | None => False
  | Some None => ∀ k, host n ones k → v4_val l ≤ v4_val k → taken k
  | Some (Some s) => ∃ k, s = ip_string k ∧ host n ones k ∧ ¬ taken k ∧
      v4_val l ≤ v4_val k ∧
      ∀ k', host n ones k' → v4_val l ≤ v4_val k' < v4_val k → taken k'
  end.

Lemma found_next l r : v4 l → taken l →
  (∀ k, v4 k → v4_val l ≤ v4_val k → k ≠ l → v4_val (incIP l) ≤ v4_val k) →
  v4_val l ≤ v4_val (incIP l) → found (incIP l) r → found l r.
Proof.
  intros V Ht Hk Hle. unfold found. destruct r as [[s|]|]; [| |done].
  - intros (k & -> & Hh & Hf & ? & Hm). exists k. split_and!; [done..|lia|].
    intros k' Hh' Hv'. destruct (decide (k' = l)) as [->|Hne]; [done|].
    apply Hm; [done|]. split; [|lia]. apply Hk; [by apply Hh'|lia|done].
  - intros Hm k Hh Hv. destruct (decide (k = l)) as [->|Hne]; [done|].
    apply Hm; [done|]. apply Hk; [by apply Hh|done|done].
Qed.

(** With more fuel than the taken addresses ahead, the search ends. *)
Lemma find_free_found fuel (D : gset string) l :
  v4 l → 4 ≤ net_size ones →
  v4_val (net_IP n) + 2 ≤ v4_val l ≤ v4_val (net_IP n) + net_size ones - 1 →
  (∀ k, v4 k → v4_val l ≤ v4_val k → taken k → ip_string k ∈ D) →
  (size D < fuel)%nat →
  found l (find_free fuel n (subnetBroadcast n) m l).
Proof.
  revert D l. induction fuel as [|fuel IH]; intros D l V HS Hl HD Hfuel; [lia|].
  cbn [find_free]. pose proof (v4_net_top n ones Hn).
  pose proof (v4_val_range _ (v4_net_IP n ones Hn)).
  rewrite (proj2 (Contains_v4 n ones Hn l V)) by lia. cbn [negb].
  assert (Ho : ones ≤ 30) by (destruct (net_size_cases n ones Hn); lia).
  pose proof (broadcast_v4 n ones Hn) as Hbc.
  rewrite (proj2 (Z.ltb_ge _ _)) in Hbc by lia. rewrite Hbc.
  rewrite IP_Equal_v4 by (done || apply v4_of_v4).
  case_bool_decide as Hb.
  { subst l. unfold found. rewrite v4_val_of by lia. intros k [? ?] ?. lia. }
  assert (Hl' : v4_val l ≠ v4_val (net_IP n) + net_size ones - 1).
  { intros E. apply Hb. rewrite <- E. by rewrite v4_of_val. }
  destruct (m !! ip_string l) as [o|] eqn:Hm.
  2: { exists l. split_and!; [done|split; [done|lia]| |done|lia].
       unfold taken. rewrite Hm. by intros [? ?]. }
  assert (Ht : taken l) by (unfold taken; eauto).
  destruct (incIP_v4 l V) as [V' E']. rewrite Z.mod_small in E' by lia.
  apply found_next; try done; [|lia|].
  { intros k Vk Hk Hne. assert (v4_val k ≠ v4_val l); [|lia].
    intros E. by apply Hne, v4_val_inj. }
  assert (Hin : ip_string l ∈ D) by (by apply HD).
  rewrite <- Hbc. apply (IH (D ∖ {[ip_string l]})); [done|done|lia| |].
  - intros k Vk Hk Htk. apply elem_of_difference. split; [apply HD; [done|lia|done]|].
    intros Heq%elem_of_singleton. apply ip_string_inj in Heq; [|done..]. subst. lia.
  - rewrite size_difference by set_solver. rewrite size_singleton.
    assert (size D ≠ 0%nat); [|lia]. intros E%size_empty_inv. set_solver.
Qed.

Lemma search_found sub :
  match search n (mkPool sub m) with
  | None => False
  | Some None => ∀ k, host n ones k → taken k
  | Some (Some s) => ∃ k, s = ip_string k ∧ host n ones k ∧ ¬ taken k ∧
      ∀ k', host n ones k' → v4_val k' < v4_val k → taken k'
  end.
Proof.
  pose proof (v4_net_IP n ones Hn) as H4. pose proof (v4_val_range _ H4).
  pose proof (v4_net_top n ones Hn).
  destruct (incIP_v4 _ H4) as [V1 E1]. destruct (incIP_v4 _ V1) as [V2 E2].
  unfold search. cbn [Allocated].
  destruct (net_size_cases n ones Hn) as [[_ HS]|[[_ HS]|[_ HS]]].
  1,2: cbn [find_free]; destruct (Contains n (incIP (incIP (net_IP n)))) eqn:Hc;
    [|cbn [negb]; intros k [_ ?]; lia]; apply (Contains_v4 n ones Hn) in Hc; [|done];
    rewrite E2, E1, HS in Hc; Z.to_euclidean_division_equations; lia.
  rewrite Z.mod_small in E1 by lia. rewrite E1, Z.mod_small in E2 by lia.
  pose proof (find_free_found (S (size m)) (dom m) (incIP (incIP (net_IP n))) V2 HS) as Hf.
  revert Hf. rewrite size_dom. intros Hf.
  specialize (Hf ltac:(lia) ltac:(by intros k _ _ ?%elem_of_dom) ltac:(lia)).
  unfold found in Hf. destruct (find_free _ _ _ _ _) as [[s|]|]; [| |done].
  - destruct Hf as (k & -> & Hh & Ht & _ & Hm). exists k. split_and!; [done..|].
    intros k' Hh' ?. apply Hm; [done|]. destruct Hh' as [_ ?]. lia.
  - intros k Hh. apply Hf; [done|]. destruct Hh as [_ ?]. lia.
Qed.
End search.

(** * Valid pools *)

(** The lease table of a network: hosts only, one address per owner. *)
Record pool_valid (n : IPNet) (ones : Z) (m : gmap string string) : Prop := {
  pv_host s o : m !! s = Some o → ∃ l, host n ones l ∧ s = ip_string l;
  pv_owner s o : m !! s = Some o → validateContainerID o = None;
  pv_inj s s' o : m !! s = Some o → m !! s' = Some o → s = s' }.

Definition entry_ok (n : IPNet) (kv : string * string) : Prop :=
  addr_ok n kv.1 ∧ validateContainerID kv.2 = None.

Lemma validate_cons n owners s o l :
  validate_entries n owners ((s, o) :: l) = None ↔
  entry_ok n (s, o) ∧ (owners !! o = None ∨ owners !! o = Some s) ∧
  validate_entries n (<[o := s]> owners) l = None.
Proof.
  cbn [validate_entries]. unfold entry_ok, addr_ok. cbn [fst snd].
  destruct (ParseIP s) as [a|];
    [|split; [done|by intros (((? & ? & _) & _) & _)]].
  rewrite !err_first_None, wrap_err_None, !fail_if_None, negb_false_iff, String.eqb_eq.
  rewrite negb_false_iff.
  assert (Ho : match owners !! o with
    | Some p => fail_if (negb (String.eqb p s))
        (Errorf "IPAM pool %q assigns container %q more than one address (%s, %s)")
    | None => None end = None ↔ owners !! o = None ∨ owners !! o = Some s).
  { destruct (owners !! o) as [p|]; [|by split; [left|]].
    rewrite fail_if_None, negb_false_iff, String.eqb_eq.
    split; [intros ->; by right|by intros [|[= ->]]]. }
  rewrite Ho. split.
  - intros (? & ? & ? & ? & ? & ?). split_and!; [by exists a|done..].
  - intros (((a' & [= <-] & ? & ? & ?) & ?) & ? & ?). by split_and!.
Qed.

Lemma validate_entries_iff n owners l : NoDup l.*1 →
  validate_entries n owners l = None ↔
  Forall (entry_ok n) l ∧
  (∀ s o, (s, o) ∈ l → owners !! o = None ∨ owners !! o = Some s) ∧
  (∀ s s' o, (s, o) ∈ l → (s', o) ∈ l → s = s').
Proof.
  revert owners. induction l as [|[s o] l IH]; intros owners Hnd.
  { split; [intros _|done]. by split_and!; [|intros ? ? ?%elem_of_nil|intros ? ? ? ?%elem_of_nil]. }
  cbn in Hnd. apply NoDup_cons in Hnd as [Hs Hnd].
  rewrite validate_cons, IH, Forall_cons by done. clear IH. split.
  - intros (He & Ho & Hl & Hw & Hi).
    assert (Hh : ∀ s', (s', o) ∈ l → s' = s).
    { intros s' Hs'. apply Hw in Hs'. rewrite lookup_insert_eq in Hs'.
      by destruct Hs' as [|[= ->]]. }
    split_and!; [done..| |].
    + intros s' o' [[= -> ->]|Hin]%elem_of_cons; [done|].
      destruct (decide (o' = o)) as [->|Hne]; [by rewrite (Hh _ Hin)|].
      specialize (Hw _ _ Hin). by rewrite lookup_insert_ne in Hw.
    + intros s1 s2 o' [[= -> ->]|H1]%elem_of_cons [[= ->]|H2]%elem_of_cons; try done;
        [by symmetry; apply Hh| |by eapply Hi].
      subst. by apply Hh.
  - intros ((He & Hl) & Hw & Hi). split_and!; [done| | done| |].
    + apply Hw. by left.
    + intros s' o' Hin. destruct (decide (o' = o)) as [->|Hne].
      * right. rewrite lookup_insert_eq. f_equal. by eapply Hi; [left|right].
      * rewrite lookup_insert_ne by done. apply Hw. by right.
    + intros s1 s2 o' H1 H2. eapply Hi; by right.
Qed.

(** The owners a pool file can carry. *)
Definition owners_safe (m : gmap string string) : Prop :=
  ∀ s o, m !! s = Some o → json_safe o.

Section order.
Context (order : gmap string string → list (string * string)).
Context (Horder : ∀ m, order m ≡ₚ map_to_list m).

Lemma elem_of_order m s o : (s, o) ∈ order m ↔ m !! s = Some o.
Proof. by rewrite Horder, elem_of_map_to_list. Qed.
Lemma NoDup_order m : NoDup (order m).*1.
Proof. rewrite Horder. apply NoDup_fst_map_to_list. Qed.

(** [validatePoolAllocations] accepts the valid pools, in whatever order it
    visits the entries. *)
Lemma validate_iff n ones p : v4_net n ones →
  validatePoolAllocations order p n = None ↔ pool_valid n ones (Allocated p).
Proof.
  intros Hn. unfold validatePoolAllocations.
  rewrite validate_entries_iff by apply NoDup_order.
  rewrite Forall_forall. unfold entry_ok. split.
  - intros (He & _ & Hi). split.
    + intros s o Hs. apply (addr_ok_iff n ones s Hn).
      apply elem_of_order in Hs. by apply He in Hs as [? _].
    + intros s o Hs. apply elem_of_order in Hs. by apply He in Hs as [_ ?].
    + intros s s' o Hs Hs'. apply (Hi s s' o); by apply elem_of_order.
  - intros [Hh Ho Hi]. split_and!.
    + intros [s o] Hs%elem_of_order. split; [|by eapply Ho].
      apply (addr_ok_iff n ones s Hn). by eapply Hh.
    + intros s o _. by left.
    + intros s s' o Hs%elem_of_order Hs'%elem_of_order. by eapply Hi.
Qed.

(** The search for the address of an owner. *)
Lemma owned_by_Some cid m s o :
  owned_by order cid m = Some (s, o) → o = cid ∧ m !! s = Some cid.
Proof.
  intros H. apply find_some in H as [Hin E]. apply String.eqb_eq in E. cbn in E. subst.
  split; [done|]. apply elem_of_order. by apply list_elem_of_In.
Qed.
Lemma owned_by_None cid m : owned_by order cid m = None → ∀ s, m !! s ≠ Some cid.
Proof.
  intros H s Hs. apply elem_of_order in Hs. apply list_elem_of_In in Hs.
  eapply find_none in H; [|exact Hs]. by rewrite String.eqb_refl in H.
Qed.

(** What [loadExistingPool] makes of the contents of a pool file. *)
Definition read_pool (data : file_data) : res SubnetPool :=
  pool ← wrapf "parse IPAM pool %q: %w"
    (j ← json_of data; decode_struct false pool_fields j (mkPool "" ∅));
  '(network, canonicalCIDR) ← wrapf "IPAM pool %q has invalid stored subnet %q: %w"
    (canonicalSubnet (Subnet pool));
  check (validatePoolAllocations order (mkPool canonicalCIDR (Allocated pool)) network);;
  Ok (mkPool canonicalCIDR (Allocated pool)).

Lemma dec_map_members_safe (l : list (string * string)) (acc : gmap string string) :
  NoDup l.*1 → Forall (λ kv, json_safe kv.1 ∧ json_safe kv.2) l →
  dec_map_members ((λ kv : string * string, (utf8_coerce kv.1, enc_string kv.2)) <$> l) acc
  = Ok (list_to_map l ∪ acc).
Proof.
  revert acc. induction l as [|[k v] l IH]; intros acc Hnd Hs.
  { cbn. by rewrite (left_id_L ∅ (∪)). }
  cbn in Hnd. apply NoDup_cons in Hnd as [Hk Hnd].
  apply Forall_cons in Hs as [[Sk Sv] Hs]. cbn in Sk, Sv.
  cbn [fmap list_fmap dec_map_members fst snd]. rewrite dec_enc_string.
  cbn [mbind res_bind]. rewrite IH, utf8_coerce_idemp, Sk, Sv by done.
  f_equal. cbn. rewrite <- insert_union_r; [by rewrite insert_union_l|].
  by apply not_elem_of_list_to_map_1.
Qed.

Lemma map_json_safe (m : gmap string string) :
  (∀ s o, m !! s = Some o → json_safe s ∧ json_safe o) →
  dec_map (map_json m) ∅ = Ok m.
Proof.
  intros Hs. pose proof (merge_sort_Permutation key_le (map_to_list m)) as Hp.
  unfold dec_map, map_json. rewrite dec_map_members_safe.
  - rewrite (right_id_L ∅ (∪)). f_equal. rewrite <- (list_to_map_to_list m) at 2.
    apply list_to_map_proper; [|done]. rewrite Hp. apply NoDup_fst_map_to_list.
  - rewrite Hp. apply NoDup_fst_map_to_list.
  - rewrite Hp. apply Forall_forall. intros [s o] Hin%elem_of_map_to_list. by apply Hs in Hin.
Qed.

Lemma ip_string_safe l : v4 l → json_safe (ip_string l).
Proof. intros H. eapply ascii_json_safe, ParseIP_ascii, ParseIP_string, H. Qed.

Lemma IPNet_String_v4 n ones : v4_net n ones →
  IPNet_String n = ip_string (net_IP n) +:+ "/" +:+ pretty ones.
Proof.
  intros Hn. unfold IPNet_String. rewrite (network_number_v4 n ones Hn).
  destruct Hn as (Ho & -> & _). by destruct (CIDRMask_length ones Ho) as [-> _].
Qed.
Lemma IPNet_String_safe n ones : v4_net n ones → json_safe (IPNet_String n).
Proof.
  intros Hn. rewrite (IPNet_String_v4 n ones Hn). pose proof (v4_net_IP n ones Hn) as V.
  apply ascii_json_safe. rewrite !str_forallb_app. destruct Hn as (Ho & _).
  rewrite (ParseIP_ascii _ _ (ParseIP_string _ V)).
  destruct (pretty_Z_digits ones) as (Hd & _); [lia|].
  erewrite (str_forallb_impl _ is_ascii (pretty ones)); [done|apply is_digit_ascii|exact Hd].
Qed.

Lemma canonicalSubnet_String n ones : v4_net n ones →
  canonicalSubnet (IPNet_String n) = Ok (n, IPNet_String n).
Proof.
  intros Hn. unfold canonicalSubnet.
  assert (E : String.eqb (IPNet_String n) "" = false).
  { apply String.eqb_neq. intros E. pose proof (ParseCIDR_String n ones Hn) as H.
    by rewrite E in H. }
  rewrite E. by rewrite (ParseCIDR_String n ones Hn).
Qed.

Lemma subnet_field : find_field pool_fields "subnet" =
  Some (field dec_string Subnet (λ x p, mkPool x (Allocated p))).
Proof. reflexivity. Qed.
Lemma allocated_field : find_field pool_fields "allocated" =
  Some (field dec_map Allocated (λ x p, mkPool (Subnet p) x)).
Proof. reflexivity. Qed.

(** A saved pool is read back as it was. *)
Lemma read_saved n ones m :
  v4_net n ones → pool_valid n ones m → owners_safe m →
  read_pool (FJson true (pool_json (mkPool (IPNet_String n) m))) =
  Ok (mkPool (IPNet_String n) m).
Proof.
  intros Hn Hv Hs. unfold read_pool. cbn [json_of mbind res_bind].
  unfold pool_json, decode_struct. cbn [Subnet Allocated].
  rewrite (decode_cons_Ok' _ _ _ _ _ _ (mkPool (IPNet_String n) ∅) _ subnet_field);
    [|unfold field; by rewrite dec_enc_string, (IPNet_String_safe n ones Hn)].
  rewrite (decode_cons_Ok' _ _ _ _ _ _ (mkPool (IPNet_String n) m) _ allocated_field).
  2: { unfold field. rewrite map_json_safe; [done|].
       intros s o Hso. split; [|by eapply Hs].
       apply (pv_host _ _ _ Hv) in Hso as (l & Hh & ->). apply ip_string_safe, Hh. }
  cbn [decode_members wrapf mbind res_bind Subnet Allocated].
  rewrite (canonicalSubnet_String n ones Hn). cbn [wrapf mbind res_bind].
  by rewrite (proj2 (validate_iff n ones _ Hn)).
Qed.

End order.
