(* ===== verification/IpamOps.v ===== *)
(** What the operations of [Ipam] do to a pool, for all fault schedules: the
    pool file is left as it was, or replaced as a whole by the pool with one
    lease added, one removed, or the dead leases removed. *)
From S2P Require Import Prelude GoStrings Json Fs FsLogic Durable Container.
From S2P Require Import Net.
From S2P Require Import Ipam IpamFacts.

(** * The pool of a network as a durable document *)

Lemma pool_not_lock name name' : pool_path name ≠ lock_path name'.
Proof.
  intros [= H]. by apply ext_apart in H.
Qed.

#[export] Instance pool_document : Document SubnetPool.
Proof.
  refine {| doc_file := pool_path; doc_scratch name := [lock_path name];
            doc_data _ p := FJson true (pool_json p) |}.
  intros n n' H%list_elem_of_singleton. by apply pool_not_lock in H.
Defined.

Section ops.
Context (order : gmap string string → list (string * string)).
Context (Horder : ∀ m, order m ≡ₚ map_to_list m).

(** The pool in an entry of the directory. *)
Definition read_node (name : string) (n : node) : res SubnetPool :=
  match n with
  | NFile data _ => read_pool order data
  | _ => Fail (Errorf "IPAM pool %q must be a regular file")
  end.
(** The pool a network has: none, the one in its file, or an error. *)
Definition pool_of (w : world) (name : string) : res (option SubnetPool) :=
  doc_of read_node w name.
Lemma pool_of_entry w name : pool_of w name =
  match w_fs w !! pool_path name with
  | None => Ok None
  | Some n => p ← read_node name n; Ok (Some p)
  end.
Proof. reflexivity. Qed.
Lemma pool_of_eq w w' name :
  w_fs w' !! pool_path name = w_fs w !! pool_path name → pool_of w' name = pool_of w name.
Proof. exact (doc_of_eq (D:=SubnetPool) read_node w w' name). Qed.
Lemma pool_of_unchanged name w w' :
  unchanged SubnetPool name w w' → pool_of w' name = pool_of w name.
Proof. apply doc_of_unchanged. Qed.
Definition leases (p : option SubnetPool) : gmap string string :=
  from_option Allocated ∅ p.

Section lock.
Context {A : Type} (name : string) (reads : A → option SubnetPool → Prop).
Context (stores : A → option SubnetPool → SubnetPool → Prop).

(** The lock file is created on the way, nothing else changes. *)
Lemma wp_withIPAMNetworkLock (fn : M A) w :
  (∀ w1, wp fn (acts read_node name reads stores w1) w1) →
  wp (withIPAMNetworkLock name fn) (acts read_node name reads stores w) w.
Proof.
  intros Hfn. unfold withIPAMNetworkLock.
  assert (Hmain : ∀ w1, unchanged SubnetPool name w w1 →
    wp (r ← attempt fn;
        u ← attempt (wrapm "unlock IPAM network %q: %w" (sys "flock"));
        match r, u with
        | Ok a, Ok _ => mret a
        | Ok _, Fail e => throw e
        | Fail e, Ok _ => throw e
        | Fail e, Fail e' => throw (Joined e e')
        end) (acts read_node name reads stores w) w1).
  { intros w1 Hu. do 2 wp_step. eapply wp_conseq; [apply Hfn|].
    intros o w2 Ha%(acts_unchanged _ _ _ _ w); [|done].
    destruct o as [a|e|]; [| |done].
    all: do 3 wp_step; [destruct tt|..]; cbn beta iota; repeat wp_step.
    all: eapply acts_same; [|done]; try done; eapply acts_fail; eauto. }
  assert (Hs : ∀ w1 w2, same w1 w2 → unchanged SubnetPool name w w1 → unchanged SubnetPool name w w2).
  { intros w1 w2 H Hu. eapply unchanged_trans; [done|by apply same_unchanged]. }
  assert (Hu0 : unchanged SubnetPool name w w) by done.
  do 4 wp_step; [|apply acts_failed; eauto..].
  assert (Hu1 : unchanged SubnetPool name w w') by eauto. do 2 wp_step.
  assert (Hrest : ∀ w1, unchanged SubnetPool name w w1 → wp (
    wrapm "inspect IPAM lock %q: %w" (sys "fstat");;
    n ← entry (lock_path name);
    ensure match n with
      | Some (NFile _ _) => None
      | _ => Some (Errorf "IPAM lock %q must be a regular file")
      end;;
    wrapm "chmod IPAM lock %q: %w" (sys "fchmod");;
    wrapm "lock IPAM network %q: %w" (sys "flock");;
    r ← attempt fn;
    u ← attempt (wrapm "unlock IPAM network %q: %w" (sys "flock"));
    match r, u with
    | Ok a, Ok _ => mret a
    | Ok _, Fail e => throw e
    | Fail e, Ok _ => throw e
    | Fail e, Fail e' => throw (Joined e e')
    end) (acts read_node name reads stores w) w1).
  { intros w1 Hu. do 3 wp_step; [|apply acts_failed; eauto..].
    do 4 wp_step; [|apply acts_failed; eauto..].
    do 3 wp_step; [|apply acts_failed; eauto 6..].
    do 3 wp_step; [|apply acts_failed; eauto 8..].
    apply Hmain. eauto 8. }
  destruct (w_fs w' !! lock_path name) as [[]|]; wp_step;
    first [by apply Hrest; eauto | by apply acts_failed; eauto | idtac].
  apply Hrest, unchanged_insert; [done|by left].
Qed.
End lock.

(** * Loading and saving *)

Lemma wp_lstat msg p Q w :
  (∀ w', same w w' → Q (Ret (w_fs w !! p)) w') →
  (∀ w' o, same w w' → (∃ e, o = Err e) ∨ o = Crash → Q o w') →
  wp (lstat msg p) Q w.
Proof.
  intros HR HE. unfold lstat. do 3 wp_step; [|apply HE; eauto..].
  wp_step. rewrite (proj1 H). by apply HR.
Qed.

Lemma wp_loadExistingPool name Q w :
  (∀ w' r, same w w' → pool_of w name = Ok r → Q (Ret r) w') →
  (∀ w' o, same w w' → (∃ e, o = Err e) ∨ o = Crash → Q o w') →
  wp (loadExistingPool order name) Q w.
Proof.
  intros HR HE. unfold loadExistingPool. wp_step. apply wp_lstat.
  2: { intros w' o Hs [[e ->]| ->]; apply HE; eauto. }
  intros w' Hs.
  destruct (w_fs w !! pool_path name) as [[data nl| | |]|] eqn:Hp; cbn beta iota;
    [|wp_step; apply HE; eauto..|wp_step; apply HR; by rewrite ?pool_of_entry, ?Hp].
  do 3 wp_step; [|same_trans; apply HE; eauto..].
  do 3 wp_step; [|same_trans; apply HE; eauto..].
  do 3 wp_step; [|same_trans; apply HE; eauto..].
  assert (Hs' : same w w'2) by (same_trans; done).
  wp_step. wp_step; [|apply HE; eauto].
  do 2 wp_step; [|apply HE; eauto]. cbn beta iota zeta.
  match goal with H : wrapf _ (canonicalSubnet _) = Ok ?a |- _ => destruct a as [n c] end.
  do 2 wp_step; [|apply HE; eauto]. cbn beta iota. wp_step. apply HR; [done|].
  rewrite pool_of_entry, Hp. unfold read_node, read_pool.
  repeat match goal with H : wrapf _ _ = Ok _ |- _ => rewrite H; clear H; cbn end.
  match goal with H : validatePoolAllocations _ _ _ = None |- _ => by rewrite H end.
Qed.

(** [savePool]: the old file or the whole new one. *)
Lemma wp_savePool name p Q w :
  (∀ w', stored name p w w' → Q (Ret tt) w') →
  (∀ w' o, unchanged SubnetPool name w w' ∨ stored name p w w' →
    (∃ e, o = Err e) ∨ o = Crash → Q o w') →
  wp (savePool name p) Q w.
Proof.
  intros HR HE. apply (wp_replace name p (FJson true (pool_json p))); [done|..|done|done].
  { auto with keeps. }
  intros h w1 Q1 HR1 HE1. do 3 wp_step; [|apply HE1; eauto..]. apply wp_publish.
  - intros w2 Hu. apply HR1. by eapply same_updated.
  - intros w2 o Hs2 Ho. apply HE1; [by transitivity w'|done].
Qed.

(** * The operations *)

(** The pool for a subnet has the lease already, or gets it at the first free
    address. *)
Definition has_lease (c cid a : string) (before : option SubnetPool) : Prop :=
  ∃ p, before = Some p ∧ Subnet p = c ∧ Allocated p !! a = Some cid.
Definition takes_lease (n : IPNet) (c cid a : string) (before : option SubnetPool)
    (after : SubnetPool) : Prop :=
  (∀ p, before = Some p → Subnet p = c) ∧
  (∀ s, leases before !! s ≠ Some cid) ∧
  search n (mkPool c (leases before)) = Some (Some a) ∧
  after = mkPool c (<[a := cid]> (leases before)).

Lemma wp_loadPool name c Q w :
  (∀ w' before, same w w' → pool_of w name = Ok before →
    (∀ p, before = Some p → Subnet p = c) → Q (Ret (mkPool c (leases before))) w') →
  (∀ w' o, same w w' → (∃ e, o = Err e) ∨ o = Crash → Q o w') →
  wp (loadPool order name c) Q w.
Proof.
  intros HR HE. unfold loadPool. wp_step. apply wp_loadExistingPool.
  2: { intros w' o Hs [[e ->]| ->]; apply HE; eauto. }
  intros w' [p|] Hs Hp; cbn beta iota; [|wp_step; by apply (HR w' None)].
  do 2 wp_step; [|apply HE; eauto]. cbn beta iota. wp_step.
  apply fail_if_None, negb_false_iff, String.eqb_eq in H. subst c.
  destruct p as [c m]. apply (HR w' (Some (mkPool c m))); [done..|]. by intros p [= <-].
Qed.

(** Saving a pool and returning [a]. *)
Lemma wp_save_acts {A} name msg reads (stores : A → option SubnetPool → SubnetPool → Prop)
    w w1 p a before :
  same w w1 → pool_of w name = Ok before → stores a before p →
  wp (wrapm msg (savePool name p);; mret a) (acts read_node name reads stores w) w1.
Proof.
  intros Hs Hp Hst. do 2 wp_step. apply wp_savePool.
  - intros w2 H2. wp_step. by eapply acts_stored.
  - intros w2 o [H2|H2] Ho.
    + assert (Hu : unchanged SubnetPool name w w2)
        by (eapply unchanged_trans; [by apply same_unchanged|done]).
      destruct Ho as [[e ->]| ->]; apply acts_failed; eauto.
    + destruct Ho as [[e ->]| ->]; by eapply acts_stored.
Qed.

Lemma wp_AllocateIP i name cidr cid n c w :
  canonicalSubnet cidr = Ok (n, c) →
  wp (AllocateIP order i name cidr cid)
    (acts read_node name (has_lease c cid) (takes_lease n c cid) w) w.
Proof.
  intros Hc. unfold AllocateIP. do 3 early. rewrite Hc. wp_step. wp_step; [|done].
  simplify_eq. cbn beta iota. apply wp_withIPAMNetworkLock. intros w1.
  wp_step. apply wp_loadPool.
  2: { intros w' o Hs [[e ->]| ->]; apply acts_err; eauto. }
  intros w' before Hs Hp Hsub. cbn beta iota. cbn [Allocated].
  destruct (owned_by order cid (leases before)) as [[s o]|] eqn:Ho; cbn beta iota.
  - apply (owned_by_Some order Horder) in Ho as [-> Hs']. wp_step.
    eapply acts_reads; [done..|]. destruct before as [p|]; [|done].
    exists p. split_and!; try done. by apply Hsub.
  - pose proof (owned_by_None order Horder _ _ Ho) as Hn.
    destruct (search n _) as [[s|]|] eqn:Hse; cbn beta iota;
      [|wp_step; apply acts_err; eauto..].
    eapply wp_save_acts; [done..|]. by repeat split.
Qed.

Definition no_lease (cid : string) (_ : unit) (before : option SubnetPool) : Prop :=
  ∀ s, leases before !! s ≠ Some cid.
Definition drops_lease (cid : string) (_ : unit) (before : option SubnetPool)
    (after : SubnetPool) : Prop :=
  ∃ p s, before = Some p ∧ Allocated p !! s = Some cid ∧
    after = mkPool (Subnet p) (delete s (Allocated p)).

Lemma wp_ReleaseIP i name cid w :
  wp (ReleaseIP order i name cid) (acts read_node name (no_lease cid) (drops_lease cid) w) w.
Proof.
  unfold ReleaseIP. do 3 early. apply wp_withIPAMNetworkLock. intros w1.
  wp_step. apply wp_loadExistingPool.
  2: { intros w' o Hs [[e ->]| ->]; apply acts_err; eauto. }
  intros w' [p|] Hs Hp; cbn beta iota.
  2: { wp_step. eapply acts_reads; [done..|]. intros s. cbn. by rewrite lookup_empty. }
  destruct (owned_by order cid (Allocated p)) as [[s o]|] eqn:Ho; cbn beta iota.
  - apply (owned_by_Some order Horder) in Ho as [-> Hs'].
    apply wp_unit. eapply wp_save_acts; [done..|]. by exists p, s.
  - wp_step. eapply acts_reads; [done..|]. exact (owned_by_None order Horder _ _ Ho).
Qed.

(** * Reconciliation *)

(** The lease of a generation that is no longer alive. *)
Definition dead (alive : BridgeLeaseOwner → bool) (kv : string * string) : Prop :=
  match ParseBridgeLeaseOwner kv.2 with
  | Ok owner => alive owner = false
  | Fail _ => False
  end.
#[export] Instance dead_dec alive kv : Decision (dead alive kv).
Proof. unfold dead. destruct (ParseBridgeLeaseOwner kv.2); apply _. Defined.

Lemma reclaim_cons alive ip k l st :
  reclaim alive ((ip, k) :: l) st =
  reclaim alive l (if decide (dead alive (ip, k))
    then (delete ip st.1, (st.2 + 1)%Z) else st).
Proof.
  cbn [reclaim]. f_equal.
  destruct (decide (dead alive (ip, k))) as [H|H]; unfold dead in H; cbn [snd] in H;
    destruct (ParseBridgeLeaseOwner k) as [o|e]; try done; [by rewrite H|].
  by destruct (alive o).
Qed.

Lemma reclaim_spec alive l st :
  let r := reclaim alive l st in
  let gone := filter (dead alive) l in
  (∀ s, r.1 !! s = if decide (s ∈ gone.*1) then None else st.1 !! s) ∧
  r.2 = (st.2 + Z.of_nat (length gone))%Z.
Proof.
  revert st. induction l as [|[ip k] l IH]; intros st; cbv zeta.
  { cbn. split; [|lia]. intros s. rewrite decide_False; [done|]. by intros ?%elem_of_nil. }
  rewrite reclaim_cons, filter_cons.
  destruct (IH (if decide (dead alive (ip, k)) then (delete ip st.1, st.2 + 1)%Z else st))
    as [H1 H2]. rewrite H2. split.
  2: { destruct (decide (dead alive (ip, k))); cbn [snd length]; lia. }
  intros s. rewrite H1. destruct (decide (dead alive (ip, k))) as [Hk|Hk]; [|done].
  cbn [fst fmap list_fmap]. destruct (decide (s ∈ (filter _ l).*1)) as [Hd|Hd].
  { rewrite decide_True; [done|]. by right. }
  destruct (decide (s = ip)) as [->|Hne].
  - rewrite lookup_delete_eq, decide_True; [done|by left].
  - rewrite lookup_delete_ne, decide_False; [done| |done].
    by intros [?|?]%elem_of_cons.
Qed.

(** The loop over the whole map removes exactly the dead leases, in whatever
    order it visits them. *)
Lemma reclaim_order alive m :
  reclaim alive (order m) (m, 0%Z) =
  (filter (λ kv, ¬ dead alive kv) m, Z.of_nat (size (filter (dead alive) m))).
Proof.
  destruct (reclaim_spec alive (order m) (m, 0%Z)) as [H1 H2].
  destruct (reclaim alive (order m) (m, 0%Z)) as [r k]. cbn [fst snd] in *. f_equal.
  - apply map_eq. intros s. rewrite H1. case_decide as Hd.
    + apply list_elem_of_fmap in Hd as ([s' o] & -> & [Hd Hin]%list_elem_of_filter).
      apply (elem_of_order order Horder) in Hin. symmetry.
      apply map_lookup_filter_None_2. right. intros o' Ho' Hn. cbn in Ho'. simplify_eq.
      by apply Hn.
    + destruct (m !! s) as [o|] eqn:Hs; symmetry.
      * apply map_lookup_filter_Some_2; [done|]. intros Hdo. apply Hd.
        apply list_elem_of_fmap. exists (s, o). split; [done|].
        apply list_elem_of_filter. split; [done|]. by apply (elem_of_order order Horder).
      * apply map_lookup_filter_None_2. by left.
  - rewrite H2. cbn. f_equal. rewrite (map_filter_alt (dead alive) m).
    rewrite map_size_list_to_map.
    + by rewrite Horder.
    + apply NoDup_fmap_fst; [|apply NoDup_filter, NoDup_map_to_list].
      intros x y1 y2 [_ H3%elem_of_map_to_list]%list_elem_of_filter
        [_ H4%elem_of_map_to_list]%list_elem_of_filter. congruence.
Qed.

Definition none_dead (alive : BridgeLeaseOwner → bool) (k : Z)
    (before : option SubnetPool) : Prop :=
  k = 0%Z ∧ filter (dead alive) (leases before) = ∅.
Definition drops_dead (alive : BridgeLeaseOwner → bool) (k : Z)
    (before : option SubnetPool) (after : SubnetPool) : Prop :=
  ∃ p, before = Some p ∧
    after = mkPool (Subnet p) (filter (λ kv, ¬ dead alive kv) (Allocated p)) ∧
    k = Z.of_nat (size (filter (dead alive) (Allocated p))) ∧ (0 < k)%Z.

Lemma wp_ReconcileGenerationIPs i name alive w :
  wp (ReconcileGenerationIPs order i name (Some alive))
    (acts read_node name (none_dead alive) (drops_dead alive) w) w.
Proof.
  unfold ReconcileGenerationIPs. do 2 early. apply wp_withIPAMNetworkLock. intros w1.
  wp_step. apply wp_loadExistingPool.
  2: { intros w' o Hs [[e ->]| ->]; apply acts_err; eauto. }
  intros w' [p|] Hs Hp; cbn beta iota.
  2: { wp_step. eapply acts_reads; [done..|]. split; [done|]. cbn. apply map_filter_empty. }
  rewrite reclaim_order. cbn beta iota zeta.
  destruct (Z.of_nat _ =? 0)%Z eqn:Hk.
  - wp_step. eapply acts_reads; [done..|]. split; [done|]. apply map_size_empty_inv.
    apply Z.eqb_eq in Hk. cbn. lia.
  - eapply wp_save_acts; [done..|]. exists p. split_and!; try done.
    apply Z.eqb_neq in Hk. lia.
Qed.
End ops.
