(* ===== verification/Lease.v ===== *)
(** The durable keys of bridge lease owners: URL-safe base64 is decoded as it
    was encoded, and a key names exactly one process generation. *)
From S2P Require Import Prelude GoStrings Decimal Json Net Ipam.
From S2P Require Import OwnershipFacts.

#[local] Open Scope N_scope.
#[local] Ltac Zify.zify_post_hook ::= Z.to_euclidean_division_equations.

(** * base64 *)

Lemma b64_char_ok v : v < 64 →
  b64_val (b64_char v) = Some v ∧ b64_char v ≠ ":"%char ∧
  (byte_val (b64_char v) =? 10) || (byte_val (b64_char v) =? 13) = false ∧
  is_ascii (b64_char v) = true.
Proof.
  intros H. assert (Hv : v ∈ N.of_nat <$> seq 0 64).
  { apply list_elem_of_fmap. exists (N.to_nat v). rewrite elem_of_seq. lia. }
  clear H. revert v Hv. rewrite <- Forall_forall. repeat constructor; done.
Qed.

Lemma byte_val_lt c : byte_val c < 256.
Proof. apply N_ascii_bounded. Qed.
Lemma b64_byte_val n c : n mod 256 = byte_val c → b64_byte n = c.
Proof. unfold b64_byte, chr. intros ->. apply ascii_N_embedding. Qed.

Lemma rawurl_values_cons v s : v < 64 →
  rawurl_values (String (b64_char v) s) = (l ← rawurl_values s; Some (v :: l)).
Proof.
  intros Hv. apply b64_char_ok in Hv as (Hv & _ & Hn & _). cbn. by rewrite Hn, Hv.
Qed.

(** Induction on a string three bytes at a time. *)
Lemma string_ind3 (P : string → Prop) :
  P "" → (∀ a, P (String a "")) → (∀ a b, P (String a (String b ""))) →
  (∀ a b c s, P s → P (String a (String b (String c s)))) → ∀ s, P s.
Proof.
  intros H0 H1 H2 H3 s.
  induction s as [s IH] using (induction_ltof1 _ String.length). unfold ltof in IH.
  destruct s as [|a [|b [|c s]]]; auto. apply H3, IH. cbn. lia.
Qed.

Lemma rawurl_decode_encode s : rawurl_decode (rawurl_encode s) = Some s.
Proof.
  assert (H : ∃ l, rawurl_values (rawurl_encode s) = Some l ∧ rawurl_groups l = Some s).
  { induction s as [|a|a b|a b c s (l & Hl & Hg)] using string_ind3.
    - by exists [].
    - pose proof (byte_val_lt a). cbn [rawurl_encode]. unfold str1.
      rewrite !rawurl_values_cons by lia. eexists. split; [done|]. cbn [rawurl_groups].
      rewrite (b64_byte_val _ a); [done|lia].
    - pose proof (byte_val_lt a). pose proof (byte_val_lt b).
      cbn [rawurl_encode]. unfold str1.
      rewrite !rawurl_values_cons by lia. eexists. split; [done|]. cbn [rawurl_groups].
      rewrite (b64_byte_val _ a), (b64_byte_val _ b); [done|lia..].
    - pose proof (byte_val_lt a). pose proof (byte_val_lt b). pose proof (byte_val_lt c).
      cbn [rawurl_encode]. rewrite !rawurl_values_cons, Hl by lia. eexists.
      split; [done|]. cbn [rawurl_groups]. rewrite Hg. cbn.
      rewrite (b64_byte_val _ a), (b64_byte_val _ b), (b64_byte_val _ c); [done|lia..]. }
  destruct H as (l & Hl & Hg). unfold rawurl_decode. rewrite Hl. exact Hg.
Qed.

(** The alphabet has no colon. *)
Lemma rawurl_chars p s : (∀ v, v < 64 → p (b64_char v) = true) →
  str_forallb p (rawurl_encode s) = true.
Proof.
  intros Hp. induction s as [|a|a b|a b c s IH] using string_ind3; [done|..];
    cbn [rawurl_encode str_forallb str1];
    pose proof (byte_val_lt a); try pose proof (byte_val_lt b); try pose proof (byte_val_lt c);
    rewrite !Hp by lia; done.
Qed.

(** * Keys *)

(** The range of the Go fields. *)
Definition owner_ranges (o : BridgeLeaseOwner) : Prop :=
  (lo_PID o ≤ max_int64 ∧ 0 ≤ lo_PIDStartTime o ≤ max_uint64)%Z.

Lemma key_Ok o k : key o = Ok k →
  k = lease_prefix +:+ (rawurl_encode (lo_ContainerID o) +:+ String ":"%char
      (pretty (lo_PID o) +:+ String ":"%char (pretty (lo_PIDStartTime o)))) ∧
  (0 < lo_PID o ∧ lo_PIDStartTime o ≠ 0)%Z.
Proof.
  unfold key. intros H. apply res_bind_Ok in H as ([] & _ & H).
  apply res_bind_Ok in H as ([] & H0%check_Ok & H). apply fail_if_None in H0.
  bool_simp. injection H as <-. split; [|lia]. by rewrite !string_app_cons.
Qed.

Lemma str_drop_app p s : str_drop (String.length p) (p +:+ s) = s.
Proof. induction p as [|c p IH]; [done|]. rewrite string_app_cons. cbn. apply IH. Qed.
Lemma has_prefix_app p s : has_prefix (p +:+ s) p = true.
Proof.
  unfold has_prefix. induction p as [|c p IH]; [by destruct s|].
  rewrite string_app_cons. cbn. rewrite IH. by destruct (Ascii.ascii_dec c c).
Qed.

(** The key of an owner is parsed as that owner. *)
Lemma parse_key o k : owner_ranges o → key o = Ok k → ParseBridgeLeaseOwner k = Ok o.
Proof.
  intros [R1 R2] Hk. pose proof (key_Ok o k Hk) as (E & Hp & Hs).
  unfold ParseBridgeLeaseOwner. rewrite E, has_prefix_app, str_drop_app. cbn [negb].
  rewrite str_split_free_app.
  2: { apply rawurl_chars. intros v Hv. apply bool_decide_eq_true_2. by apply b64_char_ok. }
  destruct (pretty_Z_digits (lo_PID o)) as (D1 & _); [lia|].
  destruct (pretty_Z_digits (lo_PIDStartTime o)) as (D2 & _); [lia|].
  rewrite str_split_app, digit_not_sep by done.
  rewrite rawurl_decode_encode. cbn [or_fail mbind res_bind].
  rewrite parse_int_pretty by lia. cbn [or_fail mbind res_bind].
  rewrite parse_uint_pretty by lia. cbn [or_fail mbind res_bind].
  assert (Ho : mkLeaseOwner (lo_ContainerID o) (lo_PID o) (lo_PIDStartTime o) = o)
    by (by destruct o).
  by rewrite Ho, Hk.
Qed.

Lemma key_inj o o' k : owner_ranges o → owner_ranges o' →
  key o = Ok k → key o' = Ok k → o = o'.
Proof.
  intros R R' H H'. apply parse_key in H, H'; [|done..]. congruence.
Qed.

(** Keys are plain text, whatever the container is called. *)
Lemma key_safe o k : owner_ranges o → key o = Ok k → json_safe k.
Proof.
  intros [R1 R2] Hk. pose proof (key_Ok o k Hk) as (-> & Hp & Hs).
  apply ascii_json_safe.
  destruct (pretty_Z_digits (lo_PID o)) as (D1 & _); [lia|].
  destruct (pretty_Z_digits (lo_PIDStartTime o)) as (D2 & _); [lia|].
  assert (Hd : ∀ s, plain_decimal s = true → str_forallb is_ascii s = true).
  { intros s. apply str_forallb_impl, is_digit_ascii. }
  rewrite !str_forallb_app. cbn [str_forallb]. rewrite !str_forallb_app.
  cbn [str_forallb]. rewrite (Hd _ D1), (Hd _ D2), rawurl_chars; [done|].
  intros v Hv. by apply b64_char_ok.
Qed.
