(* ===== verification/IpamReach.v ===== *)
(** The pools of a directory that any processes have used through [Ipam]: each
    pool file is absent or holds a valid pool, and a call whose system calls
    succeed does what it is meant to do. *)
From S2P Require Import Prelude GoStrings Json Fs FsLogic Durable Container.
From S2P Require Import Net.
From S2P Require Import NetFacts.
From S2P Require Import Ipam IpamFacts IpamOps Lease.

#[local] Open Scope Z_scope.

(** * Valid pool files *)

(** A pool as the operations save it. *)
Definition good_pool (p : SubnetPool) : Prop :=
  ∃ n ones, v4_net n ones ∧ Subnet p = IPNet_String n ∧
    pool_valid n ones (Allocated p) ∧ owners_safe (Allocated p).

Definition good_file (e : option node) : Prop :=
  match e with
  | None => True
  | Some (NFile data _) => ∃ p, data = FJson true (pool_json p) ∧ good_pool p
  | Some _ => False
  end.
Definition good_pools (w : world) : Prop := ∀ name, good_file (w_fs w !! pool_path name).

Section valid.
Context (n : IPNet) (ones : Z) (m : gmap string string).
Context (Hv : pool_valid n ones m).

Lemma pool_valid_insert s l cid :
  s = ip_string l → host n ones l → validateContainerID cid = None →
  (∀ s', m !! s' ≠ Some cid) → pool_valid n ones (<[s := cid]> m).
Proof.
  intros Hs Hl Hc Hn. split.
  - intros s' o [[<- <-]|[? H]]%lookup_insert_Some; [by exists l|]. by eapply pv_host.
  - intros s' o [[<- <-]|[? H]]%lookup_insert_Some; [done|]. by eapply pv_owner.
  - intros s1 s2 o [[? ?]|[? H1]]%lookup_insert_Some [[? ?]|[? H2]]%lookup_insert_Some;
      subst; try done; [by apply Hn in H2|by apply Hn in H1|by eapply pv_inj].
Qed.
Lemma pool_valid_subseteq m' : m' ⊆ m → pool_valid n ones m'.
Proof.
  intros Hsub. split; intros; [eapply pv_host|eapply pv_owner|eapply pv_inj];
    eauto using lookup_weaken.
Qed.
End valid.
Lemma owners_safe_insert m s cid :
  owners_safe m → json_safe cid → owners_safe (<[s := cid]> m).
Proof. intros Hm Hc s' o [[_ <-]|[_ H]]%lookup_insert_Some; [done|by eapply Hm]. Qed.
Lemma owners_safe_subseteq m m' : owners_safe m → m' ⊆ m → owners_safe m'.
Proof. intros Hm Hsub s o H. eapply Hm, lookup_weaken, Hsub. exact H. Qed.

Lemma good_pool_subseteq p m : good_pool p → m ⊆ Allocated p → good_pool (mkPool (Subnet p) m).
Proof.
  intros (n & ones & Hn & Hs & Hv & Ho) Hm. exists n, ones. cbn.
  split_and!; [done..|by eapply pool_valid_subseteq|by eapply owners_safe_subseteq].
Qed.

Section order.
Context (order : gmap string string → list (string * string)).
Context (Horder : ∀ m, order m ≡ₚ map_to_list m).

Lemma good_read p : good_pool p → read_pool order (FJson true (pool_json p)) = Ok p.
Proof.
  intros (n & ones & Hn & Hs & Hv & Ho). destruct p as [c m]. cbn in *. subst c.
  by eapply read_saved.
Qed.

(** A good file is read as the pool it holds. *)
Lemma good_pool_of w name : good_file (w_fs w !! pool_path name) →
  (w_fs w !! pool_path name = None ∧ pool_of order w name = Ok None) ∨
  ∃ p nl, w_fs w !! pool_path name = Some (NFile (FJson true (pool_json p)) nl) ∧
    good_pool p ∧ pool_of order w name = Ok (Some p).
Proof.
  rewrite pool_of_entry. intros H.
  destruct (w_fs w !! pool_path name) as [[data nl| | |]|]; cbn in H; try done;
    [|by left].
  right. destruct H as (p & -> & Hp). exists p, nl. cbn [read_node]. by rewrite good_read.
Qed.
Lemma stored_pool_of w w' name p :
  stored name p w w' → good_pool p → pool_of order w' name = Ok (Some p).
Proof.
  intros [H _] Hp. rewrite pool_of_entry. cbn in H. rewrite H. cbn [read_node].
  by rewrite good_read.
Qed.

(** The pool that was read is good, and its subnet is that of the caller's
    network when their texts agree. *)
Lemma good_pools_of w name before : good_pools w → pool_of order w name = Ok before →
  ∀ p, before = Some p → good_pool p.
Proof.
  intros H Hp p ->. destruct (good_pool_of w name (H name)) as [[_ E]|(p' & nl & _ & Hg & E)];
    rewrite E in Hp; by simplify_eq.
Qed.
Lemma IPNet_String_inj n ones n' ones' :
  v4_net n ones → v4_net n' ones' → IPNet_String n = IPNet_String n' → n = n' ∧ ones = ones'.
Proof.
  intros Hn Hn' E.
  assert (n = n') as ->.
  { apply (f_equal ParseCIDR) in E. rewrite (ParseCIDR_String n ones) in E by done.
    rewrite (ParseCIDR_String n' ones') in E by done. by simplify_eq. }
  split; [done|]. destruct Hn as (Ho & Hm & _), Hn' as (Ho' & Hm' & _). rewrite Hm in Hm'.
  destruct (CIDRMask_length ones Ho) as [H1 _], (CIDRMask_length ones' Ho') as [H2 _].
  congruence.
Qed.

(** The leases of a good pool for the network [n]. *)
Lemma good_before n ones before :
  v4_net n ones → (∀ p, before = Some p → good_pool p) →
  (∀ p, before = Some p → Subnet p = IPNet_String n) →
  pool_valid n ones (leases before) ∧ owners_safe (leases before).
Proof.
  intros Hn Hg Hs. destruct before as [p|]; cbn.
  - destruct (Hg p eq_refl) as (n' & ones' & Hn' & Hs' & Hv & Ho).
    rewrite (Hs p eq_refl) in Hs'.
    destruct (IPNet_String_inj n ones n' ones') as [-> ->]; done.
  - split; [split|]; intros ? **; by rewrite lookup_empty in *.
Qed.

Lemma canonicalSubnet_inv cidr n c : canonicalSubnet cidr = Ok (n, c) → c = IPNet_String n.
Proof. unfold canonicalSubnet. destruct (ParseCIDR _); [|done]. by intros [= <- <-]. Qed.

Lemma takes_good n ones c cid a before after :
  v4_net n ones → c = IPNet_String n → validateContainerID cid = None → json_safe cid →
  (∀ p, before = Some p → good_pool p) → takes_lease n c cid a before after →
  good_pool after ∧
  ∃ l, a = ip_string l ∧ host n ones l ∧ leases before !! a = None ∧
    ∀ l', host n ones l' → v4_val l' < v4_val l → is_Some (leases before !! ip_string l').
Proof.
  intros Hn -> Hc Hj Hg (Hsub & Hno & Hse & ->).
  destruct (good_before n ones before Hn Hg Hsub) as [Hv Ho].
  pose proof (search_found n ones Hn (leases before) (IPNet_String n)) as Hf.
  rewrite Hse in Hf. destruct Hf as (l & -> & Hh & Ht & Hm). split.
  - exists n, ones. cbn. split_and!; [done..| |by apply owners_safe_insert].
    by eapply pool_valid_insert.
  - exists l. split_and!; try done. unfold taken in Ht. by apply eq_None_not_Some.
Qed.

(** * Processes *)

(** The calls of the package's interface, on networks in dotted form and for
    owners that are text. *)
Inductive ipam_call :=
  | CAllocate (cidr cid : string)
  | CRelease (cid : string)
  | CAllocateGeneration (cidr : string) (o : BridgeLeaseOwner)
  | CReleaseGeneration (o : BridgeLeaseOwner)
  | CReconcile (alive : option (BridgeLeaseOwner → bool)).

Definition dotted (cidr : string) : Prop :=
  match canonicalSubnet cidr with
  | Ok (n, _) => length (net_Mask n) = 4%nat
  | Fail _ => True
  end.
Definition call_ok (c : ipam_call) : Prop :=
  match c with
  | CAllocate cidr cid => dotted cidr ∧ json_safe cid
  | CAllocateGeneration cidr o => dotted cidr ∧ owner_ranges o
  | _ => True
  end.

Definition run_ipam (i : option IPAM) (name : string) (c : ipam_call) (w : world) : world :=
  match c with
  | CAllocate cidr cid => (AllocateIP order i name cidr cid w).2
  | CRelease cid => (ReleaseIP order i name cid w).2
  | CAllocateGeneration cidr o => (AllocateGenerationIP order i name cidr o w).2
  | CReleaseGeneration o => (ReleaseGenerationIP order i name o w).2
  | CReconcile alive => (ReconcileGenerationIPs order i name alive w).2
  end.

Lemma acts_good {A} name reads stores w (o : outcome A) w' :
  good_pools w → acts (read_node order) name reads stores w o w' →
  (∀ a before after, (∀ p, before = Some p → good_pool p) →
     stores a before after → good_pool after) →
  good_pools w'.
Proof.
  intros Hw Ha Hst name'. change (pool_path name') with (doc_file name').
  destruct Ha as [[Hu _]|(before & after & a & Hp & Hs & Hb & _)].
  - rewrite (unchanged_file name name' w w') by done. apply Hw.
  - destruct (decide (name' = name)) as [->|Hne].
    + rewrite (proj1 Hs). exists after. split; [done|]. eapply Hst; [|done].
      by eapply good_pools_of.
    + rewrite (stored_other name after name' w w') by done. apply Hw.
Qed.

Lemma dotted_v4 cidr n c : dotted cidr → canonicalSubnet cidr = Ok (n, c) →
  ∃ ones, v4_net n ones.
Proof.
  unfold dotted. intros Hd Hc. rewrite Hc in Hd. unfold canonicalSubnet in Hc.
  destruct (ParseCIDR _) as [n'|] eqn:E; [|done]. injection Hc as -> _.
  by eapply ParseCIDR_v4.
Qed.

Lemma early_wp {A} e (m : M A) (Q : outcome A → world → Prop) w :
  (∀ e', Q (Err e') w) → (e = None → wp m Q w) → wp (ensure e;; m) Q w.
Proof. intros HE Hm. wp_step. wp_step; [by apply Hm|apply HE]. Qed.

Lemma AllocateIP_good i name cidr cid w : good_pools w → dotted cidr → json_safe cid →
  wp (AllocateIP order i name cidr cid) (λ _ w', good_pools w') w.
Proof.
  intros Hw Hd Hj. destruct (canonicalSubnet cidr) as [[n c]|e] eqn:Hc.
  - destruct (dotted_v4 _ _ _ Hd Hc) as [ones Hn].
    destruct (validateContainerID cid) eqn:Hv.
    + unfold AllocateIP. do 2 (apply early_wp; [done|intros _]).
      apply early_wp; [done|]. by rewrite Hv.
    + eapply wp_conseq; [by eapply (wp_AllocateIP order Horder)|]. intros o w' Ha.
      refine (acts_good name _ _ w o w' Hw Ha _). intros a before after Hg Ht.
      eapply takes_good; [done|by eapply canonicalSubnet_inv|done..].
  - unfold AllocateIP. do 3 (apply early_wp; [done|intros _]). rewrite Hc. by wp_steps.
Qed.
Lemma ReleaseIP_good i name cid w : good_pools w →
  wp (ReleaseIP order i name cid) (λ _ w', good_pools w') w.
Proof.
  intros Hw. eapply wp_conseq; [by eapply (wp_ReleaseIP order Horder)|]. intros o w' Ha.
  refine (acts_good name _ _ w o w' Hw Ha _). intros a before after Hg (p & s & Hp & _ & ->).
  apply good_pool_subseteq; [by apply Hg|]. apply delete_subseteq.
Qed.
Lemma Reconcile_good i name alive w : good_pools w →
  wp (ReconcileGenerationIPs order i name alive) (λ _ w', good_pools w') w.
Proof.
  intros Hw. destruct alive as [alive|].
  - eapply wp_conseq; [by eapply (wp_ReconcileGenerationIPs order Horder)|]. intros o w' Ha.
    refine (acts_good name _ _ w o w' Hw Ha _). intros a before after Hg (p & Hp & -> & _).
    apply good_pool_subseteq; [by apply Hg|]. apply map_filter_subseteq.
  - unfold ReconcileGenerationIPs. do 2 (apply early_wp; [done|intros _]). by wp_step.
Qed.

Lemma same_good w w0 : same w w0 → good_pools w → good_pools w0.
Proof. intros [E _] H name. rewrite E. apply H. Qed.

Lemma run_good i name c w : good_pools w → call_ok c → good_pools (run_ipam i name c w).
Proof.
  intros Hw Hc. destruct c as [cidr cid|cid|cidr o|o|alive]; cbn in Hc |- *.
  - by destruct Hc; apply AllocateIP_good.
  - by apply ReleaseIP_good.
  - destruct Hc as [Hd Hr]. unfold AllocateGenerationIP, mbind, M_bind, lift.
    destruct (key o) as [k|e] eqn:Hk; [|done].
    apply AllocateIP_good; [done..|by eapply key_safe].
  - unfold ReleaseGenerationIP, mbind, M_bind, lift.
    destruct (key o) as [k|e] eqn:Hk; [|done]. by apply ReleaseIP_good.
  - by apply Reconcile_good.
Qed.

End order.

(** Worlds reachable from one without pools by calls of any processes; each
    call meets its own faults, visits maps in its own order and may be
    interrupted. *)
Inductive ipam_reachable : world → Prop :=
  | ipam_init w : (∀ name, w_fs w !! pool_path name = None) → ipam_reachable w
  | ipam_step order w w0 i name c : (∀ m, order m ≡ₚ map_to_list m) →
      ipam_reachable w → same w w0 → call_ok c →
      ipam_reachable (run_ipam order i name c w0).

Lemma reachable_good w : ipam_reachable w → good_pools w.
Proof.
  induction 1 as [w H|order w w0 i name c Ho _ IH Hs Hc].
  - intros name. by rewrite H.
  - apply run_good; [done|by eapply same_good|done].
Qed.
