(* ===== verification/IpamCalm.v ===== *)
(** [Ipam] when no system call fails: the lock, the load, the save and the
    allocation return. *)
From S2P Require Import Prelude GoStrings Json Fs FsLogic Durable Container.
From S2P Require Import Net.
From S2P Require Import NetFacts.
From S2P Require Import Ipam IpamFacts IpamOps IpamReach.

(** The lock file is absent or a regular file. *)
Definition lockable (w : world) (name : string) : Prop :=
  match w_fs w !! lock_path name with
  | None | Some (NFile _ _) => True
  | _ => False
  end.
Definition locked (name : string) (w : world) : world :=
  match w_fs w !! lock_path name with
  | None => with_fs (insert (lock_path name) (NFile (FText "") 1)) w
  | Some _ => w
  end.

Lemma pool_locked_calm name w : calm w → calm (locked name w).
Proof. unfold locked. by case_match. Qed.
Lemma pool_locked_unchanged name w : unchanged SubnetPool name w (locked name w).
Proof.
  unfold locked. case_match; [done|]. by apply unchanged_insert; [|left].
Qed.

Lemma ensure_ok (w : world) : ensure None w = (Ret tt, w).
Proof. done. Qed.

Lemma lock_calm {A} name (fn : M A) w o w' :
  calm w → lockable w name → fn (locked name w) = (o, w') → o ≠ Crash → calm w' →
  withIPAMNetworkLock name fn w = (o, w').
Proof.
  intros Hw Hl Hf Ho Hw'. unfold withIPAMNetworkLock.
  assert (Hopen : wrapm "open IPAM lock %q: %w" (
    sys "open";;
    n ← entry (lock_path name);
    match n with
    | None => modify (with_fs (insert (lock_path name) (NFile (FText "") 1)))
    | Some NSymlink => throw (EIO "open: too many levels of symbolic links")
    | Some NDir => throw (EIO "open: is a directory")
    | Some _ => mret tt
    end) w = (Ret tt, locked name w)).
  { apply wrapm_Ret. erewrite bind_Ret; [|by apply sys_calm].
    erewrite bind_Ret; [|done]. unfold locked, lockable in *.
    by destruct (w_fs w !! lock_path name) as [[]|]. }
  rewrite (bind_Ret _ _ _ _ _ Hopen). pose proof (pool_locked_calm name w Hw) as Hc.
  erewrite bind_Ret; [|by eapply wrapm_Ret, sys_calm].
  erewrite bind_Ret; [|done].
  assert (Hreg : ∃ d nl, w_fs (locked name w) !! lock_path name = Some (NFile d nl)).
  { unfold locked, lockable in *.
    destruct (w_fs w !! lock_path name) as [[d nl| | |]|] eqn:E; try done; [by exists d, nl|].
    exists (FText ""), 1%Z. apply lookup_insert_eq. }
  destruct Hreg as (d & nl & ->).
  erewrite bind_Ret; [|apply ensure_ok].
  erewrite bind_Ret; [|by eapply wrapm_Ret, sys_calm].
  erewrite bind_Ret; [|by eapply wrapm_Ret, sys_calm].
  destruct o as [a|e|]; [| |done].
  - erewrite bind_Ret; [|by apply attempt_Ret].
    erewrite bind_Ret; [|by apply attempt_Ret, wrapm_Ret, sys_calm]. done.
  - erewrite bind_Ret; [|by apply attempt_Err].
    erewrite bind_Ret; [|by apply attempt_Ret, wrapm_Ret, sys_calm]. done.
Qed.

Section calm.
Context (order : gmap string string → list (string * string)).
Context (Horder : ∀ m, order m ≡ₚ map_to_list m).

Lemma load_calm name w r : calm w → pool_of order w name = Ok r →
  loadExistingPool order name w = (Ret r, w).
Proof.
  intros Hw Hp. rewrite pool_of_entry in Hp. unfold loadExistingPool, lstat in *.
  erewrite bind_Ret; [|erewrite bind_Ret; [done|by eapply wrapm_Ret, sys_calm]].
  destruct (w_fs w !! pool_path name) as [[data nl| | |]|]; try done;
    [|by injection Hp as <-].
  erewrite bind_Ret; [|by eapply wrapm_Ret, sys_calm].
  erewrite bind_Ret; [|by eapply wrapm_Ret, sys_calm].
  erewrite bind_Ret; [|by eapply wrapm_Ret, sys_calm].
  apply res_bind_Ok in Hp as (p & Hp & [= <-]). unfold read_pool in Hp.
  apply res_bind_Ok in Hp as (p0 & H0 & Hp).
  apply res_bind_Ok in Hp as ([n c] & Hc & Hp).
  apply res_bind_Ok in Hp as ([] & Hv%check_Ok & [= <-]).
  rewrite H0. erewrite bind_Ret; [|done].
  rewrite Hc. erewrite bind_Ret; [|done]. cbn beta iota zeta.
  rewrite Hv. by erewrite bind_Ret; [|apply ensure_ok].
Qed.

Lemma save_calm name p w : calm w → w_fs w !! pool_path name ≠ Some NDir →
  savePool name p w =
  (Ret tt, with_fs (insert (pool_path name) (NFile (FJson true (pool_json p)) 1)) w).
Proof.
  intros Hw Hp. unfold savePool, create_temp.
  erewrite bind_Ret; [|eapply wrapm_Ret; erewrite bind_Ret; [|by apply sys_calm]; done].
  set (h := fresh _). set (w1 := with_temps _ w). assert (Hw1 : calm w1) by done.
  set (w2 := with_temps (insert h (FJson true (pool_json p))) w1).
  assert (Hw2 : calm w2) by done.
  set (node := NFile (FJson true (pool_json p)) 1).
  assert (Hr : rename_temp h (pool_path name) w2
    = (Ret tt, with_temps (delete h) (with_fs (insert (pool_path name) node) w2))).
  { unfold rename_temp. erewrite bind_Ret; [|by apply sys_calm].
    erewrite bind_Ret; [|done]. cbn. rewrite lookup_insert_eq.
    destruct (w_fs w !! pool_path name) as [[]|]; done. }
  erewrite bind_Ret; [|eapply attempt_Ret].
  2: { erewrite bind_Ret; [|by eapply wrapm_Ret, sys_calm].
       erewrite (bind_Ret _ _ _ _ w2);
         [|eapply wrapm_Ret; unfold write_temp; by erewrite bind_Ret; [|by apply sys_calm]].
       erewrite bind_Ret; [|by eapply wrapm_Ret, sys_calm].
       erewrite bind_Ret; [|by eapply wrapm_Ret, sys_calm].
       eapply wrapm_Ret, Hr. }
  cbn beta iota. erewrite bind_Ret; [|by eapply wrapm_Ret, sys_calm].
  erewrite wrapm_Ret; [|by apply sys_calm]. f_equal. unfold with_temps, with_fs; cbn.
  rewrite insert_insert_eq, delete_insert_eq. f_equal.
  apply delete_id, not_elem_of_dom, is_fresh.
Qed.

(** Without faults the allocation ends with what the search finds. *)
Lemma allocate_calm i name cidr cid n c w before :
  calm w → lockable w name → ready i = None → validateNetworkName name = None →
  validateContainerID cid = None → canonicalSubnet cidr = Ok (n, c) →
  pool_of order w name = Ok before → (∀ p, before = Some p → Subnet p = c) →
  (AllocateIP order i name cidr cid w).1 =
  match owned_by order cid (leases before) with
  | Some (a, _) => Ret a
  | None =>
    match search n (mkPool c (leases before)) with
    | Some (Some a) => Ret a
    | Some None => Err (Errorf "subnet %s exhausted")
    | None => Err (Errorf "address search out of fuel")
    end
  end.
Proof.
  intros Hw Hl Hi Hname Hcid Hc Hp Hsub. unfold AllocateIP. rewrite Hi, Hname, Hcid, Hc.
  do 3 (erewrite bind_Ret; [|apply ensure_ok]).
  erewrite bind_Ret; [|done].
  set (w1 := locked name w). assert (Hw1 : calm w1) by by apply pool_locked_calm.
  assert (Hp1 : pool_of order w1 name = Ok before).
  { rewrite <- Hp. apply pool_of_unchanged, pool_locked_unchanged. }
  assert (Hload : loadPool order name c w1 = (Ret (mkPool c (leases before)), w1)).
  { unfold loadPool. erewrite bind_Ret; [|by apply load_calm].
    destruct before as [[c' m]|]; [|done].
    rewrite <- (Hsub _ eq_refl). cbn [Subnet]. rewrite String.eqb_refl. done. }
  assert (Hnd : w_fs w1 !! pool_path name ≠ Some NDir).
  { intros E. rewrite pool_of_entry in Hp1. by rewrite E in Hp1. }
  cbn beta iota.
  match goal with |- (withIPAMNetworkLock name ?fn w).1 = ?r =>
    assert (Hfn : ∃ w2, fn w1 = (r, w2) ∧ calm w2 ∧ r ≠ Crash) end.
  { erewrite bind_Ret by exact Hload. cbn [Allocated].
    destruct (owned_by order cid (leases before)) as [[s o]|]; [by exists w1|].
    destruct (search n _) as [[s|]|]; [|by exists w1..].
    eexists. split; [|split; [|done]].
    - erewrite bind_Ret; [done|]. by eapply wrapm_Ret, save_calm.
    - done. }
  destruct Hfn as (w2 & Hfn & Hw2 & Hr).
  by rewrite (lock_calm name _ w _ w2 Hw Hl Hfn Hr Hw2).
Qed.
End calm.
