(* ===== verification/IpamProps.v ===== *)
(** The properties of [Ipam]. *)
From S2P Require Import Prelude GoStrings Json Fs FsLogic Durable Container.
From S2P Require Import Net.
From S2P Require Import NetFacts.
From S2P Require Import Ipam IpamFacts IpamOps Lease IpamReach IpamCalm.

#[local] Open Scope Z_scope.

(** * Example runs *)

(** A directory without pools. *)
Definition no_pools : world := World ∅ ∅ false [] [].
Definition manager : option IPAM := Some (mkIPAM "/run/ipam" None).
Definition in_order : gmap string string → list (string * string) := map_to_list.

Lemma in_order_perm m : in_order m ≡ₚ map_to_list m.
Proof. done. Qed.
Lemma no_pools_reachable : ipam_reachable no_pools.
Proof. apply ipam_init. intros name. apply lookup_empty. Qed.

Definition gen (id : string) (pid start : Z) : BridgeLeaseOwner := mkLeaseOwner id pid start.
Definition small : string := "10.0.0.0/29".
(** Two generations of one container and one of another have an address. *)
Definition calls : list ipam_call :=
  [CAllocateGeneration small (gen "web" 41 900); CAllocateGeneration small (gen "web" 77 950);
   CAllocate small "db"].
Definition leased : world := fold_left (λ w c, run_ipam in_order manager "br0" c w) calls no_pools.

Lemma leased_reachable : ipam_reachable leased.
Proof.
  unfold leased, calls. cbn [fold_left].
  repeat (refine (ipam_step in_order _ _ manager "br0" _ in_order_perm _ (same_refl _) _);
    [|vm_compute; repeat split; done]).
  apply no_pools_reachable.
Qed.

Example leased_pool : (λ p, map_to_list (leases p)) <$>
    (match pool_of in_order leased "br0" with Ok p => Some p | Fail _ => None end) =
  Some [("10.0.0.3", "generation:d2Vi:77:950"); ("10.0.0.2", "generation:d2Vi:41:900");
        ("10.0.0.4", "db")].
Proof. vm_compute. reflexivity. Qed.


(** The effect of a call, in terms of pools. *)
Ltac fold_pools order H :=
  cbn [fst snd] in H; unfold acts in H;
  change (doc_of (read_node order)) with (pool_of order) in H.

(** * Properties *)






(** What is left of a pool of which some leases were dropped. *)
Lemma pool_after order w w0 w' name before m :
  (∀ m, order m ≡ₚ map_to_list m) → good_pools w → same w w0 →
  pool_of order w0 name = Ok (Some before) → m ⊆ Allocated before →
  stored name (mkPool (Subnet before) m) w0 w' →
  pool_of order w' name = Ok (Some (mkPool (Subnet before) m)).
Proof.
  intros Ho Hw Hs Hp Hm Hst. eapply stored_pool_of; [done|exact Hst|].
  apply good_pool_subseteq; [|done].
  by eapply (good_pools_of order Ho w0 name); [eapply same_good|..].
Qed.

Definition owner_left (before after : option SubnetPool) (cid : string) : Prop :=
  leases after = filter (λ kv : string * string, kv.2 ≠ cid) (leases before).

(** C20. A successful [ReleaseIP] removes the lease of its owner and no other. *)
Theorem ReleaseIP_exact order i name cid w w0 w' :
  (∀ m, order m ≡ₚ map_to_list m) → ipam_reachable w → same w w0 →
  ReleaseIP order i name cid w0 = (Ret tt, w') →
  ∃ before after, pool_of order w name = Ok before ∧ pool_of order w' name = Ok after ∧
    leases after = filter (λ kv : string * string, kv.2 ≠ cid) (leases before).
Proof.
  intros Ho Hw Hs Hrun. apply reachable_good in Hw.
  assert (E : pool_of order w name = pool_of order w0 name).
  { apply pool_of_eq. by rewrite (proj1 Hs). }
  pose proof (wp_ReleaseIP order Ho i name cid w0) as Hwp.
  unfold wp in Hwp. rewrite Hrun in Hwp. fold_pools order Hwp.
  destruct Hwp as [[Hu (b & Hb & Hno)]|(b & p & [] & Hb & Hst & (p0 & s & -> & Hl & ->) & _)].
  - exists b, b. rewrite E. split_and!; [done| |].
    + rewrite (pool_of_unchanged order name w0 w') by done. done.
    + symmetry. apply map_filter_id. intros s o Hs' Hc. cbn in Hc. subst o. by apply Hno in Hs'.
  - exists (Some p0). eexists. rewrite E. split_and!; [done| |].
    + eapply pool_after; [done|exact Hw|done..| |exact Hst]. apply delete_subseteq.
    + cbn [leases from_option Allocated].
      destruct (good_pools_of order Ho w0 name _ (same_good _ _ Hs Hw) Hb p0 eq_refl)
        as (n & ones & _ & _ & Hv & _).
      apply map_eq. intros s'. destruct (decide (s' = s)) as [->|Hne].
      * rewrite lookup_delete_eq. symmetry. apply map_lookup_filter_None_2. right.
        intros o Ho' Hne. cbn in Hne. congruence.
      * rewrite lookup_delete_ne by done.
        destruct (Allocated p0 !! s') as [o|] eqn:Hs'; symmetry.
        -- apply map_lookup_filter_Some_2; [done|]. cbn. intros ->. apply Hne.
           by eapply (pv_inj _ _ _ Hv).
        -- apply map_lookup_filter_None_2. by left.
Qed.
Lemma ReleaseIP_exact_witness : ∃ w',
  ReleaseIP in_order manager "br0" "db" leased = (Ret tt, w') ∧
  ∃ before after, pool_of in_order leased "br0" = Ok before ∧
    pool_of in_order w' "br0" = Ok after ∧
    leases after = filter (λ kv : string * string, kv.2 ≠ "db") (leases before).
Proof.
  eexists. split; [vm_compute; reflexivity|].
  apply (ReleaseIP_exact in_order manager "br0" "db" leased leased _
    in_order_perm leased_reachable (same_refl _)); vm_compute; reflexivity.
Defined.

(** C21. Releasing one process generation, whatever the I/O faults, never frees
    an address leased to another generation, not even of the same container,
    nor one of an owner that is no generation. *)
Theorem ReleaseGenerationIP_keeps_others order i name o w w0 out w' before s k :
  (∀ m, order m ≡ₚ map_to_list m) → ipam_reachable w → same w w0 → owner_ranges o →
  ReleaseGenerationIP order i name o w0 = (out, w') →
  pool_of order w name = Ok before → leases before !! s = Some k →
  ParseBridgeLeaseOwner k ≠ Ok o →
  ∃ after, pool_of order w' name = Ok after ∧ leases after !! s = Some k.
Proof.
  intros Ho Hw Hs Hr Hrun Hb Hk Hne. apply reachable_good in Hw.
  assert (E : pool_of order w name = pool_of order w0 name).
  { apply pool_of_eq. by rewrite (proj1 Hs). }
  rewrite E in Hb. unfold ReleaseGenerationIP, mbind, M_bind, lift in Hrun.
  destruct (key o) as [ko|e] eqn:Hko; [|by simplify_eq; eauto].
  pose proof (wp_ReleaseIP order Ho i name ko w0) as Hwp.
  unfold wp in Hwp. rewrite Hrun in Hwp. fold_pools order Hwp.
  destruct Hwp as [[Hu _]|(b & p & [] & Hb' & Hst & (p0 & s0 & -> & Hl & ->) & _)].
  - exists before. split; [|done].
    by rewrite (pool_of_unchanged order name w0 w') by done.
  - rewrite Hb in Hb'. injection Hb' as ->. eexists. split.
    + eapply pool_after; [done|exact Hw|done..| |exact Hst]. apply delete_subseteq.
    + cbn in Hk |- *. rewrite lookup_delete_ne; [done|]. intros <-. apply Hne.
      assert (k = ko) as -> by congruence. by apply parse_key.
Qed.
Lemma ReleaseGenerationIP_keeps_others_witness : ∃ before out w',
  pool_of in_order leased "br0" = Ok before ∧
  ReleaseGenerationIP in_order manager "br0" (gen "web" 41 900) leased = (out, w') ∧
  ∃ after, pool_of in_order w' "br0" = Ok after ∧
    leases after !! "10.0.0.3" = Some "generation:d2Vi:77:950".
Proof.
  eexists _, _, _. split; [vm_compute; reflexivity|]. split; [vm_compute; reflexivity|].
  eapply (ReleaseGenerationIP_keeps_others in_order manager "br0" (gen "web" 41 900)
    leased leased _ _ _ "10.0.0.3" "generation:d2Vi:77:950"
    in_order_perm leased_reachable (same_refl _));
    first [by vm_compute | vm_compute; reflexivity].
Defined.

(** C22. [ReconcileGenerationIPs], when it succeeds, removes exactly the leases of
    generations that are not alive and returns their number; when it fails or
    is interrupted, it has removed none of the others. *)
Theorem Reconcile_exact order i name alive w w0 out w' before :
  (∀ m, order m ≡ₚ map_to_list m) → ipam_reachable w → same w w0 →
  ReconcileGenerationIPs order i name (Some alive) w0 = (out, w') →
  pool_of order w name = Ok before →
  ∃ after, pool_of order w' name = Ok after ∧
    filter (λ kv, ¬ dead alive kv) (leases before) ⊆ leases after ∧
    ∀ k, out = Ret k →
      leases after = filter (λ kv, ¬ dead alive kv) (leases before) ∧
      k = Z.of_nat (size (filter (dead alive) (leases before))).
Proof.
  intros Ho Hw Hs Hrun Hb. apply reachable_good in Hw.
  assert (E : pool_of order w name = pool_of order w0 name).
  { apply pool_of_eq. by rewrite (proj1 Hs). }
  rewrite E in Hb. pose proof (wp_ReconcileGenerationIPs order Ho i name alive w0) as Hwp.
  unfold wp in Hwp. rewrite Hrun in Hwp. fold_pools order Hwp.
  destruct Hwp as [[Hu Hret]|(b & p & k & Hb' & Hst & (p0 & -> & -> & Hk & Hpos) & Hret)].
  - exists before. rewrite (pool_of_unchanged order name w0 w') by done.
    split_and!; [done|apply map_filter_subseteq|].
    intros k ->. destruct Hret as (b & Hb' & -> & Hnone). rewrite Hb in Hb'.
    injection Hb' as <-. rewrite Hnone. split; [|by rewrite map_size_empty].
    symmetry. apply map_filter_id. intros s o Hso Hd.
    assert (filter (dead alive) (leases before) !! s = Some o)
      by (by apply map_lookup_filter_Some_2). by rewrite Hnone, lookup_empty in *.
  - rewrite Hb in Hb'. injection Hb' as ->. eexists. split; [|split].
    + eapply pool_after; [done|exact Hw|done..| |exact Hst]. apply map_filter_subseteq.
    + done.
    + intros k' ->. by split; [|rewrite Hret].
Qed.
Definition alive77 (o : BridgeLeaseOwner) : bool := (lo_PID o =? 77)%Z.
Lemma Reconcile_exact_witness : ∃ before w',
  pool_of in_order leased "br0" = Ok before ∧
  ReconcileGenerationIPs in_order manager "br0" (Some alive77) leased = (Ret 1, w') ∧
  ∃ after, pool_of in_order w' "br0" = Ok after ∧
    filter (λ kv, ¬ dead alive77 kv) (leases before) ⊆ leases after ∧
    ∀ k, Ret 1 = Ret k →
      leases after = filter (λ kv, ¬ dead alive77 kv) (leases before) ∧
      k = Z.of_nat (size (filter (dead alive77) (leases before))).
Proof.
  eexists _, _. split; [vm_compute; reflexivity|]. split; [vm_compute; reflexivity|].
  eapply (Reconcile_exact in_order manager "br0" alive77 leased leased
    _ _ _ in_order_perm leased_reachable (same_refl _)); vm_compute; reflexivity.
Defined.

(** C23. The durable key of a lease owner is parsed back as that owner, for every
    container identifier, so distinct generations have distinct keys. *)
Theorem lease_key_roundtrip o k : owner_ranges o → key o = Ok k →
  ParseBridgeLeaseOwner k = Ok o ∧ json_safe k ∧
  ∀ o', owner_ranges o' → key o' = Ok k → o' = o.
Proof.
  intros Hr Hk. split_and!; [by apply parse_key|by eapply key_safe|].
  intros o' Hr' Hk'. by eapply key_inj.
Qed.
Lemma lease_key_roundtrip_witness :
  key (gen "a:b/c" 7 18446744073709551615) = Ok "generation:YTpiL2M:7:18446744073709551615" ∧
  ParseBridgeLeaseOwner "generation:YTpiL2M:7:18446744073709551615"
    = Ok (gen "a:b/c" 7 18446744073709551615) ∧
  json_safe "generation:YTpiL2M:7:18446744073709551615" ∧
  ∀ o', owner_ranges o' → key o' = Ok "generation:YTpiL2M:7:18446744073709551615" →
    o' = gen "a:b/c" 7 18446744073709551615.
Proof.
  split; [vm_compute; reflexivity|].
  apply (lease_key_roundtrip (gen "a:b/c" 7 18446744073709551615)); vm_compute;
    [split; [done|split; done]|reflexivity].
Defined.

