(* ===== verification/Dns.v ===== *)
(** Service discovery: the host registries of [internal/dns] as data.  The
    entries of a network, their checks (dns.go, dns_ip_identity.go,
    dns_network_name_limits.go, dns_registry_limits.go), the versioned document
    they are stored in (dns_registry_schema.go, dns_schema.go), the process
    probe (dns_owner_linux.go), and what each operation makes of the entries it
    loaded. *)
From S2P Require Import Prelude GoStrings Json Container Net.

Open Scope go_scope.

(** * Entries *)

Record HostEntry := mkHost {
  he_ContainerID : string; he_Hostname : string; he_IP : string;
  he_OwnerPID : Z; he_OwnerStartTime : Z; he_GenerationAware : bool;
  he_GenerationPID : Z; he_GenerationStartTime : Z; he_AdmissionPending : bool }.
#[export] Instance HostEntry_eq_dec : EqDecision HostEntry.
Proof. solve_decision. Defined.
Definition zero_host : HostEntry := mkHost "" "" "" 0 0 false 0 0 false.

(** * Names and addresses *)

Definition maxDNSHostnameBytes : Z := 253.
(** 255 bytes of a file name less [".", ".json.tmp-"] and 16 hexadecimal
    digits. *)
Definition dnsRegistryTempFixedBytes : Z := 1 + 10 + 16.
Definition maxDNSNetworkNameBytes : Z := 255 - dnsRegistryTempFixedBytes.

Definition maxDNSNetworkNameBytesForComponentLimit (componentLimit : Z) : res Z :=
  if (componentLimit <=? dnsRegistryTempFixedBytes)%Z
  then Fail (Errorf "filesystem filename limit %d is too small for DNS registry temp files")
  else let limit := (componentLimit - dnsRegistryTempFixedBytes)%Z in
    Ok (if (maxDNSNetworkNameBytes <? limit)%Z then maxDNSNetworkNameBytes else limit).

Definition validateDNSNetworkFilenameLength (networkName : string) : option error :=
  fail_if (maxDNSNetworkNameBytes <? len networkName)%Z
    (Errorf "invalid network name %q: exceeds %d-byte DNS registry filename budget").

(** [validNetworkNameRegex] *)
Definition name_char (c : Ascii.ascii) : bool :=
  is_alnum c || bool_decide (c = "_"%char) || bool_decide (c = "."%char) ||
  bool_decide (c = "-"%char).
Definition valid_network_name (s : string) : bool :=
  match s with "" => false | String c r => is_alnum c && str_forallb name_char r end.

Definition validateNetworkName (name : string) : option error :=
  fail_if (String.eqb name "") (Errorf "network name cannot be empty") >>!
  fail_if (String.eqb name "." || String.eqb name ".." || contains_any name "/\:")
    (Errorf "invalid network name %q: path separators and relative components not allowed")
  >>!
  fail_if (negb (valid_network_name name))
    (Errorf "invalid network name %q: must start with alphanumeric character").

(** [validHostnameRegex]: labels of at most 63 alphanumerics and inner
    dashes. *)
Definition label_char (c : Ascii.ascii) : bool := is_alnum c || bool_decide (c = "-"%char).
Fixpoint last_byte (s : string) : option Ascii.ascii :=
  match s with "" => None | String c "" => Some c | String _ s => last_byte s end.
Definition valid_label (l : string) : bool :=
  match l, last_byte l with
  | String c _, Some d => is_alnum c && is_alnum d && str_forallb label_char l &&
      (len l <=? 63)%Z
  | _, _ => false
  end.
Definition valid_hostname (s : string) : bool := forallb valid_label (str_split "."%char s).

(** White space and control characters are no label characters. *)
Definition blank_chars : string :=
  " " +:+ String (chr 9) (String (chr 13) (String (chr 10) (str1 (chr 0)))).

Definition validateHostAndIP (hostname ipAddr : string) : option error :=
  fail_if (String.eqb hostname "") (Errorf "hostname cannot be empty") >>!
  fail_if (maxDNSHostnameBytes <? len hostname)%Z
    (Errorf "invalid hostname %q: exceeds %d-byte DNS name limit") >>!
  fail_if (contains_any hostname blank_chars || negb (valid_hostname hostname))
    (Errorf "invalid hostname %q: must be a valid DNS name") >>!
  fail_if (String.eqb ipAddr "") (Errorf "IP address cannot be empty") >>!
  match ParseIP ipAddr with
  | None => Some (Errorf "invalid IP address %q")
  | Some _ => None
  end.

(** [netip.ParseAddr] without a zone, then [Addr.String]: an IPv4-mapped IPv6
    address keeps its form. *)
Definition canonicalIPAddress (ipAddr : string) : res string :=
  if String.eqb ipAddr "" then Fail (Errorf "IP address cannot be empty")
  else match ParseIP ipAddr with
  | None => Fail (Errorf "invalid IP address %q")
  | Some a =>
    match first_of ipAddr, To4 a with
    | Some ":"%char, Some b => Ok ("::ffff:" +:+ ip_string b)
    | _, _ => Ok (ip_string a)
    end
  end.

Example names_ex :
  validateNetworkName "br0.lan" = None ∧ validateNetworkName ".br0" ≠ None ∧
  validateHostAndIP "web-1.local" "10.0.0.2" = None ∧
  validateHostAndIP "-web" "10.0.0.2" ≠ None ∧ validateHostAndIP "a..b" "::1" ≠ None ∧
  canonicalIPAddress "::FFFF:10.0.0.1" = Ok "::ffff:10.0.0.1" ∧
  canonicalIPAddress "2001:DB8:0:0::1" = Ok "2001:db8::1".
Proof. vm_compute. repeat split; discriminate. Qed.

(** [strings.ToLower] and [strings.EqualFold] on the host names that passed
    [validateHostAndIP], which are ASCII. *)
Definition to_lower (s : string) : string := str_map lower_byte s.
Definition equal_fold (s t : string) : bool := String.eqb (to_lower s) (to_lower t).

Definition validateHostEntryOwner (entry : HostEntry) : option error :=
  let legacy := (he_OwnerPID entry =? 0)%Z && (he_OwnerStartTime entry =? 0)%Z in
  let generationUnset :=
    (he_GenerationPID entry =? 0)%Z && (he_GenerationStartTime entry =? 0)%Z in
  fail_if (negb legacy && ((he_OwnerPID entry <=? 0)%Z || (he_OwnerStartTime entry =? 0)%Z))
    (Errorf "incomplete registrar process identity %d/%d") >>!
  fail_if (negb generationUnset &&
      ((he_GenerationPID entry <=? 0)%Z || (he_GenerationStartTime entry =? 0)%Z))
    (Errorf "incomplete child process identity %d/%d") >>!
  fail_if (he_GenerationAware entry && legacy)
    (Errorf "generation-aware registration requires registrar ownership") >>!
  fail_if (negb generationUnset && negb (he_GenerationAware entry))
    (Errorf "child process identity requires generation-aware registration") >>!
  fail_if (he_AdmissionPending entry && negb (he_GenerationAware entry))
    (Errorf "pending admission requires generation-aware registration").

(** The loop of [validateEntries]. *)
Fixpoint validate_hosts (seenContainers seenHostnames : gset string) (l : list HostEntry)
    : option error :=
  match l with
  | [] => None
  | entry :: l =>
    fail_if (String.eqb (trim_space (he_ContainerID entry)) "")
      (Errorf "DNS registry %q entry %d has empty container ID") >>!
    wrap_err "DNS registry %q entry %d is invalid: %w"
      (validateHostAndIP (he_Hostname entry) (he_IP entry)) >>!
    match canonicalIPAddress (he_IP entry) with
    | Fail e => Some (Wrapf "DNS registry %q entry %d is invalid: %w" e)
    | Ok canonicalIP => fail_if (negb (String.eqb (he_IP entry) canonicalIP))
        (Errorf "DNS registry %q entry %d has non-canonical IP address %q")
    end >>!
    wrap_err "DNS registry %q entry %d has invalid ownership: %w"
      (validateHostEntryOwner entry) >>!
    fail_if (bool_decide (he_ContainerID entry ∈ seenContainers))
      (Errorf "DNS registry %q has duplicate container ID %q") >>!
    fail_if (bool_decide (to_lower (he_Hostname entry) ∈ seenHostnames))
      (Errorf "DNS registry %q has duplicate hostname %q") >>!
    validate_hosts ({[he_ContainerID entry]} ∪ seenContainers)
      ({[to_lower (he_Hostname entry)]} ∪ seenHostnames) l
  end.
Definition validateEntries (entries : list HostEntry) : option error :=
  validate_hosts ∅ ∅ entries.

(** * The stored document *)

Definition currentHostEntrySchemaVersion : Z := 1.
Definition currentDNSRegistrySchemaVersion : Z := 1.
Definition maxDNSRegistryBytes : Z := Z.shiftl 1 20.
Definition maxDNSRegistryEntries : Z := 4096.

(** [HostEntry.MarshalJSON] *)
Definition host_json (e : HostEntry) : json :=
  JObj ([("schema_version", JInt currentHostEntrySchemaVersion);
         ("container_id", enc_string (he_ContainerID e));
         ("hostname", enc_string (he_Hostname e));
         ("ip", enc_string (he_IP e))]
    ++ omitempty (he_OwnerPID e =? 0)%Z "owner_pid" (JInt (he_OwnerPID e))
    ++ omitempty (he_OwnerStartTime e =? 0)%Z "owner_start_time" (JInt (he_OwnerStartTime e))
    ++ omitempty (negb (he_GenerationAware e)) "generation_aware" (JBool (he_GenerationAware e))
    ++ omitempty (he_GenerationPID e =? 0)%Z "generation_pid" (JInt (he_GenerationPID e))
    ++ omitempty (he_GenerationStartTime e =? 0)%Z "generation_start_time"
         (JInt (he_GenerationStartTime e))
    ++ omitempty (negb (he_AdmissionPending e)) "admission_pending"
         (JBool (he_AdmissionPending e))).

Definition host_fields : list (string * setter HostEntry) := [
  ("container_id", field dec_string he_ContainerID (λ x e, mkHost x (he_Hostname e) (he_IP e)
     (he_OwnerPID e) (he_OwnerStartTime e) (he_GenerationAware e) (he_GenerationPID e)
     (he_GenerationStartTime e) (he_AdmissionPending e)));
  ("hostname", field dec_string he_Hostname (λ x e, mkHost (he_ContainerID e) x (he_IP e)
     (he_OwnerPID e) (he_OwnerStartTime e) (he_GenerationAware e) (he_GenerationPID e)
     (he_GenerationStartTime e) (he_AdmissionPending e)));
  ("ip", field dec_string he_IP (λ x e, mkHost (he_ContainerID e) (he_Hostname e) x
     (he_OwnerPID e) (he_OwnerStartTime e) (he_GenerationAware e) (he_GenerationPID e)
     (he_GenerationStartTime e) (he_AdmissionPending e)));
  ("owner_pid", field dec_int64 he_OwnerPID (λ x e, mkHost (he_ContainerID e)
     (he_Hostname e) (he_IP e) x (he_OwnerStartTime e) (he_GenerationAware e)
     (he_GenerationPID e) (he_GenerationStartTime e) (he_AdmissionPending e)));
  ("owner_start_time", field dec_uint64 he_OwnerStartTime (λ x e, mkHost (he_ContainerID e)
     (he_Hostname e) (he_IP e) (he_OwnerPID e) x (he_GenerationAware e)
     (he_GenerationPID e) (he_GenerationStartTime e) (he_AdmissionPending e)));
  ("generation_aware", field dec_bool he_GenerationAware (λ x e, mkHost (he_ContainerID e)
     (he_Hostname e) (he_IP e) (he_OwnerPID e) (he_OwnerStartTime e) x
     (he_GenerationPID e) (he_GenerationStartTime e) (he_AdmissionPending e)));
  ("generation_pid", field dec_int64 he_GenerationPID (λ x e, mkHost (he_ContainerID e)
     (he_Hostname e) (he_IP e) (he_OwnerPID e) (he_OwnerStartTime e) (he_GenerationAware e)
     x (he_GenerationStartTime e) (he_AdmissionPending e)));
  ("generation_start_time", field dec_uint64 he_GenerationStartTime (λ x e,
     mkHost (he_ContainerID e) (he_Hostname e) (he_IP e) (he_OwnerPID e)
       (he_OwnerStartTime e) (he_GenerationAware e) (he_GenerationPID e) x
       (he_AdmissionPending e)));
  ("admission_pending", field dec_bool he_AdmissionPending (λ x e,
     mkHost (he_ContainerID e) (he_Hostname e) (he_IP e) (he_OwnerPID e)
       (he_OwnerStartTime e) (he_GenerationAware e) (he_GenerationPID e)
       (he_GenerationStartTime e) x)) ].

(** A [map[string]json.RawMessage]: its members, and one of them (the last of a
    name wins). *)
Definition raw_map (j : json) : res (list (string * json)) :=
  match j with JObj kvs => Ok kvs | JNull => Ok [] | _ => type_error end.
Definition raw_member (k : string) (kvs : list (string * json)) : option json :=
  foldl (λ acc kv, if String.eqb kv.1 k then Some kv.2 else acc) None kvs.

(** [HostEntry.UnmarshalJSON] *)
Definition HostEntry_UnmarshalJSON (j : json) (old : HostEntry) : res HostEntry :=
  envelope ← raw_map j;
  match raw_member "schema_version" envelope with
  | None => Ok tt
  | Some raw =>
    version ← wrapf "invalid DNS host entry schema version: %w" (dec_int64 raw 0);
    check (fail_if (negb (version =? currentHostEntrySchemaVersion)%Z)
      (Errorf "unsupported DNS host entry schema version %d"))
  end;;
  decode_struct false host_fields j zero_host.

Definition validateDNSRegistryEntryCount (count : Z) : option error :=
  fail_if (maxDNSRegistryEntries <? count)%Z
    (Errorf "DNS registry contains %d entries, exceeds limit %d").

Definition need_member (e : error) (k : string) (kvs : list (string * json)) : res json :=
  match raw_member k kvs with Some j => Ok j | None => Fail e end.

(** One raw entry of [decodeCurrentRegistryEntries]. *)
Definition decode_entry (rawEntry : json) : res HostEntry :=
  fields ← wrapf "decode DNS registry entry %d: %w" (raw_map rawEntry);
  rawVersion ← need_member (Errorf "DNS registry entry %d missing schema provenance")
    "schema_version" fields;
  version ← wrapf "invalid DNS registry entry %d schema version: %w" (dec_int64 rawVersion 0);
  check (fail_if (negb (version =? currentHostEntrySchemaVersion)%Z)
    (Errorf "unsupported DNS registry entry %d schema version %d"));;
  wrapf "decode DNS registry entry %d: %w" (HostEntry_UnmarshalJSON rawEntry zero_host).
Fixpoint decode_entries (l : list json) : res (list HostEntry) :=
  match l with
  | [] => Ok []
  | j :: l => e ← decode_entry j; es ← decode_entries l; Ok (e :: es)
  end.
Definition decodeCurrentRegistryEntries (j : json) : res (list HostEntry) :=
  rawEntries ← match j with
    | JArr l => Ok l
    | JNull => Ok []
    | _ => Fail (Wrapf "decode DNS registry entries: %w" (Errorf "json: cannot unmarshal"))
    end;
  check (validateDNSRegistryEntryCount (Z.of_nat (length rawEntries)));;
  decode_entries rawEntries.

Definition decodeDNSRegistry (data : file_data) (expectedNetworkName : string)
    : res (list HostEntry) :=
  match data with
  | FText s => if String.eqb (trim_space s) "" then Fail (Errorf "empty DNS registry")
               else Fail (Errorf "invalid DNS registry document")
  | FJson _ (JArr l) =>
    entries ← dec_list HostEntry_UnmarshalJSON zero_host l;
    check (validateDNSRegistryEntryCount (Z.of_nat (length entries)));;
    check (fail_if (negb (length entries =? 0)%nat)
      (Errorf "non-empty historical DNS registry lacks network provenance"));;
    Ok entries
  | FJson _ (JObj raw) =>
    rawVersion ← need_member (Errorf "DNS registry object missing schema version")
      "schema_version" raw;
    version ← wrapf "invalid DNS registry schema version: %w" (dec_int64 rawVersion 0);
    check (fail_if (negb (version =? currentDNSRegistrySchemaVersion)%Z)
      (Errorf "unsupported DNS registry schema version %d"));;
    rawNetwork ← need_member (Errorf "DNS registry missing network provenance")
      "network_name" raw;
    networkName ← wrapf "invalid DNS registry network provenance: %w"
      (dec_string rawNetwork "");
    check (fail_if (String.eqb networkName "" ||
                    negb (String.eqb networkName expectedNetworkName))
      (Errorf "DNS registry network provenance %q does not match storage key %q"));;
    rawEntries ← need_member (Errorf "DNS registry missing entries") "entries" raw;
    decodeCurrentRegistryEntries rawEntries
  | FJson _ _ =>
    Fail (Errorf "DNS registry must be a versioned object or empty historical array")
  end.

Definition encodeDNSRegistry (networkName : string) (entries : list HostEntry)
    : res file_data :=
  check (validateDNSRegistryEntryCount (Z.of_nat (length entries)));;
  Ok (FJson true (JObj [
    ("schema_version", JInt currentDNSRegistrySchemaVersion);
    ("network_name", enc_string networkName);
    ("entries", JArr (host_json <$> entries))])).

(** * Process identities (dns_owner_linux.go) *)

Record registrarIdentity := mkRegistrar { reg_PID : Z; reg_StartTime : Z }.
#[export] Instance registrarIdentity_eq_dec : EqDecision registrarIdentity.
Proof. solve_decision. Defined.

(** The text after the last occurrence of [sep]. *)
Fixpoint after_last (sep s : string) : option string :=
  match s with
  | "" => None
  | String _ s' =>
    match after_last sep s' with
    | Some r => Some r
    | None => if has_prefix s sep then Some (str_drop (String.length sep) s) else None
    end
  end.
(** [strings.Fields] *)
Fixpoint fields_from (cur : string) (l : list rune) : list string :=
  match l with
  | [] => if String.eqb cur "" then [] else [cur]
  | r :: l =>
    if rune_ok r && is_space (rune_val r)
    then if String.eqb cur "" then fields_from "" l else cur :: fields_from "" l
    else fields_from (cur +:+ rune_bytes r) l
  end.
Definition str_fields (s : string) : list string := fields_from "" (runes s).

(** [/proc] is the operating system's: the contents of the [stat] file of a
    process, or the error of reading it. *)
Section proc.
Context (proc : Z → res string).

Definition readProcessStat (pid : Z) : res (Z * string) :=
  text ← proc pid;
  match after_last ") " text with
  | None => Fail (Errorf "malformed /proc/%d/stat: missing comm boundary")
  | Some rest =>
    let fields := str_fields rest in
    if (length fields <=? 19)%nat
    then Fail (Errorf "malformed /proc/%d/stat: only %d fields after comm")
    else
      let state := nth 0 fields "" in
      if negb (len state =? 1)%Z
      then Fail (Errorf "malformed /proc/%d/stat process state %q")
      else match parse_uint max_uint64 (nth 19 fields "") with
      | None => Fail (Wrapf "parse /proc/%d/stat start time: %w" (Errorf "invalid syntax"))
      | Some start =>
        if (start =? 0)%Z
        then Fail (Wrapf "parse /proc/%d/stat start time: %w" (Errorf "zero start time"))
        else Ok (start, state)
      end
  end.

Definition readProcessStartTime (pid : Z) : res Z :=
  r ← readProcessStat pid; Ok r.1.

(** [pid] is [os.Getpid()]. *)
Definition currentRegistrarIdentity (pid : Z) : res registrarIdentity :=
  start ← wrapf "capture DNS registrar process identity %d: %w" (readProcessStartTime pid);
  Ok (mkRegistrar pid start).

Definition registrarGenerationAlive (pid startTime : Z) : res bool :=
  if (pid <=? 0)%Z || (startTime =? 0)%Z
  then Fail (Errorf "invalid DNS registrar process identity %d/%d")
  else match readProcessStat pid with
  | Ok (current, processState) =>
    Ok ((current =? startTime)%Z && negb (String.eqb processState "Z"))
  | Fail e => if errors_Is e ErrNotExist then Ok false else Fail e
  end.
End proc.

(** * What the operations make of the entries *)

(** [entriesWithRegistration]: the new entries and whether they changed. *)
Definition matches (containerID hostname : string) (entry : HostEntry) : bool :=
  String.eqb (he_ContainerID entry) containerID || equal_fold (he_Hostname entry) hostname.
Definition registration (owner : registrarIdentity) (containerID hostname ipAddr : string)
    (admissionPending : bool) : HostEntry :=
  mkHost containerID hostname ipAddr (reg_PID owner) (reg_StartTime owner) true 0 0
    admissionPending.
Fixpoint register_at (before : list HostEntry) (l : list HostEntry)
    (owner : registrarIdentity) (containerID hostname ipAddr : string)
    (admissionPending : bool) : res (list HostEntry * bool) :=
  match l with
  | [] => Ok (before ++ [registration owner containerID hostname ipAddr admissionPending], true)
  | entry :: l =>
    if negb (matches containerID hostname entry)
    then register_at (before ++ [entry]) l owner containerID hostname ipAddr admissionPending
    else if String.eqb (he_ContainerID entry) containerID &&
            equal_fold (he_Hostname entry) hostname && String.eqb (he_IP entry) ipAddr &&
            (he_OwnerPID entry =? reg_PID owner)%Z &&
            (he_OwnerStartTime entry =? reg_StartTime owner)%Z
    then
      if he_GenerationAware entry && (he_GenerationPID entry =? 0)%Z &&
         (he_GenerationStartTime entry =? 0)%Z &&
         eqb (he_AdmissionPending entry) admissionPending
      then Ok (before ++ entry :: l, false)
      else Ok (before ++ mkHost (he_ContainerID entry) (he_Hostname entry) (he_IP entry)
                 (he_OwnerPID entry) (he_OwnerStartTime entry) true 0 0 admissionPending :: l,
               true)
    else Fail (Errorf "live DNS registration conflict: container %q/hostname %q is owned")
  end.
Definition entriesWithRegistration (entries : list HostEntry) (owner : registrarIdentity)
    (containerID hostname ipAddr : string) (admissionPending : bool)
    : res (list HostEntry * bool) :=
  ipAddr ← canonicalIPAddress ipAddr;
  register_at [] entries owner containerID hostname ipAddr admissionPending.

(** [unregisterHostIfOwnedBy] keeps the entries that fail this test. *)
Definition owned_entry (containerID : string) (owner : registrarIdentity) (entry : HostEntry)
    : bool :=
  String.eqb (he_ContainerID entry) containerID &&
  (he_OwnerPID entry =? reg_PID owner)%Z && (he_OwnerStartTime entry =? reg_StartTime owner)%Z.

(** [cleanupStoppedHostRegistrationWithGenerationPolicy] removes the entries
    that pass this one. *)
Definition retired_entry (containerID : string) (pid startTime : Z) (entry : HostEntry)
    : bool :=
  String.eqb (he_ContainerID entry) containerID &&
  (if he_GenerationAware entry
   then if (he_GenerationPID entry =? 0)%Z && (he_GenerationStartTime entry =? 0)%Z
        then false
        else (he_GenerationPID entry =? pid)%Z && (he_GenerationStartTime entry =? startTime)%Z
   else true).

Definition drop_entries (p : HostEntry → bool) (entries : list HostEntry)
    : list HostEntry * bool :=
  (filter (λ e, p e = false) entries, existsb p entries).

(** [BindHostRegistrationGeneration] on the entries: [None] when they stay as
    they are. *)
Definition bind_entry (owner : registrarIdentity) (pid pidStartTime : Z)
    (staged : option string) (entry : HostEntry) : res (option HostEntry) :=
  if negb (he_OwnerPID entry =? reg_PID owner)%Z ||
     negb (he_OwnerStartTime entry =? reg_StartTime owner)%Z
  then Fail (Errorf "DNS registration for container %q is owned by registrar %d/%d")
  else if negb (he_GenerationAware entry)
  then Fail (Errorf "DNS registration for container %q is not generation-aware")
  else if (he_GenerationPID entry =? pid)%Z && (he_GenerationStartTime entry =? pidStartTime)%Z
          && negb (he_AdmissionPending entry)
  then match staged with
    | None => Ok None
    | Some ip => if String.eqb (he_IP entry) ip then Ok None
        else Fail (Errorf "DNS registration for container %q is already published at %s")
    end
  else if (negb (he_GenerationPID entry =? 0)%Z || negb (he_GenerationStartTime entry =? 0)%Z)
          && (negb (he_GenerationPID entry =? pid)%Z ||
              negb (he_GenerationStartTime entry =? pidStartTime)%Z)
  then Fail (Errorf "DNS registration for container %q is already bound to child generation")
  else Ok (Some (mkHost (he_ContainerID entry) (he_Hostname entry)
         (match staged with Some ip => ip | None => he_IP entry end)
         (he_OwnerPID entry) (he_OwnerStartTime entry) true pid pidStartTime false)).
Fixpoint bind_at (containerID : string) (owner : registrarIdentity) (pid pidStartTime : Z)
    (staged : option string) (l : list HostEntry) : res (option (list HostEntry)) :=
  match l with
  | [] => Fail (Errorf "DNS registration for container %q does not exist")
  | entry :: l =>
    if negb (String.eqb (he_ContainerID entry) containerID)
    then r ← bind_at containerID owner pid pidStartTime staged l;
         Ok (option_map (cons entry) r)
    else r ← bind_entry owner pid pidStartTime staged entry;
         Ok (option_map (λ e, e :: l) r)
  end.

(** [GenerateHostsContentChecked] on the entries. *)
Definition tab : string := str1 (chr 9).
Definition nl : string := str1 (chr 10).
Definition hosts_lines (networkName : string) (entries : list HostEntry) : list string :=
  ["127.0.0.1" +:+ tab +:+ "localhost";
   "::1" +:+ tab +:+ "localhost ip6-localhost ip6-loopback";
   "# Mini Docker Network Service Discovery (" +:+ networkName +:+ ")"]
  ++ ((λ e, he_IP e +:+ tab +:+ he_Hostname e) <$>
      filter (λ e, he_AdmissionPending e = false) entries).
Definition hosts_content (networkName : string) (entries : list HostEntry) : string :=
  str_join nl (hosts_lines networkName entries) +:+ nl.
