(* ===== verification/DnsOps.v ===== *)
(** Service discovery: the operations of [internal/dns] on the registry files
    (dns.go, dns_lock_linux.go, dns_registry_io_linux.go, dns_owner_state.go,
    generation_ownership.go, attempt_ownership.go, unregister_owned.go,
    stopped_cleanup.go, legacy_stopped_cleanup.go).

    A registry is read and replaced under the kernel lock of its network, so one
    operation is one step.  The registry directory is the entry "." of [DDns].
    Outside the sources are the contents of [/proc] ([proc]), the process
    identifier of the caller ([self]) and the longest file name the file system
    takes ([namelen]). *)
From S2P Require Import Prelude GoStrings Json Fs FsLogic Container Net.
From S2P Require Import Ownership Store Dns.

Open Scope go_scope.

Definition dns_dir : path := (DDns, ".").
Definition registry_path (networkName : string) : path := (DDns, networkName +:+ ".json").
Definition dns_lock_path (networkName : string) : path := (DDns, networkName +:+ ".lock").

(** [os.MkdirAll], [os.Lstat], the check and [os.Chmod]. *)
Definition ensureDNSDir : M unit :=
  wrapm "create DNS registry directory %q: %w" (
    sys "mkdir";;
    n ← entry dns_dir;
    match n with
    | None => modify (with_fs (insert dns_dir NDir))
    | Some NDir | Some NSymlink => mret tt
    | Some _ => throw (EIO "mkdir: not a directory")
    end);;
  wrapm "inspect DNS registry directory %q: %w" (sys "lstat");;
  n ← entry dns_dir;
  ensure match n with
    | Some NDir => None
    | _ => Some (Errorf "DNS registry path %q must be a real directory")
    end;;
  wrapm "chmod DNS registry directory %q: %w" (sys "chmod").

(** The check of the readers: is there a registry directory? *)
Definition dns_dir_exists : M bool :=
  wrapm "inspect DNS registry directory %q: %w" (sys "lstat");;
  n ← entry dns_dir;
  match n with
  | None => mret false
  | Some NDir => mret true
  | Some _ => throw (Errorf "DNS registry path %q must be a real directory")
  end.

Definition err_of {A} (r : res A) : option error :=
  match r with Ok _ => None | Fail e => Some e end.

Section dns.
Context (proc : Z → res string) (self namelen : Z).

(** * dns_lock_linux.go *)

Definition validateDNSNetworkFilenameLengthAt (networkName : string) : M unit :=
  ensure (validateDNSNetworkFilenameLength networkName);;
  wrapm "inspect DNS registry filesystem for %q: %w" (sys "fstatfs");;
  limit ← lift (wrapf "DNS registry filesystem for %q: %w"
    (maxDNSNetworkNameBytesForComponentLimit namelen));
  ensure (fail_if (limit <? len networkName)%Z
    (Errorf "invalid network name %q: exceeds %d-byte limit")).

Definition verifyDNSDirPath : M unit :=
  wrapm "inspect DNS registry directory for %q: %w" (sys "fstat");;
  wrapm "verify DNS registry directory for %q path identity: %w" (sys "lstat");;
  n ← entry dns_dir;
  ensure match n with
    | Some NDir => None
    | _ => Some (Errorf "DNS registry directory for %q changed while locked")
    end.

Definition verifyDNSLockPath (networkName : string) : M unit :=
  wrapm "inspect DNS lock %q: %w" (sys "fstat");;
  n ← entry (dns_lock_path networkName);
  match n with
  | Some (NFile _ nlink) =>
    ensure (fail_if (negb (nlink =? 1)%Z)
      (Errorf "DNS lock %q must have exactly one link, got %d"));;
    wrapm "verify DNS lock %q path identity: %w" (sys "fstatat")
  | _ => throw (Errorf "DNS lock %q must be a regular file")
  end.

(** A check under the lock that gives the lock back when it fails. *)
Definition checked (m : M unit) : M unit :=
  r ← attempt m;
  match r with Ok _ => mret tt | Fail e => ignore (sys "flock");; throw e end.

Definition withDNSNetworkLock {A} (networkName : string) (fn : M A) : M A :=
  ensure (validateDNSNetworkFilenameLength networkName);;
  wrapm "open DNS registry directory for %q: %w" (
    sys "open";;
    n ← entry dns_dir;
    match n with
    | Some NDir => mret tt
    | None => throw ErrNotExist
    | Some _ => throw (EIO "open: not a directory")
    end);;
  validateDNSNetworkFilenameLengthAt networkName;;
  wrapm "chmod DNS registry directory for %q: %w" (sys "fchmod");;
  verifyDNSDirPath;;
  wrapm "open DNS lock %q: %w" (
    sys "openat";;
    n ← entry (dns_lock_path networkName);
    match n with
    | None => modify (with_fs (insert (dns_lock_path networkName) (NFile (FText "") 1)))
    | Some NSymlink => throw (EIO "open: too many levels of symbolic links")
    | Some NDir => throw (EIO "open: is a directory")
    | Some _ => mret tt
    end);;
  wrapm "inspect DNS lock %q: %w" (sys "fstat");;
  n ← entry (dns_lock_path networkName);
  ensure match n with
    | Some (NFile _ _) => None
    | _ => Some (Errorf "DNS lock %q must be a regular file")
    end;;
  wrapm "chmod DNS lock %q: %w" (sys "fchmod");;
  wrapm "lock DNS network %q: %w" (sys "flock");;
  checked verifyDNSDirPath;;
  checked (verifyDNSLockPath networkName);;
  r ← attempt fn;
  dirIntegrity ← attempt verifyDNSDirPath;
  lockIntegrity ← attempt (verifyDNSLockPath networkName);
  unlock ← attempt (wrapm "unlock DNS network %q: %w" (sys "flock"));
  match errors_Join (errors_Join (errors_Join (err_of r) (err_of dirIntegrity))
      (err_of lockIntegrity)) (err_of unlock), r with
  | Some e, _ => throw e
  | None, Ok a => mret a
  | None, Fail e => throw e
  end.

(** * dns_registry_io_linux.go *)

Definition readDNSRegistryContents (data : file_data) (knownSize : Z) : M file_data :=
  ensure (fail_if (maxDNSRegistryBytes <? knownSize)%Z
    (Errorf "DNS registry %q exceeds %d-byte limit"));;
  wrapm "read DNS registry %q: %w" (sys "read");;
  ensure (fail_if (maxDNSRegistryBytes <? data_len data)%Z
    (Errorf "DNS registry %q exceeds %d-byte limit"));;
  mret data.

Definition readDNSRegistryFileAt (p : path) : M (option file_data) :=
  wrapm "open DNS registry %q: %w" (sys "openat");;
  n ← entry p;
  match n with
  | None => mret None
  | Some NSymlink => throw (Wrapf "DNS registry %q must be a regular file: %w"
      (EIO "open: too many levels of symbolic links"))
  | Some n =>
    wrapm "inspect DNS registry %q: %w" (sys "fstat");;
    match n with
    | NFile data nlink =>
      ensure (fail_if (negb (nlink =? 1)%Z)
        (Errorf "DNS registry %q must be a single-linked regular file"));;
      data ← readDNSRegistryContents data (data_len data);
      mret (Some data)
    | _ => throw (Errorf "DNS registry %q must be a regular file")
    end
  end.

(** [random] are the eight bytes of [crypto/rand]. *)
Definition dnsTempName (random networkName : string) : res string :=
  check (validateDNSNetworkFilenameLength networkName);;
  Ok ("." +:+ networkName +:+ ".json.tmp-" +:+ hex_encode random).

(** The temporary name is random, so it is fresh; the file is unlinked unless
    it was published. *)
Definition saveDNSRegistryFileAtomicAt (networkName : string) (data : file_data) : M unit :=
  validateDNSNetworkFilenameLengthAt networkName;;
  h ← wrapm "create DNS registry temp file %q: %w" create_temp;
  r ← attempt (
    wrapm "write DNS registry temp file %q: %w" (write_temp h data);;
    wrapm "sync DNS registry temp file %q: %w" (sys "fsync");;
    wrapm "close DNS registry temp file %q: %w" (sys "close");;
    wrapm "publish DNS registry %q: %w" (rename_temp h (registry_path networkName)));
  match r with
  | Fail e => ignore (remove_temp h);; throw e
  | Ok _ => wrapm "sync DNS registry directory: %w" (sys "fsync directory")
  end.

Definition loadEntriesCheckedAt (networkName : string) : M (option (list HostEntry)) :=
  data ← readDNSRegistryFileAt (registry_path networkName);
  match data with
  | None => mret None
  | Some data =>
    entries ← lift (wrapf "parse DNS registry %q: %w" (decodeDNSRegistry data networkName));
    ensure (validateEntries entries);;
    mret (Some entries)
  end.

Definition saveEntriesAtomicAt (networkName : string) (entries : list HostEntry) : M unit :=
  ensure (validateEntries entries);;
  data ← lift (wrapf "marshal DNS registry %q: %w" (encodeDNSRegistry networkName entries));
  saveDNSRegistryFileAtomicAt networkName data.

(** * dns_owner_state.go *)

(** [state.Open] gives a store of its own, closed again at the end. *)
Definition on_handle {A} (m : M A) : M A := λ w,
  let '(o, w') := m (with_closed false w) in (o, with_closed (w_closed w) w').
Definition with_store {A} (msg : string) (m : M A) : M A :=
  wrapm msg (sys "open state store");; on_handle m.

Definition ownerlessLegacyHostEntryActive (entry : HostEntry) : M bool :=
  with_store "open state while recovering ownerless DNS entry for container %s: %w" (
    r ← attempt (Get (he_ContainerID entry));
    match r with
    | Fail e => if errors_Is e ErrNotExist then mret false
        else throw (Wrapf "read state while recovering ownerless DNS entry: %w" e)
    | Ok c =>
      if String.eqb (Status c) StatusCreated || String.eqb (Status c) StatusStopped
      then mret false
      else if String.eqb (Status c) StatusRunning
      then
        if negb (String.eqb (Hostname c) (he_Hostname entry)) then mret false
        else
          ensure (fail_if ((PID c <=? 0)%Z || (PIDStartTime c =? 0)%Z)
            (Errorf "running container %s has invalid process identity %d/%d"));;
          lift (wrapf "probe ownerless legacy container generation %s %d/%d: %w"
            (registrarGenerationAlive proc (PID c) (PIDStartTime c)))
      else throw (Errorf "container %s has unknown lifecycle status %q")
    end).

(** The part of [hostEntryOwnerActive] after the registrar was found dead. *)
Definition adopted_entry_active (entry : HostEntry) : M bool :=
  with_store "open state while recovering DNS owner for container %s: %w" (
    r ← attempt (Get (he_ContainerID entry));
    match r with
    | Fail e => if errors_Is e ErrNotExist then mret false
        else throw (Wrapf "read state while recovering DNS owner for container %s: %w" e)
    | Ok c =>
      if String.eqb (Status c) StatusRunning
      then
        ensure (fail_if ((PID c <=? 0)%Z || (PIDStartTime c =? 0)%Z)
          (Errorf "running container %s has invalid process identity %d/%d"));;
        if negb (String.eqb (Hostname c) (he_Hostname entry)) then mret false
        else
          o ← wrapm "read network ownership while recovering DNS owner: %w"
            (GetNetworkOwnership AStore (ID c));
          match o with
          | None => mret false
          | Some networkOwner =>
            ensure (fail_if (negb (no_PID networkOwner =? PID c)%Z ||
                             negb (no_PIDStartTime networkOwner =? PIDStartTime c)%Z)
              (Errorf "network ownership for container %s belongs to process %d/%d"));;
            if String.eqb (no_VethHost networkOwner) "" &&
               negb (existsb (λ m, String.eqb (pf_ContainerIP m) (he_IP entry))
                       (slice_list (no_Mappings networkOwner)))
            then mret false
            else lift (wrapf "probe adopted container generation %s %d/%d: %w"
              (registrarGenerationAlive proc (PID c) (PIDStartTime c)))
          end
      else if String.eqb (Status c) StatusCreated || String.eqb (Status c) StatusStopped
      then mret false
      else throw (Errorf "container %s has unknown lifecycle status %q")
    end).

Definition hostEntryOwnerActive (entry : HostEntry) : M bool :=
  if he_GenerationAware entry then
    let boundPID := negb (he_GenerationPID entry =? 0)%Z in
    let boundStart := negb (he_GenerationStartTime entry =? 0)%Z in
    if negb (eqb boundPID boundStart)
    then throw (Errorf "DNS entry for container %s has incomplete child generation identity")
    else if boundPID
    then lift (wrapf "probe DNS child generation %s %d/%d: %w"
      (registrarGenerationAlive proc (he_GenerationPID entry) (he_GenerationStartTime entry)))
    else lift (registrarGenerationAlive proc (he_OwnerPID entry) (he_OwnerStartTime entry))
  else if (he_OwnerPID entry =? 0)%Z && (he_OwnerStartTime entry =? 0)%Z
  then ownerlessLegacyHostEntryActive entry
  else
    alive ← lift (registrarGenerationAlive proc (he_OwnerPID entry) (he_OwnerStartTime entry));
    if alive : bool then mret true else adopted_entry_active entry.

(** * dns.go *)

Fixpoint pruneStaleOwnedEntries (entries : list HostEntry) : M (list HostEntry * bool) :=
  match entries with
  | [] => mret ([], false)
  | entry :: entries =>
    active ← wrapm "resolve DNS ownership for container %s: %w" (hostEntryOwnerActive entry);
    '(kept, changed) ← pruneStaleOwnedEntries entries;
    mret (if active : bool then (entry :: kept, changed) else (kept, true))
  end.

Definition registerHost (networkName containerID hostname ipAddr : string)
    (admissionPending : bool) : M unit :=
  ensure (validateNetworkName networkName);;
  ensure (fail_if (String.eqb (trim_space containerID) "")
    (Errorf "container ID cannot be empty"));;
  ensure (validateHostAndIP hostname ipAddr);;
  owner ← lift (currentRegistrarIdentity proc self);
  ensureDNSDir;;
  withDNSNetworkLock networkName (
    loaded ← loadEntriesCheckedAt networkName;
    '(entries, pruned) ← pruneStaleOwnedEntries (default [] loaded);
    '(updated, changed) ← lift (entriesWithRegistration entries owner containerID hostname
      ipAddr admissionPending);
    if negb changed && negb pruned then mret tt
    else saveEntriesAtomicAt networkName updated).

Definition RegisterHost (networkName containerID hostname ipAddr : string) : M unit :=
  registerHost networkName containerID hostname ipAddr false.
Definition registerHostAdmission (networkName containerID hostname ipAddr : string) : M unit :=
  registerHost networkName containerID hostname ipAddr true.

Definition GenerateHostsContentChecked (networkName : string) : M string :=
  ensure (validateNetworkName networkName);;
  ensureDNSDir;;
  entries ← withDNSNetworkLock networkName (
    loaded ← loadEntriesCheckedAt networkName;
    match loaded with
    | None => mret []
    | Some entries =>
      '(entries, changed) ← pruneStaleOwnedEntries entries;
      (if changed : bool then saveEntriesAtomicAt networkName entries else mret tt);;
      mret entries
    end);
  mret (hosts_content networkName entries).

(** The error is dropped. *)
Definition GenerateHostsContent (networkName : string) : M string :=
  r ← attempt (GenerateHostsContentChecked networkName);
  mret (match r with Ok content => content | Fail _ => "" end).

(** * unregister_owned.go, stopped_cleanup.go, legacy_stopped_cleanup.go *)

(** [withStoppedDNSRegistry] and the body of [unregisterHostIfOwnedBy]: a change
    of the entries of a registry that exists. *)
Definition withStoppedDNSRegistry (networkName : string)
    (mutate : list HostEntry → M (list HostEntry * bool)) : M unit :=
  exists_ ← dns_dir_exists;
  if negb exists_ then mret tt
  else withDNSNetworkLock networkName (
    loaded ← loadEntriesCheckedAt networkName;
    match loaded with
    | None => mret tt
    | Some entries =>
      '(updated, changed) ← mutate entries;
      if negb changed then mret tt else saveEntriesAtomicAt networkName updated
    end).

Definition blank_container (containerID : string) : option error :=
  fail_if (String.eqb (trim_space containerID) "") (Errorf "container ID cannot be empty").

Definition unregisterHostIfOwnedBy (networkName containerID : string)
    (owner : registrarIdentity) : M unit :=
  ensure (validateNetworkName networkName);;
  ensure (blank_container containerID);;
  ensure (fail_if ((reg_PID owner <=? 0)%Z || (reg_StartTime owner =? 0)%Z)
    (Errorf "invalid DNS registrar process identity %d/%d"));;
  withStoppedDNSRegistry networkName (λ entries,
    mret (drop_entries (owned_entry containerID owner) entries)).

Definition UnregisterHostOwned (networkName containerID : string) : M unit :=
  owner ← lift (currentRegistrarIdentity proc self);
  unregisterHostIfOwnedBy networkName containerID owner.
Definition UnregisterHost (networkName containerID : string) : M unit :=
  UnregisterHostOwned networkName containerID.

Definition CleanupStoppedHostRegistrationGeneration (networkName containerID : string)
    (generationPID generationStartTime : Z) : M unit :=
  ensure (validateNetworkName networkName);;
  ensure (blank_container containerID);;
  ensure (fail_if (negb ((0 <? generationPID)%Z && negb (generationStartTime =? 0)%Z))
    (Errorf "invalid DNS child process identity %d/%d"));;
  withStoppedDNSRegistry networkName (λ entries,
    mret (drop_entries (retired_entry containerID generationPID generationStartTime) entries)).

(** The loop of [cleanupStoppedLegacyHostRegistrationsWith]: the entries that
    stay, and whether one was removed. *)
Fixpoint retire_legacy (containerID : string) (ownerActive : HostEntry → M bool)
    (entries : list HostEntry) : M (list HostEntry * bool) :=
  match entries with
  | [] => mret ([], false)
  | entry :: entries =>
    stays ← (
      if negb (String.eqb (he_ContainerID entry) containerID) || he_GenerationAware entry
      then mret true
      else if (he_OwnerPID entry =? 0)%Z && (he_OwnerStartTime entry =? 0)%Z then mret false
      else wrapm "resolve legacy DNS ownership before stopped cleanup: %w" (ownerActive entry));
    '(updated, removed) ← retire_legacy containerID ownerActive entries;
    mret (if stays : bool then (entry :: updated, removed) else (updated, true))
  end.
Definition CleanupStoppedLegacyHostRegistrations (networkName containerID : string) : M unit :=
  ensure (validateNetworkName networkName);;
  ensure (blank_container containerID);;
  withStoppedDNSRegistry networkName (retire_legacy containerID hostEntryOwnerActive).

(** * Memory of the process (generation_ownership.go, attempt_ownership.go) *)

Definition dns_key : Type := string * string. (* network, container *)
Record generationAddressReservation := mkReservation { gr_token : string; gr_ip : string }.
Record dns_memory := mkMemory {
  generationAddresses : gmap dns_key generationAddressReservation;
  attemptOwners : gmap dns_key string }.

(** [token] comes from [crypto/rand]. *)
Definition StageHostRegistrationGenerationAddress (token networkName containerID ipAddr : string)
    (mem : dns_memory) : res dns_memory :=
  check (validateNetworkName networkName);;
  check (blank_container containerID);;
  canonicalIP ← canonicalIPAddress ipAddr;
  Ok (mkMemory (<[(networkName, containerID) := mkReservation token canonicalIP]>
        (generationAddresses mem)) (attemptOwners mem)).
(** The function it returns, and the end of [BindHostRegistrationGeneration]: a
    reservation goes only if it still is the one of the token. *)
Definition drop_reservation (k : dns_key) (token : string) (mem : dns_memory) : dns_memory :=
  match generationAddresses mem !! k with
  | Some r => if String.eqb (gr_token r) token
      then mkMemory (delete k (generationAddresses mem)) (attemptOwners mem) else mem
  | None => mem
  end.

(** [meanwhile] is what other goroutines do to the memory between the look-up
    of the reservation and its removal; on an error that is all that happens to
    the memory. *)
Definition BindHostRegistrationGeneration (meanwhile : dns_memory → dns_memory)
    (mem : dns_memory) (networkName containerID : string) (pid pidStartTime : Z)
    : M dns_memory :=
  ensure (validateNetworkName networkName);;
  ensure (blank_container containerID);;
  ensure (fail_if ((pid <=? 0)%Z || (pidStartTime =? 0)%Z)
    (Errorf "invalid DNS child process identity %d/%d"));;
  owner ← lift (currentRegistrarIdentity proc self);
  let k := (networkName, containerID) in
  let staged := generationAddresses mem !! k in
  ensureDNSDir;;
  withDNSNetworkLock networkName (
    loaded ← loadEntriesCheckedAt networkName;
    match loaded with
    | None => throw (Errorf "DNS registration for container %q does not exist")
    | Some entries =>
      updated ← lift (bind_at containerID owner pid pidStartTime (gr_ip <$> staged) entries);
      match updated with
      | None => mret tt
      | Some updated => saveEntriesAtomicAt networkName updated
      end
    end);;
  mret match staged with
    | None => meanwhile mem
    | Some r => drop_reservation k (gr_token r) (meanwhile mem)
    end.

Definition BeginHostRegistrationAttempt (token networkName containerID hostname ipAddr : string)
    (mem : dns_memory) : M dns_memory :=
  ensure (fail_if (String.eqb token "")
    (Errorf "DNS attempt ownership token cannot be empty"));;
  registerHostAdmission networkName containerID hostname ipAddr;;
  mret (mkMemory (generationAddresses mem)
          (<[(networkName, containerID) := token]> (attemptOwners mem))).
(** The rollback it returns; a missing attempt has the empty token. *)
Definition rollback_attempt (token networkName containerID : string) (mem : dns_memory)
    : M dns_memory :=
  let k := (networkName, containerID) in
  if negb (String.eqb (default "" (attemptOwners mem !! k)) token) then mret mem
  else
    UnregisterHostOwned networkName containerID;;
    mret (mkMemory (generationAddresses mem) (delete k (attemptOwners mem))).
End dns.
