(* ===== verification/DnsFacts.v ===== *)
(** The entries of a registry: what makes them valid, that a stored registry is
    read back as it was, and what each change keeps. *)
From S2P Require Import Prelude GoStrings Decimal Json Container Net.
From S2P Require Import OwnershipFacts Dns.

#[local] Open Scope Z_scope.

(** * Valid registries *)

(** What [validateEntries] asks of one entry. *)
Definition entry_good (e : HostEntry) : Prop :=
  trim_space (he_ContainerID e) ≠ "" ∧ validateHostAndIP (he_Hostname e) (he_IP e) = None ∧
  canonicalIPAddress (he_IP e) = Ok (he_IP e) ∧ validateHostEntryOwner e = None.
Definition host_key (e : HostEntry) : string := to_lower (he_Hostname e).

(** Every entry is good, no container and no host name (in any case) appears
    twice. *)
Record registry_valid (l : list HostEntry) : Prop := {
  rv_good : Forall entry_good l;
  rv_containers : NoDup (he_ContainerID <$> l);
  rv_hostnames : NoDup (host_key <$> l) }.

Lemma validate_hosts_cons sc sh e l :
  validate_hosts sc sh (e :: l) = None ↔
  entry_good e ∧ he_ContainerID e ∉ sc ∧ host_key e ∉ sh ∧
  validate_hosts ({[he_ContainerID e]} ∪ sc) ({[host_key e]} ∪ sh) l = None.
Proof.
  cbn [validate_hosts]. unfold entry_good, host_key.
  rewrite !err_first_None, !wrap_err_None, !fail_if_None, !bool_decide_eq_false.
  rewrite String.eqb_neq.
  assert (Hc : (match canonicalIPAddress (he_IP e) with
    | Fail x => Some (Wrapf "DNS registry %q entry %d is invalid: %w" x)
    | Ok c => fail_if (negb (String.eqb (he_IP e) c))
        (Errorf "DNS registry %q entry %d has non-canonical IP address %q")
    end) = None ↔ canonicalIPAddress (he_IP e) = Ok (he_IP e)).
  { destruct (canonicalIPAddress (he_IP e)) as [c|x]; [|done].
    rewrite fail_if_None, negb_false_iff, String.eqb_eq. split; [by intros <-|by intros [= <-]]. }
  rewrite Hc. tauto.
Qed.

Lemma validate_hosts_iff sc sh l :
  validate_hosts sc sh l = None ↔
  Forall entry_good l ∧ NoDup (he_ContainerID <$> l) ∧ NoDup (host_key <$> l) ∧
  (∀ e, e ∈ l → he_ContainerID e ∉ sc ∧ host_key e ∉ sh).
Proof.
  revert sc sh. induction l as [|e l IH]; intros sc sh.
  { split; [intros _|done]. split_and!; [constructor..|]. by intros ? ?%elem_of_nil. }
  rewrite validate_hosts_cons, IH, Forall_cons. cbn [fmap list_fmap].
  rewrite !NoDup_cons, !list_elem_of_fmap. setoid_rewrite elem_of_union.
  setoid_rewrite elem_of_singleton. split.
  - intros (He & H1 & H2 & Hl & Hc & Hh & Hs). split_and!; try done.
    + intros (x & Ex & Hx). apply Hs in Hx as [Hx _]. apply Hx. by left.
    + intros (x & Ex & Hx). apply Hs in Hx as [_ Hx]. apply Hx. by left.
    + intros x [->|Hx]%elem_of_cons; [done|]. apply Hs in Hx. tauto.
  - intros ((He & Hl) & [Hc1 Hc] & [Hh1 Hh] & Hs).
    assert (He' : he_ContainerID e ∉ sc ∧ host_key e ∉ sh) by (apply Hs; by left).
    split_and!; try apply He'; try done.
    intros x Hx. assert (Hx' : he_ContainerID x ∉ sc ∧ host_key x ∉ sh)
      by (apply Hs; by right).
    destruct Hx' as [X1 X2]. split; intros [E|?]; [|done| |done].
    + apply Hc1. by exists x.
    + apply Hh1. by exists x.
Qed.
Lemma validateEntries_iff l : validateEntries l = None ↔ registry_valid l.
Proof.
  unfold validateEntries. rewrite validate_hosts_iff. split.
  - by intros (? & ? & ? & _).
  - by intros []; split_and!.
Qed.

(** Part of a registry. *)
Lemma valid_sublist l l' : l' `sublist_of` l → registry_valid l → registry_valid l'.
Proof.
  intros Hs [Hg Hc Hh]. split.
  - rewrite Forall_forall in *. intros e He. by eapply Hg, elem_of_sublist.
  - eapply sublist_NoDup; [exact Hc|by apply fmap_sublist].
  - eapply sublist_NoDup; [exact Hh|by apply fmap_sublist].
Qed.

(** * The stored form *)

(** An entry that JSON carries unchanged. *)
Record host_ranges (e : HostEntry) : Prop := {
  hr_container : json_safe (he_ContainerID e);
  hr_owner : min_int64 ≤ he_OwnerPID e ≤ max_int64;
  hr_owner_start : 0 ≤ he_OwnerStartTime e ≤ max_uint64;
  hr_child : min_int64 ≤ he_GenerationPID e ≤ max_int64;
  hr_child_start : 0 ≤ he_GenerationStartTime e ≤ max_uint64 }.

(** One member, left out when [empty]: the field gets its value. *)
Lemma decode_omit {A T} (fields : list (string * setter A)) empty k v l a
    (dec : json → T → res T) (get : A → T) (set : T → A → A) (x : T) :
  find_field fields k = Some (field dec get set) → dec v (get a) = Ok x →
  (empty = true → set x a = a) →
  decode_members false fields (omitempty empty k v ++ l) a
  = decode_members false fields l (set x a).
Proof.
  intros Hk Hd He. destruct empty; [by rewrite He|]. cbn. rewrite Hk.
  unfold field. by rewrite Hd.
Qed.

Lemma label_char_ascii c : label_char c = true → is_ascii c = true.
Proof.
  unfold label_char, is_alnum, is_lower, is_upper, is_digit.
  intros H. repeat (apply orb_true_iff in H as [H|H]);
    [eapply byte_in_ascii, H; lia..|]. by apply bool_decide_eq_true_1 in H as ->.
Qed.
Lemma valid_label_chars l : valid_label l = true → str_forallb label_char l = true.
Proof.
  unfold valid_label. destruct l as [|c l]; [done|]. destruct (last_byte _); [|done].
  intros H. by bool_simp.
Qed.
(** A host name is made of label characters and dots. *)
Definition host_char (c : Ascii.ascii) : bool := label_char c || bool_decide (c = "."%char).
Lemma split_chars p c s : forallb (str_forallb p) (str_split c s) = true →
  str_forallb (λ d, p d || bool_decide (d = c)) s = true.
Proof.
  induction s as [|d s IH]; [done|]. cbn [str_split str_forallb]. cbv zeta.
  destruct (bool_decide_reflect (d = c)) as [->|].
  - rewrite orb_true_r. exact IH.
  - destruct (str_split c s) as [|x l]; cbn [forallb str_forallb str1]; intros H; bool_simp.
    + rewrite H. by apply IH.
    + rewrite H. apply IH. cbn. by rewrite H1, H0.
Qed.
Lemma hostname_chars s : valid_hostname s = true → str_forallb host_char s = true.
Proof.
  intros H. apply split_chars. apply forallb_forall. intros x Hx.
  apply valid_label_chars. by eapply forallb_forall in H.
Qed.
Lemma host_char_ascii c : host_char c = true → is_ascii c = true.
Proof.
  unfold host_char. intros [H|H]%orb_true_iff; [by apply label_char_ascii|].
  by apply bool_decide_eq_true_1 in H as ->.
Qed.

Lemma host_and_ip_safe h i : validateHostAndIP h i = None →
  valid_hostname h = true ∧ json_safe h ∧ ∃ a, ParseIP i = Some a.
Proof.
  unfold validateHostAndIP. rewrite !err_first_None, !fail_if_None.
  intros (_ & _ & Hh & _ & Hi). destruct (ParseIP i) as [a|]; [|done]. bool_simp.
  split_and!; [done| |by eexists].
  eapply ascii_json_safe, str_forallb_impl, hostname_chars; [|done]. apply host_char_ascii.
Qed.

Lemma decode_unknown_member {A} (fields : list (string * setter A)) k v l a :
  find_field fields k = None →
  decode_members false fields ((k, v) :: l) a = decode_members false fields l a.
Proof. cbn. by intros ->. Qed.

#[local] Ltac host_cbn := cbn [he_ContainerID he_Hostname he_IP he_OwnerPID
  he_OwnerStartTime he_GenerationAware he_GenerationPID he_GenerationStartTime
  he_AdmissionPending zero_host] in *.

Lemma decode_host e : entry_good e → host_ranges e →
  decode_struct false host_fields (host_json e) zero_host = Ok e.
Proof.
  intros (_ & Hhi & _ & _) [Hc Ho Hos Hg Hgs].
  destruct (host_and_ip_safe _ _ Hhi) as (_ & Hh & a & Hi).
  assert (Hip : json_safe (he_IP e)) by by eapply ascii_json_safe, ParseIP_ascii.
  unfold host_json. cbn [decode_struct]. unfold enc_string. rewrite Hc, Hh, Hip.
  destruct e as [c h i op os ga gp gs ap]. host_cbn.
  cbn [app]. rewrite decode_unknown_member by done.
  assert (Hs : ∀ s old, json_safe s → dec_string (JStr s) old = Ok s).
  { intros s old E. cbn. by rewrite E. }
  match goal with |- decode_members _ _ (?x :: ?y :: ?z :: ?l) _ = _ =>
    change (x :: y :: z :: l) with
      (omitempty false (fst x) (snd x) ++ omitempty false (fst y) (snd y) ++
       omitempty false (fst z) (snd z) ++ l) end.
  cbn [fst snd].
  assert (Hz : ∀ x, (x =? 0) = true → 0 = x) by (intros x ->%Z.eqb_eq; done).
  assert (Hn : ∀ b, negb b = true → false = b) by by intros [].
  erewrite (decode_omit _ _ "container_id"); [|reflexivity|by apply Hs|done]; host_cbn.
  erewrite (decode_omit _ _ "hostname"); [|reflexivity|by apply Hs|done]; host_cbn.
  erewrite (decode_omit _ _ "ip"); [|reflexivity|by apply Hs|done]; host_cbn.
  erewrite (decode_omit _ _ "owner_pid"); [|reflexivity|by apply dec_int_in|by intros <-%Hz]; host_cbn.
  erewrite (decode_omit _ _ "owner_start_time"); [|reflexivity|by apply dec_int_in|by intros <-%Hz]; host_cbn.
  erewrite (decode_omit _ _ "generation_aware"); [|reflexivity|reflexivity|by intros <-%Hn]; host_cbn.
  erewrite (decode_omit _ _ "generation_pid"); [|reflexivity|by apply dec_int_in|by intros <-%Hz]; host_cbn.
  erewrite (decode_omit _ _ "generation_start_time"); [|reflexivity|by apply dec_int_in|by intros <-%Hz]; host_cbn.
  rewrite <- (app_nil_r (omitempty (negb ap) _ _)).
  erewrite (decode_omit _ _ "admission_pending"); [|reflexivity..|by intros <-%Hn]; host_cbn.
  done.
Qed.

(** The members of an encoded entry. *)
Lemma decode_entry_ok e : entry_good e → host_ranges e → decode_entry (host_json e) = Ok e.
Proof.
  intros He Hr. unfold decode_entry.
  assert (Hv : raw_map (host_json e) = Ok (match host_json e with JObj l => l | _ => [] end) ∧
    raw_member "schema_version" (match host_json e with JObj l => l | _ => [] end)
    = Some (JInt currentHostEntrySchemaVersion)).
  { split; [done|]. unfold host_json, omitempty. by repeat case_match. }
  destruct Hv as [Hm Hs]. rewrite Hm. cbn [wrapf mbind res_bind]. unfold need_member.
  rewrite Hs. cbn [mbind res_bind]. unfold dec_int64. rewrite dec_int_in by done.
  cbn [wrapf mbind res_bind]. rewrite Z.eqb_refl. cbn [negb fail_if check mbind res_bind].
  unfold HostEntry_UnmarshalJSON. rewrite Hm. cbn [mbind res_bind]. rewrite Hs.
  unfold dec_int64. rewrite dec_int_in by done. cbn [wrapf mbind res_bind].
  rewrite Z.eqb_refl. cbn [negb fail_if check mbind res_bind].
  by rewrite decode_host.
Qed.
Lemma decode_entries_ok l : Forall entry_good l → Forall host_ranges l →
  decode_entries (host_json <$> l) = Ok l.
Proof.
  induction 1 as [|e l He _ IH]; intros Hr; [done|].
  apply Forall_cons in Hr as [Hr Hl]. cbn [fmap list_fmap decode_entries].
  rewrite decode_entry_ok by done. cbn [mbind res_bind]. by rewrite IH.
Qed.

(** The document of a registry. *)
Definition registry_json (name : string) (l : list HostEntry) : file_data :=
  FJson true (JObj [
    ("schema_version", JInt currentDNSRegistrySchemaVersion);
    ("network_name", enc_string name);
    ("entries", JArr (host_json <$> l))]).
Lemma encode_Ok name l d : encodeDNSRegistry name l = Ok d →
  d = registry_json name l ∧ Z.of_nat (length l) ≤ maxDNSRegistryEntries.
Proof.
  unfold encodeDNSRegistry, validateDNSRegistryEntryCount.
  intros ([] & Hc%check_Ok & [= <-])%res_bind_Ok.
  apply fail_if_None in Hc. bool_simp. done.
Qed.

Lemma network_name_safe name : validateNetworkName name = None →
  name ≠ "" ∧ json_safe name.
Proof.
  unfold validateNetworkName. rewrite !err_first_None, !fail_if_None.
  intros (Hne & _ & Hv). bool_simp. split; [by apply String.eqb_neq|].
  destruct name as [|c r]; [done|]. cbn in Hv. bool_simp. apply ascii_json_safe.
  assert (Ha : ∀ d, name_char d = true → is_ascii d = true).
  { intros d. unfold name_char, is_alnum, is_lower, is_upper, is_digit. intros H1.
    repeat (apply orb_true_iff in H1 as [H1|H1]);
      [eapply byte_in_ascii, H1; lia..| | |]; by apply bool_decide_eq_true_1 in H1 as ->. }
  cbn. apply andb_true_iff. split; [|by eapply str_forallb_impl].
  apply Ha. unfold name_char. by rewrite H.
Qed.

(** A registry that was stored is read back as it was, under a name that JSON
    carries. *)
Lemma decode_registry_json name l :
  registry_valid l → Forall host_ranges l → Z.of_nat (length l) ≤ maxDNSRegistryEntries →
  decodeDNSRegistry (registry_json name l) name =
  if bool_decide (name ≠ "" ∧ json_safe name) then Ok l
  else Fail (Errorf "DNS registry network provenance %q does not match storage key %q").
Proof.
  intros [Hg _ _] Hr Hl. unfold decodeDNSRegistry, registry_json, need_member.
  cbn -[dec_string enc_string decodeCurrentRegistryEntries].
  rewrite dec_enc_string. cbn -[decodeCurrentRegistryEntries].
  destruct (decide (json_safe name)) as [Hs|Hs].
  2: { rewrite bool_decide_false by (by intros []). apply String.eqb_neq in Hs.
       by rewrite Hs, orb_true_r. }
  rewrite Hs, String.eqb_refl, orb_false_r. destruct (String.eqb name "") eqn:Hne; cbn [fail_if].
  { apply String.eqb_eq in Hne. rewrite bool_decide_false by (by intros []). done. }
  apply String.eqb_neq in Hne. rewrite bool_decide_true by done.
  cbn -[decodeCurrentRegistryEntries]. unfold decodeCurrentRegistryEntries.
  cbn [mbind res_bind]. rewrite length_fmap. unfold validateDNSRegistryEntryCount, fail_if.
  rewrite (proj2 (Z.ltb_ge _ _)) by lia. cbn [check mbind res_bind].
  by apply decode_entries_ok.
Qed.
