(* ===== verification/DnsEntries.v ===== *)
(** What each change of the registries makes of the entries: registration,
    removal and binding against declarative descriptions. *)
From S2P Require Import Prelude GoStrings Json Container Net.
From S2P Require Import NetFacts Dns DnsFacts.

#[local] Open Scope Z_scope.

(** * Registration *)

(** The entry already is this registration of this registrar. *)
Definition same_registration (owner : registrarIdentity) (cid h i : string) (e : HostEntry)
    : bool :=
  String.eqb (he_ContainerID e) cid && equal_fold (he_Hostname e) h &&
  String.eqb (he_IP e) i && (he_OwnerPID e =? reg_PID owner)%Z &&
  (he_OwnerStartTime e =? reg_StartTime owner)%Z.
(** The entry with no child generation and the given visibility. *)
Definition renewed (pending : bool) (e : HostEntry) : HostEntry :=
  mkHost (he_ContainerID e) (he_Hostname e) (he_IP e) (he_OwnerPID e) (he_OwnerStartTime e)
    true 0 0 pending.

(** Registration described by the whole registry: a name or container held by
    another registration refuses it, this registration's own entry is renewed,
    and otherwise the new entry is appended. *)
Definition register_spec (l : list HostEntry) (owner : registrarIdentity)
    (cid h i : string) (pending : bool) : res (list HostEntry) :=
  if existsb (λ e, matches cid h e && negb (same_registration owner cid h i e)) l
  then Fail (Errorf "live DNS registration conflict: container %q/hostname %q is owned")
  else if existsb (same_registration owner cid h i) l
  then Ok ((λ e, if same_registration owner cid h i e then renewed pending e else e) <$> l)
  else Ok (l ++ [registration owner cid h i pending]).

Section register.
Context (owner : registrarIdentity) (cid h i : string) (pending : bool).
Abbreviation same_reg := (same_registration owner cid h i).

Lemma same_matches e : same_reg e = true → matches cid h e = true.
Proof. unfold same_registration, matches. intros H. bool_simp. by rewrite H. Qed.

Lemma map_nomatch l : Forall (λ e, matches cid h e = false) l →
  ((λ e, if same_reg e then renewed pending e else e) <$> l) = l.
Proof.
  induction 1 as [|e l He _ IH]; [done|]. cbn. rewrite IH.
  destruct (same_reg e) eqn:E; [|done]. apply same_matches in E. congruence.
Qed.
Lemma existsb_nomatch (p : HostEntry → bool) l :
  (∀ e, p e = true → matches cid h e = true) →
  Forall (λ e, matches cid h e = false) l → existsb p l = false.
Proof.
  intros Hp. induction 1 as [|e l He _ IH]; [done|]. cbn. rewrite IH, orb_false_r.
  destruct (p e) eqn:E; [|done]. apply Hp in E. congruence.
Qed.

(** Next to an entry of this registration no other entry matches. *)
Lemma same_unique l e : registry_valid (e :: l) → same_reg e = true →
  Forall (λ x, matches cid h x = false) l.
Proof.
  intros [_ Hc Hh] He. apply Forall_forall. intros x Hx.
  apply NoDup_cons in Hc as [Hc _], Hh as [Hh _]. unfold same_registration in He. bool_simp.
  apply String.eqb_eq in H. unfold equal_fold in H3. apply String.eqb_eq in H3. subst cid.
  unfold matches. apply orb_false_iff. split.
  - apply String.eqb_neq. intros E. apply Hc. rewrite <- E. by apply list_elem_of_fmap_2.
  - unfold equal_fold. apply String.eqb_neq. intros E. apply Hh. unfold host_key.
    rewrite H3, <- E. by apply (list_elem_of_fmap_2 host_key).
Qed.

Lemma register_at_spec before l : registry_valid l →
  (r ← register_at before l owner cid h i pending; Ok r.1)
  = (r ← register_spec l owner cid h i pending; Ok (before ++ r)).
Proof.
  revert before. induction l as [|e l IH]; intros before Hv; [done|].
  assert (Hl : registry_valid l) by (eapply valid_sublist; [|done]; by constructor).
  cbn [register_at]. unfold register_spec. cbn [existsb].
  destruct (matches cid h e) eqn:Hm; cbn [negb andb orb].
  - fold (same_registration owner cid h i e).
    change (_ && _ && _ && _ && _) with (same_reg e).
    destruct (same_reg e) eqn:Hs; cbn [negb orb]; [|done].
    pose proof (same_unique l e Hv Hs) as Hn.
    rewrite existsb_nomatch; [|by intros x [? _]%andb_true_iff|done].
    cbn. rewrite Hs, (map_nomatch l Hn).
    destruct (_ && eqb _ _) eqn:Hr; cbn; [|done]. do 3 f_equal. bool_simp.
    apply eqb_prop in H0. unfold renewed. destruct e; cbn in *; congruence.
  - rewrite IH by done. unfold register_spec.
    assert (Hs : same_reg e = false).
    { destruct (same_reg e) eqn:E; [|done]. apply same_matches in E. congruence. }
    cbn. rewrite Hs. cbn [orb]. destruct (existsb _ l); [done|].
    destruct (existsb _ l); cbn; by rewrite <- app_assoc.
Qed.

(** An unchanged result is the registry itself. *)
Lemma register_at_unchanged before l l' :
  register_at before l owner cid h i pending = Ok (l', false) → l' = before ++ l.
Proof.
  revert before. induction l as [|e l IH]; intros before; [done|]. cbn [register_at].
  destruct (negb _); [|destruct (_ && _); [destruct (_ && _)|]]; [|by intros [= <-]|done..].
  intros H%IH. by rewrite <- app_assoc in H.
Qed.
End register.

(** * Removal *)

Lemma drop_entries_sublist p l : (drop_entries p l).1 `sublist_of` l.
Proof. apply sublist_filter. Qed.
Lemma drop_entries_unchanged p l : (drop_entries p l).2 = false → (drop_entries p l).1 = l.
Proof.
  unfold drop_entries. cbn. induction l as [|e l IH]; [done|]. cbn [existsb].
  intros [He Hl]%orb_false_iff. by rewrite filter_cons_True, IH.
Qed.

(** * Binding *)

(** The entry after its generation is bound. *)
Definition bound (pid start : Z) (staged : option string) (e : HostEntry) : HostEntry :=
  mkHost (he_ContainerID e) (he_Hostname e)
    (match staged with Some ip => ip | None => he_IP e end)
    (he_OwnerPID e) (he_OwnerStartTime e) true pid start false.

Lemma bind_entry_Ok owner pid start staged e r :
  bind_entry owner pid start staged e = Ok r →
  he_OwnerPID e = reg_PID owner ∧ he_OwnerStartTime e = reg_StartTime owner ∧
  he_GenerationAware e = true ∧
  ((he_GenerationPID e = 0 ∧ he_GenerationStartTime e = 0) ∨
   (he_GenerationPID e = pid ∧ he_GenerationStartTime e = start)) ∧
  match r with
  | None => bound pid start staged e = e
  | Some e' => e' = bound pid start staged e
  end.
Proof.
  unfold bind_entry. destruct (_ || _) eqn:E1; [done|]. apply orb_false_iff in E1 as [E1 E1'].
  bool_simp. destruct (negb (he_GenerationAware e)) eqn:E2; [done|].
  apply negb_false_iff in E2.
  destruct (_ && _ && _) eqn:E3.
  - intros H. assert (r = None ∧ match staged with Some ip => he_IP e = ip | None => True end)
      as [-> Hip].
    { destruct staged as [ip|]; [|by simplify_eq].
      destruct (String.eqb _ _) eqn:E; [|done]. apply String.eqb_eq in E.
      by simplify_eq. }
    bool_simp. split_and!; [done..|by right|].
    unfold bound. destruct e, staged; cbn in *; congruence.
  - destruct ((negb _ || negb _) && (negb _ || negb _)) eqn:E4; [done|]. intros H.
    injection H as <-. split_and!; try done.
    apply andb_false_iff in E4 as [E4|E4]; apply orb_false_iff in E4 as [E4 E5]; bool_simp; auto.
Qed.
Lemma bind_at_Ok cid owner pid start staged l r :
  bind_at cid owner pid start staged l = Ok r →
  ∃ l1 e l2 re, l = l1 ++ e :: l2 ∧ Forall (λ x, he_ContainerID x ≠ cid) l1 ∧
    he_ContainerID e = cid ∧ bind_entry owner pid start staged e = Ok re ∧
    r = option_map (λ e', l1 ++ e' :: l2) re.
Proof.
  revert r. induction l as [|e l IH]; intros r; [done|]. cbn [bind_at].
  destruct (String.eqb (he_ContainerID e) cid) eqn:E; cbn [negb].
  - intros (re & He & [= <-])%res_bind_Ok. apply String.eqb_eq in E.
    by exists [], e, l, re.
  - intros (r' & Hr & [= <-])%res_bind_Ok. apply String.eqb_neq in E.
    destruct (IH _ Hr) as (l1 & e' & l2 & re & -> & Hl & Hc & Hb & ->).
    exists (e :: l1), e', l2, re. split_and!; [done|by constructor|done..|].
    by destruct re.
Qed.

(** * Registration keeps a registry valid *)

(** The canonical form of a dotted address is canonical. *)
Lemma canonical_dotted i ip : first_of i = Some "."%char → canonicalIPAddress i = Ok ip →
  canonicalIPAddress ip = Ok ip ∧ ip ≠ "" ∧ is_Some (ParseIP ip).
Proof.
  intros Hf. unfold canonicalIPAddress at 1. destruct (String.eqb i ""); [done|].
  unfold ParseIP at 1. rewrite Hf. destruct (parse_ipv4 i) as [l|] eqn:Hi; [|done].
  apply parse_ipv4_v4 in Hi. cbn [mbind option_bind]. intros Eip.
  assert (ip = ip_string l) as ->.
  { rewrite <- ip_string_mapped by done. by injection Eip. }
  assert (Hne : ip_string l ≠ "").
  { intros E. pose proof (ParseIP_string l Hi) as Hp. by rewrite E in Hp. }
  split_and!; [|done|by rewrite ParseIP_string]. unfold canonicalIPAddress.
  apply String.eqb_neq in Hne. rewrite Hne, ParseIP_string, To4_mapped by done.
  rewrite <- (string_app_nil_r (ip_string l)) at 1. rewrite first_of_v4 by done.
  by rewrite ip_string_mapped.
Qed.

Section valid.
Context (owner : registrarIdentity) (cid h i : string) (pending : bool).
Context (Hcid : trim_space cid ≠ "") (Hhi : validateHostAndIP h i = None).
Context (Hdot : first_of i = Some "."%char).
Context (Hpid : 0 < reg_PID owner) (Hstart : 0 < reg_StartTime owner).

Lemma owner_ok e : he_OwnerPID e = reg_PID owner → he_OwnerStartTime e = reg_StartTime owner →
  validateHostEntryOwner (renewed pending e) = None.
Proof.
  intros E1 E2. unfold validateHostEntryOwner, renewed. cbn. rewrite E1, E2.
  rewrite (proj2 (Z.eqb_neq (reg_PID owner) 0)), (proj2 (Z.eqb_neq (reg_StartTime owner) 0)) by lia.
  rewrite (proj2 (Z.leb_gt _ _)) by lia. by destruct pending.
Qed.

Lemma registration_valid ip l : canonicalIPAddress i = Ok ip → registry_valid l →
  Forall (λ e, matches cid h e = false) l →
  registry_valid (l ++ [registration owner cid h ip pending]).
Proof.
  intros Hip [Hg Hc Hh] Hn. destruct (canonical_dotted i ip Hdot Hip) as (Hcan & Hne & Hs).
  rewrite Forall_forall in Hn.
  split; [apply Forall_app; split; [done|]; constructor; [|done]|rewrite fmap_app..].
  - split_and!; [done| |done|by apply (owner_ok (registration owner cid h ip pending))].
    revert Hhi. unfold validateHostAndIP. cbn [registration he_Hostname he_IP].
    rewrite !err_first_None, !fail_if_None. intros (? & ? & ? & _ & _).
    split_and!; [done..|by apply String.eqb_neq|]. by destruct (ParseIP ip), Hs.
  - apply NoDup_app. split_and!; [done| |apply NoDup_singleton].
    intros x (e & -> & He)%list_elem_of_fmap Hx%list_elem_of_singleton.
    specialize (Hn e He). unfold matches in Hn. cbn in Hx.
    by rewrite Hx, String.eqb_refl in Hn.
  - apply NoDup_app. split_and!; [done| |apply NoDup_singleton].
    intros x (e & -> & He)%list_elem_of_fmap Hx%list_elem_of_singleton.
    specialize (Hn e He). unfold matches, equal_fold in Hn. unfold host_key in Hx.
    cbn in Hx. by rewrite Hx, String.eqb_refl, orb_true_r in Hn.
Qed.
Lemma renewal_valid ip l : registry_valid l →
  registry_valid ((λ e, if same_registration owner cid h ip e then renewed pending e else e)
    <$> l).
Proof.
  intros [Hg Hc Hh]. set (f := λ e, if same_registration owner cid h ip e then renewed pending e else e).
  assert (E1 : he_ContainerID <$> (f <$> l) = he_ContainerID <$> l).
  { rewrite <- list_fmap_compose. apply list_fmap_ext. intros ? e _. unfold f. cbn. by case_match. }
  assert (E2 : host_key <$> (f <$> l) = host_key <$> l).
  { rewrite <- list_fmap_compose. apply list_fmap_ext. intros ? e _. unfold f. cbn. by case_match. }
  split; [|by rewrite E1|by rewrite E2]. apply Forall_fmap. eapply Forall_impl; [exact Hg|].
  intros e (H1 & H2 & H3 & H4). unfold f. cbn.
  destruct (same_registration owner cid h ip e) eqn:E; [|by split_and!].
  unfold same_registration in E. bool_simp. split_and!; try done. by apply owner_ok.
Qed.

Lemma register_spec_valid ip l l' : canonicalIPAddress i = Ok ip → registry_valid l →
  register_spec l owner cid h ip pending = Ok l' → registry_valid l'.
Proof.
  intros Hip Hv. unfold register_spec. destruct (existsb _ l) eqn:E1; [done|].
  destruct (existsb (same_registration _ _ _ _) l) eqn:E2; intros [= <-]; [by apply renewal_valid|].
  apply registration_valid; [done..|]. apply Forall_forall. intros e He.
  destruct (matches cid h e) eqn:Hm; [|done]. exfalso.
  assert (Hin : In e l) by by apply list_elem_of_In.
  destruct (same_registration owner cid h ip e) eqn:Hs.
  - assert (existsb (same_registration owner cid h ip) l = true)
      by (apply existsb_exists; eauto). congruence.
  - assert (existsb (λ e, matches cid h e && negb (same_registration owner cid h ip e)) l = true)
      by (apply existsb_exists; exists e; by rewrite Hm, Hs). congruence.
Qed.
End valid.
