(* ===== verification/DnsActs.v ===== *)
(** What the steps of every registry operation do, for all fault schedules: the
    network lock, the load, the replacement and the probes of owners. *)
From S2P Require Import Prelude GoStrings Json Fs FsLogic Durable Container.
From S2P Require Import Net.
From S2P Require Import Ownership Store StoreFacts StoreOps Dns DnsOps.
From S2P Require Import DnsFacts DnsEntries.

(** * The registry of a network as a durable document *)

Lemma registry_not_lock name name' : registry_path name ≠ dns_lock_path name'.
Proof. intros [= H]. by apply ext_apart in H. Qed.
Lemma registry_not_dir name : registry_path name ≠ dns_dir.
Proof. intros [= H%(f_equal String.length)]. rewrite string_length_app in H. cbn in H. lia. Qed.

#[export] Instance registry_document : Document (list HostEntry).
Proof.
  refine {| doc_file := registry_path; doc_scratch name := [dns_dir; dns_lock_path name];
            doc_data := registry_json |}.
  intros n n' [H|H%list_elem_of_singleton]%elem_of_cons.
  - by apply registry_not_dir in H.
  - by apply registry_not_lock in H.
Defined.

(** The entries in a registry file: what [loadEntriesCheckedAt] accepts. *)
Definition read_registry (name : string) (n : node) : res (list HostEntry) :=
  match n with
  | NFile data nlink =>
    check (fail_if (negb (nlink =? 1)%Z)
      (Errorf "DNS registry %q must be a single-linked regular file"));;
    check (fail_if (maxDNSRegistryBytes <? data_len data)%Z
      (Errorf "DNS registry %q exceeds %d-byte limit"));;
    entries ← decodeDNSRegistry data name;
    check (validateEntries entries);;
    Ok entries
  | _ => Fail (Errorf "DNS registry %q must be a regular file")
  end.
(** The registry a network has: none, the one in its file, or an error. *)
Definition registry_of (w : world) (name : string) : res (option (list HostEntry)) :=
  doc_of read_registry w name.
Abbreviation dns_unchanged := (unchanged (list HostEntry)).

Lemma unchanged_same name w w1 w2 :
  dns_unchanged name w w1 → same w1 w2 → dns_unchanged name w w2.
Proof. intros. eapply unchanged_trans; [done|by apply same_unchanged]. Qed.

Section acts.
Context (proc : Z → res string) (self namelen : Z).

(** * Directory and lock *)

#[local] Hint Unfold validateDNSNetworkFilenameLengthAt verifyDNSDirPath : keeps.
Lemma keeps_length name : keeps (validateDNSNetworkFilenameLengthAt namelen name).
Proof. unfold validateDNSNetworkFilenameLengthAt. auto 10 with keeps. Qed.
Lemma keeps_dir_path : keeps verifyDNSDirPath.
Proof. unfold verifyDNSDirPath. auto 10 with keeps. Qed.
Lemma keeps_lock_path name : keeps (verifyDNSLockPath name).
Proof.
  unfold verifyDNSLockPath. apply keeps_bind; [auto with keeps|intros _].
  apply keeps_bind; [auto with keeps|intros [[]|]]; auto with keeps.
Qed.
Lemma keeps_checked m : keeps m → keeps (checked m).
Proof.
  intros Hm. unfold checked. apply keeps_bind; [auto with keeps|].
  intros []; auto with keeps.
Qed.
Lemma keeps_dir_exists : keeps dns_dir_exists.
Proof.
  unfold dns_dir_exists. apply keeps_bind; [auto with keeps|intros _].
  apply keeps_bind; [auto with keeps|intros [[]|]]; auto with keeps.
Qed.

(** [ensureDNSDir] creates at most the directory. *)
Lemma wp_ensureDNSDir name Q w :
  (∀ w', dns_unchanged name w w' → Q (Ret tt) w') →
  (∀ w' o, dns_unchanged name w w' → (∃ e, o = Err e) ∨ o = Crash → Q o w') →
  wp ensureDNSDir Q w.
Proof.
  intros HR HE. unfold ensureDNSDir. wp_step.
  assert (Htail : ∀ w1, dns_unchanged name w w1 → wp (
    wrapm "inspect DNS registry directory %q: %w" (sys "lstat");;
    n ← entry dns_dir;
    ensure match n with
      | Some NDir => None
      | _ => Some (Errorf "DNS registry path %q must be a real directory")
      end;;
    wrapm "chmod DNS registry directory %q: %w" (sys "chmod")) Q w1).
  { intros w1 Hu. apply wp_keeps; [auto 10 with keeps| |].
    - intros w' [] Hs. apply HR. by eapply unchanged_same.
    - intros w' o Hs Ho. apply HE; [by eapply unchanged_same|done]. }
  assert (Hs0 : ∀ w', same w w' → dns_unchanged name w w') by (intros; by apply same_unchanged).
  do 3 wp_step; [|apply HE; eauto..]. do 2 wp_step.
  destruct (w_fs w' !! dns_dir) as [[]|]; wp_step;
    first [by apply HE; eauto | by apply Htail; eauto | idtac].
  apply Htail, unchanged_insert; [by apply Hs0|by left].
Qed.

(** The lock file is created on the way, nothing else changes. *)
Lemma wp_withDNSNetworkLock {A} name reads stores (fn : M A) w :
  (∀ w1, dns_unchanged name w w1 → wp fn (acts read_registry name reads stores w1) w1) →
  wp (withDNSNetworkLock namelen name fn) (acts read_registry name reads stores w) w.
Proof.
  intros Hfn. unfold withDNSNetworkLock.
  assert (Hu0 : dns_unchanged name w w) by done.
  set (tail := r ← attempt fn; _).
  assert (Htail : ∀ w1, dns_unchanged name w w1 →
    wp tail (acts read_registry name reads stores w) w1).
  { intros w1 Hu. unfold tail. do 2 wp_step. eapply wp_conseq; [by apply Hfn|].
    intros o w2 Ha%(acts_unchanged _ _ _ _ w); [|done]. destruct o as [a|e|]; [| |done].
    all: wp_step; apply wp_keeps;
      [auto using keeps_dir_path with keeps| |
       intros w3 o Hs [[x ->]| ->]; (eapply acts_same; [|done]; eapply acts_fail; eauto)].
    all: intros w3 dir Hs3. all: wp_step; apply wp_keeps;
      [auto using keeps_lock_path with keeps| |
       intros w4 o Hs [[x ->]| ->]; (eapply acts_same; [|by transitivity w3];
         eapply acts_fail; eauto)].
    all: intros w4 lck Hs4. all: wp_step; apply wp_keeps;
      [auto with keeps| |
       intros w5 o Hs [[x ->]| ->]; (eapply acts_same; [|by transitivity w3; [|transitivity w4]];
         eapply acts_fail; eauto)].
    all: intros w5 unl Hs5.
    all: assert (Hs : same w2 w5) by (by transitivity w3; [|transitivity w4]).
    all: destruct (errors_Join (errors_Join _ _) _) as [x|]; cbn beta iota; wp_step;
      (eapply acts_same; [|exact Hs]); try done; eapply acts_fail; eauto. }
  clearbody tail.
  assert (Hk : ∀ {B} (m : M B) (k : B → M A) w1, keeps m → dns_unchanged name w w1 →
    (∀ b w2, dns_unchanged name w w2 →
      wp (k b) (acts read_registry name reads stores w) w2) →
    wp (m ≫= k) (acts read_registry name reads stores w) w1).
  { intros B m k w1 Hm Hu Hk. wp_step. apply wp_keeps; [done| |].
    - intros w2 b Hs. apply Hk. by eapply unchanged_same.
    - intros w2 o Hs [[e ->]| ->]; (apply acts_failed; [by eapply unchanged_same|eauto]). }
  apply Hk; [auto with keeps|done|intros _ w1 Hu1].
  apply Hk; [|done|intros _ w2 Hu2].
  { apply keeps_wrapm, keeps_bind; [auto with keeps|intros _].
    apply keeps_bind; [auto with keeps|intros [[]|]]; auto with keeps. }
  apply Hk; [apply keeps_length|done|intros _ w3 Hu3].
  apply Hk; [auto with keeps|done|intros _ w4 Hu4].
  apply Hk; [apply keeps_dir_path|done|intros _ w5 Hu5].
  set (locked := wrapm "inspect DNS lock %q: %w" (sys "fstat");; _).
  assert (Hlocked : ∀ w6, dns_unchanged name w w6 →
    wp locked (acts read_registry name reads stores w) w6).
  { intros w6 Hu6. unfold locked.
    apply Hk; [auto with keeps|done|intros _ w7 Hu7].
    apply Hk; [auto with keeps|done|intros n w8 Hu8].
    apply Hk; [auto with keeps|done|intros _ w9 Hu9].
    apply Hk; [auto with keeps|done|intros _ w10 Hu10].
    apply Hk; [auto with keeps|done|intros _ w11 Hu11].
    apply Hk; [apply keeps_checked, keeps_dir_path|done|intros _ w12 Hu12].
    apply Hk; [apply keeps_checked, keeps_lock_path|done|intros _ w13 Hu13].
    by apply Htail. }
  clearbody locked.
  assert (Hs5 : ∀ w', same w5 w' → dns_unchanged name w w')
    by (intros; by eapply unchanged_same).
  do 4 wp_step; [|apply acts_failed; eauto..].
  do 2 wp_step. destruct (w_fs w' !! dns_lock_path name) as [[]|]; wp_step;
    first [by apply Hlocked; eauto | by apply acts_failed; eauto | idtac].
  apply Hlocked, unchanged_insert; [by apply Hs5|]. by right; left.
Qed.

(** * Loading and saving *)

Lemma wp_loadEntries name Q w :
  (∀ w' r, same w w' → registry_of w name = Ok r → Q (Ret r) w') →
  (∀ w' o, same w w' → (∃ e, o = Err e) ∨ o = Crash → Q o w') →
  wp (loadEntriesCheckedAt name) Q w.
Proof.
  intros HR HE. unfold loadEntriesCheckedAt, readDNSRegistryFileAt.
  do 4 wp_step; [|apply HE; eauto..]. do 2 wp_step. rewrite (proj1 H).
  destruct (w_fs w !! registry_path name) as [n|] eqn:Hp; cbn beta iota.
  2: { do 2 wp_step. apply HR; [done|]. unfold registry_of, doc_of. cbn. by rewrite Hp. }
  assert (Hread : registry_of w name = (l ← read_registry name n; Ok (Some l))).
  { unfold registry_of, doc_of. cbn. by rewrite Hp. }
  destruct n as [data nl| | |]; cbn beta iota; [|wp_steps; apply HE; eauto..].
  do 3 wp_step; [|apply HE; eauto..]. do 2 wp_step; [|apply HE; eauto].
  unfold readDNSRegistryContents. wp_step. do 2 wp_step; [|apply HE; eauto].
  do 3 wp_step; [|apply HE; same_trans; eauto..].
  do 2 wp_step; [|apply HE; same_trans; eauto]. do 2 wp_step.
  do 2 wp_step; [|apply HE; same_trans; eauto].
  do 2 wp_step; [|apply HE; same_trans; eauto]. wp_step.
  apply HR; [same_trans; done|]. rewrite Hread. unfold read_registry.
  repeat match goal with H : fail_if _ _ = None |- _ => rewrite H; clear H end.
  match goal with H : wrapf _ _ = Ok _ |- _ => apply wrapf_Ok in H; rewrite H end. cbn.
  by match goal with H : validateEntries _ = None |- _ => rewrite H end.
Qed.

(** The registries a save accepts. *)
Definition storable (l : list HostEntry) : Prop :=
  registry_valid l ∧ Z.of_nat (length l) ≤ maxDNSRegistryEntries.

(** [saveEntriesAtomicAt]: the old file or the whole new one. *)
Lemma wp_saveEntries name l Q w :
  (∀ w', storable l → stored name l w w' → Q (Ret tt) w') →
  (∀ w' o, dns_unchanged name w w' ∨ storable l ∧ stored name l w w' →
    (∃ e, o = Err e) ∨ o = Crash → Q o w') →
  wp (saveEntriesAtomicAt namelen name l) Q w.
Proof.
  intros HR HE. unfold saveEntriesAtomicAt, saveDNSRegistryFileAtomicAt.
  assert (Hsame : ∀ w' o, same w w' → (∃ e, o = Err e) ∨ o = Crash → Q o w').
  { intros w' o Hs. apply HE. left. by apply same_unchanged. }
  do 2 wp_step; [|apply Hsame; eauto]. apply validateEntries_iff in H.
  do 2 wp_step; [|apply Hsame; eauto].
  match goal with H : wrapf _ _ = Ok _ |- _ =>
    apply wrapf_Ok in H; apply encode_Ok in H as [-> Hc] end.
  assert (Hst : storable l) by done.
  wp_step. apply wp_keeps; [apply keeps_length| |intros w' o Hs [[e ->]| ->]; eauto].
  intros w' [] Hs. cbn beta iota. apply (wp_replace name l (registry_json name l)); [done|auto with keeps|..].
  - intros h w1 Q1 HR1 HE1. by apply wp_publish.
  - intros w2 H2. apply HR; [done|]. eapply unchanged_stored; [|done].
    by apply same_unchanged.
  - intros w2 o H2 Ho. apply HE; [|done]. destruct H2 as [H2|H2]; [left|right; split; [done|]].
    + eapply unchanged_trans; [by apply same_unchanged|done].
    + eapply unchanged_stored; [|done]. by apply same_unchanged.
Qed.

(** Saving a registry and returning [a]. *)
Lemma wp_save_registry {A} name l reads
    (stores : A → option (list HostEntry) → list HostEntry → Prop) w w1 a before :
  same w w1 → registry_of w name = Ok before → (storable l → stores a before l) →
  wp (saveEntriesAtomicAt namelen name l;; mret a) (acts read_registry name reads stores w) w1.
Proof.
  intros Hs Hp Hst. wp_step. apply wp_saveEntries.
  - intros w2 Hl H2. wp_step. eapply acts_stored; eauto.
  - intros w2 o [H2|[Hl H2]] Ho.
    + assert (Hu : dns_unchanged name w w2)
        by (eapply unchanged_trans; [by apply same_unchanged|done]).
      destruct Ho as [[e ->]| ->]; apply acts_failed; eauto.
    + destruct Ho as [[e ->]| ->]; (eapply acts_stored; eauto).
Qed.

(** * Probes of owners *)

Lemma keeps_on_handle {A} (m : M A) : keeps m → keeps (on_handle m).
Proof.
  intros Hm w. unfold wp, on_handle. specialize (Hm (with_closed false w)).
  unfold wp in Hm. destruct (m _) as [o w']. by destruct Hm as [Hf _].
Qed.
Lemma keeps_Get id : keeps (Get id).
Proof. intros w. by apply wp_Get. Qed.
Lemma keeps_GetNetworkOwnership s id : keeps (GetNetworkOwnership s id).
Proof.
  intros w. unfold GetNetworkOwnership. do 2 wp_step; [|done]. do 2 wp_step; [|done].
  unfold open_store. do 3 wp_step. destruct (w_closed w); wp_step; [done|].
  by apply wp_readNetwork.
Qed.
#[local] Hint Resolve keeps_Get keeps_GetNetworkOwnership : keeps.
#[local] Hint Extern 6 (keeps (if _ then _ else _)) => case_match : keeps.

Lemma keeps_with_store {A} msg (m : M A) : keeps m → keeps (with_store msg m).
Proof.
  intros Hm. unfold with_store. apply keeps_bind; [auto with keeps|intros _].
  by apply keeps_on_handle.
Qed.
Lemma keeps_probe e : keeps (hostEntryOwnerActive proc e).
Proof.
  unfold hostEntryOwnerActive, ownerlessLegacyHostEntryActive, adopted_entry_active.
  assert (Hl : keeps (ownerlessLegacyHostEntryActive proc e)).
  { apply keeps_with_store, keeps_bind; [auto with keeps|].
    intros [c|]; auto 10 with keeps. }
  assert (Ha : keeps (adopted_entry_active proc e)).
  { apply keeps_with_store, keeps_bind; [auto with keeps|].
    intros [c|]; [|auto 10 with keeps]. case_match; [|auto 10 with keeps].
    apply keeps_bind; [auto with keeps|intros _]. case_match; [auto with keeps|].
    apply keeps_bind; [auto with keeps|intros [o|]]; auto 10 with keeps. }
  fold (ownerlessLegacyHostEntryActive proc e). auto 10 with keeps.
Qed.

(** The entries outside the registry directory agree. *)
Definition beside (w w1 : world) : Prop :=
  ∀ q, fst q ≠ DDns → w_fs w1 !! q = w_fs w !! q.
Lemma beside_unchanged name w w1 : dns_unchanged name w w1 → beside w w1.
Proof.
  intros Hu [d s] Hq. apply Hu. cbn in *.
  intros [[= -> ->]|[[= -> ->]|[]%elem_of_nil]%elem_of_cons]%elem_of_cons; done.
Qed.
Lemma beside_same w w1 w2 : beside w w1 → same w1 w2 → beside w w2.
Proof. intros H [E _] q Hq. rewrite E. by apply H. Qed.

(** A probe of the entry, while the state directory is that of [w], answered
    [b]. *)
Definition probed (w : world) (e : HostEntry) (b : bool) : Prop :=
  ∃ w1 w2, beside w w1 ∧ hostEntryOwnerActive proc e w1 = (Ret b, w2).
(** [kept] are the entries that were found active. *)
Inductive pruned (w : world) : list HostEntry → list HostEntry → Prop :=
  | pruned_nil : pruned w [] []
  | pruned_keep e l kept :
      probed w e true → pruned w l kept → pruned w (e :: l) (e :: kept)
  | pruned_drop e l kept :
      probed w e false → pruned w l kept → pruned w (e :: l) kept.

Lemma wp_prune w l w1 Q : beside w w1 →
  (∀ w2 kept ch, same w1 w2 → pruned w l kept → (ch = false → kept = l) →
    Q (Ret (kept, ch)) w2) →
  (∀ w2 o, same w1 w2 → (∃ e, o = Err e) ∨ o = Crash → Q o w2) →
  wp (pruneStaleOwnedEntries proc l) Q w1.
Proof.
  revert w1 Q. induction l as [|e l IH]; intros w1 Q Hb HR HE; cbn [pruneStaleOwnedEntries].
  { wp_step. apply HR; [done|constructor|done]. }
  do 2 wp_step. pose proof (keeps_probe e w1) as Hk. unfold wp in Hk |- *.
  destruct (hostEntryOwnerActive proc e w1) as [o w2] eqn:Ho. cbn [fst snd] in *.
  destruct o as [active|x|]; [|apply HE; eauto..].
  assert (Hp : probed w e active) by by exists w1, w2.
  apply wp_bind, IH; [by eapply beside_same| |].
  - intros w3 kept ch Hs Hl Hc. cbn beta iota. wp_step.
    destruct active; apply HR; try (by transitivity w2); try done; try by constructor.
    intros ->. by rewrite Hc.
  - intros w3 o Hs [[x ->]| ->]; (apply HE; [by transitivity w2|eauto]).
Qed.
Lemma pruned_sublist w l kept : pruned w l kept → kept `sublist_of` l.
Proof. induction 1; by constructor. Qed.

(** * The operations *)

Definition registers (w : world) (owner : registrarIdentity) (cid h i : string)
    (pending : bool) (_ : unit) (before : option (list HostEntry)) (after : list HostEntry)
    : Prop :=
  ∃ kept ch, pruned w (default [] before) kept ∧
    entriesWithRegistration kept owner cid h i pending = Ok (after, ch) ∧ storable after.
Definition registered (w : world) (owner : registrarIdentity) (cid h i : string)
    (pending : bool) (_ : unit) (before : option (list HostEntry)) : Prop :=
  pruned w (default [] before) (default [] before) ∧
  entriesWithRegistration (default [] before) owner cid h i pending
    = Ok (default [] before, false).

Lemma entries_unchanged l owner cid h i pending l' :
  entriesWithRegistration l owner cid h i pending = Ok (l', false) → l' = l.
Proof.
  unfold entriesWithRegistration. intros (c & _ & H)%res_bind_Ok.
  by apply register_at_unchanged in H.
Qed.

Lemma wp_registerHost name cid h i pending owner w :
  currentRegistrarIdentity proc self = Ok owner →
  wp (registerHost proc self namelen name cid h i pending)
    (acts read_registry name (registered w owner cid h i pending)
       (registers w owner cid h i pending) w) w.
Proof.
  intros Ho. unfold registerHost. do 3 early. rewrite Ho. wp_step. wp_step; [|done].
  simplify_eq. wp_step. apply (wp_ensureDNSDir name).
  2: { intros w' o Hu [[e ->]| ->]; apply acts_failed; eauto. }
  intros w1 Hu1. cbn beta iota. eapply wp_conseq; cycle 1.
  { intros o w'. apply (acts_unchanged _ _ _ _ w w1), Hu1. }
  apply wp_withDNSNetworkLock. intros w2 Hu2. wp_step. apply wp_loadEntries.
  2: { intros w' o Hs [[e ->]| ->]; apply acts_err; eauto. }
  intros w3 before Hs3 Hb. cbn beta iota. wp_step.
  assert (Hbs : beside w w3).
  { eapply beside_same, Hs3. eapply beside_unchanged, unchanged_trans; done. }
  eapply wp_prune; [done| |].
  2: { intros w' o Hs [[e ->]| ->]; (apply acts_err; [by transitivity w3|eauto]). }
  intros w4 kept ch Hs4 Hp Hc. cbn beta iota.
  assert (Hs24 : same w2 w4) by by transitivity w3.
  wp_step. wp_step; [|apply acts_err; eauto].
  match goal with H : entriesWithRegistration _ _ _ _ _ _ = Ok ?r |- _ =>
    destruct r as [updated changed]; rename H into He end. cbn beta iota.
  destruct (negb changed && negb ch) eqn:Hch; cbn beta iota.
  - wp_step. bool_simp. subst changed. pose proof (entries_unchanged _ _ _ _ _ _ _ He).
    rewrite (Hc ltac:(done)) in *. subst updated. eapply acts_reads; [done|done|].
    by split.
  - apply wp_unit. eapply wp_save_registry; [done..|]. intros Hst. by exists kept, changed.
Qed.

(** The content of the hosts file for the entries that stay. *)
Definition hosts_reads (w : world) (name content : string)
    (before : option (list HostEntry)) : Prop :=
  pruned w (default [] before) (default [] before) ∧
  content = hosts_content name (default [] before).
Definition hosts_stores (w : world) (name content : string)
    (before : option (list HostEntry)) (after : list HostEntry) : Prop :=
  pruned w (default [] before) after ∧ content = hosts_content name after ∧ storable after.

Lemma wp_GenerateHostsContentChecked name w :
  wp (GenerateHostsContentChecked proc namelen name)
    (acts read_registry name (hosts_reads w name) (hosts_stores w name) w) w.
Proof.
  unfold GenerateHostsContentChecked. early. wp_step. apply (wp_ensureDNSDir name).
  2: { intros w' o Hu [[e ->]| ->]; apply acts_failed; eauto. }
  intros w1 Hu1. cbn beta iota. wp_step.
  pose (reads := λ l before, pruned w (default [] before) (default [] before) ∧
    l = default [] before).
  pose (stores := λ l before after, pruned w (default [] before) after ∧ l = after ∧
    storable after).
  eapply wp_conseq with (Q := acts read_registry name reads stores w1); cycle 1.
  { intros o w' Ha. pose proof (acts_ret _ _ _ _ (hosts_content name)
      (hosts_reads w name) (hosts_stores w name) _ _ _ Ha) as Ha'.
    assert (acts read_registry name (hosts_reads w name) (hosts_stores w name) w
      match o with Ret a => Ret (hosts_content name a) | Err e => Err e | Crash => Crash end w').
    { eapply acts_unchanged; [done|]. apply Ha'.
      - intros l b [H1 ->]. by split.
      - intros l b d (H1 & -> & H2). by split_and!. }
    by destruct o. }
  apply wp_withDNSNetworkLock. intros w2 Hu2. wp_step. apply wp_loadEntries.
  2: { intros w' o Hs [[e ->]| ->]; apply acts_err; eauto. }
  intros w3 before Hs3 Hb. cbn beta iota. destruct before as [l|]; cbn beta iota.
  2: { wp_step. eapply acts_reads; [done..|]. split; [constructor|done]. }
  assert (Hbs : beside w w3).
  { eapply beside_same, Hs3. eapply beside_unchanged, unchanged_trans; done. }
  wp_step. eapply wp_prune; [done| |].
  2: { intros w' o Hs [[e ->]| ->]; (apply acts_err; [by transitivity w3|eauto]). }
  intros w4 kept ch Hs4 Hp Hc. cbn beta iota.
  assert (Hs24 : same w2 w4) by by transitivity w3. destruct ch.
  - eapply wp_save_registry; [done..|]. by split; [|split].
  - do 2 wp_step. eapply acts_reads; [done..|]. rewrite (Hc eq_refl) in *. by split.
Qed.

(** A change of a registry that exists: [reads] holds of the entries that stay,
    [stores] of the new ones. *)
Lemma wp_withStopped name (mutate : list HostEntry → M (list HostEntry * bool))
    (P : list HostEntry → list HostEntry → bool → Prop) w :
  (∀ l w1 Q, beside w w1 → 
    (∀ w2 l' ch, same w1 w2 → P l l' ch → Q (Ret (l', ch)) w2) →
    (∀ w2 o, same w1 w2 → (∃ e, o = Err e) ∨ o = Crash → Q o w2) → wp (mutate l) Q w1) →
  wp (withStoppedDNSRegistry namelen name mutate)
    (λ o w', (w_fs w !! dns_dir = None ∧ same w w') ∨
      acts read_registry name
        (λ _ before, ∀ l, before = Some l → ∃ l', P l l' false)
        (λ _ before after, ∃ l, before = Some l ∧ P l after true ∧ storable after)
        w o w') w.
Proof.
  intros Hm. unfold withStoppedDNSRegistry, dns_dir_exists.
  do 4 wp_step; [|right; apply acts_err; eauto..].
  do 2 wp_step. destruct (w_fs w' !! dns_dir) as [[]|] eqn:Hd; wp_step;
    cbn [negb]; try by (right; apply acts_err; eauto).
  2: { left. split; [|done]. by rewrite <- (proj1 H). }
  eapply wp_conseq; cycle 1.
  { intros o w1 Ha. right. eapply (acts_unchanged _ _ _ _ w w'); [|exact Ha].
    by apply same_unchanged. }
  apply wp_withDNSNetworkLock. intros w2 Hu2. wp_step. apply wp_loadEntries.
  2: { intros w3 o Hs [[e ->]| ->]; apply acts_err; eauto. }
  intros w3 [l|] Hs3 Hb; cbn beta iota; [|wp_step; by eapply acts_reads].
  assert (Hbs : beside w w3).
  { eapply beside_same, Hs3. eapply beside_unchanged, unchanged_trans; [|done].
    by apply same_unchanged. }
  wp_step. apply Hm; [done| |].
  2: { intros w4 o Hs [[e ->]| ->]; (apply acts_err; [by transitivity w3|eauto]). }
  intros w4 l' ch Hs4 HP. cbn beta iota.
  assert (Hs24 : same w2 w4) by by transitivity w3. destruct ch; cbn [negb].
  - apply wp_unit. eapply wp_save_registry; [done..|]. intros Hst. by exists l.
  - wp_step. eapply acts_reads; [done..|]. intros ? [= <-]. eauto.
Qed.

(** Removing the entries that pass a test. *)
Definition none_dropped (p : HostEntry → bool) (_ : unit) (before : option (list HostEntry))
    : Prop := ∀ l, before = Some l → existsb p l = false.
Definition drops (p : HostEntry → bool) (_ : unit) (before : option (list HostEntry))
    (after : list HostEntry) : Prop :=
  ∃ l, before = Some l ∧ existsb p l = true ∧ after = filter (λ e, p e = false) l ∧
    storable after.
(** Without a registry directory nothing happens; otherwise the entries that
    pass the test are dropped. *)
Definition removes (p : HostEntry → bool) (name : string) (w : world) (o : outcome unit)
    (w' : world) : Prop :=
  (w_fs w !! dns_dir = None ∧ same w w') ∨
  acts read_registry name (none_dropped p) (drops p) w o w'.

Lemma wp_drop name p w :
  wp (withStoppedDNSRegistry namelen name (λ l, mret (drop_entries p l))) (removes p name w) w.
Proof.
  eapply wp_conseq; [apply (wp_withStopped name _ (λ l l' ch, (l', ch) = drop_entries p l))|].
  { intros l w1 Q _ HR _. wp_step. destruct (drop_entries p l) as [l' ch] eqn:E. by apply HR. }
  intros o w' [H|H]; [by left|right]. eapply acts_mono; [exact H|..].
  - intros u b Hb l ->. destruct (Hb l eq_refl) as (l' & E). by injection E.
  - intros u b d (l & -> & E & Hst). injection E as E1 E2. exists l. by split_and!.
Qed.

Lemma wp_unregister name cid owner w :
  wp (unregisterHostIfOwnedBy namelen name cid owner) (removes (owned_entry cid owner) name w) w.
Proof.
  unfold unregisterHostIfOwnedBy.
  do 3 (wp_step; wp_step; [|right; apply acts_err; eauto]). apply wp_drop.
Qed.
Lemma wp_CleanupGeneration name cid pid start w :
  wp (CleanupStoppedHostRegistrationGeneration namelen name cid pid start)
    (removes (retired_entry cid pid start) name w) w.
Proof.
  unfold CleanupStoppedHostRegistrationGeneration.
  do 3 (wp_step; wp_step; [|right; apply acts_err; eauto]). apply wp_drop.
Qed.

(** The entries a legacy cleanup leaves. *)
Definition legacy_gone (w : world) (cid : string) (e : HostEntry) : Prop :=
  he_ContainerID e = cid ∧ he_GenerationAware e = false ∧
  ((he_OwnerPID e = 0 ∧ he_OwnerStartTime e = 0) ∨ probed w e false).
Definition legacy_stays (w : world) (cid : string) (e : HostEntry) : Prop :=
  he_ContainerID e ≠ cid ∨ he_GenerationAware e = true ∨ probed w e true.
Inductive retired (w : world) (cid : string)
    : list HostEntry → list HostEntry → bool → Prop :=
  | retired_nil : retired w cid [] [] false
  | retired_keep e l l' ch : legacy_stays w cid e → retired w cid l l' ch →
      retired w cid (e :: l) (e :: l') ch
  | retired_drop e l l' ch : legacy_gone w cid e → retired w cid l l' ch →
      retired w cid (e :: l) l' true.
Lemma retired_sublist w cid l l' ch : retired w cid l l' ch → l' `sublist_of` l.
Proof. induction 1; by constructor. Qed.

Lemma wp_retire_legacy w cid l w1 Q : beside w w1 →
  (∀ w2 l' ch, same w1 w2 → retired w cid l l' ch → Q (Ret (l', ch)) w2) →
  (∀ w2 o, same w1 w2 → (∃ e, o = Err e) ∨ o = Crash → Q o w2) →
  wp (retire_legacy cid (hostEntryOwnerActive proc) l) Q w1.
Proof.
  revert w1 Q. induction l as [|e l IH]; intros w1 Q Hb HR HE; cbn [retire_legacy].
  { wp_step. apply HR; [done|constructor]. }
  assert (Hrest : ∀ stays w2, same w1 w2 →
    (if stays : bool then legacy_stays w cid e else legacy_gone w cid e) →
    wp ('(updated, removed) ← retire_legacy cid (hostEntryOwnerActive proc) l;
        mret (if stays then (e :: updated, removed) else (updated, true))) Q w2).
  { intros stays w2 Hs Hst. wp_step. apply IH; [by eapply beside_same| |].
    - intros w3 l' ch Hs3 Hl. cbn beta iota. wp_step.
      destruct stays; (apply HR; [by transitivity w2|econstructor; eassumption]).
    - intros w3 o Hs3 [[x ->]| ->]; (apply HE; [by transitivity w2|eauto]). }
  wp_step. destruct (negb _ || _) eqn:E1; cbn beta iota.
  { wp_step. apply (Hrest true); [done|]. apply orb_true_iff in E1 as [E|E]; [left|by right; left].
    by apply negb_true_iff, String.eqb_neq in E. }
  apply orb_false_iff in E1 as [E1 E2]. apply negb_false_iff, String.eqb_eq in E1.
  destruct (_ && _) eqn:E3; cbn beta iota.
  { wp_step. apply (Hrest false); [done|]. bool_simp. split_and!; auto. }
  wp_step. pose proof (keeps_probe e w1) as Hk. unfold wp in Hk |- *.
  destruct (hostEntryOwnerActive proc e w1) as [o w2] eqn:Ho. cbn [fst snd] in *.
  assert (Hp : ∀ b, o = Ret b → probed w e b) by (intros b ->; by exists w1, w2).
  destruct o as [b|x|]; [|apply HE; eauto..]. apply (Hrest b); [done|].
  destruct b; [by right; right; auto|]. split_and!; auto.
Qed.

Lemma wp_CleanupLegacy name cid w :
  wp (CleanupStoppedLegacyHostRegistrations proc namelen name cid)
    (λ o w', (w_fs w !! dns_dir = None ∧ same w w') ∨
      acts read_registry name
        (λ _ before, ∀ l, before = Some l → ∃ l', retired w cid l l' false)
        (λ _ before after, ∃ l, before = Some l ∧ retired w cid l after true ∧ storable after)
        w o w') w.
Proof.
  unfold CleanupStoppedLegacyHostRegistrations.
  do 2 (wp_step; wp_step; [|right; apply acts_err; eauto]).
  apply (wp_withStopped name _ (retired w cid)). intros l w1 Q Hb HR HE. by apply (wp_retire_legacy w).
Qed.

(** The registration of a container is bound to a child generation. *)
Definition is_bound (owner : registrarIdentity) (cid : string) (pid start : Z)
    (staged : option string) {A} (_ : A) (before : option (list HostEntry)) : Prop :=
  ∃ l, before = Some l ∧ bind_at cid owner pid start staged l = Ok None.
Definition binds (owner : registrarIdentity) (cid : string) (pid start : Z)
    (staged : option string) {A} (_ : A) (before : option (list HostEntry))
    (after : list HostEntry) : Prop :=
  ∃ l, before = Some l ∧ bind_at cid owner pid start staged l = Ok (Some after) ∧
    storable after.

Lemma wp_BindHostRegistrationGeneration meanwhile mem name cid pid start owner w :
  currentRegistrarIdentity proc self = Ok owner →
  let staged := gr_ip <$> generationAddresses mem !! (name, cid) in
  wp (BindHostRegistrationGeneration proc self namelen meanwhile mem name cid pid start)
    (acts read_registry name (is_bound owner cid pid start staged)
       (binds owner cid pid start staged) w) w.
Proof.
  intros Ho staged. unfold BindHostRegistrationGeneration. do 3 early. rewrite Ho.
  wp_step. wp_step; [|done].
  match goal with H : Ok owner = Ok ?a |- _ => assert (a = owner) as -> by congruence end.
  wp_step. apply (wp_ensureDNSDir name).
  2: { intros w' o Hu [[e ->]| ->]; apply acts_failed; eauto. }
  intros w1 Hu1. cbn beta iota zeta. wp_step.
  eapply wp_conseq with (Q := acts read_registry name (is_bound owner cid pid start staged)
       (binds owner cid pid start staged) w1); cycle 1.
  { intros o w' Ha%(acts_unchanged _ _ _ _ w w1); [|done].
    pose proof (λ mem', acts_ret _ _ _ _ (λ _ : unit, mem' : dns_memory)
      (is_bound owner cid pid start staged) (binds owner cid pid start staged) w o w' Ha) as Hr.
    destruct o as [[]|e|]; [wp_step; by eapply Hr|by eapply (Hr mem)..]. }
  apply wp_withDNSNetworkLock. intros w2 Hu2. wp_step. apply wp_loadEntries.
  2: { intros w' o Hs [[e ->]| ->]; apply acts_err; eauto. }
  intros w3 [l|] Hs3 Hb; cbn beta iota; [|wp_step; apply acts_err; eauto].
  wp_step. wp_step; [|apply acts_err; eauto]. cbn beta iota.
  match goal with H : bind_at _ _ _ _ _ _ = Ok ?r |- _ => destruct r as [l'|] end.
  - apply wp_unit. eapply wp_save_registry; [done..|]. intros Hst. by exists l.
  - wp_step. eapply acts_reads; [done..|]. by exists l.
Qed.
End acts.
