(* ===== verification/DnsReach.v ===== *)
(** What every call on the registries keeps: each registry file holds the
    document of a valid registry, and a live registration is taken away only by
    its registrar or by the cleanup of its own generation. *)
From S2P Require Import Prelude GoStrings Decimal Json Fs FsLogic Durable.
From S2P Require Import Container Net.
From S2P Require Import Ownership Store Dns DnsOps DnsFacts DnsEntries.
From S2P Require Import DnsActs.

#[local] Open Scope Z_scope.

(** * Registry files *)

(** The registry file of the network holds these entries. *)
Definition holds (w : world) (name : string) (l : list HostEntry) : Prop :=
  w_fs w !! registry_path name = Some (NFile (registry_json name l) 1).
Definition good_entries (l : list HostEntry) : Prop := storable l ∧ Forall host_ranges l.
Definition good_registries (w : world) : Prop :=
  ∀ name, match w_fs w !! registry_path name with
  | None => True
  | Some n => ∃ l, n = NFile (registry_json name l) 1 ∧ good_entries l
  end.

Lemma registry_of_holds w name l : holds w name l → good_entries l →
  registry_of w name =
  if (maxDNSRegistryBytes <? data_len (registry_json name l))%Z
  then Fail (Errorf "DNS registry %q exceeds %d-byte limit")
  else if bool_decide (name ≠ "" ∧ json_safe name) then Ok (Some l)
  else Fail (Errorf "DNS registry network provenance %q does not match storage key %q").
Proof.
  intros Hh [[Hv Hc] Hr]. unfold registry_of, doc_of. cbn [doc_file registry_document].
  rewrite Hh. unfold read_registry. rewrite Z.eqb_refl. cbn [negb fail_if check mbind res_bind].
  destruct (maxDNSRegistryBytes <? _)%Z; cbn [fail_if check mbind res_bind]; [done|].
  rewrite decode_registry_json by done. destruct (bool_decide _); [|done].
  cbn [mbind res_bind]. by rewrite (proj2 (validateEntries_iff l) Hv).
Qed.
Lemma good_registry_of w name before : good_registries w → registry_of w name = Ok before →
  match before with
  | None => w_fs w !! registry_path name = None
  | Some l => holds w name l ∧ good_entries l
  end.
Proof.
  intros Hg Hr. specialize (Hg name). destruct (w_fs w !! registry_path name) as [n|] eqn:Hn.
  - destruct Hg as (l & -> & Hl). rewrite (registry_of_holds w name l Hn Hl) in Hr.
    repeat case_match; by simplify_eq.
  - unfold registry_of, doc_of in Hr. cbn [doc_file registry_document] in Hr.
    rewrite Hn in Hr. by simplify_eq.
Qed.

Lemma good_sublist l l' : l' `sublist_of` l → good_entries l → good_entries l'.
Proof.
  intros Hs [[Hv Hc] Hr]. split; [split|].
  - by eapply valid_sublist.
  - apply sublist_length in Hs. lia.
  - rewrite Forall_forall in *. intros e He. by eapply Hr, elem_of_sublist.
Qed.

(** * Calls *)

(** The calls of the package on the registries; [RegisterHost],
    [BeginHostRegistrationAttempt] and its rollback come down to these. *)
Inductive dns_call :=
  | CRegister (cid h i : string) (pending : bool)
  | CHosts
  | CUnregister (cid : string)
  | CCleanupGeneration (cid : string) (pid start : Z)
  | CCleanupLegacy (cid : string)
  | CBind (meanwhile : dns_memory → dns_memory) (mem : dns_memory) (cid : string)
      (pid start : Z).

(** Container identifiers are text, and integers are machine integers. *)
Definition dns_call_ok (self : Z) (c : dns_call) : Prop :=
  in_int64 self ∧
  match c with
  | CRegister cid _ _ _ => json_safe cid
  | CBind _ _ _ pid start => in_int64 pid ∧ in_uint64 start
  | _ => True
  end.

Section run.
Context (proc : Z → res string) (self namelen : Z).

Definition run_dns (name : string) (c : dns_call) (w : world) : world :=
  match c with
  | CRegister cid h i pending => (registerHost proc self namelen name cid h i pending w).2
  | CHosts => (GenerateHostsContentChecked proc namelen name w).2
  | CUnregister cid => (UnregisterHostOwned proc self namelen name cid w).2
  | CCleanupGeneration cid pid start =>
    (CleanupStoppedHostRegistrationGeneration namelen name cid pid start w).2
  | CCleanupLegacy cid => (CleanupStoppedLegacyHostRegistrations proc namelen name cid w).2
  | CBind meanwhile mem cid pid start =>
    (BindHostRegistrationGeneration proc self namelen meanwhile mem name cid pid start w).2
  end.

(** What a call may make of the entries of its network. *)
Inductive change (w : world) : dns_call → option (list HostEntry) → list HostEntry → Prop :=
  | change_register cid h i pending owner before after :
      currentRegistrarIdentity proc self = Ok owner →
      registers proc w owner cid h i pending tt before after →
      change w (CRegister cid h i pending) before after
  | change_hosts before after :
      pruned proc w (default [] before) after → change w CHosts before after
  | change_unregister cid owner l :
      currentRegistrarIdentity proc self = Ok owner →
      change w (CUnregister cid) (Some l) (filter (λ e, owned_entry cid owner e = false) l)
  | change_cleanup cid pid start l :
      change w (CCleanupGeneration cid pid start) (Some l)
        (filter (λ e, retired_entry cid pid start e = false) l)
  | change_legacy cid l after :
      retired proc w cid l after true → change w (CCleanupLegacy cid) (Some l) after
  | change_bind meanwhile mem cid pid start owner staged l after :
      currentRegistrarIdentity proc self = Ok owner →
      bind_at cid owner pid start staged l = Ok (Some after) →
      change w (CBind meanwhile mem cid pid start) (Some l) after.

(** A call leaves every registry file as it was, or replaces that of its network
    by a storable change of the entries that were there. *)
Definition ran (name : string) (c : dns_call) (w w' : world) : Prop :=
  (∀ name', w_fs w' !! registry_path name' = w_fs w !! registry_path name') ∨
  ∃ before after, registry_of w name = Ok before ∧ stored name after w w' ∧
    change w c before after ∧ storable after.

Lemma acts_ran {A} name c reads stores w (o : outcome A) w' :
  acts read_registry name reads stores w o w' →
  (∀ a b d, stores a b d → change w c b d ∧ storable d) → ran name c w w'.
Proof.
  intros [[Hu _]|(b & d & a & Hb & Hs & Ha & _)] Hst.
  - left. intros name'. exact (unchanged_file name name' w w' Hu).
  - right. destruct (Hst _ _ _ Ha). by exists b, d.
Qed.
Lemma same_ran name c w w' : same w w' → ran name c w w'.
Proof. intros [E _]. left. by rewrite E. Qed.
Lemma removes_ran p name c w o w' :
  removes p name w o w' →
  (∀ l, change w c (Some l) (filter (λ e, p e = false) l)) → ran name c w w'.
Proof.
  intros [[_ Hs]|Ha] Hc; [by apply same_ran|]. eapply acts_ran; [done|].
  intros [] b d (l & -> & _ & -> & Hst). by split.
Qed.

Lemma wp_ran {A} (m : M A) name c w : wp m (λ _ w', ran name c w w') w → ran name c w (m w).2.
Proof. done. Qed.

Lemma run_ran name c w : ran name c w (run_dns name c w).
Proof.
  destruct c as [cid h i pending| |cid|cid pid start|cid|meanwhile mem cid pid start];
    cbn [run_dns]; apply wp_ran.
  - destruct (currentRegistrarIdentity proc self) as [owner|e] eqn:Ho.
    + eapply wp_conseq; [by apply wp_registerHost|]. intros o w' Ha.
      eapply acts_ran; [done|]. intros [] b d Hr. split; [by econstructor|].
      by destruct Hr as (? & ? & _ & _ & ?).
    + unfold registerHost. do 3 (wp_step; wp_step; [|by apply same_ran]).
      rewrite Ho. wp_steps; [done|by apply same_ran].
  - eapply wp_conseq; [apply wp_GenerateHostsContentChecked|]. intros o w' Ha.
    eapply acts_ran; [done|]. intros a b d (Hp & _ & Hst). split; [by constructor|done].
  - unfold UnregisterHostOwned.
    destruct (currentRegistrarIdentity proc self) as [owner|e] eqn:Ho; wp_step; wp_step;
      try done; [|by apply same_ran].
    eapply wp_conseq; [apply wp_unregister|]. intros o w' Hr. eapply removes_ran; [done|].
    intros l. econstructor. congruence.
  - eapply wp_conseq; [apply wp_CleanupGeneration|]. intros o w' Hr.
    eapply removes_ran; [done|]. constructor.
  - eapply wp_conseq; [apply wp_CleanupLegacy|]. intros o w' [[_ Hs]|Ha]; [by apply same_ran|].
    eapply acts_ran; [done|]. intros [] b d (l & -> & Hr & Hst). split; [by constructor|done].
  - destruct (currentRegistrarIdentity proc self) as [owner|e] eqn:Ho.
    + eapply wp_conseq; [by apply wp_BindHostRegistrationGeneration|]. intros o w' Ha.
      eapply acts_ran; [done|]. intros a b d (l & -> & Hb & Hst). split; [by econstructor|done].
    + unfold BindHostRegistrationGeneration. do 3 (wp_step; wp_step; [|by apply same_ran]).
      rewrite Ho. wp_steps; [done|by apply same_ran].
Qed.
End run.

(** * Good registries stay good *)

Lemma readProcessStat_range proc pid start st : readProcessStat proc pid = Ok (start, st) →
  0 < start ≤ max_uint64 ∧ len st = 1.
Proof.
  unfold readProcessStat. intros (text & _ & H)%res_bind_Ok.
  destruct (after_last _ _); [|done]. destruct (_ <=? 19)%nat; [done|].
  destruct (negb _) eqn:El; [done|]. destruct (parse_uint _ _) as [z|] eqn:E; [|done].
  destruct (z =? 0)%Z eqn:Ez; [done|]. injection H as <- <-. bool_simp.
  apply parse_uint_range in E. split; [lia|done].
Qed.
Lemma registrar_range proc self owner : currentRegistrarIdentity proc self = Ok owner →
  reg_PID owner = self ∧ 0 < reg_StartTime owner ≤ max_uint64.
Proof.
  unfold currentRegistrarIdentity, readProcessStartTime.
  intros (start & Hr%wrapf_Ok & [= <-])%res_bind_Ok.
  apply res_bind_Ok in Hr as ([s st] & Hs & [= <-]).
  by apply readProcessStat_range in Hs as [? _].
Qed.

(** Registration keeps what holds of every entry. *)
Lemma register_at_forall (P : HostEntry → Prop) before l owner cid h i pending r :
  (∀ e, P e → P (renewed pending e)) → P (registration owner cid h i pending) →
  Forall P before → Forall P l →
  register_at before l owner cid h i pending = Ok r → Forall P r.1.
Proof.
  intros Hren Hnew. revert before. induction l as [|e l IH]; intros before Hb Hl.
  { intros [= <-]. apply Forall_app. by split; [|constructor]. }
  apply Forall_cons in Hl as [He Hl]. cbn [register_at].
  destruct (negb _).
  { apply IH; [|done]. apply Forall_app. by split; [|constructor]. }
  destruct (_ && _); [|done].
  destruct (_ && _); intros [= <-]; apply Forall_app; (split; [done|]);
    constructor; try done. by apply (Hren e).
Qed.

Lemma change_ranges proc self w c before after :
  dns_call_ok self c → (∀ l, before = Some l → Forall host_ranges l) →
  change proc self w c before after → Forall host_ranges after.
Proof.
  intros [Hself Hc] Hb Hch.
  assert (Hsub : ∀ l l', before = Some l → l' `sublist_of` l → Forall host_ranges l').
  { intros l l' E Hs. apply Forall_forall. intros e He. specialize (Hb l E).
    rewrite Forall_forall in Hb. by eapply Hb, elem_of_sublist. }
  destruct Hch as [cid h i pending owner before after Ho (kept & ch & Hp & He & _)
    |before after Hp|cid owner l Ho|cid pid start l|cid l after Hr
    |meanwhile mem cid pid start owner staged l after Ho Hbd]; cbn in Hc.
  - unfold entriesWithRegistration in He. apply res_bind_Ok in He as (ip & _ & He).
    apply registrar_range in Ho as [Hpid Hst].
    apply (register_at_forall host_ranges) in He; [done|..].
    + intros e [? ? ? ? ?]. by split.
    + split; cbn; [done| | |done..]; [by rewrite Hpid|lia].
    + constructor.
    + apply pruned_sublist in Hp. destruct before as [l|]; [by apply (Hsub l)|].
      apply sublist_nil_r in Hp as ->. constructor.
  - apply pruned_sublist in Hp. destruct before as [l|]; [by apply (Hsub l)|].
    apply sublist_nil_r in Hp as ->. constructor.
  - by eapply Hsub, sublist_filter.
  - by eapply Hsub, sublist_filter.
  - by eapply Hsub, retired_sublist.
  - apply bind_at_Ok in Hbd as (l1 & e & l2 & re & -> & _ & _ & He & E).
    destruct re as [e'|]; [|done]. injection E as ->.
    apply bind_entry_Ok in He as (_ & _ & _ & _ & ->). destruct Hc as [Hpid Hst].
    specialize (Hb _ eq_refl). rewrite Forall_app, Forall_cons in Hb |- *.
    destruct Hb as (H1 & [? ? ? ? ?] & H2). split_and!; [done| |done]. by split.
Qed.

Lemma ran_good proc self name c w w' :
  good_registries w → dns_call_ok self c → ran proc self name c w w' → good_registries w'.
Proof.
  intros Hg Hc [Hsame|(before & after & Hb & Hs & Hch & Hst)] name'.
  { rewrite Hsame. apply Hg. }
  destruct (decide (name' = name)) as [->|Hne].
  - change (registry_path name) with (doc_file name). rewrite (proj1 Hs).
    exists after. split; [done|]. split; [done|]. eapply change_ranges; [done| |done].
    intros l ->. by apply (good_registry_of w name) in Hb as [_ [_ ?]].
  - change (registry_path name') with (doc_file name').
    rewrite (stored_other name after name' w w' Hne Hs). apply Hg.
Qed.

(** Worlds reachable from one without registries by calls of any processes; each
    call meets its own [/proc] and faults and may be interrupted, and anything
    outside the registry directory may have changed since the last one. *)
Inductive dns_reachable : world → Prop :=
  | dns_init w : (∀ name, w_fs w !! registry_path name = None) → dns_reachable w
  | dns_step proc self namelen w w0 name c :
      dns_reachable w → (∀ q, fst q = DDns → w_fs w0 !! q = w_fs w !! q) →
      dns_call_ok self c → dns_reachable (run_dns proc self namelen name c w0).

Lemma dns_reachable_good w : dns_reachable w → good_registries w.
Proof.
  induction 1 as [w H|proc self namelen w w0 name c _ IH Hs Hc].
  - intros name. by rewrite H.
  - eapply (ran_good proc self name c w0); [|done|apply run_ran].
    intros name'. rewrite Hs by done. apply IH.
Qed.

(** * Live registrations *)

Section live.
Context (proc : Z → res string).

(** The process that answers for a generation-aware entry: the child it is bound
    to, or else its registrar. *)
Definition owner_alive (e : HostEntry) : res bool :=
  if (he_GenerationPID e =? 0)%Z
  then registrarGenerationAlive proc (he_OwnerPID e) (he_OwnerStartTime e)
  else registrarGenerationAlive proc (he_GenerationPID e) (he_GenerationStartTime e).

Lemma probed_alive w e b : he_GenerationAware e = true → probed proc w e b →
  owner_alive e = Ok b.
Proof.
  intros Ha (w1 & w2 & _ & H). revert H. unfold hostEntryOwnerActive, owner_alive. rewrite Ha.
  destruct (he_GenerationPID e =? 0)%Z, (he_GenerationStartTime e =? 0)%Z; cbn [negb eqb];
    try done; unfold lift, wrapf; destruct (registrarGenerationAlive _ _ _); by intros [= ->].
Qed.

(** [e'] is the registration [e], perhaps renewed or bound. *)
Definition same_owner (e e' : HostEntry) : Prop :=
  he_ContainerID e' = he_ContainerID e ∧ he_Hostname e' = he_Hostname e ∧
  he_OwnerPID e' = he_OwnerPID e ∧ he_OwnerStartTime e' = he_OwnerStartTime e ∧
  he_GenerationAware e' = true.

(** The calls that take this registration away: its registrar unregisters it,
    or the cleanup names the generation it is bound to. *)
Definition takes_away (self : Z) (c : dns_call) (e : HostEntry) : Prop :=
  match c with
  | CUnregister cid => cid = he_ContainerID e ∧
      currentRegistrarIdentity proc self
      = Ok (mkRegistrar (he_OwnerPID e) (he_OwnerStartTime e))
  | CCleanupGeneration cid pid start => cid = he_ContainerID e ∧
      pid = he_GenerationPID e ∧ start = he_GenerationStartTime e
  | _ => False
  end.

Lemma pruned_keeps w l kept e : pruned proc w l kept → e ∈ l →
  he_GenerationAware e = true → owner_alive e = Ok true → e ∈ kept.
Proof.
  intros Hp He Ha Hl. induction Hp as [|x l kept Hx Hp IH|x l kept Hx Hp IH]; [done|..].
  - apply elem_of_cons in He as [->|He]; [by left|right; by apply IH].
  - apply elem_of_cons in He as [->|He]; [|by apply IH].
    apply (probed_alive w) in Hx; [congruence|done].
Qed.
Lemma retired_keeps w cid l l' ch e : retired proc w cid l l' ch → e ∈ l →
  he_GenerationAware e = true → e ∈ l'.
Proof.
  intros Hr He Ha. induction Hr as [|x l l' ch Hx Hp IH|x l l' ch Hx Hp IH]; [done|..].
  - apply elem_of_cons in He as [->|He]; [by left|right; by apply IH].
  - apply elem_of_cons in He as [->|He]; [|by apply IH]. destruct Hx as (_ & Hx & _). congruence.
Qed.
Lemma register_at_keeps before l owner cid h i pending r e :
  register_at before l owner cid h i pending = Ok r → e ∈ before ++ l →
  he_GenerationAware e = true → ∃ e', e' ∈ r.1 ∧ same_owner e e'.
Proof.
  revert before. induction l as [|x l IH]; intros before.
  { intros [= <-] He Ha. exists e. rewrite app_nil_r in He. split; [|done].
    apply elem_of_app. by left. }
  cbn [register_at]. destruct (negb _).
  { intros Hr He. eapply IH; [done|]. by rewrite <- app_assoc. }
  destruct (_ && _); [|done]. destruct (_ && _); intros [= <-] He Ha; [by exists e|].
  apply elem_of_app in He as [He|[->|He]%elem_of_cons].
  - exists e. split; [apply elem_of_app; by left|done].
  - eexists. split; [apply elem_of_app; right; by left|done].
  - exists e. split; [apply elem_of_app; right; by right|done].
Qed.

Lemma change_keeps self w c before after e :
  change proc self w c before after → e ∈ default [] before →
  he_GenerationAware e = true → owner_alive e = Ok true → ¬ takes_away self c e →
  ∃ e', e' ∈ after ∧ same_owner e e'.
Proof.
  intros Hch He Ha Hl Ht.
  destruct Hch as [cid h i pending owner before after Ho (kept & ch & Hp & Hr & _)
    |before after Hp|cid owner l Ho|cid pid start l|cid l after Hr
    |meanwhile mem cid pid start owner staged l after Ho Hbd]; cbn [default takes_away] in *.
  - unfold entriesWithRegistration in Hr. apply res_bind_Ok in Hr as (ip & _ & Hr).
    apply (register_at_keeps [] kept _ _ _ _ _ _ _ Hr); [|done]. by eapply pruned_keeps.
  - exists e. split; [by eapply pruned_keeps|done].
  - exists e. split; [|done]. apply list_elem_of_filter. split; [|done].
    unfold owned_entry. destruct (_ && _) eqn:E; [|done]. bool_simp.
    apply String.eqb_eq in H. destruct Ht. split; [done|]. rewrite Ho. by destruct owner; cbn in *; subst.
  - exists e. split; [|done]. apply list_elem_of_filter. split; [|done].
    unfold retired_entry. rewrite Ha. destruct (_ && _) eqn:E; [|done].
    apply andb_true_iff in E as [E1 E2]. apply String.eqb_eq in E1.
    destruct (_ && _) eqn:E3 in E2; [done|]. bool_simp. by destruct Ht.
  - exists e. split; [by eapply retired_keeps|done].
  - apply bind_at_Ok in Hbd as (l1 & x & l2 & re & -> & _ & _ & Hx & E).
    destruct re as [e'|]; [|done]. injection E as ->.
    apply bind_entry_Ok in Hx as (_ & _ & _ & _ & ->).
    apply elem_of_app in He as [He|[->|He]%elem_of_cons].
    + exists e. split; [apply elem_of_app; by left|done].
    + eexists. split; [apply elem_of_app; right; by left|done].
    + exists e. split; [apply elem_of_app; right; by right|done].
Qed.
End live.

(** * Removals *)

(** The registry of the network loses exactly the entries that pass the test;
    the other networks keep theirs. *)
Definition removed (p : HostEntry → bool) (name : string) (w w' : world) : Prop :=
  (∀ name', name' ≠ name → w_fs w' !! registry_path name' = w_fs w !! registry_path name') ∧
  ((w_fs w !! dns_dir = None ∧ w_fs w' = w_fs w) ∨
   (w_fs w !! registry_path name = None ∧ w_fs w' !! registry_path name = None) ∨
   ∃ l, holds w name l ∧ holds w' name (filter (λ e, p e = false) l)).

Lemma removes_removed p name w w' : good_registries w →
  removes p name w (Ret tt) w' → removed p name w w'.
Proof.
  intros Hw [[Hd [Hs _]]|[[Hu (before & Hb & Hn)]|Hst]].
  - split; [by intros; rewrite Hs|]. by left.
  - pose proof (λ n, unchanged_file name n w w' Hu) as Hf. cbn [doc_file] in Hf.
    split; [intros name' _; apply Hf|right].
    apply (good_registry_of w) in Hb; [|done]. destruct before as [l|].
    + right. exists l. destruct Hb as [Hl _]. split; [done|].
      change (filter _ l) with (drop_entries p l).1.
      rewrite (drop_entries_unchanged p l) by by apply Hn. unfold holds. by rewrite Hf.
    + left. split; [done|]. by rewrite Hf.
  - destruct Hst as (before & after & a & Hb & Hs & (l & -> & _ & -> & _) & _).
    split; [intros name' Hne; exact (stored_other name _ name' w w' Hne Hs)|].
    right. right. exists l. apply (good_registry_of w) in Hb; [|done].
    split; [apply Hb|apply Hs].
Qed.

