(* ===== verification/DnsText.v ===== *)
(** The texts of service discovery: the lines of the hosts file and the fields
    of [/proc/<pid>/stat]. *)
From S2P Require Import Prelude GoStrings Decimal Json Container Net.
From S2P Require Import OwnershipFacts Dns DnsFacts.

#[local] Open Scope Z_scope.

(** * Lines *)

Definition newline : Ascii.ascii := chr 10.

Lemma split_lines l : l ≠ [] → Forall (λ s, free_of newline s = true) l →
  str_split newline (str_join nl l +:+ nl) = l ++ [""].
Proof.
  intros Hne Hl. induction Hl as [|s l Hs Hl IH]; [done|]. destruct l as [|t l].
  - exact (str_split_free_app newline s "" Hs).
  - cbn [str_join] in *. rewrite <- !string_app_assoc.
    change (nl +:+ ?x) with (String newline x). rewrite str_split_free_app by done.
    by rewrite IH.
Qed.

Lemma free_of_app c s t : free_of c (s +:+ t) = free_of c s && free_of c t.
Proof. apply str_forallb_app. Qed.
Lemma free_of_impl p c s : str_forallb p s = true → p c = false → free_of c s = true.
Proof.
  intros Hs Hc. eapply str_forallb_impl; [|exact Hs]. intros d Hd.
  apply bool_decide_eq_true_2. congruence.
Qed.

(** An entry takes one line of the hosts file. *)
Definition host_line (e : HostEntry) : string := he_IP e +:+ tab +:+ he_Hostname e.
Lemma host_line_free e : entry_good e → free_of newline (host_line e) = true.
Proof.
  intros (_ & Hhi & _ & _). destruct (host_and_ip_safe _ _ Hhi) as (Hh & _ & a & Hi).
  unfold host_line. rewrite !free_of_app. apply ParseIP_ip in Hi. apply hostname_chars in Hh.
  by rewrite (free_of_impl ip_char _ _ Hi), (free_of_impl host_char _ _ Hh).
Qed.
Lemma network_name_chars name : validateNetworkName name = None →
  str_forallb name_char name = true.
Proof.
  unfold validateNetworkName. rewrite !err_first_None, !fail_if_None. intros (_ & _ & Hv).
  bool_simp. destruct name as [|c r]; [done|]. cbn in Hv |- *. bool_simp.
  rewrite H0, andb_true_r. unfold name_char. by rewrite H.
Qed.

(** The published entries. *)
Definition published (l : list HostEntry) : list HostEntry :=
  filter (λ e, he_AdmissionPending e = false) l.
Lemma hosts_content_lines name l : validateNetworkName name = None → Forall entry_good l →
  str_split newline (hosts_content name l) =
  ["127.0.0.1" +:+ tab +:+ "localhost";
   "::1" +:+ tab +:+ "localhost ip6-localhost ip6-loopback";
   "# Mini Docker Network Service Discovery (" +:+ name +:+ ")"]
  ++ (host_line <$> published l) ++ [""].
Proof.
  intros Hn Hl. unfold hosts_content. rewrite split_lines; [|done|].
  { unfold hosts_lines. by rewrite <- app_assoc. }
  apply network_name_chars in Hn. unfold hosts_lines.
  apply Forall_app. split.
  - repeat constructor; try done. rewrite !free_of_app, (free_of_impl name_char _ _ Hn); done.
  - apply Forall_fmap, Forall_forall. intros e [_ He]%list_elem_of_filter.
    rewrite Forall_forall in Hl. by apply host_line_free, Hl.
Qed.

(** * Fields of a stat file *)

Lemma prefix_refl_app (s t : string) : String.prefix s (s +:+ t) = true.
Proof.
  induction s as [|c s IH]; [by destruct t|]. rewrite string_app_cons.
  cbn [String.prefix]. by destruct (Ascii.ascii_dec c c).
Qed.

(** The text after the last ") ". *)
Lemma after_last_free s : free_of ")"%char s = true → after_last ") " s = None.
Proof.
  induction s as [|c s IH]; [done|]. intros [Hc Hs]%free_cons. cbn [after_last].
  rewrite IH by done. unfold has_prefix. cbn [String.prefix].
  by destruct (Ascii.ascii_dec ")" c) as [E|].
Qed.
Lemma after_last_app pre rest : free_of ")"%char rest = true →
  after_last ") " (pre +:+ ") " +:+ rest) = Some rest.
Proof.
  intros Hr. induction pre as [|c pre IH].
  - assert (Hs : after_last ") " (" " +:+ rest) = None)
      by (apply after_last_free; by rewrite free_of_app, Hr).
    rewrite string_app_nil_l. change (") " +:+ rest) with (String ")" (" " +:+ rest)).
    cbn [after_last]. rewrite Hs. unfold has_prefix.
    change (String ")" (" " +:+ rest)) with (") " +:+ rest). by rewrite prefix_refl_app.
  - rewrite string_app_cons. cbn [after_last]. by rewrite IH.
Qed.

(** The characters of a field: ASCII, no white space, no parenthesis. *)
Definition stat_char (c : Ascii.ascii) : bool :=
  is_ascii c && negb (is_space (byte_val c)) && bool_decide (c ≠ ")"%char).
Definition stat_field (s : string) : Prop := s ≠ "" ∧ str_forallb stat_char s = true.

Lemma fields_word cur s t : str_forallb stat_char s = true →
  fields_from cur (runes (s +:+ t)) = fields_from (cur +:+ s) (runes t).
Proof.
  revert cur. induction s as [|c s IH]; intros cur; [by rewrite string_app_nil_r|].
  cbn [str_forallb]. intros [Hc Hs]%andb_true_iff. rewrite string_app_cons. cbn [runes].
  unfold stat_char in Hc. bool_simp. unfold is_ascii in H. rewrite H.
  cbn [fields_from rune_ok rune_val rune_bytes]. rewrite H1. cbn [andb].
  rewrite IH by done. unfold str1. by rewrite <- string_app_assoc.
Qed.
Lemma fields_joined l tail : Forall stat_field l → tail = "" ∨ tail = nl →
  str_fields (str_join " " l +:+ tail) = l.
Proof.
  intros Hl Ht. unfold str_fields. induction Hl as [|s l [Hne Hs] Hl IH].
  { by destruct Ht as [-> | ->]. }
  apply String.eqb_neq in Hne. destruct l as [|s' l].
  - cbn [str_join]. rewrite fields_word by done. rewrite string_app_nil_l.
    assert (Hnl : runes nl = [Rune nl 10 true]) by (vm_compute; reflexivity).
    destruct Ht as [-> | ->]; [cbn|rewrite Hnl; cbn]; by rewrite Hne.
  - cbn [str_join] in *. rewrite <- !string_app_assoc, fields_word by done.
    assert (Hsp : ∀ x, runes (" " +:+ x) = Rune " " 32 true :: runes x) by done.
    rewrite string_app_nil_l, Hsp. cbn [fields_from rune_ok rune_val].
    change (true && is_space 32) with true. cbn iota. by rewrite Hne, IH.
Qed.
Lemma joined_free l tail : Forall stat_field l → tail = "" ∨ tail = nl →
  free_of ")"%char (str_join " " l +:+ tail) = true.
Proof.
  intros Hl Ht. rewrite free_of_app. apply andb_true_iff. split; [|by destruct Ht as [-> | ->]].
  assert (Hf : ∀ s, stat_field s → free_of ")"%char s = true).
  { intros s [_ Hs]. eapply str_forallb_impl; [|exact Hs]. intros c Hc.
    unfold stat_char in Hc. by apply andb_true_iff in Hc as [_ ?]. }
  induction Hl as [|s l Hs Hl IH]; [done|]. destruct l as [|s' l]; [by apply Hf|].
  cbn [str_join] in *. by rewrite !free_of_app, Hf, IH.
Qed.
Lemma digit_stat c : is_digit c = true → stat_char c = true.
Proof. by destruct c as [[] [] [] [] [] [] [] []]. Qed.
