(* ===== verification/DnsProps.v ===== *)
(** What service discovery promises: its registries stay valid whatever
    interrupts a call, a live registration is kept, and each call does exactly
    what it says to the registry of its network. *)
From S2P Require Import Prelude GoStrings Decimal Json Fs FsLogic Durable.
From S2P Require Import Container Net.
From S2P Require Import NetFacts OwnershipFacts Ownership Store.
From S2P Require Import Dns DnsOps DnsFacts DnsEntries DnsActs DnsReach.
From S2P Require Import DnsText.

#[local] Open Scope Z_scope.

(** * A concrete run *)

(** Process 100 and 200 register, 300 is a child; the command name of 100 looks
    like the end of a command. *)
Definition stat_line (pid : Z) (comm state : string) (start : Z) : string :=
  pretty pid +:+ " (" +:+ comm +:+ ") " +:+
  (str_join " " ([state] ++ replicate 18 "1" ++ [pretty start; "0"]) +:+ nl).
Definition procs (pid : Z) : res string :=
  if (pid =? 100)%Z then Ok (stat_line 100 "mini) Z ctl" "S" 5000)
  else if (pid =? 200)%Z then Ok (stat_line 200 "minictl" "R" 6000)
  else if (pid =? 300)%Z then Ok (stat_line 300 "sh" "S" 7000)
  else Fail ErrNotExist.
Definition empty_dns : world := World ∅ ∅ false [] [].
Definition web_pending : world :=
  run_dns procs 100 255 "br0" (CRegister "c1" "web" "10.0.0.2" true) empty_dns.
Definition two_hosts : world :=
  run_dns procs 200 255 "br0" (CRegister "c2" "db" "10.0.0.3" false) web_pending.
Definition web_bound : world :=
  run_dns procs 100 255 "br0" (CBind (λ m, m) (mkMemory ∅ ∅) "c1" 300 7000) two_hosts.

Lemma web_pending_reachable : dns_reachable web_pending.
Proof.
  apply (dns_step procs 100 255 empty_dns); [by apply dns_init|done|].
  split; [by split|vm_compute; reflexivity].
Qed.
Lemma two_hosts_reachable : dns_reachable two_hosts.
Proof.
  apply (dns_step procs 200 255 web_pending); [apply web_pending_reachable|done|].
  split; [by split|vm_compute; reflexivity].
Qed.
Lemma web_bound_reachable : dns_reachable web_bound.
Proof.
  apply (dns_step procs 100 255 two_hosts); [apply two_hosts_reachable|done|].
  by repeat split.
Qed.
Definition web_entry : HostEntry := mkHost "c1" "web" "10.0.0.2" 100 5000 true 300 7000 false.
Definition db_entry : HostEntry := mkHost "c2" "db" "10.0.0.3" 200 6000 true 0 0 false.
Lemma web_bound_holds : holds web_bound "br0" [web_entry; db_entry].
Proof. vm_compute. reflexivity. Qed.

(** A sequence that returned went through its first call. *)
Lemma bind_Ret_inv {A B} (m : M A) (k : A → M B) w b w' : (m ≫= k) w = (Ret b, w') →
  ∃ a w1, m w = (Ret a, w1) ∧ k a w1 = (Ret b, w').
Proof. unfold mbind, M_bind. destruct (m w) as [[a|e|] w1]; [eauto|done..]. Qed.
Lemma hex_encode_length s : String.length (hex_encode s) = (2 * String.length s)%nat.
Proof.
  induction s as [|c s IH]; [done|]. cbn [hex_encode String.length].
  rewrite string_length_app, IH. unfold hex_byte. cbn. lia.
Qed.

(** * Registries *)

(** C26. In every world reachable by any processes registering, publishing,
    binding, unregistering and cleaning up, with any failures and crashes, each
    registry file is whole and holds a valid registry: complete owners,
    canonical addresses, and no container or host name (in any case) twice;
    unless it outgrew the size limit it is read back exactly. *)
Theorem registries_stay_valid w name :
  dns_reachable w → validateNetworkName name = None →
  w_fs w !! registry_path name = None ∨
  ∃ l, holds w name l ∧ registry_valid l ∧ Z.of_nat (length l) ≤ maxDNSRegistryEntries ∧
    (data_len (registry_json name l) ≤ maxDNSRegistryBytes →
     registry_of w name = Ok (Some l)).
Proof.
  intros Hw Hn. pose proof (dns_reachable_good w Hw name) as Hg.
  destruct (w_fs w !! registry_path name) as [n|] eqn:E; [right|by left].
  destruct Hg as (l & -> & Hl). exists l. destruct (Hl) as [[Hv Hc] _].
  split_and!; [exact E|exact Hv|exact Hc|]. intros Hd.
  rewrite (registry_of_holds w name l E Hl), (proj2 (Z.ltb_ge _ _)) by done.
  by rewrite bool_decide_true by by apply network_name_safe.
Qed.
Lemma registries_stay_valid_witness :
  w_fs web_bound !! registry_path "br0" = None ∨
  ∃ l, holds web_bound "br0" l ∧ registry_valid l ∧
    Z.of_nat (length l) ≤ maxDNSRegistryEntries ∧
    (data_len (registry_json "br0" l) ≤ maxDNSRegistryBytes →
     registry_of web_bound "br0" = Ok (Some l)).
Proof.
  apply (registries_stay_valid web_bound "br0" web_bound_reachable). vm_compute. reflexivity.
Defined.

(** C25. A registration whose process is alive (the child generation it is bound
    to, or else its registrar) survives every call of every process, completed,
    failed or interrupted: only its own registrar unregistering it, or the
    cleanup of the very generation it is bound to, takes it away. *)
Theorem live_registration_kept proc self namelen w name c l e :
  dns_reachable w → registry_of w name = Ok (Some l) → e ∈ l →
  he_GenerationAware e = true → owner_alive proc e = Ok true → ¬ takes_away proc self c e →
  ∀ called, ∃ l' e', holds (run_dns proc self namelen called c w) name l' ∧ e' ∈ l' ∧
    same_owner e e'.
Proof.
  intros Hw Hr He Ha Hal Ht called. pose proof (dns_reachable_good w Hw) as Hg.
  destruct (good_registry_of w name _ Hg Hr) as [Hl _].
  destruct (run_ran proc self namelen called c w) as [Hs|(before & after & Hb & Hs & Hch & _)].
  { exists l, e. split_and!; [|done..]. unfold holds. by rewrite Hs. }
  destruct (decide (name = called)) as [->|Hne].
  - assert (before = Some l) as -> by congruence.
    destruct (change_keeps proc self w c _ after e Hch He Ha Hal Ht) as (e' & ? & ?).
    exists after, e'. split_and!; [|done..]. apply Hs.
  - exists l, e. split_and!; [|done..]. unfold holds.
    change (registry_path name) with (doc_file name).
    by rewrite (stored_other called after name _ _ Hne Hs).
Qed.
Lemma live_registration_kept_witness :
  ∃ l' e', holds (run_dns procs 200 255 "br0" (CRegister "c1" "web" "10.0.0.9" true) web_bound)
    "br0" l' ∧ e' ∈ l' ∧ same_owner web_entry e'.
Proof.
  apply (live_registration_kept procs 200 255 web_bound "br0"
    (CRegister "c1" "web" "10.0.0.9" true) [web_entry; db_entry] web_entry
    web_bound_reachable); [vm_compute; reflexivity|by left|done|vm_compute; reflexivity|].
  intros [].
Defined.

(** * Registration *)

(** A call that returned passed its first check. *)
Lemma ensure_passed {A} e (m : M A) w a w' : (ensure e;; m) w = (Ret a, w') →
  e = None ∧ m w = (Ret a, w').
Proof. by destruct e. Qed.

(** C27. A successful registration: the entries found dead are dropped, no
    remaining entry had the container or the host name (in any case) unless it
    already was this registration, which is then renewed in place; otherwise the
    new entry is appended. Nothing else changes. *)
Theorem registerHost_exact proc self namelen name cid h i pending owner w w' :
  dns_reachable w → currentRegistrarIdentity proc self = Ok owner →
  registerHost proc self namelen name cid h i pending w = (Ret tt, w') →
  ∃ before kept ip after,
    registry_of w name = Ok before ∧ pruned proc w (default [] before) kept ∧
    canonicalIPAddress i = Ok ip ∧ register_spec kept owner cid h ip pending = Ok after ∧
    (holds w' name after ∨
     after = default [] before ∧
     w_fs w' !! registry_path name = w_fs w !! registry_path name) ∧
    ∀ name', name' ≠ name → w_fs w' !! registry_path name' = w_fs w !! registry_path name'.
Proof.
  intros Hw Ho Hrun. pose proof (dns_reachable_good w Hw) as Hg.
  pose proof (wp_registerHost proc self namelen name cid h i pending owner w Ho) as Hwp.
  unfold wp in Hwp. rewrite Hrun in Hwp. cbn [fst snd] in Hwp.
  assert (Hspec : ∀ before kept ip r, registry_of w name = Ok before →
    pruned proc w (default [] before) kept → 
    register_at [] kept owner cid h ip pending = Ok r →
    register_spec kept owner cid h ip pending = Ok r.1).
  { intros before kept ip r Hb Hp Hr.
    assert (Hv : registry_valid kept).
    { apply pruned_sublist in Hp. eapply valid_sublist; [exact Hp|].
      apply (good_registry_of w) in Hb; [|done]. destruct before as [l|]; [by apply Hb|].
      split; constructor. }
    pose proof (register_at_spec owner cid h ip pending [] kept Hv) as E. rewrite Hr in E.
    destruct (register_spec _ _ _ _ _ _); [by injection E as <-|done]. }
  destruct Hwp as [[Hu (before & Hb & Hp & He)]|(before & after & a & Hb & Hs & Hreg & _)].
  - pose proof He as He'. unfold entriesWithRegistration in He'.
    apply res_bind_Ok in He' as (ip & Hip & He').
    exists before, (default [] before), ip, (default [] before). split_and!; [done..| | |].
    + by apply (Hspec before _ ip (_, false)).
    + right. split; [done|]. exact (unchanged_file name name w w' Hu).
    + intros name' _. exact (unchanged_file name name' w w' Hu).
  - destruct Hreg as (kept & ch & Hp & He & _). unfold entriesWithRegistration in He.
    apply res_bind_Ok in He as (ip & Hip & He).
    exists before, kept, ip, after. split_and!; [done..| | |].
    + by apply (Hspec before kept ip (after, ch)).
    + left. apply Hs.
    + intros name' Hne. exact (stored_other name after name' w w' Hne Hs).
Qed.
Lemma registerHost_exact_witness : ∃ w',
  registerHost procs 200 255 "br0" "c3" "cache" "10.0.0.4" false web_bound = (Ret tt, w') ∧
  ∃ before kept ip after,
    registry_of web_bound "br0" = Ok before ∧ pruned procs web_bound (default [] before) kept ∧
    canonicalIPAddress "10.0.0.4" = Ok ip ∧
    register_spec kept (mkRegistrar 200 6000) "c3" "cache" ip false = Ok after ∧
    (holds w' "br0" after ∨
     after = default [] before ∧
     w_fs w' !! registry_path "br0" = w_fs web_bound !! registry_path "br0") ∧
    ∀ name', name' ≠ "br0" →
      w_fs w' !! registry_path name' = w_fs web_bound !! registry_path name'.
Proof.
  eexists. split; [vm_compute; reflexivity|].
  apply (registerHost_exact procs 200 255 "br0" "c3" "cache" "10.0.0.4" false
    (mkRegistrar 200 6000) web_bound _ web_bound_reachable); vm_compute; reflexivity.
Defined.

(** * Removal *)


(** * Binding *)

(** C28. A successful bind finds the container's entry owned by this very
    registrar and free or already bound to the same child; it publishes the
    child's identity and the staged address in one replacement and touches no
    other entry. An entry bound to another child generation is never rebound. *)
Theorem bind_exact proc self namelen meanwhile mem name cid pid start owner w mem' w' :
  dns_reachable w → currentRegistrarIdentity proc self = Ok owner →
  BindHostRegistrationGeneration proc self namelen meanwhile mem name cid pid start w
    = (Ret mem', w') →
  ∃ l1 e l2, holds w name (l1 ++ e :: l2) ∧ he_ContainerID e = cid ∧
    he_OwnerPID e = reg_PID owner ∧ he_OwnerStartTime e = reg_StartTime owner ∧
    he_GenerationAware e = true ∧
    ((he_GenerationPID e = 0 ∧ he_GenerationStartTime e = 0) ∨
     (he_GenerationPID e = pid ∧ he_GenerationStartTime e = start)) ∧
    holds w' name (l1 ++ bound pid start (gr_ip <$> generationAddresses mem !! (name, cid)) e
                      :: l2).
Proof.
  intros Hw%dns_reachable_good Ho Hrun.
  pose proof (wp_BindHostRegistrationGeneration proc self namelen meanwhile mem name cid pid
    start owner w Ho) as Hwp. cbv zeta in Hwp. unfold wp in Hwp. rewrite Hrun in Hwp.
  cbn [fst snd] in Hwp.
  destruct Hwp as [[Hu (before & Hb & l & -> & Hbd)]
    |(before & after & a & Hb & Hs & (l & -> & Hbd & _) & _)];
    apply (good_registry_of w) in Hb as [Hl _]; try done;
    apply bind_at_Ok in Hbd as (l1 & e & l2 & re & -> & _ & Hc & He & E);
    destruct re as [e'|]; try done; apply bind_entry_Ok in He as (H1 & H2 & H3 & H4 & H5);
    exists l1, e, l2; split_and!; try done.
  - rewrite H5. unfold holds. pose proof (unchanged_file name name w w' Hu) as Hf.
    cbn [doc_file registry_document] in Hf. by rewrite Hf.
  - injection E as ->. subst e'. apply Hs.
Qed.
Definition staged_mem : dns_memory :=
  mkMemory {[("br0", "c1") := mkReservation "t" "10.0.0.7"]} ∅.
Lemma bind_exact_witness : ∃ mem' w',
  BindHostRegistrationGeneration procs 100 255 (λ m, m) staged_mem "br0" "c1" 300 7000 two_hosts
    = (Ret mem', w') ∧
  ∃ l1 e l2, holds two_hosts "br0" (l1 ++ e :: l2) ∧ he_ContainerID e = "c1" ∧
    he_OwnerPID e = 100 ∧ he_OwnerStartTime e = 5000 ∧ he_GenerationAware e = true ∧
    ((he_GenerationPID e = 0 ∧ he_GenerationStartTime e = 0) ∨
     (he_GenerationPID e = 300 ∧ he_GenerationStartTime e = 7000)) ∧
    holds w' "br0" (l1 ++ bound 300 7000
      (gr_ip <$> generationAddresses staged_mem !! ("br0", "c1")) e :: l2).
Proof.
  eexists _, _. split; [vm_compute; reflexivity|].
  eapply (bind_exact procs 100 255 (λ m, m) staged_mem "br0" "c1" 300 7000
    (mkRegistrar 100 5000) two_hosts _ _ two_hosts_reachable); vm_compute; reflexivity.
Defined.

(** * The hosts file *)

(** C30. The hosts file of a network has the three fixed lines and then one line
    per published entry found active, address and host name in registry order:
    no name or address breaks out of its line, pending entries are left out, and
    dead entries are dropped from the registry with it. *)
Theorem hosts_file_exact proc namelen name w content w' :
  dns_reachable w → GenerateHostsContentChecked proc namelen name w = (Ret content, w') →
  ∃ before kept, registry_of w name = Ok before ∧ pruned proc w (default [] before) kept ∧
    str_split newline content =
      ["127.0.0.1" +:+ tab +:+ "localhost";
       "::1" +:+ tab +:+ "localhost ip6-localhost ip6-loopback";
       "# Mini Docker Network Service Discovery (" +:+ name +:+ ")"]
      ++ (host_line <$> published kept) ++ [""] ∧
    (holds w' name kept ∨
     kept = default [] before ∧
     w_fs w' !! registry_path name = w_fs w !! registry_path name).
Proof.
  intros Hw%dns_reachable_good Hrun.
  assert (Hn : validateNetworkName name = None) by by apply ensure_passed in Hrun as [? _].
  pose proof (wp_GenerateHostsContentChecked proc namelen name w) as Hwp. unfold wp in Hwp.
  rewrite Hrun in Hwp. cbn [fst snd] in Hwp.
  assert (Hgood : ∀ before kept, registry_of w name = Ok before →
    pruned proc w (default [] before) kept → Forall entry_good kept).
  { intros before kept Hb Hp%pruned_sublist. apply (good_registry_of w) in Hb; [|done].
    destruct before as [l|]; [|apply sublist_nil_r in Hp as ->; constructor].
    destruct Hb as [_ [[Hv _] _]]. apply (valid_sublist _ _ Hp Hv). }
  destruct Hwp as [[Hu (before & Hb & Hp & ->)]|(before & kept & a & Hb & Hs & (Hp & -> & _) & ->)].
  - exists before, (default [] before). split_and!; [done..| |].
    + apply hosts_content_lines; [done|]. by apply (Hgood before).
    + right. split; [done|]. exact (unchanged_file name name w w' Hu).
  - exists before, kept. split_and!; [done..| |].
    + apply hosts_content_lines; [done|]. by apply (Hgood before).
    + left. apply Hs.
Qed.
Lemma hosts_file_exact_witness : ∃ content w',
  GenerateHostsContentChecked procs 255 "br0" web_bound = (Ret content, w') ∧
  ∃ before kept, registry_of web_bound "br0" = Ok before ∧
    pruned procs web_bound (default [] before) kept ∧
    str_split newline content =
      ["127.0.0.1" +:+ tab +:+ "localhost";
       "::1" +:+ tab +:+ "localhost ip6-localhost ip6-loopback";
       "# Mini Docker Network Service Discovery (" +:+ "br0" +:+ ")"]
      ++ (host_line <$> published kept) ++ [""] ∧
    (holds w' "br0" kept ∨
     kept = default [] before ∧
     w_fs w' !! registry_path "br0" = w_fs web_bound !! registry_path "br0").
Proof.
  eexists _, _. split; [vm_compute; reflexivity|].
  apply (hosts_file_exact procs 255 "br0" web_bound _ _ web_bound_reachable).
  vm_compute. reflexivity.
Defined.

(** * Entries *)

(** C31. The one-pass check of the loader and saver is the declarative one: every
    entry has a container, a host name and address, its canonical form and
    complete owners, and no container and no host name in any case is listed
    twice. *)
Theorem validateEntries_equiv l :
  validateEntries l = None ↔
  Forall entry_good l ∧
  (∀ i j e f, l !! i = Some e → l !! j = Some f →
     he_ContainerID e = he_ContainerID f ∨ equal_fold (he_Hostname e) (he_Hostname f) = true →
     i = j).
Proof.
  rewrite validateEntries_iff. split.
  - intros [Hg Hc Hh]. split; [done|]. intros i j e f Hi Hj [E|E].
    + eapply (NoDup_lookup _ i j (he_ContainerID e) Hc); rewrite list_lookup_fmap.
      * by rewrite Hi.
      * by rewrite Hj, E.
    + apply String.eqb_eq in E. eapply (NoDup_lookup _ i j (host_key e) Hh);
        rewrite list_lookup_fmap; [by rewrite Hi|]. rewrite Hj. cbn. unfold host_key. by rewrite E.
  - intros [Hg Hu]. split; [done|..]; apply NoDup_alt; intros i j x;
      rewrite !list_lookup_fmap;
      intros (e & Hi & ->)%fmap_Some (f & Hj & E)%fmap_Some; apply (Hu i j e f Hi Hj).
    + by left.
    + right. unfold equal_fold. by apply String.eqb_eq.
Qed.

(** C32. Registering an IPv4 host in a valid registry yields a valid registry, so
    a registration that found no conflict is never refused by the check of the
    saver. *)
Theorem registration_stays_valid proc self cid h i pending owner l l' ch :
  registry_valid l → trim_space cid ≠ "" → validateHostAndIP h i = None →
  first_of i = Some "."%char → 0 < self → currentRegistrarIdentity proc self = Ok owner →
  entriesWithRegistration l owner cid h i pending = Ok (l', ch) → validateEntries l' = None.
Proof.
  intros Hv Hc Hhi Hd Hs Ho He. apply validateEntries_iff.
  apply registrar_range in Ho as [Hp Hst]. unfold entriesWithRegistration in He.
  apply res_bind_Ok in He as (ip & Hip & He).
  pose proof (register_at_spec owner cid h ip pending [] l Hv) as E. rewrite He in E.
  destruct (register_spec l owner cid h ip pending) as [r|] eqn:Hr; [|done].
  injection E as ->. eapply (register_spec_valid owner cid h i pending); try done; lia.
Qed.
Lemma registration_stays_valid_witness :
  entriesWithRegistration [web_entry] (mkRegistrar 200 6000) "c2" "db" "10.0.0.3" false
    = Ok ([web_entry; db_entry], true) ∧
  validateEntries [web_entry; db_entry] = None.
Proof.
  split; [vm_compute; reflexivity|].
  apply (registration_stays_valid procs 200 "c2" "db" "10.0.0.3" false (mkRegistrar 200 6000)
    [web_entry] [web_entry; db_entry] true); try (vm_compute; reflexivity); [|by vm_compute].
  apply validateEntries_iff. vm_compute. reflexivity.
Defined.

(** * Process identities *)

(** C33. The start time and state of a process are read from its stat file
    whatever its command name holds, spaces and closing parentheses included. *)
Theorem readProcessStat_any_command proc pid text comm state before start after :
  proc pid = Ok (pretty pid +:+ " (" +:+ comm +:+ ") " +:+
                 (str_join " " (state :: before ++ pretty start :: after) +:+ text)) →
  text = "" ∨ text = nl → stat_field state → len state = 1 → length before = 18%nat →
  Forall stat_field before → Forall stat_field after → 0 < start ≤ max_uint64 →
  readProcessStat proc pid = Ok (start, state).
Proof.
  intros Hp Ht Hst Hlen Hb Hfb Hfa Hr. unfold readProcessStat. rewrite Hp. cbn [mbind res_bind].
  set (l := state :: before ++ pretty start :: after) in *.
  assert (Hl : Forall stat_field l).
  { constructor; [done|]. apply Forall_app. split; [done|]. constructor; [|done].
    destruct (pretty_Z_digits start) as (Hd & Hne & _); [lia|]. split; [done|].
    eapply str_forallb_impl; [|exact Hd]. intros c Hc. apply digit_stat, Hc. }
  assert (Ha : ∀ x y z, x +:+ " (" +:+ y +:+ ") " +:+ z = (x +:+ " (" +:+ y) +:+ ") " +:+ z)
    by (intros; by rewrite !string_app_assoc).
  rewrite Ha, after_last_app by by apply joined_free. rewrite fields_joined by done.
  assert (H19 : nth 19 l "" = pretty start).
  { replace 19%nat with (length (state :: before)) by (cbn; by rewrite Hb).
    apply (nth_middle (state :: before)). }
  assert (Hn : (length l <=? 19)%nat = false).
  { apply Nat.leb_gt. unfold l. cbn. rewrite length_app. cbn. lia. }
  rewrite Hn, H19, parse_uint_pretty by lia. cbn [nth l]. rewrite Hlen. cbn [Z.eqb negb].
  by rewrite (proj2 (Z.eqb_neq start 0)) by lia.
Qed.
Lemma readProcessStat_any_command_witness : readProcessStat procs 100 = Ok (5000, "S").
Proof.
  apply (readProcessStat_any_command procs 100 nl "mini) Z ctl" "S" (replicate 18 "1") 5000 ["0"]);
    [reflexivity|by right|by split|done|done| |by repeat constructor|done].
  apply Forall_replicate. by split.
Defined.

(** * File names *)

(** C34. Under a lock that was taken, every file name the registry of the network
    needs (its lock, its document, any temporary document) fits in what the file
    system takes, and in 255 bytes. *)
Theorem dns_names_fit namelen {A} name (fn : M A) a w w' random tmp :
  withDNSNetworkLock namelen name fn w = (Ret a, w') → String.length random = 8%nat →
  dnsTempName random name = Ok tmp →
  len tmp ≤ Z.min 255 namelen ∧ len (snd (registry_path name)) ≤ Z.min 255 namelen ∧
  len (snd (dns_lock_path name)) ≤ Z.min 255 namelen.
Proof.
  intros Hrun Hrand Htmp. unfold dnsTempName in Htmp.
  apply res_bind_Ok in Htmp as ([] & Hlen%check_Ok & [= <-]).
  unfold withDNSNetworkLock in Hrun. apply ensure_passed in Hrun as [_ Hrun].
  apply bind_Ret_inv in Hrun as (? & w1 & _ & Hrun).
  apply bind_Ret_inv in Hrun as (? & w2 & Hat & _).
  unfold validateDNSNetworkFilenameLengthAt in Hat. apply ensure_passed in Hat as [_ Hat].
  apply bind_Ret_inv in Hat as (? & w3 & _ & Hat).
  apply bind_Ret_inv in Hat as (limit & w4 & Hlim & Hat).
  assert (Hfit : len name ≤ limit).
  { unfold ensure, lift in Hat. destruct (limit <? len name)%Z eqn:E; [done|].
    by apply Z.ltb_ge in E. }
  unfold lift in Hlim. destruct (wrapf _ _) as [lim|] eqn:Hl; [|done].
  injection Hlim as -> _. apply wrapf_Ok in Hl. revert Hl.
  unfold maxDNSNetworkNameBytesForComponentLimit, maxDNSNetworkNameBytes,
    dnsRegistryTempFixedBytes. destruct (_ <=? _)%Z eqn:E; [done|]. intros [= Hl].
  assert (Hlens : ∀ s t, len (s +:+ t) = len s + len t)
    by (intros; unfold len; rewrite string_length_app; lia).
  assert (Hh : len (hex_encode random) = 16).
  { unfold len. rewrite hex_encode_length, Hrand. lia. }
  unfold registry_path, dns_lock_path. cbn [snd]. rewrite !Hlens, Hh. apply Z.leb_gt in E.
  change (len ".") with 1. change (len ".json.tmp-") with 10.
  change (len ".json") with 5. change (len ".lock") with 5.
  pose proof (Zle_0_nat (String.length name)). unfold len in *.
  destruct (255 - (1 + 10 + 16) <? namelen - (1 + 10 + 16))%Z eqn:E2; bool_simp; lia.
Qed.
Lemma dns_names_fit_witness : ∃ w',
  withDNSNetworkLock 143 "br0" (mret 5) web_bound = (Ret 5, w') ∧
  len ".br0.json.tmp-6162636465666768" ≤ Z.min 255 143 ∧
  len (snd (registry_path "br0")) ≤ Z.min 255 143 ∧
  len (snd (dns_lock_path "br0")) ≤ Z.min 255 143.
Proof.
  eexists. split; [vm_compute; reflexivity|].
  eapply (dns_names_fit 143 "br0" (mret 5) 5 web_bound _ "abcdefgh"
    ".br0.json.tmp-6162636465666768"); vm_compute; reflexivity.
Defined.
