(* ===== verification/Restart.v ===== *)
(** Restart policies: internal/container/restart.go and restart_loop.go.  The
    spellings of a policy, and how many attempts the loop of [Run] makes. *)
From S2P Require Import Prelude GoStrings Decimal.

#[local] Open Scope Z_scope.

(** * Policies *)

Definition RestartNo : string := "no".
Definition RestartAlways : string := "always".
Definition RestartOnFailure : string := "on-failure".

Record RestartPolicy := mkPolicy { Type_ : string; MaxRetries : Z }.
#[export] Instance RestartPolicy_eq_dec : EqDecision RestartPolicy.
Proof. solve_decision. Defined.

(** [strings.ToLower] as far as the parser can tell: ASCII letters, and the two
    other runes whose lower case is an ASCII letter, U+0130 and U+212A.  The
    lower case of any other rune is outside ASCII like the rune itself, and
    neither is white space; ill-formed bytes become U+FFFD. *)
Definition lower_rune (r : rune) : string :=
  if negb (rune_ok r) then replacement
  else if (rune_val r =? 304)%N then "i"
  else if (rune_val r =? 8490)%N then "k"
  else str_map lower_byte (rune_bytes r).
Fixpoint lower_runes (l : list rune) : string :=
  match l with [] => "" | r :: l => lower_rune r +:+ lower_runes l end.
Definition to_lower (s : string) : string := lower_runes (runes s).

Definition ParseRestartPolicy (spec : string) : res RestartPolicy :=
  let spec := trim_space (to_lower spec) in
  if String.eqb spec "" || String.eqb spec "no" then Ok (mkPolicy RestartNo 0)
  else if String.eqb spec "always" then Ok (mkPolicy RestartAlways 0)
  else if has_prefix spec "on-failure" then
    let parts := str_split ":"%char spec in
    match parts with
    | [_; part] =>
      match parse_int part with
      | Some n =>
        if (n <? 0)%Z then Fail (Errorf "invalid max retries in restart policy %q")
        else Ok (mkPolicy RestartOnFailure n)
      | None => Fail (Errorf "invalid max retries in restart policy %q")
      end
    | _ => Ok (mkPolicy RestartOnFailure 0)
    end
  else Fail (Errorf "unknown restart policy %q").

Definition ShouldRestart (policy : RestartPolicy) (exitCode currentRetries : Z) : bool :=
  if String.eqb (Type_ policy) RestartAlways then true
  else if String.eqb (Type_ policy) RestartOnFailure then
    negb (exitCode =? 0)%Z &&
    ((MaxRetries policy =? 0)%Z || (currentRetries <? MaxRetries policy)%Z)
  else false.

(** * The loop *)

(** [retries++] on an [int]. *)
Definition int_incr (n : Z) : Z := if (n =? max_int64)%Z then min_int64 else n + 1.

Section loop.
(** [S] is all the state an attempt reads and changes; an attempt returns the
    exit code and the error of one generation. *)
Context {S : Type}.

Fixpoint restart_loop (fuel : nat) (policy : RestartPolicy)
    (attempt : S → (Z * option error) * S) (terminal : option (error → bool))
    (retries : Z) (s : S) : option (option error * S) :=
  match fuel with
  | O => None
  | Datatypes.S fuel =>
    let '((exitCode, err), s) := attempt s in
    if match err, terminal with Some e, Some t => t e | _, _ => false end
    then Some (err, s)
    else if negb (ShouldRestart policy exitCode retries) then Some (err, s)
    else restart_loop fuel policy attempt terminal (int_incr retries) s
  end.

Definition runRestartLoop (fuel : nat) (policy : RestartPolicy)
    (attempt : option (S → (Z * option error) * S)) (terminal : option (error → bool))
    (s : S) : option (option error * S) :=
  match attempt with
  | None => Some (Some (Errorf "restart attempt callback is nil"), s)
  | Some attempt => restart_loop fuel policy attempt terminal 0 s
  end.
End loop.
