(* ===== verification/RestartProps.v ===== *)
(** What a restart policy means: every spelling of a policy is read as that
    policy, and the loop makes exactly the attempts the policy asks for. *)
From S2P Require Import Prelude GoStrings Decimal Restart.

#[local] Open Scope Z_scope.

(** * ASCII texts *)

Definition ascii_char (c : Ascii.ascii) : bool := (byte_val c <? 128)%N.
Definition space_char (c : Ascii.ascii) : bool := ascii_char c && is_space (byte_val c).
Definition word_char (c : Ascii.ascii) : bool := ascii_char c && negb (is_space (byte_val c)).
Definition ascii_rune (c : Ascii.ascii) : rune := Rune (str1 c) (byte_val c) true.
Definition chars : string → list Ascii.ascii := String.list_ascii_of_string.

Lemma runes_ascii s : str_forallb ascii_char s = true → runes s = ascii_rune <$> chars s.
Proof.
  induction s as [|c s IH]; [done|]. cbn [str_forallb]. intros [Hc Hs]%andb_true_iff.
  cbn [runes chars String.list_ascii_of_string fmap list_fmap].
  unfold ascii_char in Hc. rewrite Hc. by rewrite IH.
Qed.
Lemma raw_runes_ascii l : raw_runes (ascii_rune <$> l) = String.string_of_list_ascii l.
Proof.
  induction l as [|c l IH]; [done|]. cbn. by rewrite IH.
Qed.
Lemma chars_app s t : chars (s +:+ t) = chars s ++ chars t.
Proof. str_ind s IH. cbn. by f_equal. Qed.
Lemma chars_Forall p s : str_forallb p s = true ↔ Forall (λ c, p c = true) (chars s).
Proof.
  induction s as [|c s IH]; cbn; [by split|]. by rewrite andb_true_iff, Forall_cons, IH.
Qed.

(** * Trimming *)

Lemma drop_while_app {A} p (l m : list A) : Forall (λ x, p x = true) l →
  Forall (λ x, p x = false) m → drop_while p (l ++ m) = m.
Proof.
  intros Hl Hm. induction Hl as [|x l Hx _ IH]; cbn; [|by rewrite Hx].
  destruct Hm as [|x m Hx _]; [done|]. cbn. by rewrite Hx.
Qed.
Lemma drop_while_stop {A} p x (l m : list A) : p x = false →
  Forall (λ x, p x = true) l → drop_while p (l ++ x :: m) = x :: m.
Proof. intros Hx. induction 1 as [|y l Hy _ IH]; cbn; [by rewrite Hx|by rewrite Hy]. Qed.

Lemma trim_word l s r : str_forallb space_char l = true → str_forallb space_char r = true →
  str_forallb word_char s = true → s ≠ "" → trim_space (l +:+ s +:+ r) = s.
Proof.
  intros Hl Hr Hs Hne.
  assert (Ha : str_forallb ascii_char (l +:+ s +:+ r) = true).
  { rewrite !str_forallb_app, !andb_true_iff. split_and!;
      [revert Hl|revert Hs|revert Hr]; apply str_forallb_impl; by intros c [? _]%andb_true_iff. }
  unfold trim_space, trim_runes. rewrite runes_ascii by done.
  apply chars_Forall in Hl, Hr, Hs. rewrite !chars_app, !fmap_app.
  set (p := λ _, _). assert (Hsp : ∀ l, Forall (λ c, space_char c = true) l →
    Forall (λ x, p x = true) (ascii_rune <$> l)).
  { intros k Hk. apply Forall_fmap. eapply Forall_impl; [exact Hk|].
    by intros c [_ ?]%andb_true_iff. }
  assert (Hw : Forall (λ x, p x = false) (ascii_rune <$> chars s)).
  { apply Forall_fmap. eapply Forall_impl; [exact Hs|].
    by intros c [_ ?%negb_true_iff]%andb_true_iff. }
  assert (Hback : raw_runes (ascii_rune <$> chars s) = s).
  { rewrite raw_runes_ascii. apply String.string_of_list_ascii_of_string. }
  destruct (chars s) as [|c m] eqn:Es; [by destruct Hne; rewrite <- Hback|].
  cbn [fmap list_fmap app] in *. rewrite drop_while_stop; [|by inversion Hw|by apply Hsp].
  rewrite app_comm_cons, reverse_app, drop_while_app.
  - by rewrite reverse_involutive.
  - by apply Forall_reverse, Hsp.
  - by apply Forall_reverse.
Qed.

(** * Lower case *)

Lemma str_map_app f s t : str_map f (s +:+ t) = str_map f s +:+ str_map f t.
Proof. induction s as [|c s IH]; [done|]. rewrite !string_app_cons. cbn. by rewrite IH. Qed.

Lemma lower_ascii c : ascii_char (lower_byte c) = ascii_char c.
Proof. by destruct c as [[] [] [] [] [] [] [] []]. Qed.
Lemma lower_word c : word_char (lower_byte c) = word_char c.
Proof. by destruct c as [[] [] [] [] [] [] [] []]. Qed.
Lemma lower_space c : space_char c = true → lower_byte c = c.
Proof. by destruct c as [[] [] [] [] [] [] [] []]. Qed.

Lemma str_map_spaces s : str_forallb space_char s = true → str_map lower_byte s = s.
Proof.
  induction s as [|c s IH]; [done|]. cbn. intros [Hc Hs]%andb_true_iff.
  by rewrite lower_space, IH.
Qed.
Lemma to_lower_ascii s : str_forallb ascii_char s = true → to_lower s = str_map lower_byte s.
Proof.
  intros Hs. unfold to_lower. rewrite runes_ascii by done.
  induction s as [|c s IH]; [done|]. cbn [str_forallb] in Hs.
  apply andb_true_iff in Hs as [Hc Hs].
  cbn [chars String.list_ascii_of_string fmap list_fmap lower_runes str_map].
  fold chars. rewrite IH by done. unfold lower_rune, ascii_rune. cbn [rune_ok rune_val rune_bytes negb].
  unfold ascii_char in Hc. apply N.ltb_lt in Hc.
  rewrite !(proj2 (N.eqb_neq _ _)) by lia. done.
Qed.

(** * The spellings of a policy *)

(** The policies: the fields a value of [RestartPolicy] can have. *)
Inductive policy : RestartPolicy → Prop :=
  | policy_no : policy (mkPolicy RestartNo 0)
  | policy_always : policy (mkPolicy RestartAlways 0)
  | policy_on_failure n : 0 ≤ n ≤ max_int64 → policy (mkPolicy RestartOnFailure n).

(** How the command line writes a policy. *)
Definition policy_string (p : RestartPolicy) : string :=
  if (MaxRetries p =? 0)%Z then Type_ p else Type_ p +:+ ":" +:+ pretty (MaxRetries p).

Lemma decimal_word s : plain_decimal s = true → str_forallb word_char s = true.
Proof. apply str_forallb_impl. by intros [[] [] [] [] [] [] [] []]. Qed.
Lemma policy_word p : policy p →
  str_forallb word_char (policy_string p) = true ∧ policy_string p ≠ "".
Proof.
  intros [| |n Hn]; [by split..|]. unfold policy_string. cbn [Type_ MaxRetries].
  destruct (n =? 0)%Z; [by split|]. split; [|done].
  rewrite !str_forallb_app. cbn. apply decimal_word, pretty_Z_digits. lia.
Qed.

Lemma parse_policy_string p spec : policy p → trim_space (to_lower spec) = policy_string p →
  ParseRestartPolicy spec = Ok p.
Proof.
  intros Hp E. unfold ParseRestartPolicy. rewrite E. clear E spec.
  destruct Hp as [| |n Hn]; [done..|]. unfold policy_string. cbn [Type_ MaxRetries].
  destruct (n =? 0)%Z eqn:E; [by apply Z.eqb_eq in E as ->|].
  change (RestartOnFailure +:+ ":" +:+ pretty n)
    with ("on-failure" +:+ String ":"%char (pretty n)).
  destruct (pretty_Z_digits n) as [Hd _]; [lia|].
  rewrite str_split_free_app, str_split_free, parse_int_pretty by (done || by apply plain_free).
  by rewrite (proj2 (Z.ltb_ge _ _)) by lia.
Qed.

Lemma lower_mixed s t : str_map lower_byte s = t → str_forallb word_char t = true →
  str_forallb word_char s = true.
Proof.
  intros <-. induction s as [|c s IH]; [done|]. cbn. rewrite lower_word.
  intros [-> Hs]%andb_true_iff. by apply IH.
Qed.

Lemma parsed_policy p spec : ParseRestartPolicy spec = Ok p → policy p.
Proof.
  unfold ParseRestartPolicy. generalize (trim_space (to_lower spec)) as t.
  intros t. destruct (_ || _); [intros [= <-]; constructor|].
  destruct (String.eqb _ _); [intros [= <-]; constructor|].
  destruct (has_prefix _ _); [|done].
  assert (policy (mkPolicy RestartOnFailure 0)) by (by constructor).
  destruct (str_split _ t) as [|x [|y [|z parts]]]; try by intros [= <-].
  destruct (parse_int y) as [n|] eqn:En; [|done]. destruct (n <? 0)%Z eqn:Hn; [done|].
  intros [= <-]. constructor. apply Z.ltb_ge in Hn. by apply parse_int_max in En.
Qed.

(** C0. A policy is read back from every spelling of it: letters of either case,
    white space around it; and whatever text is accepted, the result is such a
    policy: one of the three types, a retry limit only with on-failure, in the
    range of an [int]. *)
Theorem ParseRestartPolicy_spellings p :
  (policy p → ∀ l s r, str_forallb space_char l = true → str_forallb space_char r = true →
     str_map lower_byte s = policy_string p → ParseRestartPolicy (l +:+ s +:+ r) = Ok p) ∧
  ∀ spec, ParseRestartPolicy spec = Ok p → policy p.
Proof.
  split; [|intros spec; apply parsed_policy].
  - intros Hp l s r Hl Hr Hs. destruct (policy_word p Hp) as [Hw Hne].
    pose proof (lower_mixed s _ Hs Hw) as Hsw. apply parse_policy_string; [done|].
    rewrite to_lower_ascii.
    + rewrite !str_map_app, (str_map_spaces l), (str_map_spaces r), Hs by done.
      by apply trim_word.
    + rewrite !str_forallb_app, !andb_true_iff. split_and!; [revert Hl|revert Hsw|revert Hr];
        apply str_forallb_impl; by intros c [? _]%andb_true_iff.
Qed.
Lemma ParseRestartPolicy_spellings_witness :
  ParseRestartPolicy " ON-Failure:17 " = Ok (mkPolicy RestartOnFailure 17).
Proof.
  apply (proj1 (ParseRestartPolicy_spellings (mkPolicy RestartOnFailure 17))
    (policy_on_failure 17 ltac:(unfold max_int64; lia)) " " "ON-Failure:17" " ");
    reflexivity.
Defined.

(** A retry limit with a second colon is accepted, and lost. *)
Example second_colon_unlimited :
  ParseRestartPolicy "on-failure:3:1" = Ok (mkPolicy RestartOnFailure 0).
Proof. reflexivity. Qed.

(** * Attempts *)

Lemma policy_cases p : policy p →
  Type_ p = RestartNo ∨ Type_ p = RestartAlways ∨
  Type_ p = RestartOnFailure ∧ 0 ≤ MaxRetries p ≤ max_int64.
Proof. intros [| |n Hn]; cbn; auto. Qed.

Section attempts.
Context {S : Type} (attempt : S → (Z * option error) * S) (terminal : option (error → bool)).
Context (p : RestartPolicy).

(** The attempts one after the other, whatever the loop makes of them. *)
Definition before (i : nat) (s : S) : S := Nat.iter i (λ s, (attempt s).2) s.
Definition result_of (i : nat) (s : S) : Z * option error := (attempt (before i s)).1.

(** What ends the restarting: a terminal error; any exit without restarts; with
    on-failure an exit code of 0, or the retries used up. *)
Inductive last (i : nat) : Z * option error → Prop :=
  | last_terminal code e t :
      terminal = Some t → t e = true → last i (code, Some e)
  | last_no o : Type_ p = RestartNo → last i o
  | last_success err : Type_ p = RestartOnFailure → last i (0, err)
  | last_retries o : Type_ p = RestartOnFailure → 0 < MaxRetries p ≤ Z.of_nat i → last i o.

(** Attempt [k] is the first of the last kind. *)
Definition ends_at (k : nat) (s : S) : Prop :=
  last k (result_of k s) ∧ ∀ i, (i < k)%nat → ¬ last i (result_of i s).

(** The test the loop makes after an attempt. *)
Definition stops (retries : Z) (o : Z * option error) : bool :=
  match o.2, terminal with Some e, Some t => t e | _, _ => false end
  || negb (ShouldRestart p o.1 retries).

Lemma restart_loop_step fuel r s :
  restart_loop (Datatypes.S fuel) p attempt terminal r s =
  if stops r (attempt s).1 then Some ((attempt s).1.2, (attempt s).2)
  else restart_loop fuel p attempt terminal (int_incr r) (attempt s).2.
Proof.
  cbn [restart_loop]. unfold stops. destruct (attempt s) as [[code err] s']. cbn [fst snd].
  destruct err as [e|], terminal as [t|]; try destruct (t e); cbn [orb]; done.
Qed.

Lemma stops_last i o : policy p → stops (Z.of_nat i) o = true ↔ last i o.
Proof.
  intros Hp. destruct o as [code err]. unfold stops. cbn [fst snd]. split.
  - intros [H|H]%orb_true_iff.
    + destruct err as [e|], terminal as [t|] eqn:Et; try done. by eapply last_terminal.
    + apply negb_true_iff in H. unfold ShouldRestart in H.
      destruct (policy_cases p Hp) as [Et|[Et|[Et Hr]]]; rewrite Et in H; cbn in H;
        [by apply last_no|done|].
      apply andb_false_iff in H as [H|H]; bool_simp; [subst; by apply last_success|].
      apply last_retries; [done|lia].
  - intros H. apply orb_true_iff. inversion H as [c e t Ht He|o Ht|e Ht|o Ht Hr]; subst.
    + left. by rewrite Ht.
    + right. unfold ShouldRestart. by rewrite Ht.
    + right. unfold ShouldRestart. rewrite Ht. done.
    + right. unfold ShouldRestart. rewrite Ht. cbn.
      rewrite (proj2 (Z.eqb_neq (MaxRetries p) 0)), (proj2 (Z.ltb_ge _ _)) by lia.
      by rewrite andb_false_r.
Qed.

(** The counter is the number of the attempt wherever it matters. *)
Definition counter (r : Z) (i : nat) : Prop :=
  Type_ p = RestartOnFailure → 0 < MaxRetries p → r = Z.of_nat i.

Lemma stops_counter r i o : policy p → counter r i → stops r o = stops (Z.of_nat i) o.
Proof.
  intros Hp Hr. unfold stops, ShouldRestart, counter in *.
  destruct (policy_cases p Hp) as [Et|[Et|[Et Hm]]]; rewrite Et in *; [done..|].
  destruct (decide (MaxRetries p = 0)) as [->|Hz]; [done|]. rewrite Hr; [done..|lia].
Qed.
Lemma counter_next r i o : policy p → counter r i → ¬ last i o →
  counter (int_incr r) (Datatypes.S i).
Proof.
  intros Hp Hr Hl Ht Hm. rewrite (Hr Ht Hm). unfold int_incr.
  assert (Hi : Z.of_nat i < MaxRetries p).
  { apply Z.nle_gt. intros Hle. by apply Hl, last_retries. }
  destruct (policy_cases p Hp) as [Et|[Et|[_ Hx]]]; [by rewrite Ht in Et..|].
  rewrite (proj2 (Z.eqb_neq _ _)) by lia. lia.
Qed.

(** The loop, about to make attempt [i]. *)
Lemma loop_ends fuel s k : policy p → ends_at k s → ∀ i r, counter r i →
  (i ≤ k < i + fuel)%nat →
  restart_loop fuel p attempt terminal r (before i s) =
  Some ((result_of k s).2, before (Datatypes.S k) s).
Proof.
  intros Hp [Hk Hbefore]. induction fuel as [|fuel IH]; intros i r Hr Hi; [lia|].
  rewrite restart_loop_step. fold (result_of i s). rewrite (stops_counter r i) by done.
  destruct (decide (i = k)) as [->|Hne].
  { by rewrite (proj2 (stops_last k _ Hp)). }
  assert (Hl : ¬ last i (result_of i s)) by (apply Hbefore; lia).
  destruct (stops _ _) eqn:E; [by apply stops_last in E|].
  apply (IH (Datatypes.S i)); [by eapply counter_next|lia].
Qed.
Lemma loop_returns fuel s x : policy p → ∀ i r, counter r i →
  (∀ j, (j < i)%nat → ¬ last j (result_of j s)) →
  restart_loop fuel p attempt terminal r (before i s) = Some x →
  ∃ k, (k < i + fuel)%nat ∧ ends_at k s ∧ x = ((result_of k s).2, before (Datatypes.S k) s).
Proof.
  intros Hp. induction fuel as [|fuel IH]; intros i r Hr Hno; [done|].
  rewrite restart_loop_step. fold (result_of i s). rewrite (stops_counter r i) by done.
  destruct (stops _ _) eqn:E.
  - apply stops_last in E; [|done]. intros [= <-]. exists i. split; [lia|done].
  - assert (Hl : ¬ last i (result_of i s)).
    { intros H. apply stops_last in H; [congruence|done]. }
    intros (k & Hk & He)%(IH (Datatypes.S i)); [|by eapply counter_next|].
    + exists k. split; [lia|done].
    + intros j Hj. destruct (decide (j = i)) as [->|]; [done|]. apply Hno. lia.
Qed.

(** A bounded number of retries ends. *)
Lemma ends_in_time s : policy p → Type_ p = RestartOnFailure → 0 < MaxRetries p →
  ∃ k, Z.of_nat k ≤ MaxRetries p ∧ ends_at k s.
Proof.
  intros Hp Ht Hm. set (n := Z.to_nat (MaxRetries p)).
  assert (Hn : last n (result_of n s)) by (apply last_retries; [done|lia]).
  assert (Hdec : ∀ i, Decision (last i (result_of i s))).
  { intros i. destruct (stops (Z.of_nat i) (result_of i s)) eqn:E.
    - left. by apply stops_last.
    - right. intros H. apply stops_last in H; [congruence|done]. }
  assert (∃ k, (k ≤ n)%nat ∧ ends_at k s) as (k & Hk & He).
  { clearbody n. induction n as [n IH] using lt_wf_ind.
    destruct (decide (Exists (λ i, last i (result_of i s)) (seq 0 n))) as [Hx|Hx].
    - apply Exists_exists in Hx as (i & Hi%elem_of_seq & Hl).
      destruct (IH i) as (k & ? & ?); [lia|done|]. exists k. split; [lia|done].
    - exists n. split; [done|]. split; [done|]. intros i Hi Hl. apply Hx, Exists_exists.
      exists i. split; [apply elem_of_seq; lia|done]. }
  exists k. split; [lia|done].
Qed.
End attempts.

(** C0. The restart loop makes its attempts until the first one that is the
    last: a terminal error, any exit under no, exit code 0 or the retries used
    up under on-failure, nothing else under always. It then returns the error
    of that attempt, and it returns for no other reason. With on-failure:n and
    n > 0 it returns after at most n + 1 attempts whatever they do. *)
Theorem runRestartLoop_attempts {S : Type} spec p (attempt : S → (Z * option error) * S)
    terminal s :
  ParseRestartPolicy spec = Ok p →
  (∀ k fuel, ends_at attempt terminal p k s → (k < fuel)%nat →
     runRestartLoop fuel p (Some attempt) terminal s =
     Some ((result_of attempt k s).2, before attempt (Datatypes.S k) s)) ∧
  (∀ fuel x, runRestartLoop fuel p (Some attempt) terminal s = Some x →
     ∃ k, (k < fuel)%nat ∧ ends_at attempt terminal p k s ∧
       x = ((result_of attempt k s).2, before attempt (Datatypes.S k) s)) ∧
  (Type_ p = RestartOnFailure → 0 < MaxRetries p →
     ∃ k, Z.of_nat k ≤ MaxRetries p ∧ ends_at attempt terminal p k s).
Proof.
  intros Hp%parsed_policy. assert (Hc : counter p 0 0) by done. split_and!.
  - intros k fuel He Hk. apply (loop_ends attempt terminal p fuel s k Hp He 0 0 Hc). lia.
  - intros fuel x Hx.
    apply (loop_returns attempt terminal p fuel s x Hp 0 0 Hc); [lia|exact Hx].
  - by apply ends_in_time.
Qed.

(** A program that fails twice and then succeeds, under "on-failure:5". *)
Definition third_time (n : nat) : (Z * option error) * nat :=
  if (n <? 2)%nat then ((17, Some (Errorf "exit status 17")), Datatypes.S n)
  else ((0, None), Datatypes.S n).
Lemma runRestartLoop_attempts_witness :
  runRestartLoop 3 (mkPolicy RestartOnFailure 5) (Some third_time) None 0%nat =
  Some (None, 3%nat).
Proof.
  refine (proj1 (runRestartLoop_attempts " On-Failure:5" (mkPolicy RestartOnFailure 5)
    third_time None 0%nat _) 2%nat 3%nat _ _).
  - vm_compute. reflexivity.
  - split; [exact (last_success None (mkPolicy RestartOnFailure 5) 2 None eq_refl)|].
    intros [|[|i]] Hi H; [..|lia]; inversion H as [|o Ht|e Ht|o Ht Hr]; try discriminate;
      try (by vm_compute in Ht); cbn in Hr; lia.
  - lia.
Defined.
