(* ===== verification/Cgroups.v ===== *)
(** Cgroups by name: internal/cgroups/identity.go, validateCgroupName of
    validate.go and remove_checked_linux.go.  The cgroup of a process generation
    has a name of its own, and removing it touches no other. *)
From S2P Require Import Prelude GoStrings Decimal Json Fs FsLogic.
From S2P Require Import Container.

#[local] Open Scope Z_scope.
#[local] Open Scope go_scope.

Definition managedCgroupPrefix : string := "minicontainer-".
Definition maxCgroupNameLen : Z := 255.

Definition cgroup_char (c : Ascii.ascii) : bool :=
  is_lower c || is_upper c || is_digit c || bool_decide (c = "-"%char) ||
  bool_decide (c = "_"%char) || bool_decide (c = "."%char).
Definition validateCgroupName (name : string) : option error :=
  fail_if (String.eqb name "") (Errorf "cgroup name must not be empty") >>!
  fail_if (maxCgroupNameLen <? len name)%Z (Errorf "cgroup name exceeds %d bytes") >>!
  fail_if (negb (str_forallb cgroup_char name))
    (Errorf "cgroup name %q contains invalid character %q") >>!
  fail_if (String.eqb name "." || String.eqb name "..") (Errorf "invalid cgroup name %q").

Definition NameForContainerProcess (containerID : string) (pid pidStartTime : Z)
    : res string :=
  check (fail_if (String.eqb containerID "") (Errorf "container ID must not be empty"));;
  check (fail_if (pid <=? 0)%Z (Errorf "PID must be positive"));;
  check (fail_if (pidStartTime =? 0)%Z (Errorf "PID start time must not be zero"));;
  let name := managedCgroupPrefix +:+ containerID +:+ "-" +:+ pretty pid +:+ "-" +:+
    pretty pidStartTime in
  wrapf "derive cgroup name: %w" (check (validateCgroupName name));;
  Ok name.

(** The loop of [removeCgroupPaths]: the errors joined so far. *)
Fixpoint remove_paths (paths : list path) (cleanupErr : option error) : M (option error) :=
  match paths with
  | [] => mret cleanupErr
  | p :: paths =>
    r ← attempt (os_Remove p);
    remove_paths paths
      match r with
      | Ok _ => cleanupErr
      | Fail e => if errors_Is e ErrNotExist then cleanupErr
                  else errors_Join cleanupErr (Some (Wrapf "remove cgroup %s: %w" e))
      end
  end.
Definition removeCgroupPaths (paths : list path) : M unit :=
  cleanupErr ← remove_paths paths None;
  ensure cleanupErr.

(** [os.Stat] of [cgroup.controllers] is the operating system's answer. *)
Section host.
Context (controllers : res unit).

Definition isV2 : bool := match controllers with Ok _ => true | Fail _ => false end.

Definition cgroup_paths (v2 : bool) (name : string) : list path :=
  if v2 then [(DCgroup "", name)]
  else (λ controller, (DCgroup controller, name)) <$> ["memory"; "cpu"; "pids"].

Definition RemoveChecked (name : string) : M unit :=
  ensure (validateCgroupName name);;
  removeCgroupPaths (cgroup_paths isV2 name).

(** generation_cleanup_linux.go *)
Definition cleanupContainerProcessGeneration (containerID : string)
    (pid pidStartTime : Z) : M unit :=
  name ← wrapm "derive cgroup for stopped process generation: %w"
           (lift (NameForContainerProcess containerID pid pidStartTime));
  wrapm "remove cgroup %s: %w" (RemoveChecked name).
End host.

(** * Names *)

Lemma NameForContainerProcess_Ok id pid pst name :
  NameForContainerProcess id pid pst = Ok name →
  name = managedCgroupPrefix +:+ id +:+ "-" +:+ pretty pid +:+ "-" +:+ pretty pst ∧
  0 < pid ∧ validateCgroupName name = None.
Proof.
  unfold NameForContainerProcess. destruct (String.eqb id ""); [done|].
  destruct (pid <=? 0)%Z eqn:Hp; [done|]. destruct (pst =? 0)%Z; [done|]. cbn [fail_if check].
  intros H. apply res_bind_Ok in H as ([] & _ & H). apply res_bind_Ok in H as ([] & _ & H).
  apply res_bind_Ok in H as ([] & _ & H). apply res_bind_Ok in H as ([] & Hv & [= <-]).
  apply wrapf_Ok, check_Ok in Hv. apply Z.leb_gt in Hp. done.
Qed.

(** A text ends in its last separator and what follows it in one way. *)
Lemma last_sep_inj c s s' t t' : free_of c t = true → free_of c t' = true →
  s +:+ String c t = s' +:+ String c t' → s = s' ∧ t = t'.
Proof.
  assert (Hno : ∀ r t t', free_of c t = true → t = r +:+ String c t' → False).
  { intros r u u' Hu ->. revert Hu. induction r as [|d r IH].
    - rewrite string_app_nil_l. by intros [? _]%free_cons.
    - rewrite string_app_cons. by intros [_ ?]%free_cons. }
  intros Ht Ht'. revert s'. induction s as [|d s IH]; intros [|d' s'];
    rewrite ?string_app_nil_l, ?string_app_cons; intros E.
  - by injection E as ->.
  - injection E as -> E. by edestruct Hno.
  - injection E as -> E. symmetry in E. by edestruct Hno.
  - injection E as -> E. by apply IH in E as [-> ->].
Qed.
Lemma string_app_inj_l (s t t' : string) : s +:+ t = s +:+ t' → t = t'.
Proof. induction s as [|c s IH]; [done|]. rewrite !string_app_cons. intros [= ?]. auto. Qed.

Lemma pretty_free pid c : 0 ≤ pid → is_digit c = false → free_of c (pretty pid) = true.
Proof. intros Hp Hc. apply plain_free; [|done]. by apply pretty_Z_digits. Qed.

(** Every generation of every container has a cgroup of its own. *)
Lemma NameForContainerProcess_inj id pid pst id' pid' pst' name :
  in_uint64 pst → in_uint64 pst' →
  NameForContainerProcess id pid pst = Ok name →
  NameForContainerProcess id' pid' pst' = Ok name → id = id' ∧ pid = pid' ∧ pst = pst'.
Proof.
  intros [Hq _] [Hq' _] [-> [Hp _]]%NameForContainerProcess_Ok
    [E [Hp' _]]%NameForContainerProcess_Ok.
  apply string_app_inj_l in E. rewrite !string_app_assoc in E.
  rewrite <- (string_app_assoc _ "-" (pretty pst)), <- (string_app_assoc _ "-" (pretty pst')) in E.
  apply last_sep_inj in E as [E E2]; [|by apply pretty_free..].
  rewrite <- !string_app_assoc in E.
  apply last_sep_inj in E as [-> E1]; [|apply pretty_free; [lia|done]..].
  by apply (inj pretty) in E1 as ->, E2 as ->.
Qed.
