(* ===== verification/Finalize.v ===== *)
(** The end of a process generation: generation_finalize.go,
    network_ownership_linux.go, generation_resource_cleanup_linux.go,
    stopped_snapshot_guard.go and reconcile.go of internal/container, with the
    process probe of process_handle_linux.go and process_identity_linux.go.

    These functions are sequences of calls on the state store, the cgroup
    hierarchy, the host network and the host registries, each call atomic by
    itself.  Other processes run between the calls: [others n] is what they make
    of the directories before the call at program point [n]. *)
From S2P Require Import Prelude GoStrings Decimal Json Fs FsLogic Container Net.
From S2P Require Import Ownership Generation Store Dns DnsOps Cgroups.

#[local] Open Scope Z_scope.
#[local] Open Scope go_scope.

Definition generationCleanupFunc : Type := string → Z → Z → M unit.
Definition ownedPortCleanupFunc : Type := string → Z → Z → string → string → M unit.
Definition ownedVethCleanupFunc : Type := string → string → M unit.
Definition dnsGenerationCleanupFunc : Type := string → string → Z → Z → M unit.

(** The error of a call, as a value. *)
Definition err_of (m : M unit) : M (option error) :=
  r ← attempt m;
  mret (match r with Ok _ => None | Fail e => Some e end).

Section interleaved.
Context (others : nat → gmap path node → gmap path node).

(** The call at point [n], after the other processes. *)
Definition call {A} (n : nat) (m : M A) : M A := modify (with_fs (others n));; m.

(** * stopped_snapshot_guard.go *)

Definition stoppedSnapshotStillCurrent (st : store_ref) (snapshot : option Container)
    : M bool :=
  ensure (check_store st);;
  match snapshot with
  | None => throw (Errorf "container snapshot is nil")
  | Some snapshot =>
    ensure (fail_if (String.eqb (ID snapshot) "") (Errorf "container ID is empty"));;
    current ← wrapm "reload stopped lifecycle state for container %s: %w"
                (call 0 (Get (ID snapshot)));
    if negb (String.eqb (Status current) StatusStopped) then mret false
    else mret (Revision current =? Revision snapshot)%Z
  end.

(** * The cgroup of a generation (generation_finalize.go) *)

Definition validateOwnedGenerationName (containerID : string) (ownership : CgroupOwnership)
    : option error :=
  match NameForContainerProcess containerID (cg_PID ownership) (cg_PIDStartTime ownership) with
  | Fail e => Some (Wrapf "derive expected owned cgroup name: %w" e)
  | Ok expected =>
    fail_if (negb (String.eqb (cg_Name ownership) expected))
      (Errorf "persisted cgroup ownership name %q does not match expected generation name %q")
  end.

Definition clearOwnedGenerationAfterCleanup (st : store_ref) (containerID : string)
    (ownership : CgroupOwnership) : M unit :=
  cleared ← call 1 (ClearCgroupOwnershipIfMatch st containerID ownership);
  if cleared : bool then mret tt
  else
    current ← call 2 (GetCgroupOwnership st containerID);
    match current with
    | None => mret tt
    | Some current =>
      if negb (bool_decide (current = ownership))
      then throw (Errorf "cgroup ownership changed while clearing cleaned generation: now %s (%d/%d)")
      else throw (Errorf "cgroup ownership remained after successful cleanup")
    end.

Definition cleanupOwnedGenerationWith (st : store_ref) (containerID : string)
    (ownership : CgroupOwnership) (cleanup : option generationCleanupFunc) : M unit :=
  match cleanup with
  | None => throw (Errorf "generation cleanup function is nil")
  | Some cleanup =>
    ensure (validateOwnedGenerationName containerID ownership);;
    call 3 (cleanup containerID (cg_PID ownership) (cg_PIDStartTime ownership));;
    wrapm "clear cgroup ownership after cleanup: %w"
      (clearOwnedGenerationAfterCleanup st containerID ownership)
  end.

Definition cleanupStoppedCgroupWithCleanup (st : store_ref) (c : option Container)
    (cleanup : option generationCleanupFunc) : M unit :=
  ensure (check_store st);;
  match c with
  | None => throw (Errorf "container snapshot is nil")
  | Some c =>
    ensure (fail_if (String.eqb (ID c) "") (Errorf "container ID is empty"));;
    ensure (fail_if (negb (String.eqb (Status c) StatusStopped))
      (Errorf "container %s is %s; cgroup cleanup retry requires stopped state"));;
    current ← wrapm "validate stopped cleanup snapshot for container %s: %w"
                (stoppedSnapshotStillCurrent st (Some c));
    if negb current then mret tt
    else
      ownership ← wrapm "read cgroup ownership for stopped container %s: %w"
                    (call 4 (GetCgroupOwnership st (ID c)));
      match ownership with
      | None => mret tt
      | Some ownership =>
        a ← wrapm "read stopped generation identity before cgroup cleanup for container %s: %w"
              (call 5 (GetStoppedExitIdentityPolicy st (ID c) (Revision c)));
        if negb (an_current a) then mret tt
        else match an_identity a with
        | None =>
          if an_required a
          then throw (Errorf "stopped container %s revision %d is missing required exited process identity while cgroup ownership remains")
          else throw (Errorf "refusing cgroup cleanup for stopped container %s revision %d without exact exited process identity")
        | Some exited =>
          ensure (fail_if (negb (cg_PID ownership =? xi_PID exited)%Z ||
                           negb (cg_PIDStartTime ownership =? xi_PIDStartTime exited)%Z)
            (Errorf "refusing cgroup cleanup for container %s: ownership belongs to process %d/%d, stopped generation is %d/%d"));;
          wrapm "cleanup persisted cgroup for stopped container %s: %w"
            (cleanupOwnedGenerationWith st (ID c) ownership cleanup)
        end
      end
  end.

(** The results [(changed, err)].  [MarkStoppedIfIdentity] never returns
    [changed] beside an error, so its failure always ends the finalization. *)
Definition finalizeStoppedGenerationWithCleanup (st : store_ref) (c : option Container)
    (exitCode : Z) (finishedAt : time) (cleanup : option generationCleanupFunc)
    : M (bool * option error) :=
  match check_store st, c with
  | Some e, _ => mret (false, Some e)
  | None, None => mret (false, Some (Errorf "container snapshot is nil"))
  | None, Some c =>
    if String.eqb (ID c) "" || (PID c <=? 0)%Z || (PIDStartTime c =? 0)%Z
    then mret (false, Some (Errorf "container process generation is incomplete"))
    else match cleanup with
    | None => mret (false, Some (Errorf "generation cleanup function is nil"))
    | Some _ =>
      changed ← attempt (call 6 (MarkStoppedIfIdentity st (ID c) (PID c) (PIDStartTime c)
                                   exitCode finishedAt));
      match changed with
      | Fail e =>
        mret (false, Some (Wrapf "persist stopped state for container %s: %w" e))
      | Ok changed =>
        ownership ← attempt (call 7 (GetCgroupOwnership st (ID c)));
        ownershipErr ←
          match ownership with
          | Fail e => mret (Some (Wrapf "read cgroup ownership for container %s: %w" e))
          | Ok None => mret None
          | Ok (Some ownership) =>
            if negb (cg_PID ownership =? PID c)%Z ||
               negb (cg_PIDStartTime ownership =? PIDStartTime c)%Z
            then mret (Some (Errorf "cgroup ownership for container %s belongs to process %d/%d, not finalized generation %d/%d"))
            else
              err_of (wrapm "cleanup stopped process generation for container %s: %w"
                        (cleanupOwnedGenerationWith st (ID c) ownership cleanup))
          end;
        mret (changed, ownershipErr)
      end
    end
  end.

(** * The network of a generation (network_ownership_linux.go) *)

(** The loop over the mappings, last one first: the errors joined so far. *)
Fixpoint remove_ports (removePort : ownedPortCleanupFunc) (owner : string)
    (mappings : list PortForwardingOwnership) (cleanupErr : option error)
    : M (option error) :=
  match mappings with
  | [] => mret cleanupErr
  | mapping :: mappings =>
    r ← err_of (call 8 (removePort owner (pf_HostPort mapping) (pf_ContainerPort mapping)
                          (pf_ContainerIP mapping) (pf_Protocol mapping)));
    remove_ports removePort owner mappings
      (errors_Join cleanupErr (wrap_err "remove persisted port mapping %d:%d/%s: %w" r))
  end.

Definition cleanupNetworkOwnershipWith (st : store_ref) (containerID : string)
    (ownership : NetworkOwnership) (removePort : option ownedPortCleanupFunc)
    (removeVeth : option ownedVethCleanupFunc) : M unit :=
  ensure (check_store st);;
  match removePort, removeVeth with
  | Some removePort, Some removeVeth =>
    cleanupErr ← remove_ports removePort (no_Owner ownership)
                   (reverse (slice_list (no_Mappings ownership))) None;
    vethErr ←
      (if String.eqb (no_VethHost ownership) "" then mret None
       else err_of (call 9 (removeVeth (no_VethHost ownership) (no_Owner ownership))));
    ensure (errors_Join cleanupErr (wrap_err "remove persisted host veth %s: %w" vethErr));;
    cleared ← wrapm "clear network ownership after cleanup: %w"
                (call 10 (ClearNetworkOwnershipIfMatch st containerID ownership));
    if cleared : bool then mret tt
    else
      current ← wrapm "re-read network ownership after cleanup: %w"
                  (call 11 (GetNetworkOwnership st containerID));
      match current with
      | None => mret tt
      | Some _ => throw (Errorf "network ownership changed or remained after successful cleanup")
      end
  | _, _ => throw (Errorf "owned network cleanup function is nil")
  end.

Definition cleanupNetworkOwnershipAfterDurableStopWith (st : store_ref)
    (containerID : string) (ownership : NetworkOwnership)
    (removePort : option ownedPortCleanupFunc)
    (removeVeth : option ownedVethCleanupFunc) : M unit :=
  ensure (check_store st);;
  current ← wrapm "read lifecycle state before network cleanup for container %s: %w"
              (call 12 (Get containerID));
  if negb (String.eqb (Status current) StatusStopped) then mret tt
  else
    a ← wrapm "read stopped generation identity before network cleanup for container %s: %w"
          (call 13 (GetStoppedExitIdentityPolicy st containerID (Revision current)));
    if negb (an_current a) then mret tt
    else match an_identity a with
    | None =>
      if an_required a
      then throw (Errorf "stopped container %s revision %d is missing required exited process identity while network ownership remains")
      else throw (Errorf "refusing network cleanup for stopped container %s revision %d without exact exited process identity")
    | Some exited =>
      ensure (fail_if (negb (no_PID ownership =? xi_PID exited)%Z ||
                       negb (no_PIDStartTime ownership =? xi_PIDStartTime exited)%Z)
        (Errorf "refusing network cleanup for container %s: ownership belongs to process %d/%d, stopped generation is %d/%d"));;
      cleanupNetworkOwnershipWith st containerID ownership removePort removeVeth
    end.

(** * generation_resource_cleanup_linux.go *)

Definition cleanupNetworkGenerationIfOwnedWith (st : store_ref) (containerID : string)
    (pid pidStartTime : Z) (removePort : option ownedPortCleanupFunc)
    (removeVeth : option ownedVethCleanupFunc) : M unit :=
  ownership ← wrapm "read network ownership for container %s: %w"
                (call 14 (GetNetworkOwnership st containerID));
  match ownership with
  | None => mret tt
  | Some ownership =>
    if negb (no_PID ownership =? pid)%Z || negb (no_PIDStartTime ownership =? pidStartTime)%Z
    then mret tt
    else wrapm "cleanup network ownership for generation %d/%d: %w"
           (cleanupNetworkOwnershipWith st containerID ownership removePort removeVeth)
  end.

Definition cleanupCgroupGenerationIfOwnedWith (st : store_ref) (containerID : string)
    (pid pidStartTime : Z) (cleanup : option generationCleanupFunc) : M unit :=
  ownership ← wrapm "read cgroup ownership for container %s: %w"
                (call 15 (GetCgroupOwnership st containerID));
  match ownership with
  | None => mret tt
  | Some ownership =>
    if negb (cg_PID ownership =? pid)%Z || negb (cg_PIDStartTime ownership =? pidStartTime)%Z
    then mret tt
    else wrapm "cleanup cgroup ownership for generation %d/%d: %w"
           (cleanupOwnedGenerationWith st containerID ownership cleanup)
  end.

Definition defaultBridgeDNSNetwork : string := "default".

(** A function value that may be nil, called for its error. *)
Definition dns_error (msg : string) (dnsCleanup : option dnsGenerationCleanupFunc)
    (containerID : string) (pid pidStartTime : Z) : M (option error) :=
  match dnsCleanup with
  | None => mret (Some (Errorf "DNS generation cleanup function is nil"))
  | Some dnsCleanup =>
    err_of (wrapm msg
      (call 16 (dnsCleanup defaultBridgeDNSNetwork containerID pid pidStartTime)))
  end.

Definition cleanupRuntimeGenerationResourcesWith (st : store_ref) (containerID : string)
    (pid pidStartTime : Z) (cgroupCleanup : option generationCleanupFunc)
    (removePort : option ownedPortCleanupFunc) (removeVeth : option ownedVethCleanupFunc)
    (dnsCleanup : option dnsGenerationCleanupFunc) : M unit :=
  dnsErr ← dns_error "cleanup bridge DNS registration for generation %d/%d: %w"
             dnsCleanup containerID pid pidStartTime;
  cgroupErr ← err_of (cleanupCgroupGenerationIfOwnedWith st containerID pid pidStartTime
                        cgroupCleanup);
  networkErr ← err_of (cleanupNetworkGenerationIfOwnedWith st containerID pid pidStartTime
                         removePort removeVeth);
  ensure (errors_Join (errors_Join cgroupErr networkErr) dnsErr).

(** [networkCleanup] is [cleanupNetworkGenerationIfOwned]. *)
Definition cleanupStoppedGenerationExternalResourcesWith (st : store_ref)
    (containerID : string) (pid pidStartTime : Z)
    (networkCleanup : option (store_ref → string → Z → Z → M unit))
    (dnsCleanup : option dnsGenerationCleanupFunc) : M unit :=
  dnsErr ← dns_error "cleanup bridge DNS registration for stopped container %s: %w"
             dnsCleanup containerID pid pidStartTime;
  networkErr ←
    match networkCleanup with
    | None => mret (Some (Errorf "network generation cleanup function is nil"))
    | Some networkCleanup => err_of (networkCleanup st containerID pid pidStartTime)
    end;
  ensure (errors_Join dnsErr networkErr).

(** * The calls of the runtime *)

(** From outside: the answers of the kernel about processes and the cgroup
    hierarchy, the longest file name, and the functions of internal/network and
    internal/events, which run commands of the host and append to a journal. *)
Context (controllers : res unit) (proc : Z → res string) (namelen : Z).
Context (removePort : ownedPortCleanupFunc) (removeVeth : ownedVethCleanupFunc).
Context (publish : string → string → Z → M unit).

Definition cleanupGeneration : option generationCleanupFunc :=
  Some (cleanupContainerProcessGeneration controllers).

Definition cleanupNetworkOwnership (st : store_ref) (containerID : string)
    (ownership : NetworkOwnership) : M unit :=
  cleanupNetworkOwnershipAfterDurableStopWith st containerID ownership
    (Some removePort) (Some removeVeth).

Definition cleanupNetworkGenerationIfOwned (st : store_ref) (containerID : string)
    (pid pidStartTime : Z) : M unit :=
  cleanupNetworkGenerationIfOwnedWith st containerID pid pidStartTime
    (Some removePort) (Some removeVeth).

Definition cleanupRuntimeGenerationResources (st : store_ref) (containerID : string)
    (pid pidStartTime : Z) : M unit :=
  cleanupRuntimeGenerationResourcesWith st containerID pid pidStartTime cleanupGeneration
    (Some removePort) (Some removeVeth)
    (Some (CleanupStoppedHostRegistrationGeneration namelen)).

(** The part after the state and the cgroup; [changed] and [cgroupErr] are the
    results so far. *)
Definition finalize_external (st : store_ref) (c : Container) (exitCode : Z)
    (changed : bool) (cgroupErr : option error) : M (bool * option error) :=
  read ← attempt (call 17 (Get (ID c)));
  match read with
  | Fail e =>
    mret (changed, errors_Join cgroupErr
      (Some (Wrapf "reload container after generation finalization: %w" e)))
  | Ok current =>
    if negb (String.eqb (Status current) StatusStopped) then mret (changed, cgroupErr)
    else
      identity ← attempt (call 18 (GetExitedIdentityForStoppedRevision st (ID current)
                                     (Revision current)));
      match identity with
      | Fail e =>
        mret (changed, errors_Join cgroupErr
          (Some (Wrapf "validate stopped generation identity before external cleanup: %w" e)))
      | Ok a =>
        match an_identity a with
        | Some exited =>
          if negb (an_current a) || negb (xi_PID exited =? PID c)%Z ||
             negb (xi_PIDStartTime exited =? PIDStartTime c)%Z
          then mret (changed, cgroupErr)
          else
            (if changed then ignore (call 19 (publish (ID c) (RootFS current) exitCode))
             else mret tt);;
            externalErr ← err_of (cleanupStoppedGenerationExternalResourcesWith st (ID c)
              (PID c) (PIDStartTime c) (Some cleanupNetworkGenerationIfOwned)
              (Some (CleanupStoppedHostRegistrationGeneration namelen)));
            mret (changed, errors_Join cgroupErr externalErr)
        | None => mret (changed, cgroupErr)
        end
      end
  end.

Definition FinalizeStoppedGeneration (st : store_ref) (c : option Container)
    (exitCode : Z) (finishedAt : time) : M (bool * option error) :=
  '(changed, cgroupErr) ←
    finalizeStoppedGenerationWithCleanup st c exitCode finishedAt cleanupGeneration;
  match st, c with
  | NilStore, _ | _, None => mret (changed, cgroupErr)
  | AStore, Some c =>
    if String.eqb (ID c) "" then mret (changed, cgroupErr)
    else finalize_external st c exitCode changed cgroupErr
  end.

Definition CleanupStoppedCgroup (st : store_ref) (c : option Container) : M unit :=
  cleanupStoppedCgroupWithCleanup st c cleanupGeneration.

Definition CleanupStoppedNetwork (st : store_ref) (c : option Container) : M unit :=
  ensure (check_store st);;
  match c with
  | None => throw (Errorf "container snapshot is nil")
  | Some c =>
    ensure (fail_if (String.eqb (ID c) "") (Errorf "container ID is empty"));;
    ensure (fail_if (negb (String.eqb (Status c) StatusStopped))
      (Errorf "container %s is %s; network cleanup retry requires stopped state"));;
    current ← wrapm "validate stopped cleanup snapshot for container %s: %w"
                (stoppedSnapshotStillCurrent st (Some c));
    if negb current then mret tt
    else
      ownership ← wrapm "read network ownership for stopped container %s: %w"
                    (call 20 (GetNetworkOwnership st (ID c)));
      match ownership with
      | None => mret tt
      | Some ownership =>
        wrapm "cleanup persisted network resources for stopped container %s: %w"
          (cleanupNetworkOwnership st (ID c) ownership)
      end
  end.

Definition cleanupStoppedDNSRegistration (st : store_ref) (c : Container) : M unit :=
  a ← wrapm "read stopped generation identity policy for DNS cleanup: %w"
        (call 21 (GetStoppedExitIdentityPolicy st (ID c) (Revision c)));
  if negb (an_current a) then mret tt
  else match an_identity a with
  | None =>
    if an_required a
    then throw (Errorf "stopped container %s revision %d is missing required exited process identity")
    else call 22 (CleanupStoppedLegacyHostRegistrations proc namelen
                    defaultBridgeDNSNetwork (ID c))
  | Some exited =>
    call 23 (CleanupStoppedHostRegistrationGeneration namelen defaultBridgeDNSNetwork (ID c)
               (xi_PID exited) (xi_PIDStartTime exited))
  end.

Definition CleanupStoppedRuntimeResources (st : store_ref) (c : option Container) : M unit :=
  match c with
  | None =>
    cgroupErr ← err_of (CleanupStoppedCgroup st None);
    networkErr ← err_of (CleanupStoppedNetwork st None);
    ensure (errors_Join cgroupErr networkErr)
  | Some snapshot =>
    current ← wrapm "validate stopped runtime cleanup snapshot for container %s: %w"
                (stoppedSnapshotStillCurrent st c);
    if negb current then mret tt
    else
      cgroupErr ← err_of (CleanupStoppedCgroup st c);
      networkErr ← err_of (CleanupStoppedNetwork st c);
      dnsErr ← err_of (cleanupStoppedDNSRegistration st snapshot);
      ensure (errors_Join (errors_Join cgroupErr networkErr) dnsErr)
  end.

(** * Processes (process_handle_linux.go, process_identity_linux.go) *)

Definition parseProcessStartTime (stat : string) : res Z :=
  match after_last ")" stat with
  | None | Some "" => Fail (Errorf "malformed /proc stat: missing command terminator")
  | Some rest =>
    let fields := str_fields rest in
    if (length fields <=? 19)%nat
    then Fail (Errorf "malformed /proc stat: missing starttime field")
    else match parse_uint max_uint64 (nth 19 fields "") with
    | None => Fail (Wrapf "parse process starttime %q: %w" (Errorf "invalid syntax"))
    | Some start => Ok start
    end
  end.

Definition ProcessStartTime (pid : Z) : res Z :=
  check (fail_if (pid <=? 0)%Z (Errorf "invalid PID %d"));;
  data ← wrapf "read process stat for PID %d: %w" (proc pid);
  parseProcessStartTime data.

(** [unix.ESRCH] *)
Definition ESRCH : error := EIO "no such process".

(** The kernel's answers about one pidfd: [unix.PidfdOpen], [unix.Poll] (repeated
    while interrupted; whether the process has exited) and [unix.Close]. *)
Record pidfd_kernel := mkKernel {
  PidfdOpen : Z → res unit; Poll : Z → res bool; CloseFd : Z → res unit }.
Context (kernel : pidfd_kernel).

Record ProcessHandle := mkHandle { ph_PID : Z; ph_StartTime : Z }.

Definition OpenProcessHandle (pid expectedStartTime : Z) : res ProcessHandle :=
  if (pid <=? 0)%Z || (expectedStartTime =? 0)%Z
  then Fail (Wrapf "%w: invalid identity %d/%d" ErrProcessIdentityUnavailable)
  else match PidfdOpen kernel pid with
  | Fail e =>
    if bool_decide (e = ESRCH) then Fail (Wrapf "%w: PID %d" ErrProcessNotFound)
    else Fail (Wrapf "pidfd_open PID %d: %w" e)
  | Ok _ =>
    match ProcessStartTime pid with
    | Fail e =>
      if errors_Is e ErrNotExist
      then Fail (Wrapf "%w: PID %d exited during identity verification" ErrProcessNotFound)
      else Fail (Wrapf "verify PID %d starttime: %w" e)
    | Ok start =>
      if negb (start =? expectedStartTime)%Z
      then Fail (Wrapf "%w: PID %d expected starttime %d, got %d" ErrProcessIdentityMismatch)
      else Ok (mkHandle pid start)
    end
  end.

(** [handle.WaitExit(0)] and [handle.Close()] *)
Definition WaitExit0 (h : ProcessHandle) : res bool :=
  wrapf "poll pidfd for PID %d: %w" (Poll kernel (ph_PID h)).
Definition CloseHandle (h : ProcessHandle) : option error :=
  match CloseFd kernel (ph_PID h) with
  | Ok _ => None
  | Fail e => Some (Wrapf "close pidfd for PID %d: %w" e)
  end.

Definition probeProcessGeneration (pid pidStartTime : Z) : res bool :=
  match OpenProcessHandle pid pidStartTime with
  | Fail e =>
    if errors_Is e ErrProcessNotFound || errors_Is e ErrProcessIdentityMismatch
    then Ok false else Fail e
  | Ok handle =>
    match WaitExit0 handle, CloseHandle handle with
    | Fail waitErr, _ => Fail waitErr
    | Ok _, Some closeErr => Fail closeErr
    | Ok exited, None => Ok (negb exited)
    end
  end.

(** * reconcile.go *)

Definition processGenerationProbe : Type := Z → Z → res bool.
Definition stoppedGenerationCleanup : Type := store_ref → option Container → M unit.
Definition stoppedGenerationFinalizer : Type :=
  store_ref → option Container → Z → time → M (bool * option error).

(** The results [(snapshot, err)]. *)
Definition reconcileContainerStateWithFinalizer (st : store_ref) (c : option Container)
    (probe : option processGenerationProbe) (cleanup : option stoppedGenerationCleanup)
    (finalize : option stoppedGenerationFinalizer) (now : option time)
    : M (option Container * option error) :=
  match c, check_store st, probe, cleanup, finalize, now with
  | None, _, _, _, _, _ => mret (None, Some (Errorf "container snapshot is nil"))
  | Some c, Some e, _, _, _, _ => mret (Some c, Some e)
  | Some c, None, probe, cleanup, finalize, now =>
    if String.eqb (ID c) "" then mret (Some c, Some (Errorf "container ID is empty"))
    else match probe, cleanup, finalize, now with
    | None, _, _, _ => mret (Some c, Some (Errorf "process generation probe is nil"))
    | _, None, _, _ => mret (Some c, Some (Errorf "stopped generation cleanup is nil"))
    | _, _, None, _ => mret (Some c, Some (Errorf "stopped generation finalizer is nil"))
    | _, _, _, None => mret (Some c, Some (Errorf "clock is nil"))
    | Some probe, Some cleanup, Some finalize, Some now =>
      read ← attempt (call 24 (Get (ID c)));
      match read with
      | Fail e =>
        mret (Some c, Some (Wrapf "reload container %s before reconciliation: %w" e))
      | Ok current =>
        if String.eqb (Status current) StatusStopped then
          cleaned ← err_of (cleanup st (Some current));
          match cleaned with
          | Some e => mret (Some current,
              Some (Wrapf "cleanup stopped container %s during reconciliation: %w" e))
          | None =>
            latest ← attempt (call 25 (Get (ID current)));
            match latest with
            | Fail e => mret (Some current,
                Some (Wrapf "reload stopped container %s after cleanup: %w" e))
            | Ok latest => mret (Some latest, None)
            end
          end
        else if negb (String.eqb (Status current) StatusRunning) then
          mret (Some current, None)
        else if (PID current <=? 0)%Z || (PIDStartTime current =? 0)%Z then
          mret (Some current, Some (Wrapf "%w: container %s has invalid process identity %d/%d"
                                      ErrProcessIdentityUnavailable))
        else match probe (PID current) (PIDStartTime current) with
        | Fail e => mret (Some current, Some (Wrapf "probe container %s process %d/%d: %w" e))
        | Ok true =>
          latest ← attempt (call 26 (Get (ID current)));
          match latest with
          | Fail e => mret (Some current,
              Some (Wrapf "reload live container %s after process probe: %w" e))
          | Ok latest => mret (Some latest, None)
          end
        | Ok false =>
          '(changed, finalizeErr) ← finalize st (Some current) (-1) now;
          latest ← attempt (call 27 (Get (ID current)));
          match latest, finalizeErr with
          | Fail e, Some f => mret (Some current, Some (Joined
              (Wrapf "finalize exited container %s generation %d/%d: %w" f)
              (Wrapf "reload container %s after generation finalization: %w" e)))
          | Fail e, None => mret (Some current,
              Some (Wrapf "reload container %s after generation finalization: %w" e))
          | Ok latest, Some f => mret (Some latest,
              Some (Wrapf "finalize exited container %s generation %d/%d (changed=%t): %w" f))
          | Ok latest, None => mret (Some latest, None)
          end
        end
      end
    end
  end.

Definition ReconcileContainerState (st : store_ref) (c : option Container) (now : time)
    : M (option Container * option error) :=
  reconcileContainerStateWithFinalizer st c (Some probeProcessGeneration)
    (Some CleanupStoppedRuntimeResources) (Some FinalizeStoppedGeneration) (Some now).
End interleaved.
