(* ===== verification/FinalizeFacts.v ===== *)
(** What the end of a generation keeps, whatever fails and whoever else runs:
    the invariant of the host (container records, ownership proofs and cgroups
    fit together) and the rules of the calls that finalization makes. *)
From S2P Require Import Prelude GoStrings Decimal Json Fs FsLogic Durable Container.
From S2P Require Import Net Ownership OwnershipFacts Generation GenerationFacts.
From S2P Require Import Store StoreFacts StoreOps StoreSystem StoreReach.
From S2P Require Import Dns DnsOps DnsActs DnsReach Cgroups Finalize.

#[local] Open Scope Z_scope.

(** * Generations and their cgroups *)

(** The record of [id] does not claim that generation [g] runs. *)
Definition exited (w : world) (id : string) (g : exitedIdentity) : Prop :=
  ¬ running_as w id (xi_PID g) (xi_PIDStartTime g).

(** No directory of the cgroup is left. *)
Definition gone (v2 : bool) (name : string) (w : world) : Prop :=
  ∀ q, q ∈ cgroup_paths v2 name → w_fs w !! q = None.

Definition cgroup_name (id : string) (g : exitedIdentity) : res string :=
  NameForContainerProcess id (xi_PID g) (xi_PIDStartTime g).

(** The fields have their Go types. *)
Definition typed (g : exitedIdentity) : Prop :=
  in_int64 (xi_PID g) ∧ in_uint64 (xi_PIDStartTime g).

(** A cgroup of [id] that is not gone is named by the durable proof. *)
Definition accounted (v2 : bool) (w : world) (id : string) : Prop :=
  ∀ g name, typed g → cgroup_name id g = Ok name → ¬ gone v2 name w →
    cgroup_at w id = Some (mkCgroup name (xi_PID g) (xi_PIDStartTime g)).

(** [dead] are the generations whose process has exited. *)
Record host_inv (v2 : bool) (dead : string → exitedIdentity → Prop) (w : world) : Prop := {
  hi_containers id : container_inv w id;
  hi_accounted id : accounted v2 w id;
  hi_stopped id g n : abs w id = AStopped g n → dead id g }.

Definition is_cgroup (q : path) : Prop := ∃ controller, fst q = DCgroup controller.

Lemma cgroup_paths_cgroup v2 name q : q ∈ cgroup_paths v2 name → is_cgroup q.
Proof.
  destruct v2; cbn; rewrite !elem_of_cons, elem_of_nil; intros Hq; destruct_or! Hq; subst;
    try done; by eexists.
Qed.
Lemma cgroup_paths_name v2 v2' name name' q :
  q ∈ cgroup_paths v2 name → q ∈ cgroup_paths v2' name' → name = name'.
Proof.
  destruct v2, v2'; cbn; rewrite !elem_of_cons, !elem_of_nil; intros Hq Hq';
    destruct_or! Hq; destruct_or! Hq'; congruence.
Qed.
Lemma core_not_cgroup id q : q ∈ core_paths id → ¬ is_cgroup q.
Proof.
  unfold core_paths. rewrite !elem_of_cons, elem_of_nil. intros Hq [c Hc].
  destruct_or! Hq; subst; done.
Qed.

#[export] Instance gone_dec v2 name w : Decision (gone v2 name w).
Proof.
  refine (cast_if (decide (Forall (λ q, w_fs w !! q = None) (cgroup_paths v2 name))));
    unfold gone; by rewrite <- Forall_forall.
Defined.

(** * What the invariant reads *)

Section inv.
Context (v2 : bool) (dead : string → exitedIdentity → Prop).

(** The entries of the state store and of the cgroup hierarchies. *)
Definition host_path (q : path) : Prop := fst q = DCtr ∨ is_cgroup q.

Lemma core_host id q : q ∈ core_paths id → host_path q.
Proof.
  unfold core_paths. rewrite !elem_of_cons, elem_of_nil. intros Hq. left.
  destruct_or! Hq; by subst.
Qed.

Lemma gone_ext name w w' : (∀ q, is_cgroup q → same_at q w w') →
  gone v2 name w → gone v2 name w'.
Proof. intros H Hg q Hq. rewrite H; [by apply Hg|]. by eapply cgroup_paths_cgroup. Qed.
Lemma accounted_ext w w' id : (∀ q, is_cgroup q → same_at q w w') →
  same_at (cgroupOwnershipPath id) w w' → accounted v2 w id → accounted v2 w' id.
Proof.
  intros Hc Hp Ha g name Ht Hn Hg. unfold cgroup_at. rewrite (same_at_regular _ _ _ Hp).
  apply (Ha g name Ht Hn). intros Hg'. apply Hg. by eapply gone_ext.
Qed.
Lemma exited_ext w w' id g : same_at (containerPath id) w w' → exited w id g → exited w' id g.
Proof.
  intros Hs He (c & Hc & H). apply He. exists c. by rewrite <- (record_at_same _ _ _ Hs).
Qed.

Lemma inv_ext w w' : (∀ q, host_path q → same_at q w w') → host_inv v2 dead w → host_inv v2 dead w'.
Proof.
  intros Hs [H1 H2 H3]. split.
  - intros id. apply (container_inv_ext w); [|done]. intros q Hq. by apply Hs, (core_host id).
  - intros id. apply (accounted_ext w); [|by apply Hs; left|done].
    intros q Hq. apply Hs. by right.
  - intros id g n. rewrite (abs_same id w); [by apply H3|]. by apply Hs; left.
Qed.
Lemma inv_same w w' : same w w' → host_inv v2 dead w → host_inv v2 dead w'.
Proof. intros [Hs _]. apply inv_ext. intros q _. unfold same_at. by rewrite Hs. Qed.
Lemma inv_beside w w' : beside w w' → host_inv v2 dead w → host_inv v2 dead w'.
Proof. intros Hb. apply inv_ext. intros q [Hq|[c Hq]]; apply Hb; by rewrite Hq. Qed.

(** A step of the store on [id]. *)
Lemma inv_step cr id w w' : host_inv v2 dead w → good_step cr id w w' →
  (∀ q, q ∉ core_paths id → same_at q w w') → accounted v2 w' id →
  (∀ g n, abs w' id = AStopped g n → dead id g) → host_inv v2 dead w'.
Proof.
  intros [H1 H2 H3] Hg Hs Ha Hd.
  assert (Hof : ∀ i q, i ≠ id → q ∈ core_paths i → same_at q w w').
  { intros i q Hne Hq. apply Hs. by eapply core_paths_apart. }
  split.
  - apply (frame_inv id w w'); [done|apply Hg|apply Hg].
  - intros i. destruct (decide (i = id)) as [->|Hne]; [done|].
    apply (accounted_ext w); [| |done].
    + intros q Hq. apply Hs. intros Hc. by apply core_not_cgroup in Hc.
    + apply (Hof i); [done|]. unfold core_paths. set_solver.
  - intros i g n. destruct (decide (i = id)) as [->|Hne]; [by apply Hd|].
    rewrite (abs_same i w); [by apply H3|]. apply (Hof i); [done|]. unfold core_paths. set_solver.
Qed.
End inv.

(** * Single calls *)

Lemma fs_inv v2 dead w w' : w_fs w' = w_fs w → host_inv v2 dead w → host_inv v2 dead w'.
Proof. intros E. apply inv_ext. intros q _. unfold same_at. by rewrite E. Qed.
Lemma fs_exited w w' id g : w_fs w' = w_fs w → exited w id g → exited w' id g.
Proof. intros E. apply exited_ext. unfold same_at. by rewrite E. Qed.
Lemma fs_gone v2 name w w' : w_fs w' = w_fs w → gone v2 name w → gone v2 name w'.
Proof. intros E. apply gone_ext. intros q _. unfold same_at. by rewrite E. Qed.

(** Without legacy sidecars nothing is retired. *)
Lemma quiet_fs id w w' : container_inv w id → quiet id w w' → w_fs w' = w_fs w.
Proof.
  intros [_ Hn] Hq. apply map_eq. intros q. destruct (decide (q ∈ exit_paths id)) as [Hx|Hx].
  - destruct Hq as (_ & Hq & _). specialize (Hn q Hx). destruct (Hq q); congruence.
  - by eapply quiet_lookup.
Qed.

Lemma stopped_exited w id c g :
  record_at w id = Some c → Status c ≠ StatusRunning → exited w id g.
Proof. intros Hc Hst (c' & Hc' & Hr & _). congruence. Qed.

Lemma not_current w id rev a req : answers w id rev a req → an_current a = true →
  ∃ c, record_at w id = Some c ∧ Status c = StatusStopped ∧ Revision c = rev ∧
    ∀ g, an_identity a = Some g → ∃ n, abs w id = AStopped g n.
Proof.
  unfold answers. intros Ha Hc. rewrite Hc in Ha.
  destruct Ha as (c & s & gen & Hr & Hs & Hst & Hrev & Hl & Hi & _).
  exists c. split_and!; try done. intros g Hg. subst gen. rewrite Hg in Hl.
  exists (Revision c). unfold abs. rewrite Hr, Hs.
  destruct (lifecycle_generation _ _ _ Hl) as [E|E]; [|done].
  unfold abs_of in E. rewrite Hst in E. cbn in E. by case_match.
Qed.

(** The calls that read the store leave its entries alone; what they answer. *)
Section reads.
Context (w : world) (id : string).

Lemma wp_get_cgroup st Q :
  (∀ w' r, w_fs w' = w_fs w →
     (match r with None => w_fs w !! cgroupOwnershipPath id = None
                 | Some o => cgroup_at w id = Some o end) → Q (Ret r) w') →
  (∀ w' o, w_fs w' = w_fs w → (∃ e, o = Err e) ∨ o = Crash → Q o w') →
  wp (GetCgroupOwnership st id) Q w.
Proof.
  intros HR HE. unfold GetCgroupOwnership. do 2 wp_step; [|apply HE; eauto].
  do 2 wp_step; [|apply HE; eauto]. unfold open_store. do 3 wp_step.
  destruct (w_closed w); wp_step; [apply HE; eauto|].
  apply wp_readCgroup; [intros w' [E _] Hn; by apply HR|intros w' o [E _] Ho; by apply HR|].
  intros w' o [E _] Ho. by apply HE.
Qed.
Lemma wp_get_network st Q :
  (∀ w' r, w_fs w' = w_fs w →
     (match r with None => w_fs w !! networkOwnershipPath id = None
                 | Some o => network_at w id = Some o end) → Q (Ret r) w') →
  (∀ w' o, w_fs w' = w_fs w → (∃ e, o = Err e) ∨ o = Crash → Q o w') →
  wp (GetNetworkOwnership st id) Q w.
Proof.
  intros HR HE. unfold GetNetworkOwnership. do 2 wp_step; [|apply HE; eauto].
  do 2 wp_step; [|apply HE; eauto]. unfold open_store. do 3 wp_step.
  destruct (w_closed w); wp_step; [apply HE; eauto|].
  apply wp_readNetwork; [intros w' [E _] Hn; by apply HR|intros w' o [E _] Ho; by apply HR|].
  intros w' o [E _] Ho. by apply HE.
Qed.
Lemma wp_get Q :
  (∀ w' c, w_fs w' = w_fs w → record_at w id = Some c → Q (Ret c) w') →
  (∀ w' o, w_fs w' = w_fs w → (∃ e, o = Err e) ∨ o = Crash → Q o w') →
  wp (Get id) Q w.
Proof.
  intros HR HE. apply wp_Get; [intros w' c [E _] Hc; by apply HR|].
  intros w' o [E _] Ho. by apply HE.
Qed.
Lemma wp_policy st rev Q : container_inv w id →
  (∀ w' a, w_fs w' = w_fs w → answers w id rev a (λ gen, bool_decide (is_Some gen)) →
     Q (Ret a) w') →
  (∀ w' o, w_fs w' = w_fs w → (∃ e, o = Err e) ∨ o = Crash → Q o w') →
  wp (GetStoppedExitIdentityPolicy st id rev) Q w.
Proof.
  intros Hi HR HE. eapply wp_conseq; [by apply wp_GetStoppedExitIdentityPolicy|].
  intros o w' [Hq Ho]. apply quiet_fs in Hq; [|done]. destruct o; eauto.
Qed.
Lemma wp_identity st rev Q : container_inv w id →
  (∀ w' a, w_fs w' = w_fs w → answers w id rev a (λ _, false) → Q (Ret a) w') →
  (∀ w' o, w_fs w' = w_fs w → (∃ e, o = Err e) ∨ o = Crash → Q o w') →
  wp (GetExitedIdentityForStoppedRevision st id rev) Q w.
Proof.
  intros Hi HR HE. eapply wp_conseq; [by apply wp_GetExitedIdentityForStoppedRevision|].
  intros o w' [Hq Ho]. apply quiet_fs in Hq; [|done]. destruct o; eauto.
Qed.
End reads.

(** Stopping a generation. *)
Lemma stopped_or_running w id g n c :
  container_inv w id → abs w id = ARunning g n → record_at w id = Some c →
  Status c = StatusRunning ∧ g = mkIdentity (PID c) (PIDStartTime c).
Proof.
  intros Hi Ha Hc. destruct (inv_record id w Hi c Hc) as (s & gen & Hs & Hl & _).
  unfold abs in Ha. rewrite Hc, Hs in Ha. unfold abs_of in Ha.
  inversion Hl as [H|H|i H|H]; rewrite H in Ha; cbn in Ha; repeat case_match; try done.
  by injection Ha as <- _.
Qed.

Definition around (id : string) (w w' : world) : Prop :=
  (∀ q, q ∉ core_paths id → same_at q w w') ∧
  same_at (cgroupOwnershipPath id) w w' ∧ same_at (networkOwnershipPath id) w w'.

Lemma mutates_around {A} id al (qr wr : A → Prop) w o w' :
  mutates id al qr wr w o w' → around id w w'.
Proof.
  assert (Hx : ∀ q, q ∉ core_paths id ∨ q = cgroupOwnershipPath id ∨
    q = networkOwnershipPath id → q ≠ containerPath id ∧ q ∉ exit_paths id).
  { intros q [Hq|Hq].
    - unfold core_paths, exit_paths in *. split; [intros ->|]; set_solver.
    - unfold exit_paths. rewrite !elem_of_cons, elem_of_nil.
      destruct Hq as [-> | ->]; (split; [path_ne|intros Hq; destruct_or! Hq; try done; revert Hq; path_ne]). }
  intros Hm. assert (Hs : ∀ q, q ≠ containerPath id ∧ q ∉ exit_paths id → same_at q w w').
  { intros q [H1 H2]. destruct Hm as [[Hq _]|(c & c' & r & i & _ & _ & Hw & _)].
    - by eapply quiet_lookup.
    - by eapply rewritten_others. }
  split_and!; [intros q Hq|..]; apply Hs, Hx; auto.
Qed.

Lemma around_cgroup id w w' q : around id w w' → is_cgroup q → same_at q w w'.
Proof. intros [H _] Hq. apply H. intros Hc. by apply core_not_cgroup in Hc. Qed.

Lemma wp_mark_stopped v2 (dead : string → exitedIdentity → Prop) st id g code t w :
  host_inv v2 dead w → typed g → in_int64 code → dead id g →
  wp (MarkStoppedIfIdentity st id (xi_PID g) (xi_PIDStartTime g) code t)
    (λ o w', host_inv v2 dead w' ∧ around id w w' ∧
       ∀ b, o = Ret b → exited w' id g) w.
Proof.
  intros Hinv [Hp Hq] Hx Hd. destruct g as [pid pst]. cbn in *.
  pose proof (wp_MarkStoppedIfIdentity id pid pst code t Hp Hq Hx st w) as Hm. revert Hm.
  unfold wp. destruct (MarkStoppedIfIdentity _ _ _ _ _ _ w) as [o w'] eqn:E. cbn [fst snd].
  intros Hm. pose proof (mutates_around _ _ _ _ _ _ _ Hm) as Ha.
  assert (Hg : good_step False id w w').
  { eapply (MarkStopped_inv id w (hi_containers _ _ _ Hinv id)); [..|exact E]; done. }
  split_and!; [|done|].
  - apply (inv_step v2 dead False id w w'); [done..|apply Ha| |].
    + apply (accounted_ext v2 w); [intros q ?; by eapply around_cgroup|apply Ha|apply Hinv].
    + intros g n Hab. pose proof (gs_abs _ _ _ _ Hg) as Has.
      revert Has. rewrite Hab. generalize (eq_refl (abs w id)).
      generalize (abs w id) at 2 3. intros a Ea Has.
      remember (AStopped g n) as a' eqn:E'. destruct Has; try done.
      * apply (hi_stopped _ _ _ Hinv id g n). congruence.
      * destruct a; try done. injection E' as -> _.
        by apply (hi_stopped _ _ _ Hinv id _ _ Ea).
      * injection E' as -> _.
        destruct Hm as [[Hqu _]|(c & c' & r & i & Hc & (_ & _ & Hal) & _)].
        { rewrite (abs_same id w w') in Hab; [congruence|]. eapply quiet_lookup; [done|].
          apply not_exit_path_record. }
        destruct (stopped_or_running w id _ _ c (hi_containers _ _ _ Hinv id) Ea Hc) as [Hst ->].
        destruct Hal as [(_ & Hb & _)|(Hst' & _)]; [|status_clash].
        unfold bound_to in Hb. bool_simp. by subst.
  - intros b ->. destruct Hm as [[Hqu Ho]|(c & c' & r & i & Hc & (_ & _ & Hal) & Hw & _)].
    + destruct (Ho b eq_refl) as [_ Hn]. intros (c & Hc & Hst & Hb).
      rewrite (quiet_record _ _ _ Hqu) in Hc. cbn in Hb. by rewrite (Hn c Hc Hst) in Hb.
    + eapply (stopped_exited _ _ (persisted c')); [by eapply rewritten_record|].
      assert (Hst : Status (persisted c') = StatusStopped).
      { destruct Hal as [(_ & _ & -> & _)|(Hst & _ & _ & _ & -> & _)]; destruct c; [done|].
        cbn in *. by rewrite Hst. }
      by rewrite Hst.
Qed.

(** Clearing a proof. *)
Lemma clears_around p id al w o w' :
  p = cgroupOwnershipPath id ∨ p = networkOwnershipPath id → clears p al w o w' →
  (∀ q, q ≠ p → same_at q w w').
Proof.
  intros Hp [[[Hs _] _]|(_ & (H & _) & _)] q Hq; [unfold same_at; by rewrite Hs|].
  apply H. set_solver.
Qed.

Lemma wp_clear_cgroup v2 dead st id o w : host_inv v2 dead w →
  (∀ g name, cgroup_name id g = Ok name → cgroup_at w id = Some o →
     mkCgroup name (xi_PID g) (xi_PIDStartTime g) = o → gone v2 name w) →
  wp (ClearCgroupOwnershipIfMatch st id o)
    (λ r w', host_inv v2 dead w' ∧ (∀ q, q ≠ cgroupOwnershipPath id → same_at q w w') ∧
       (r = Ret true → w_fs w' !! cgroupOwnershipPath id = None)) w.
Proof.
  intros Hinv Hgone. eapply wp_conseq; [apply wp_ClearCgroup|]. intros r w' Hc.
  pose proof (clears_around _ id _ _ _ _ (or_introl eq_refl) Hc) as Ha.
  split_and!; [|done|].
  - apply (inv_step v2 dead False id w w'); [done| | | |].
    + eapply (clears_inv id w (hi_containers _ _ _ Hinv id)); [|exact Hc]. by left.
    + intros q Hq. apply Ha. intros ->. apply Hq. unfold core_paths. set_solver.
    + destruct Hc as [[Hs _]|([Hat _] & Hr & _)].
      { apply (accounted_ext v2 w); [intros q _| |apply Hinv]; by apply same_same_at. }
      intros g name Ht Hn Hng. destruct Hng. assert (Hg : gone v2 name w).
      { destruct (decide (gone v2 name w)) as [|Hng]; [done|].
        apply (Hgone g); [done..|].
        pose proof (hi_accounted _ _ _ Hinv id g name Ht Hn Hng) as E. congruence. }
      apply (gone_ext v2 name w); [|done]. intros q [c Hq]. apply Ha. by intros ->.
    + intros g n. rewrite (abs_same id w w'); [apply (hi_stopped _ _ _ Hinv)|].
      apply Ha. path_ne.
  - intros ->. destruct Hc as [[_ Hf]|(_ & _ & Hf)]; [by specialize (Hf true eq_refl)|].
    apply (proj2 (proj2 (Hf true eq_refl))). by left.
Qed.
Lemma wp_clear_network v2 dead st id o w : host_inv v2 dead w →
  wp (ClearNetworkOwnershipIfMatch st id o)
    (λ r w', host_inv v2 dead w' ∧ (∀ q, q ≠ networkOwnershipPath id → same_at q w w') ∧
       (r = Ret true → w_fs w' !! networkOwnershipPath id = None)) w.
Proof.
  intros Hinv. eapply wp_conseq; [apply wp_ClearNetwork|]. intros r w' Hc.
  pose proof (clears_around _ id _ _ _ _ (or_intror eq_refl) Hc) as Ha.
  split_and!; [|done|].
  - apply (inv_step v2 dead False id w w'); [done| | | |].
    + eapply (clears_inv id w (hi_containers _ _ _ Hinv id)); [|exact Hc]. by right.
    + intros q Hq. apply Ha. intros ->. apply Hq. unfold core_paths. set_solver.
    + apply (accounted_ext v2 w); [| |apply Hinv].
      * intros q [c Hq]. apply Ha. by intros ->.
      * apply Ha. path_ne.
    + intros g n. rewrite (abs_same id w w'); [apply (hi_stopped _ _ _ Hinv)|].
      apply Ha. path_ne.
  - intros ->. destruct Hc as [[_ Hf]|(_ & _ & Hf)]; [by specialize (Hf true eq_refl)|].
    apply (proj2 (proj2 (Hf true eq_refl))). by left.
Qed.

(** Removing a cgroup. *)
Lemma wp_os_Remove p Q w :
  (∀ w', all_removed [p] w w' → Q (Ret tt) w') →
  (∀ w' e, same w w' → (errors_Is e ErrNotExist = true → w_fs w !! p = None) →
     Q (Err e) w') →
  (∀ w', same w w' → Q Crash w') → wp (os_Remove p) Q w.
Proof.
  intros HR HE HC. unfold os_Remove. do 2 wp_step; [|by apply HE|by apply HC].
  do 2 wp_step. destruct (w_fs w' !! p) as [n|] eqn:Hn; repeat wp_step.
  - apply HR, updated_all_removed. destruct H as [E1 E2]. split; [|done]. cbn. by rewrite E1.
  - apply HE; [done|]. intros _. by rewrite <- (proj1 H).
Qed.

Lemma wp_remove_paths ps : ∀ e w, wp (remove_paths ps e)
  (λ o w', only_removed ps w w' ∧
     ∀ r, o = Ret r → (e ≠ None → r ≠ None) ∧ (r = None → all_removed ps w w')) w.
Proof.
  induction ps as [|p ps IH]; intros e w; cbn [remove_paths].
  { wp_step. split; [by apply same_only_removed|]. intros r [= <-]. split; [done|].
    intros _. split; [by apply same_only_removed|]. intros q Hq. set_solver. }
  assert (Hnext : ∀ e' w1, only_removed [p] w w1 → (e ≠ None → e' ≠ None) →
    (e' = None → w_fs w1 !! p = None) →
    wp (remove_paths ps e') (λ o w', only_removed (p :: ps) w w' ∧
      ∀ r, o = Ret r → (e ≠ None → r ≠ None) ∧ (r = None → all_removed (p :: ps) w w')) w1).
  { intros e' w1 H1 He Hp. eapply wp_conseq; [apply IH|]. intros o w' [H2 Ho].
    assert (H12 : only_removed (p :: ps) w w')
      by (apply (only_removed_trans [p] ps w w1 w'); done).
    split; [done|]. intros r Hr. destruct (Ho r Hr) as [Ho1 Ho2]. split; [tauto|].
    intros ->. destruct (Ho2 eq_refl) as [_ Hall]. split; [done|].
    intros q [->|Hq]%elem_of_cons; [|by apply Hall].
    destruct H2 as (_ & H2 & _). destruct (H2 p) as [-> | ->]; [|done]. apply Hp.
    destruct e'; [by destruct (Ho1 ltac:(done))|done]. }
  do 2 wp_step. apply wp_os_Remove.
  - intros w1 [Hr Ha]. cbn beta iota. apply Hnext; [done..|]. intros _. apply Ha. by left.
  - intros w1 e1 Hs Hn. cbn beta iota.
    apply Hnext; [by apply same_only_removed|..].
    + intros He. case_match; [done|]. by destruct e.
    + rewrite (proj1 Hs). case_match; [by intros _; apply Hn|]. by destruct e.
  - intros w1 Hs. split; [by apply same_only_removed|done].
Qed.

Lemma wp_cleanup_generation controllers id pid pst w :
  wp (cleanupContainerProcessGeneration controllers id pid pst)
    (λ o w', (∀ q, (∀ name, NameForContainerProcess id pid pst = Ok name →
                 q ∉ cgroup_paths (isV2 controllers) name) → same_at q w w') ∧
       (∀ q, same_at q w w' ∨ w_fs w' !! q = None) ∧
       ∀ u name, o = Ret u → NameForContainerProcess id pid pst = Ok name →
         gone (isV2 controllers) name w') w.
Proof.
  unfold cleanupContainerProcessGeneration. do 3 wp_step.
  2: { split_and!; [done|by left|done]. }
  unfold RemoveChecked, removeCgroupPaths. do 3 wp_step.
  2: { split_and!; [done|by left|done]. }
  wp_step. eapply wp_conseq; [apply wp_remove_paths|]. intros o w' [(H1 & H2 & H3) Ho].
  assert (Hsame : ∀ q, (∀ name, NameForContainerProcess id pid pst = Ok name →
    q ∉ cgroup_paths (isV2 controllers) name) → same_at q w w').
  { intros q Hq. by apply H1, Hq. }
  destruct o as [r|e|]; [|split_and!; done..]. cbn beta iota. wp_step; split_and!; try done.
  intros u name _ Hn. subst. assert (name = a) as -> by congruence.
  destruct (Ho None eq_refl) as [_ Hall]. exact (proj2 (Hall eq_refl)).
Qed.
