(* ===== verification/FinalizeInv.v ===== *)
(** The invariant of the host through finalization and reconciliation: every
    function keeps it at every failure, crash point and interleaving. *)
From S2P Require Import Prelude GoStrings Decimal Json Fs FsLogic Durable Container.
From S2P Require Import Net Ownership OwnershipFacts Generation GenerationFacts.
From S2P Require Import Store StoreFacts StoreOps StoreSystem StoreReach.
From S2P Require Import Dns DnsOps DnsActs DnsReach Cgroups Finalize FinalizeFacts.

#[local] Open Scope Z_scope.

(** The other processes, at any program point: they keep the invariant, never
    start a generation whose process has exited, and do not bring back its
    cgroup. *)
Record polite (v2 : bool) (dead : string → exitedIdentity → Prop)
    (others : nat → gmap path node → gmap path node) : Prop := {
  po_inv n w : host_inv v2 dead w → host_inv v2 dead (with_fs (others n) w);
  po_exited n w id g : host_inv v2 dead w → dead id g → exited w id g →
    exited (with_fs (others n) w) id g;
  po_gone n w id g name : host_inv v2 dead w → dead id g → exited w id g →
    cgroup_name id g = Ok name → gone v2 name w → gone v2 name (with_fs (others n) w) }.

Create HintDb safe.

Section inv.
Context (v2 : bool) (dead : string → exitedIdentity → Prop).
Context (others : nat → gmap path node → gmap path node).
Hypothesis Hothers : polite v2 dead others.

Lemma wp_call {A} n (m : M A) Q w : wp m Q (with_fs (others n) w) → wp (call others n m) Q w.
Proof. done. Qed.

(** A call that keeps the invariant whatever state it meets. *)
Definition safe {A} (m : M A) : Prop := ∀ w, host_inv v2 dead w → wp m (λ _ w', host_inv v2 dead w') w.

Lemma wp_safe {A} (m : M A) Q w : safe m → host_inv v2 dead w →
  (∀ w' o, host_inv v2 dead w' → Q o w') → wp m Q w.
Proof. intros Hm Hw HQ. eapply wp_conseq; [by apply Hm|]. auto. Qed.

Lemma safe_keeps {A} (m : M A) : Durable.keeps m → safe m.
Proof.
  intros Hm w Hw. eapply wp_conseq; [apply Hm|]. intros o w' Hs. exact (inv_same _ _ _ _ Hs Hw).
Qed.
Lemma safe_ret {A} (a : A) : safe (mret a).
Proof. by intros w. Qed.
Lemma safe_throw {A} e : safe (throw (A:=A) e).
Proof. by intros w. Qed.
Lemma safe_ensure e : safe (ensure e).
Proof. by intros w. Qed.
Lemma safe_bind {A B} (m : M A) (k : A → M B) :
  safe m → (∀ a, safe (k a)) → safe (m ≫= k).
Proof.
  intros Hm Hk w Hw. wp_step. apply wp_safe; [done..|]. intros w' [a|e|] Hw'; [by apply Hk|done..].
Qed.
Lemma safe_wrapm {A} msg (m : M A) : safe m → safe (wrapm msg m).
Proof. intros Hm w Hw. wp_step. apply wp_safe; [done..|]. by intros w' []. Qed.
Lemma safe_attempt {A} (m : M A) : safe m → safe (attempt m).
Proof. intros Hm w Hw. wp_step. apply wp_safe; [done..|]. by intros w' []. Qed.
Lemma safe_ignore m : safe m → safe (ignore m).
Proof. intros Hm w Hw. wp_step. apply wp_safe; [done..|]. by intros w' []. Qed.
Lemma safe_err_of m : safe m → safe (err_of m).
Proof. intros Hm. apply safe_bind; [by apply safe_attempt|]. intros a. apply safe_ret. Qed.
Lemma safe_call {A} n (m : M A) : safe m → safe (call others n m).
Proof. intros Hm w Hw. apply wp_call, Hm. by apply (po_inv _ _ _ Hothers). Qed.

Lemma safe_get id : safe (Get id).
Proof. apply safe_keeps, keeps_Get. Qed.
Lemma safe_get_cgroup st id : safe (GetCgroupOwnership st id).
Proof. intros w Hw. apply wp_get_cgroup; intros; by eapply fs_inv. Qed.
Lemma safe_get_network st id : safe (GetNetworkOwnership st id).
Proof. intros w Hw. apply wp_get_network; intros; by eapply fs_inv. Qed.
Lemma safe_policy st id rev : safe (GetStoppedExitIdentityPolicy st id rev).
Proof. intros w Hw. apply wp_policy; [apply Hw|intros; by eapply fs_inv..]. Qed.
Lemma safe_clear_network st id o : safe (ClearNetworkOwnershipIfMatch st id o).
Proof.
  intros w Hw. eapply wp_conseq; [by apply (wp_clear_network v2 dead)|]. by intros r w' [H _].
Qed.

(** The registry directory is apart from what the invariant reads. *)
Lemma acts_beside {A} name reads stores w (o : outcome A) w' :
  acts read_registry name reads stores w o w' → beside w w'.
Proof.
  intros [[Hu _]|(b & d & a & _ & [_ Hs] & _)]; [by eapply beside_unchanged|].
  intros q Hq. apply Hs.
  - unfold doc_scratch. cbn. intros Hin. apply Hq. revert Hin.
    rewrite !elem_of_cons, elem_of_nil. intros [->|[->|[]]]; done.
  - intros ->. by apply Hq.
Qed.
Lemma safe_beside {A} (m : M A) : (∀ w, wp m (λ _ w', beside w w') w) → safe m.
Proof. intros Hm w Hw. eapply wp_conseq; [apply Hm|]. intros o w' Hb. exact (inv_beside _ _ _ _ Hb Hw). Qed.
Lemma same_beside w w' : same w w' → beside w w'.
Proof. intros [E _] q _. by rewrite E. Qed.

Lemma safe_dns_generation namelen name id pid pst :
  safe (CleanupStoppedHostRegistrationGeneration namelen name id pid pst).
Proof.
  apply safe_beside. intros w. eapply wp_conseq; [apply wp_CleanupGeneration|].
  intros o w' [[_ Hs]|Ha]; [by apply same_beside|by eapply acts_beside].
Qed.
Lemma safe_dns_legacy proc namelen name id :
  safe (CleanupStoppedLegacyHostRegistrations proc namelen name id).
Proof.
  apply safe_beside. intros w. eapply wp_conseq; [apply wp_CleanupLegacy|].
  intros o w' [[_ Hs]|Ha]; [by apply same_beside|by eapply acts_beside].
Qed.

Lemma safe_current st c : safe (stoppedSnapshotStillCurrent others st c).
Proof.
  unfold stoppedSnapshotStillCurrent. apply safe_bind; [apply safe_ensure|intros _].
  destruct c as [c|]; [|apply safe_throw]. apply safe_bind; [apply safe_ensure|intros _].
  apply safe_bind; [apply safe_wrapm, safe_call, safe_get|]. intros a. destruct (negb _); apply safe_ret.
Qed.

#[local] Hint Resolve safe_ret safe_throw safe_ensure safe_wrapm safe_attempt safe_ignore
  safe_err_of safe_call safe_get safe_get_cgroup safe_get_network safe_policy
  safe_clear_network safe_dns_generation safe_dns_legacy safe_current : safe.
#[local] Hint Extern 5 (safe (_ ≫= _)) => apply safe_bind; [|intros ?] : safe.
#[local] Hint Extern 6 (safe (if ?b then _ else _)) => destruct b : safe.
#[local] Hint Extern 6 (safe (match ?b with _ => _ end)) => destruct b : safe.

(** * The cgroup of a generation *)

(** What the functions need of the cgroup cleanup they are given. *)
Definition good_cleanup (cleanup : generationCleanupFunc) : Prop :=
  ∀ id g w, host_inv v2 dead w →
    wp (cleanup id (xi_PID g) (xi_PIDStartTime g))
      (λ r w', host_inv v2 dead w' ∧ (∀ i g', exited w i g' → exited w' i g') ∧
         ∀ u name, r = Ret u → cgroup_name id g = Ok name → gone v2 name w') w.

Lemma good_cleanup_generation controllers : isV2 controllers = v2 →
  good_cleanup (cleanupContainerProcessGeneration controllers).
Proof.
  intros Hv id g w Hw. eapply wp_conseq; [apply wp_cleanup_generation|].
  rewrite Hv. intros r w' (Hs & Hr & Hg).
  assert (Hctr : ∀ q, ¬ is_cgroup q → same_at q w w').
  { intros q Hq. apply Hs. intros name _ Hin. by apply cgroup_paths_cgroup in Hin. }
  assert (Hc : ∀ q, fst q = DCtr → same_at q w w').
  { intros q Hq. apply Hctr. intros [c Hc]. congruence. }
  split_and!; [|by intros i g'; apply exited_ext, Hc|by intros u name Hu Hn; eapply Hg].
  split.
  - intros i. apply (container_inv_ext w); [|apply Hw]. intros q Hq.
    apply Hctr. by apply core_not_cgroup in Hq.
  - intros i g' name Ht Hn Hng. unfold cgroup_at.
    rewrite (same_at_regular (cgroupOwnershipPath i) w w') by by apply Hc.
    apply (hi_accounted _ _ _ Hw i g' name Ht Hn). intros Hgw. apply Hng. intros q Hq.
    destruct (Hr q) as [E|E]; [|done]. rewrite E. by apply Hgw.
  - intros i g' n. rewrite (abs_same i w w'); [apply (hi_stopped _ _ _ Hw)|by apply Hc].
Qed.

Definition owner (o : CgroupOwnership) : exitedIdentity :=
  mkIdentity (cg_PID o) (cg_PIDStartTime o).

Lemma wp_clear_owned st id o w : host_inv v2 dead w → dead id (owner o) →
  exited w id (owner o) → validateOwnedGenerationName id o = None →
  gone v2 (cg_Name o) w →
  wp (clearOwnedGenerationAfterCleanup others st id o) (λ _ w', host_inv v2 dead w') w.
Proof.
  intros Hw Hd He Hv Hg. unfold clearOwnedGenerationAfterCleanup. wp_step. apply wp_call.
  assert (Hn : cgroup_name id (owner o) = Ok (cg_Name o)).
  { unfold validateOwnedGenerationName in Hv. unfold cgroup_name, owner. cbn.
    destruct (NameForContainerProcess _ _ _) as [n|e]; [|done].
    apply fail_if_None, negb_false_iff, String.eqb_eq in Hv. congruence. }
  pose proof (po_gone _ _ _ Hothers 1 w id (owner o) _ Hw Hd He Hn Hg) as Hg1.
  eapply wp_conseq; [apply (wp_clear_cgroup v2 dead)|].
  - by apply (po_inv _ _ _ Hothers).
  - intros g name _ _ E. by rewrite <- E in Hg1.
  - intros [[]|e|] w' [Hw' _]; [by wp_step| |done..].
    apply wp_safe; [auto 10 with safe|done|done].
Qed.

Lemma wp_owned st id o cleanup w : good_cleanup cleanup → host_inv v2 dead w →
  dead id (owner o) → exited w id (owner o) →
  wp (cleanupOwnedGenerationWith others st id o (Some cleanup))
    (λ _ w', host_inv v2 dead w') w.
Proof.
  intros Hc Hw Hd He. unfold cleanupOwnedGenerationWith. do 2 wp_step; [|done].
  wp_step. apply wp_call. eapply wp_conseq; [apply (Hc id (owner o))|].
  { by apply (po_inv _ _ _ Hothers). }
  intros [[]|e|] w1 (Hw1 & He1 & Hg1); [|done..]. wp_step.
  eapply wp_conseq; [apply wp_clear_owned|]; [done|done| |done| |by intros [] ?].
  - by apply He1, (po_exited _ _ _ Hothers).
  - apply (Hg1 tt); [done|]. unfold validateOwnedGenerationName in H.
    unfold cgroup_name, owner. cbn. destruct (NameForContainerProcess _ _ _) as [n|e]; [|done].
    apply fail_if_None, negb_false_iff, String.eqb_eq in H. congruence.
Qed.

(** The identity that authorizes a cleanup is of a generation that has exited. *)
Lemma authorized w id rev a req g : host_inv v2 dead w → answers w id rev a req →
  an_current a = true → an_identity a = Some g → dead id g ∧ exited w id g.
Proof.
  intros Hw Ha Hc Hg. destruct (not_current _ _ _ _ _ Ha Hc) as (c & Hr & Hst & _ & Hi).
  destruct (Hi g Hg) as [n Hn]. split; [by eapply (hi_stopped _ _ _ Hw)|].
  eapply stopped_exited; [done|]. by rewrite Hst.
Qed.

Lemma safe_stopped_cgroup st c cleanup : good_cleanup cleanup →
  safe (cleanupStoppedCgroupWithCleanup others st c (Some cleanup)).
Proof.
  intros Hc. unfold cleanupStoppedCgroupWithCleanup. apply safe_bind; [auto with safe|intros _].
  destruct c as [c|]; [|auto with safe]. do 2 (apply safe_bind; [auto with safe|intros _]).
  apply safe_bind; [auto with safe|intros current]. destruct (negb current); [auto with safe|].
  apply safe_bind; [auto with safe|]. intros [o|]; [|auto with safe].
  intros w Hw. do 2 wp_step. apply wp_call.
  pose proof (po_inv _ _ _ Hothers 5 w Hw) as Hw1. clear Hw.
  apply wp_policy; [apply Hw1| |by intros w2 o' E [[e ->]| ->]; eapply fs_inv].
  intros w2 a E Ha. cbn beta iota.
  destruct (an_current a) eqn:Hcur; cbn [negb]; [|wp_step; by eapply fs_inv].
  destruct (an_identity a) as [g|] eqn:Hg.
  - do 2 wp_step; [|by eapply fs_inv]. apply fail_if_None, orb_false_iff in H as [H1 H2].
    bool_simp. destruct (authorized _ _ _ _ _ g Hw1 Ha Hcur Hg) as [Hd He].
    assert (Ho : owner o = g) by (unfold owner; destruct g; cbn in *; congruence).
    wp_step. eapply wp_conseq; [apply wp_owned|]; rewrite ?Ho; [done|by eapply fs_inv|done|
      by eapply fs_exited|by intros [] ?].
  - case_match; wp_step; by eapply fs_inv.
Qed.

Definition generation (c : Container) : exitedIdentity := mkIdentity (PID c) (PIDStartTime c).

Lemma safe_finalize_state st c code t cleanup : good_cleanup cleanup →
  in_int64 code → (∀ c', c = Some c' → typed (generation c') ∧ dead (ID c') (generation c')) →
  safe (finalizeStoppedGenerationWithCleanup others st c code t (Some cleanup)).
Proof.
  intros Hcl Hcode Hc. unfold finalizeStoppedGenerationWithCleanup.
  destruct (check_store st); [apply safe_ret|]. destruct c as [c|]; [|apply safe_ret].
  destruct (Hc c eq_refl) as [Ht Hd]. clear Hc. case_match; [apply safe_ret|].
  intros w Hw. do 2 wp_step. apply wp_call.
  pose proof (po_inv _ _ _ Hothers 6 w Hw) as Hw1. clear Hw.
  eapply wp_conseq; [by apply (wp_mark_stopped v2 dead st (ID c) (generation c))|].
  intros o w2 (Hw2 & _ & He). destruct o as [b|e|]; [|by repeat wp_step|done].
  specialize (He b eq_refl). cbn beta iota. do 2 wp_step. apply wp_call.
  pose proof (po_inv _ _ _ Hothers 7 w2 Hw2) as Hw3.
  pose proof (po_exited _ _ _ Hothers 7 w2 _ _ Hw2 Hd He) as He3.
  apply wp_get_cgroup; [|by intros w4 o E [[e ->]| ->]; repeat wp_step; eapply fs_inv].
  intros w4 r E _. cbn beta iota.
  pose proof (fs_inv _ _ _ _ E Hw3) as Hw4. pose proof (fs_exited _ _ _ _ E He3) as He4.
  wp_step. destruct r as [o|]; [|by repeat wp_step].
  destruct (negb (cg_PID o =? PID c) || _) eqn:Eo; [by repeat wp_step|].
  unfold err_of. do 3 wp_step. bool_simp.
  assert (Ho : owner o = generation c) by (unfold owner, generation; congruence).
  eapply wp_conseq; [apply wp_owned|]; rewrite ?Ho; [done..|]. by intros [] ?; repeat wp_step.
Qed.

(** * Network and names *)

Section callbacks.
Context (removePort : ownedPortCleanupFunc) (removeVeth : ownedVethCleanupFunc).
Hypothesis Hport : ∀ a b c d e, Durable.keeps (removePort a b c d e).
Hypothesis Hveth : ∀ a b, Durable.keeps (removeVeth a b).

Lemma safe_port a b c d e : safe (removePort a b c d e).
Proof. by apply safe_keeps. Qed.
Lemma safe_veth a b : safe (removeVeth a b).
Proof. by apply safe_keeps. Qed.
#[local] Hint Resolve safe_port safe_veth : safe.

Lemma safe_remove_ports owner l e : safe (remove_ports others removePort owner l e).
Proof. revert e. induction l as [|x l IH]; intros e; cbn [remove_ports]; auto 10 with safe. Qed.
#[local] Hint Resolve safe_remove_ports : safe.

Lemma safe_network st id o :
  safe (cleanupNetworkOwnershipWith others st id o (Some removePort) (Some removeVeth)).
Proof. unfold cleanupNetworkOwnershipWith. auto 20 with safe. Qed.
#[local] Hint Resolve safe_network : safe.
Lemma safe_network_after st id o :
  safe (cleanupNetworkOwnershipAfterDurableStopWith others st id o (Some removePort)
    (Some removeVeth)).
Proof. unfold cleanupNetworkOwnershipAfterDurableStopWith. auto 20 with safe. Qed.
Lemma safe_network_generation st id pid pst :
  safe (cleanupNetworkGenerationIfOwnedWith others st id pid pst (Some removePort)
    (Some removeVeth)).
Proof. unfold cleanupNetworkGenerationIfOwnedWith. auto 20 with safe. Qed.
#[local] Hint Resolve safe_network_after safe_network_generation : safe.

(** * The functions of the runtime *)

Context (controllers : res unit) (proc : Z → res string) (namelen : Z).
Context (publish : string → string → Z → M unit).
Hypothesis Hv2 : isV2 controllers = v2.
Hypothesis Hpublish : ∀ a b c, Durable.keeps (publish a b c).

Lemma safe_publish a b c : safe (publish a b c).
Proof. by apply safe_keeps. Qed.
Lemma safe_identity st id rev : safe (GetExitedIdentityForStoppedRevision st id rev).
Proof. intros w Hw. apply wp_identity; [apply Hw|intros; by eapply fs_inv..]. Qed.
Lemma good_cleanup_runtime : good_cleanup (cleanupContainerProcessGeneration controllers).
Proof. by apply good_cleanup_generation. Qed.
#[local] Hint Resolve safe_publish safe_identity good_cleanup_runtime : safe.

Lemma safe_external st c code changed e :
  safe (finalize_external others namelen removePort removeVeth publish st c code changed e).
Proof.
  unfold finalize_external, cleanupStoppedGenerationExternalResourcesWith, dns_error,
    cleanupNetworkGenerationIfOwned. auto 30 with safe.
Qed.

Lemma safe_finalize st c code t : in_int64 code →
  (∀ c', c = Some c' → typed (generation c') ∧ dead (ID c') (generation c')) →
  safe (FinalizeStoppedGeneration others controllers namelen removePort removeVeth publish
    st c code t).
Proof.
  intros Hcode Hc. unfold FinalizeStoppedGeneration. apply safe_bind.
  - apply safe_finalize_state; auto with safe.
  - intros [changed e]. destruct st, c as [c|]; auto with safe.
    case_match; [auto with safe|apply safe_external].
Qed.

Lemma safe_stopped_resources st c :
  safe (CleanupStoppedRuntimeResources others controllers proc namelen removePort removeVeth
    st c).
Proof.
  assert (Hcg : ∀ c, safe (CleanupStoppedCgroup others controllers st c)).
  { intros c'. apply safe_stopped_cgroup. auto with safe. }
  assert (Hnw : ∀ c, safe (CleanupStoppedNetwork others removePort removeVeth st c)).
  { intros c'. unfold CleanupStoppedNetwork, cleanupNetworkOwnership. auto 20 with safe. }
  assert (Hdns : ∀ c, safe (cleanupStoppedDNSRegistration others proc namelen st c)).
  { intros c'. unfold cleanupStoppedDNSRegistration. auto 20 with safe. }
  unfold CleanupStoppedRuntimeResources. auto 20 with safe.
Qed.

(** A record that was read names machine integers. *)
Lemma record_typed w id c : record_at w id = Some c → typed (generation c) ∧ ID c = id.
Proof.
  intros Hc. destruct (record_at_good _ _ _ Hc) as [[(_ & Hp & Hq & _) _] Hid].
  by split_and!.
Qed.

Context (kernel : pidfd_kernel).
Hypothesis Hprobe : ∀ id g, probeProcessGeneration proc kernel (xi_PID g) (xi_PIDStartTime g)
  = Ok false → dead id g.

Lemma safe_reconcile st c now :
  safe (ReconcileContainerState others controllers proc namelen removePort removeVeth publish
    kernel st c now).
Proof.
  unfold ReconcileContainerState, reconcileContainerStateWithFinalizer.
  destruct c as [c|]; [|auto with safe]. destruct (check_store st); [auto with safe|].
  case_match; [auto with safe|]. intros w Hw. do 2 wp_step. apply wp_call.
  pose proof (po_inv _ _ _ Hothers 24 w Hw) as Hw1.
  apply wp_get; [|by intros w2 o E [[e ->]| ->]; repeat wp_step; eapply fs_inv].
  intros w2 current E Hc. cbn beta iota. pose proof (fs_inv _ _ _ _ E Hw1) as Hw2.
  destruct (record_typed _ _ _ Hc) as [Ht Hid]. revert w2 E Hw2.
  enough (Hs : safe (if String.eqb (Status current) StatusStopped then _ else _))
    by (intros w2 _ Hw2; by apply Hs).
  case_match; [auto 20 using safe_stopped_resources with safe|].
  case_match; [auto with safe|]. case_match; [auto with safe|].
  destruct (probeProcessGeneration _ _ _ _) as [[]|e] eqn:Hp; [auto 10 with safe| |auto with safe].
  apply safe_bind; [|intros [changed e]; auto 20 with safe].
  apply safe_finalize; [unfold in_int64, min_int64, max_int64; lia|].
  intros c' [= <-]. split; [done|]. by apply (Hprobe _ (generation current)).
Qed.
End callbacks.
End inv.
