(* ===== verification/FinalizeDone.v ===== *)
(** Finalization that is not interfered with: what a successful call has done,
    step by step. *)
From S2P Require Import Prelude GoStrings Decimal Json Fs FsLogic Durable Container.
From S2P Require Import Net Ownership OwnershipFacts Generation GenerationFacts.
From S2P Require Import Store StoreFacts StoreOps StoreSystem StoreReach.
From S2P Require Import Dns DnsOps DnsActs DnsReach Cgroups Finalize FinalizeFacts.
From S2P Require Import FinalizeInv.

#[local] Open Scope Z_scope.

(** No other process runs. *)
Definition alone : nat → gmap path node → gmap path node := λ _ fs, fs.

Lemma wp_alone {A} n (m : M A) Q w : wp m Q w → wp (call alone n m) Q w.
Proof. intros Hm. apply wp_call. by destruct w. Qed.
Lemma polite_alone v2 dead : polite v2 dead alone.
Proof. by split; intros n [] *. Qed.

Lemma wp_and {A} (m : M A) (Q R : outcome A → world → Prop) w :
  wp m Q w → wp m R w → wp m (λ o w', Q o w' ∧ R o w') w.
Proof. done. Qed.

(** The result does not matter. *)
Lemma wp_any {A B} (m : M A) (k : A → M B) Q w : (∀ w' a, wp (k a) Q w') →
  (∀ w', Q Crash w') → (∀ w' e, Q (Err e) w') → wp (m ≫= k) Q w.
Proof.
  intros Hk HC HE. wp_step. apply (wp_conseq m (λ _ _, True)); [done|].
  intros [a|e|] w' _; [apply Hk|apply HE|apply HC].
Qed.

Lemma abs_stopped c s gen g rev : lifecycle c s gen → abs_of c s = AStopped g rev →
  Status c = StatusStopped ∧ Revision c = rev ∧ gen = Some g.
Proof.
  intros Hl Ha. destruct gen as [g'|].
  - destruct (lifecycle_generation _ _ _ Hl) as [E|E]; rewrite E in Ha; [done|].
    injection Ha as -> ->. split_and!; [|done..]. unfold abs_of in E.
    inversion Hl as [H|H|i H|H]; rewrite H in E; done.
  - exfalso. unfold abs_of in Ha. inversion Hl as [H _ _ Hs|H|i H|H _ _ Hs]; rewrite H in Ha;
      cbn in Ha; [done|]. rewrite Hs in Ha. unfold written_snapshot in Ha. by rewrite H in Ha.
Qed.

(** A stopped generation answers for its revision. *)
Lemma answers_stopped w id g rev a req : container_inv w id → abs w id = AStopped g rev →
  answers w id rev a req → an_current a = true ∧ an_identity a = Some g.
Proof.
  intros Hi Ha Hans. assert (Hst : ∃ c s, record_at w id = Some c ∧ snapshot_at w id = Some s ∧
    Status c = StatusStopped ∧ Revision c = rev ∧ lifecycle c s (Some g)).
  { destruct (proj1 Hi) as [Hn _|c s gen Hc Hs Hl _ _]; [by rewrite abs_missing in Ha|].
    unfold abs in Ha. rewrite Hc, Hs in Ha.
    destruct (abs_stopped _ _ _ _ _ Hl Ha) as (? & ? & ->). by exists c, s. }
  destruct Hst as (c & s & Hc & Hs & Hst & Hrev & Hl). unfold answers in Hans.
  destruct (an_current a) eqn:Hcur.
  - destruct Hans as (c' & s' & gen & Hc' & Hs' & _ & _ & Hl' & -> & _). split; [done|].
    unfold abs in Ha. rewrite Hc', Hs' in Ha. by apply (abs_stopped c' s' gen g rev).
  - destruct Hans as [_ Hno]. destruct (Hno s). by exists c, (Some g).
Qed.

(** * What has been done so far *)

Section done.
Context (v2 : bool) (dead : string → exitedIdentity → Prop).
Context (id : string) (g : exitedIdentity) (c : Container).

(** Since [w] the container has been stopped as [c] and only its files and the
    cgroup of its generation [g] have been touched, registries apart. *)
Record progress (w w' : world) : Prop := {
  pg_inv : host_inv v2 dead w';
  pg_record : record_at w' id = Some c;
  pg_abs : abs w' id = AStopped g (Revision c);
  pg_frame q : fst q ≠ DDns → q ∉ core_paths id →
    (∀ name, cgroup_name id g = Ok name → q ∉ cgroup_paths v2 name) → same_at q w w' }.

Definition dns_same (w w' : world) : Prop := ∀ q, fst q = DDns → same_at q w w'.

(** A later step that keeps the record. *)
Lemma progress_step w w1 w' : progress w w1 → host_inv v2 dead w' →
  (∀ q, fst q ≠ DDns → q ≠ cgroupOwnershipPath id → q ≠ networkOwnershipPath id →
     (∀ name, cgroup_name id g = Ok name → q ∉ cgroup_paths v2 name) → same_at q w1 w') →
  progress w w'.
Proof.
  intros [H1 H2 H3 H4] Hi Hs. assert (Hr : same_at (containerPath id) w1 w').
  { apply Hs; [done|path_ne|path_ne|]. intros name _ Hq.
    by apply cgroup_paths_cgroup in Hq as [k Hk]. }
  split; [done|by rewrite (record_at_same _ _ _ Hr)|by rewrite (abs_same _ _ _ Hr)|].
  intros q Hd Hq Hc. transitivity (w_fs w1 !! q); [|by apply H4].
  unfold core_paths in Hq. apply Hs; [done|set_solver..|done].
Qed.
Lemma progress_fs w w1 w' : progress w w1 → w_fs w' = w_fs w1 → progress w w'.
Proof.
  intros Hp E. apply (progress_step w w1); [done|by eapply fs_inv, Hp|].
  intros q _ _ _ _. unfold same_at. by rewrite E.
Qed.
Lemma dns_same_fs w w1 w' : dns_same w w1 → w_fs w' = w_fs w1 → dns_same w w'.
Proof. intros Hs E q Hq. unfold same_at. rewrite E. by apply Hs. Qed.

(** Without a proof no cgroup is left. *)
Lemma progress_gone w w' g' name : progress w w' → typed g' →
  w_fs w' !! cgroupOwnershipPath id = None → cgroup_name id g' = Ok name → gone v2 name w'.
Proof.
  intros Hp Ht Hn Hname. destruct (decide (gone v2 name w')) as [|Hng]; [done|].
  pose proof (hi_accounted _ _ _ (pg_inv _ _ Hp) id g' name Ht Hname Hng) as E.
  unfold cgroup_at, regular_at in E. by rewrite Hn in E.
Qed.

(** * The state and the cgroup *)

Context (controllers : res unit).
Hypothesis Hv2 : isV2 controllers = v2.

Lemma wp_clear_done st o w w1 : progress w w1 → dns_same w w1 → dead id (owner o) →
  validateOwnedGenerationName id o = None → gone v2 (cg_Name o) w1 →
  wp (clearOwnedGenerationAfterCleanup alone st id o)
    (λ r w', r = Ret tt → progress w w' ∧ dns_same w w' ∧
       w_fs w' !! cgroupOwnershipPath id = None) w1.
Proof.
  intros Hp Hd Hdead Hv Hg. unfold clearOwnedGenerationAfterCleanup. wp_step. apply wp_alone.
  eapply wp_conseq; [apply (wp_clear_cgroup v2 dead); [apply Hp|]|].
  { intros g' name _ _ E. by rewrite <- E in Hg. }
  intros [b|e|] w2 (Hi & Hs & Hn); [|done..]. cbn beta iota.
  assert (Hp2 : progress w w2) by (apply (progress_step w w1); auto).
  assert (Hd2 : dns_same w w2).
  { intros q Hq. transitivity (w_fs w1 !! q); [|by apply Hd]. apply Hs. by intros ->. }
  destruct b; [wp_step; intros _; split_and!; auto|]. wp_step. apply wp_alone.
  apply wp_get_cgroup; [|by intros w3 r _ [[e ->]| ->]].
  intros w3 [o'|] E Ho; [case_match; by wp_step|]. wp_step. intros _.
  split_and!; [by eapply progress_fs|by eapply dns_same_fs|by rewrite E].
Qed.

Lemma wp_owned_done st o w w1 : progress w w1 → dns_same w w1 → dead id g → owner o = g →
  wp (cleanupOwnedGenerationWith alone st id o (cleanupGeneration controllers))
    (λ r w', r = Ret tt → progress w w' ∧ dns_same w w' ∧
       w_fs w' !! cgroupOwnershipPath id = None) w1.
Proof.
  intros Hp Hd Hdead Ho. unfold cleanupOwnedGenerationWith, cleanupGeneration.
  do 2 wp_step; [|done]. wp_step. apply wp_alone.
  assert (Hn : NameForContainerProcess id (cg_PID o) (cg_PIDStartTime o) = Ok (cg_Name o)).
  { unfold validateOwnedGenerationName in H. destruct (NameForContainerProcess _ _ _); [|done].
    apply fail_if_None, negb_false_iff, String.eqb_eq in H. congruence. }
  eapply wp_conseq; [apply wp_and;
    [apply (good_cleanup_generation v2 dead controllers Hv2 id (owner o)), Hp
    |apply wp_cleanup_generation]|].
  rewrite Hv2. intros [[]|e|] w2 [(Hi2 & _ & Hg2) (Hs2 & _)]; [|done..]. wp_step.
  assert (Hs : ∀ q, (∀ name, cgroup_name id g = Ok name → q ∉ cgroup_paths v2 name) →
    same_at q w1 w2) by (intros q Hq; apply Hs2; by rewrite <- Ho in Hq).
  eapply wp_conseq; [apply (wp_clear_done st o w)|]; [..|by intros [[]|?|] ? Hr].
  - apply (progress_step w w1); auto.
  - intros q Hq. transitivity (w_fs w1 !! q); [|by apply Hd]. apply Hs.
    intros name _ Hin. apply cgroup_paths_cgroup in Hin as [k Hk]. congruence.
  - by rewrite Ho.
  - done.
  - by apply (Hg2 tt).
Qed.
(** Stopping the record of the running generation. *)
Lemma wp_mark_done st code t cur w : host_inv v2 dead w → typed g → in_int64 code →
  dead id g → record_at w id = Some cur → Status cur = StatusRunning →
  generation cur = g → c = persisted (next_revision (stopped_of cur code t)) →
  wp (MarkStoppedIfIdentity st id (xi_PID g) (xi_PIDStartTime g) code t)
    (λ o w', ∀ b, o = Ret b → b = true ∧ progress w w' ∧ dns_same w w') w.
Proof.
  intros Hi Ht Hcode Hd Hcur Hst Hg Hceq. destruct Ht as [Hp Hq].
  eapply wp_conseq; [apply wp_and; [by apply (wp_mark_stopped v2 dead)
    |by apply (wp_MarkStoppedIfIdentity id)]|].
  intros o w1 [(Hi1 & Ha & _) Hm] b ->.
  destruct Hm as [[_ Hs]|(c0 & c' & r & i & Hc0 & (_ & _ & Hal) & Hw & Hb)].
  - destruct (Hs b eq_refl) as [_ Hno]. specialize (Hno cur Hcur Hst).
    unfold bound_to in Hno. rewrite <- Hg in Hno. cbn in Hno. by rewrite !Z.eqb_refl in Hno.
  - assert (c0 = cur) as -> by congruence.
    destruct Hal as [(_ & _ & -> & -> & ->)|(Hst' & _)]; [|status_clash].
    split; [by apply Hb|]. split.
    + split; [done|by rewrite Hceq; eapply rewritten_record| |].
      * unfold abs. rewrite Hceq, (rewritten_record _ _ _ _ _ _ Hw), (rewritten_snapshot _ _ _ _ _ _ Hw).
        by destruct g, cur.
      * intros q _ Hq' _. by apply Ha.
    + intros q Hq'. apply Ha. unfold core_paths. rewrite !elem_of_cons, elem_of_nil.
      intros Hin. destruct_or! Hin; subst q; done.
Qed.

Lemma wp_state_done st c0 code t cur w : host_inv v2 dead w → typed g → in_int64 code →
  dead id g → record_at w id = Some cur → Status cur = StatusRunning →
  generation cur = g → c = persisted (next_revision (stopped_of cur code t)) →
  ID c0 = id → generation c0 = g →
  wp (finalizeStoppedGenerationWithCleanup alone st (Some c0) code t
        (cleanupGeneration controllers))
    (λ o w', ∀ b, o = Ret (b, None) → b = true ∧ progress w w' ∧ dns_same w w' ∧
       w_fs w' !! cgroupOwnershipPath id = None) w.
Proof.
  intros Hi Ht Hcode Hd Hcur Hst Hg Hc Hid Hg0. unfold finalizeStoppedGenerationWithCleanup.
  destruct (check_store st); [by wp_step|]. rewrite Hid.
  assert (PID c0 = xi_PID g ∧ PIDStartTime c0 = xi_PIDStartTime g) as [-> ->] by by rewrite <- Hg0.
  case_match; [by wp_step|]. cbn [cleanupGeneration]. do 2 wp_step. apply wp_alone.
  eapply wp_conseq; [by apply (wp_mark_done st code t cur)|].
  intros [b|e|] w1 Hb; [|by repeat wp_step|done]. destruct (Hb b eq_refl) as (-> & Hp & Hds).
  cbn beta iota. do 2 wp_step. apply wp_alone.
  apply wp_get_cgroup; [|intros w2 o _ [[e ->]| ->]; by repeat wp_step].
  intros w2 r E Hr. cbn beta iota.
  assert (Hp2 : progress w w2) by by eapply progress_fs.
  assert (Hd2 : dns_same w w2) by by eapply dns_same_fs.
  wp_step. destruct r as [o|].
  2: { repeat wp_step. intros b' [= <-]. split_and!; try done. by rewrite E. }
  destruct (negb (cg_PID o =? xi_PID g)%Z || _) eqn:Eo; [by repeat wp_step|]. bool_simp.
  assert (Ho : owner o = g) by (destruct g; unfold owner; cbn in *; congruence).
  unfold err_of. do 3 wp_step.
  eapply wp_conseq; [by apply (wp_owned_done st o w)|].
  intros [[]|e|] w3 Hw3; repeat wp_step; try done. intros b' [= <-].
  by destruct (Hw3 eq_refl) as (? & ? & ?).
Qed.

(** * The host network *)

Context (removePort : ownedPortCleanupFunc) (removeVeth : ownedVethCleanupFunc).
Hypothesis Hport : ∀ a b c d e, Durable.keeps (removePort a b c d e).
Hypothesis Hveth : ∀ a b, Durable.keeps (removeVeth a b).

Lemma keeps_alone {A} n (m : M A) : Durable.keeps m → Durable.keeps (call alone n m).
Proof. intros Hm w. apply wp_alone, Hm. Qed.
Lemma keeps_err_of m : Durable.keeps m → Durable.keeps (err_of m).
Proof. intros Hm. unfold err_of. auto with keeps. Qed.
#[local] Hint Resolve keeps_alone keeps_err_of : keeps.
Lemma keeps_remove_ports owner l e : Durable.keeps (remove_ports alone removePort owner l e).
Proof. revert e. induction l as [|x l IH]; intros e; cbn [remove_ports]; auto with keeps. Qed.

Lemma wp_network_done st o w w1 : progress w w1 →
  w_fs w1 !! cgroupOwnershipPath id = None →
  wp (cleanupNetworkOwnershipWith alone st id o (Some removePort) (Some removeVeth))
    (λ r w', r = Ret tt → progress w w' ∧ (∀ q, fst q = DDns → same_at q w1 w') ∧
       no_owners w' id) w1.
Proof.
  intros Hp Hc. unfold cleanupNetworkOwnershipWith. do 2 wp_step; [|done].
  wp_step. apply wp_keeps; [apply keeps_remove_ports| |by intros ? ? ? [[? ->]| ->]].
  intros w2 e1 [E2 _]. wp_step.
  apply wp_keeps; [case_match; auto with keeps| |by intros ? ? ? [[? ->]| ->]].
  intros w3 e2 [E3 _]. do 2 wp_step; [|done]. rewrite E2 in E3. clear w2 E2.
  do 2 wp_step. apply wp_alone.
  eapply wp_conseq; [apply (wp_clear_network v2 dead); eapply fs_inv; [exact E3|apply Hp]|].
  intros [b|e|] w4 (Hi & Hs & Hn); [|done..]. cbn beta iota.
  assert (Hs14 : ∀ q, q ≠ networkOwnershipPath id → same_at q w1 w4).
  { intros q Hq. transitivity (w_fs w3 !! q); [by apply Hs|by rewrite E3]. }
  assert (Hp4 : progress w w4) by (apply (progress_step w w1); auto).
  assert (Hc4 : w_fs w4 !! cgroupOwnershipPath id = None).
  { rewrite Hs14; [done|path_ne]. }
  assert (Hd4 : ∀ q, fst q = DDns → same_at q w1 w4).
  { intros q Hq. apply Hs14. by intros ->. }
  destruct b; [wp_step; intros _; split_and!; auto; by split; auto|].
  do 2 wp_step. apply wp_alone. apply wp_get_network; [|by intros w5 r _ [[e ->]| ->]].
  intros w5 [o'|] E Ho; cbn beta iota; [by wp_step|]. wp_step. intros _.
  split_and!; [by eapply progress_fs|intros q Hq; unfold same_at; rewrite E; by apply Hd4|].
  split; by rewrite E.
Qed.

Lemma wp_network_generation_done st w w1 : progress w w1 →
  w_fs w1 !! cgroupOwnershipPath id = None →
  wp (cleanupNetworkGenerationIfOwned alone removePort removeVeth st id (xi_PID g)
        (xi_PIDStartTime g))
    (λ r w', r = Ret tt → progress w w' ∧ (∀ q, fst q = DDns → same_at q w1 w') ∧
       no_owners w' id) w1.
Proof.
  intros Hp Hc.
  unfold cleanupNetworkGenerationIfOwned, cleanupNetworkGenerationIfOwnedWith.
  do 2 wp_step. apply wp_alone. apply wp_get_network; [|by intros w2 r _ [[e ->]| ->]].
  intros w2 r E Hr. cbn beta iota. destruct r as [o|].
  - destruct (network_at_current id w1 o) as (rev & Habs);
      [apply (hi_containers _ _ _ (pg_inv _ _ Hp))|done|].
    rewrite (pg_abs _ _ Hp) in Habs. destruct Habs as [Habs|Habs]; [done|].
    injection Habs as Hg _. rewrite Hg. cbn [xi_PID xi_PIDStartTime]. rewrite !Z.eqb_refl.
    cbn [negb orb]. wp_step. eapply wp_conseq; [apply (wp_network_done st o w)|].
    + by eapply progress_fs.
    + by rewrite E.
    + cbn beta. intros [u|?|] w3 Hw3; [|done..]. intros [= ->].
      destruct (Hw3 eq_refl) as (H1 & H2 & H3). split_and!; [done| |done].
      intros q Hq. unfold same_at. rewrite <- E. by apply H2.
  - wp_step. intros _. split_and!; [by eapply progress_fs| |split; by rewrite E].
    intros q _. unfold same_at. by rewrite E.
Qed.

(** * Registries and the rest *)

Context (namelen : Z) (publish : string → string → Z → M unit).
Hypothesis Hpublish : ∀ a b c, Durable.keeps (publish a b c).

(** The registry of the network lost exactly the entries that pass the test. *)
Definition dropped (p : HostEntry → bool) (name : string) (w w' : world) : Prop :=
  (∀ name', name' ≠ name → same_at (registry_path name') w w') ∧
  ((w_fs w !! dns_dir = None ∧ same_at (registry_path name) w w') ∨
   (w_fs w !! registry_path name = None ∧ w_fs w' !! registry_path name = None) ∨
   ∃ l, holds w name l ∧ holds w' name (filter (λ e, p e = false) l)).

Lemma removed_dropped p name w w1 w2 w' : dns_same w w1 → removed p name w1 w2 →
  (∀ q, fst q = DDns → same_at q w2 w') → dropped p name w w'.
Proof.
  intros H1 [Hother H2] H3. unfold dropped, holds, same_at in *.
  assert (E1 : ∀ n, w_fs w1 !! registry_path n = w_fs w !! registry_path n)
    by (intros n; by apply H1).
  assert (E3 : ∀ n, w_fs w' !! registry_path n = w_fs w2 !! registry_path n)
    by (intros n; by apply H3).
  rewrite <- (H1 dns_dir), E3, <- E1 by done.
  split; [intros n Hn; rewrite E3, <- E1; by apply Hother|].
  destruct H2 as [[Hd Hfs]|[H2|(l & Hl & Hl')]]; [left|by right; left|right; right; eauto].
  split; [done|by rewrite Hfs].
Qed.

Lemma good_registries_dns w w1 : dns_same w w1 → good_registries w → good_registries w1.
Proof. intros Hd Hg name. rewrite (Hd (registry_path name)) by done. apply Hg. Qed.

(** Everything a finished finalization has done since [w]. *)
Definition finished (w w' : world) : Prop :=
  progress w w' ∧ no_owners w' id ∧
  (∀ g' name, typed g' → cgroup_name id g' = Ok name → gone v2 name w') ∧
  dropped (retired_entry id (xi_PID g) (xi_PIDStartTime g)) defaultBridgeDNSNetwork w w'.

Lemma wp_names_done msg w w1 : progress w w1 → dns_same w w1 → good_registries w →
  wp (dns_error alone msg (Some (CleanupStoppedHostRegistrationGeneration namelen)) id
        (xi_PID g) (xi_PIDStartTime g))
    (λ o w', o = Ret None → progress w w' ∧
       (∀ q, fst q ≠ DDns → same_at q w1 w') ∧
       ∀ w2, (∀ q, fst q = DDns → same_at q w' w2) →
         dropped (retired_entry id (xi_PID g) (xi_PIDStartTime g)) defaultBridgeDNSNetwork w w2) w1.
Proof.
  intros Hp Hd Hg. unfold dns_error, err_of. do 3 wp_step. apply wp_alone.
  eapply wp_conseq; [apply wp_CleanupGeneration|]. intros [[]|e|] w2 Hr; [|by repeat wp_step|done].
  wp_step. intros _.
  assert (Hb : beside w1 w2).
  { destruct Hr as [[_ Hs]|Ha]; [by apply same_beside|by eapply acts_beside]. }
  split_and!; [|exact Hb|].
  - apply (progress_step w w1); [done|eapply inv_beside; [done|apply Hp]|].
    intros q Hq _ _ _. by apply Hb.
  - intros w3 H3. eapply removed_dropped; [done| |done].
    apply removes_removed; [by eapply good_registries_dns|done].
Qed.

Lemma wp_external_done st c0 code b e w w1 : progress w w1 → dns_same w w1 →
  w_fs w1 !! cgroupOwnershipPath id = None → good_registries w →
  Status c = StatusStopped → ID c = id → ID c0 = id → generation c0 = g →
  wp (finalize_external alone namelen removePort removeVeth publish st c0 code b e)
    (λ o w', ∀ b', o = Ret (b', None) → b' = b ∧ finished w w') w1.
Proof.
  intros Hp Hd Hc Hg Hst Hid Hid0 Hg0. unfold finalize_external. rewrite Hid0.
  assert (PID c0 = xi_PID g ∧ PIDStartTime c0 = xi_PIDStartTime g) as [-> ->] by by rewrite <- Hg0.
  do 2 wp_step. apply wp_alone. apply wp_get;
    [|by intros w2 o _ [[x ->]| ->]; repeat wp_step; destruct e].
  intros w2 cur E2 Hcur. cbn beta iota. assert (cur = c) as ->.
  { rewrite (pg_record _ _ Hp) in Hcur. congruence. }
  rewrite Hst, Hid. cbn [String.eqb negb]. rewrite String.eqb_refl. cbn [negb].
  do 2 wp_step. apply wp_alone. pose proof (progress_fs _ _ _ Hp E2) as Hp2.
  apply wp_identity; [apply (hi_containers _ _ _ (pg_inv _ _ Hp2))| |
    by intros w3 o _ [[x ->]| ->]; repeat wp_step; destruct e].
  intros w3 a E3 Ha. cbn beta iota.
  destruct (answers_stopped w2 id g _ a _ (hi_containers _ _ _ (pg_inv _ _ Hp2) id)
    (pg_abs _ _ Hp2) Ha) as [-> ->]. cbn [negb orb]. rewrite !Z.eqb_refl. cbn [negb orb].
  rewrite E2 in E3. wp_step.
  apply wp_keeps; [destruct b; auto with keeps| |by intros ? ? ? [[? ->]| ->]].
  intros w4 [] [E4 _]. rewrite E3 in E4. cbn beta iota. clear w2 w3 E2 E3 Hcur Hp2 Ha.
  unfold err_of, cleanupStoppedGenerationExternalResourcesWith. do 4 wp_step.
  eapply wp_conseq; [apply (wp_names_done _ w w4)|]; [by eapply progress_fs|by eapply dns_same_fs|done|].
  intros [de|x|] w5 H5; [|by repeat wp_step; destruct e|done]. cbn beta iota.
  wp_step. unfold err_of. do 2 wp_step. destruct de as [de|].
  - unfold wp at 1. destruct (cleanupNetworkGenerationIfOwned _ _ _ _ _ _ _ _) as [[u|x|] w6];
      cbn [fst snd]; repeat wp_step; try done; by destruct e.
  - destruct (H5 eq_refl) as (Hp5 & Hs5 & Hdrop).
    eapply wp_conseq; [apply (wp_network_generation_done st w w5 Hp5)|].
    { rewrite Hs5 by done. by rewrite E4. }
    intros [[]|x|] w6 H6; repeat wp_step; try done; try (by destruct e).
    intros b' [= <-]. destruct (H6 eq_refl) as (Hp6 & Hs6 & Hno). split; [done|].
    split_and!; [done|done| |by apply Hdrop].
    intros g' name Ht Hn. eapply progress_gone; [done..|apply Hno|done].
Qed.

(** An earlier error is not forgotten. *)
Lemma wp_external_error st c0 code b e w1 :
  wp (finalize_external alone namelen removePort removeVeth publish st c0 code b (Some e))
    (λ o _, ∀ b', o ≠ Ret (b', None)) w1.
Proof.
  unfold finalize_external. apply wp_any; [intros w2 [cur|x]|done..]; [|by wp_step].
  case_match; [by wp_step|]. apply wp_any; [intros w3 [a|x]|done..]; [|by wp_step].
  destruct (an_identity a); [|by wp_step]. case_match; [by wp_step|].
  apply wp_any; [intros w4 []|done..]. apply wp_any; [intros w5 x|done..]. wp_step.
  by destruct x.
Qed.

Lemma wp_finalize_done st c0 code t cur w : host_inv v2 dead w → good_registries w →
  in_int64 code → dead id g → record_at w id = Some cur → Status cur = StatusRunning →
  generation cur = g → c = persisted (next_revision (stopped_of cur code t)) →
  ID c0 = id → generation c0 = g →
  wp (FinalizeStoppedGeneration alone controllers namelen removePort removeVeth publish st
        (Some c0) code t)
    (λ o w', ∀ b, o = Ret (b, None) → b = true ∧ finished w w') w.
Proof.
  intros Hi Hg Hcode Hd Hcur Hst Hgc Hc Hid Hg0. destruct (record_typed _ _ _ Hcur) as [Ht Hic].
  rewrite Hgc in Ht. unfold FinalizeStoppedGeneration. wp_step.
  destruct st.
  { unfold finalizeStoppedGenerationWithCleanup. cbn [check_store]. by wp_step. }
  destruct (String.eqb_spec (ID c0) "") as [E|Hne].
  { unfold finalizeStoppedGenerationWithCleanup. cbn [check_store]. rewrite E. cbn. by wp_step. }
  eapply wp_conseq; [by apply (wp_state_done AStore c0 code t cur)|].
  intros [[b [e|]]|e|] w1 H1; [| |done..]; cbn beta iota.
  { eapply wp_conseq; [apply wp_external_error|]. intros o w2 Ho b' ->. by destruct (Ho b'). }
  destruct (H1 b eq_refl) as (-> & Hp & Hds & Hn).
  apply wp_external_done; try done; [by rewrite Hc; destruct cur|].
  by eapply record_typed, pg_record.
Qed.
End done.
