(* ===== verification/FinalizeSettled.v ===== *)
(** Reconciliation that is not interfered with: when it succeeds, nothing of a
    container that does not run is left on the host. *)
From S2P Require Import Prelude GoStrings Decimal Json Fs FsLogic Durable Container.
From S2P Require Import Net Ownership OwnershipFacts Generation GenerationFacts.
From S2P Require Import Store StoreFacts StoreOps StoreSystem StoreReach.
From S2P Require Import Dns DnsOps DnsActs DnsReach Cgroups Finalize FinalizeFacts.
From S2P Require Import FinalizeInv FinalizeDone.

#[local] Open Scope Z_scope.

(** No proof and no cgroup of [id] is left. *)
Definition settled (v2 : bool) (id : string) (w : world) : Prop :=
  no_owners w id ∧ ∀ g name, typed g → cgroup_name id g = Ok name → gone v2 name w.

Section settled.
Context (v2 : bool) (dead : string → exitedIdentity → Prop).
Context (controllers : res unit) (proc : Z → res string) (namelen : Z).
Context (removePort : ownedPortCleanupFunc) (removeVeth : ownedVethCleanupFunc).
Hypothesis Hv2 : isV2 controllers = v2.
Hypothesis Hport : ∀ a b c d e, Durable.keeps (removePort a b c d e).
Hypothesis Hveth : ∀ a b, Durable.keeps (removeVeth a b).
Context (id : string) (c : Container).

Lemma unowned_settled w : host_inv v2 dead w → no_owners w id → settled v2 id w.
Proof.
  intros Hi Hn. split; [done|]. intros g name Ht Hname.
  destruct (decide (gone v2 name w)) as [|Hng]; [done|].
  pose proof (hi_accounted _ _ _ Hi id g name Ht Hname Hng) as E.
  unfold cgroup_at, regular_at in E. by rewrite (proj1 Hn) in E.
Qed.

(** The record of [id] is the stopped [c]; its proofs, if any, are of the
    generation whose exit it preserves. *)
Definition stopped_now (w : world) : Prop :=
  host_inv v2 dead w ∧ record_at w id = Some c ∧
  ((∃ g, abs w id = AStopped g (Revision c)) ∨ no_owners w id).

Lemma stopped_now_fs w w' : stopped_now w → w_fs w' = w_fs w → stopped_now w'.
Proof.
  intros (Hi & Hc & Ha) E. split_and!; [by eapply fs_inv| |].
  - rewrite (record_at_same id w); [done|]. unfold same_at. by rewrite E.
  - destruct Ha as [[g Ha]|[H1 H2]]; [left; exists g|right; split; by rewrite E].
    rewrite (abs_same id w); [done|]. unfold same_at. by rewrite E.
Qed.
Lemma stopped_now_beside w w' : stopped_now w → beside w w' → stopped_now w'.
Proof.
  intros (Hi & Hc & Ha) Hb. assert (Hs : same_at (containerPath id) w w') by by apply Hb.
  split_and!; [by eapply inv_beside|by rewrite (record_at_same id w)|].
  destruct Ha as [[g Ha]|[H1 H2]].
  - left. exists g. by rewrite (abs_same id w).
  - right. split; by rewrite Hb.
Qed.
Lemma stopped_progress w g : stopped_now w → abs w id = AStopped g (Revision c) →
  progress v2 dead id g c w w.
Proof. intros (Hi & Hc & _) Ha. by split. Qed.
Lemma progress_stopped w w' g : progress v2 dead id g c w w' → stopped_now w'.
Proof. intros [Hi Hc Ha _]. split_and!; [done..|]. left. by exists g. Qed.

Hypothesis Hid : ID c = id.
Hypothesis Hst : Status c = StatusStopped.

(** The snapshot is the record on disk. *)
Lemma wp_still_current st w Q : stopped_now w →
  (∀ w', w_fs w' = w_fs w → Q (Ret true) w') →
  (∀ w' o, (∃ e, o = Err e) ∨ o = Crash → Q o w') →
  wp (stoppedSnapshotStillCurrent alone st (Some c)) Q w.
Proof.
  intros (_ & Hc & _) HR HE. unfold stoppedSnapshotStillCurrent.
  do 2 wp_step; [|apply HE; eauto]. do 2 wp_step; [|apply HE; eauto].
  do 2 wp_step. apply wp_alone. rewrite Hid.
  apply wp_get; [|intros w' o _ [[e ->]| ->]; apply HE; eauto].
  intros w' c' E Hc'. assert (c' = c) as -> by congruence. cbn beta iota.
  rewrite Hst. cbn. wp_step. rewrite Z.eqb_refl. by apply HR.
Qed.

(** The policy names the generation that the record preserves. *)
Lemma wp_stopped_policy st w g Q : stopped_now w → abs w id = AStopped g (Revision c) →
  (∀ w' a, w_fs w' = w_fs w → an_current a = true → an_identity a = Some g →
     Q (Ret a) w') →
  (∀ w' o, (∃ e, o = Err e) ∨ o = Crash → Q o w') →
  wp (GetStoppedExitIdentityPolicy st id (Revision c)) Q w.
Proof.
  intros (Hi & Hc & _) Ha HR HE. apply wp_policy; [apply Hi| |eauto].
  intros w' a E Hans.
  destruct (answers_stopped w id g (Revision c) a _ (hi_containers _ _ _ Hi id) Ha Hans).
  by apply HR.
Qed.

Lemma wp_cgroup_settled st w : stopped_now w →
  wp (CleanupStoppedCgroup alone controllers st (Some c))
    (λ r w', r = Ret tt → stopped_now w' ∧ dns_same w w' ∧
       w_fs w' !! cgroupOwnershipPath id = None) w.
Proof.
  intros Hs. unfold CleanupStoppedCgroup, cleanupStoppedCgroupWithCleanup.
  do 6 (wp_step; try done). clear H H0 H1. do 2 wp_step. apply wp_still_current; [done| |by intros w1 ? [[? ->]| ->]].
  intros w1 E1. cbn [negb]. do 2 wp_step. apply wp_alone. rewrite Hid.
  assert (Hs1 : stopped_now w1) by by eapply stopped_now_fs.
  apply wp_get_cgroup; [|by intros w2 ? ? [[? ->]| ->]]. intros w2 r E2 Hr. cbn beta iota.
  assert (Hs2 : stopped_now w2) by by eapply stopped_now_fs.
  destruct r as [o|].
  2: { wp_step. intros _. split_and!; [done| |by rewrite E2].
       intros q _. unfold same_at. congruence. }
  destruct (proj2 (proj2 Hs2)) as [[g Hg]|[Hn _]].
  2: { unfold cgroup_at, regular_at in Hr. by rewrite <- E2, Hn in Hr. }
  do 2 wp_step. apply wp_alone.
  apply (wp_stopped_policy st w2 g); [done..| |by intros w3 ? [[? ->]| ->]].
  intros w3 a E3 -> ->. cbn [negb]. do 2 wp_step; [|done]. apply fail_if_None, orb_false_iff in H as [].
  bool_simp. assert (Ho : owner o = g) by (destruct g; unfold owner; cbn in *; congruence).
  assert (Hp3 : progress v2 dead id g c w3 w3).
  { apply stopped_progress; [by eapply stopped_now_fs|].
    rewrite (abs_same id w2); [done|]. unfold same_at. by rewrite E3. }
  wp_step. eapply wp_conseq.
  { apply (wp_owned_done v2 dead id g c controllers Hv2 st o w3 w3 Hp3); [done| |done].
    by apply (hi_stopped _ _ _ (pg_inv _ _ _ _ _ _ _ Hp3) id g (Revision c)), Hp3. }
  intros [[]|e|] w4 H4; [|done..]. intros _. destruct (H4 eq_refl) as (Hp4 & Hd4 & Hn4).
  split_and!; [by eapply progress_stopped| |done]. intros q Hq. unfold same_at.
  by rewrite Hd4, E3, E2, E1.
Qed.

Lemma wp_network_settled st w : stopped_now w → w_fs w !! cgroupOwnershipPath id = None →
  wp (CleanupStoppedNetwork alone removePort removeVeth st (Some c))
    (λ r w', r = Ret tt → stopped_now w' ∧ dns_same w w' ∧ no_owners w' id) w.
Proof.
  intros Hs Hcg. unfold CleanupStoppedNetwork.
  do 6 (wp_step; try done). clear H H0 H1. do 2 wp_step. apply wp_still_current; [done| |by intros w1 ? [[? ->]| ->]].
  intros w1 E1. cbn [negb]. do 2 wp_step. apply wp_alone. rewrite Hid.
  assert (Hs1 : stopped_now w1) by by eapply stopped_now_fs.
  apply wp_get_network; [|by intros w2 ? ? [[? ->]| ->]]. intros w2 r E2 Hr. cbn beta iota.
  assert (Hs2 : stopped_now w2) by by eapply stopped_now_fs.
  destruct r as [o|].
  2: { wp_step. intros _. split_and!; [done| |split; [by rewrite E2, E1|by rewrite E2]].
       intros q _. unfold same_at. congruence. }
  destruct (proj2 (proj2 Hs2)) as [[g Hg]|[_ Hn]].
  2: { unfold network_at, regular_at in Hr. by rewrite <- E2, Hn in Hr. }
  unfold cleanupNetworkOwnership, cleanupNetworkOwnershipAfterDurableStopWith.
  do 3 wp_step; [|done]. do 2 wp_step. apply wp_alone.
  apply wp_get; [|by intros w3 ? ? [[? ->]| ->]]. intros w3 c3 E3 Hc3. cbn beta iota.
  assert (c3 = c) as -> by (destruct Hs2 as (_ & Hc2 & _); congruence).
  rewrite Hst. cbn [negb String.eqb]. rewrite String.eqb_refl. cbn [negb].
  assert (Hs3 : stopped_now w3) by by eapply stopped_now_fs.
  assert (Hg3 : abs w3 id = AStopped g (Revision c)).
  { rewrite (abs_same id w2); [done|]. unfold same_at. by rewrite E3. }
  do 2 wp_step. apply wp_alone.
  apply (wp_stopped_policy st w3 g); [done..| |by intros w4 ? [[? ->]| ->]].
  intros w4 a E4 -> ->. cbn [negb]. do 2 wp_step; [|done].
  eapply wp_conseq.
  { apply (wp_network_done v2 dead id g c removePort removeVeth Hport Hveth st o w4 w4).
    - apply stopped_progress; [by eapply stopped_now_fs|].
      rewrite (abs_same id w3); [done|]. unfold same_at. by rewrite E4.
    - by rewrite E4, E3, E2, E1. }
  intros [[]|e|] w5 H5; [|done..]. intros _. destruct (H5 eq_refl) as (Hp5 & Hd5 & Hn5).
  split_and!; [by eapply progress_stopped| |done]. intros q Hq. unfold same_at.
  by rewrite Hd5, E4, E3, E2, E1.
Qed.

Lemma abs_revision w g n : stopped_now w → abs w id = AStopped g n → n = Revision c.
Proof.
  intros (Hi & Hc & _) Ha.
  destruct (inv_record id w (hi_containers _ _ _ Hi id) c Hc) as (s & gen & Hs & Hl & _).
  unfold abs in Ha. rewrite Hc, Hs in Ha. by destruct (abs_stopped _ _ _ _ _ Hl Ha) as (_ & -> & _).
Qed.

(** No entry of the generation whose exit the record preserves is left behind
    in the registry of the default network. *)
Definition names_dropped (w w' : world) : Prop := ∀ g n, abs w' id = AStopped g n →
  dropped (retired_entry id (xi_PID g) (xi_PIDStartTime g)) defaultBridgeDNSNetwork w w'.

Lemma wp_dns_beside st w : stopped_now w →
  wp (cleanupStoppedDNSRegistration alone proc namelen st c) (λ _ w', beside w w') w.
Proof.
  intros Hs. unfold cleanupStoppedDNSRegistration. do 2 wp_step. apply wp_alone. rewrite Hid.
  assert (Hfs : ∀ w w' : world, w_fs w' = w_fs w → beside w w') by (intros ?? E q _; by rewrite E).
  assert (Hb : ∀ w1 w2, w_fs w1 = w_fs w → beside w1 w2 → beside w w2).
  { intros w1 w2 E Hb q Hq. rewrite <- E. by apply Hb. }
  apply wp_policy; [apply Hs| |by intros w1 ? ? [[? ->]| ->]; apply Hfs].
  intros w1 a E _. cbn beta iota. destruct (an_current a); cbn [negb]; [|wp_step; by apply Hfs].
  destruct (an_identity a).
  - apply wp_alone. eapply wp_conseq; [apply wp_CleanupGeneration|].
    intros r w2 [[_ H2]|H2]; apply (Hb w1 w2 E); [by apply same_beside|by eapply acts_beside].
  - case_match; [wp_step; by apply Hfs|]. apply wp_alone.
    eapply wp_conseq; [apply wp_CleanupLegacy|].
    intros r w2 [[_ H2]|H2]; apply (Hb w1 w2 E); [by apply same_beside|by eapply acts_beside].
Qed.

Lemma wp_dns_settled st w : stopped_now w → good_registries w →
  wp (cleanupStoppedDNSRegistration alone proc namelen st c)
    (λ r w', r = Ret tt → beside w w' ∧ names_dropped w w') w.
Proof.
  intros Hs Hg. eapply wp_conseq with (λ r w', beside w w' ∧ (r = Ret tt → names_dropped w w'));
    [|by intros r w' [Hb Hn] Hr; split; auto].
  apply wp_and; [by apply wp_dns_beside|]. destruct (abs w id) as [| | |g n|] eqn:Ha.
  4: {
    unfold cleanupStoppedDNSRegistration. do 2 wp_step. apply wp_alone. rewrite Hid.
    pose proof (abs_revision _ _ _ Hs Ha) as ->.
    apply (wp_stopped_policy st w g); [done..| |by intros w1 ? [[? ->]| ->]].
    intros w1 a E -> ->. cbn [negb]. apply wp_alone.
    eapply wp_conseq; [apply wp_CleanupGeneration|]. intros r w2 H2 ->.
    assert (Hb : beside w1 w2).
    { destruct H2 as [[_ H2]|H2]; [by apply same_beside|by eapply acts_beside]. }
    intros g' n' Ha'. rewrite (abs_same id w) in Ha'; [|unfold same_at; rewrite <- E; by apply Hb].
    assert (g' = g) as -> by congruence.
    apply (removed_dropped _ _ w w1 w2); [intros q _; unfold same_at; by rewrite E| |done].
    apply removes_removed; [|done]. intros name. rewrite E. apply Hg. }
  all: eapply wp_conseq; [by apply wp_dns_beside|]; intros r w' Hb _ g' n' Ha';
    rewrite (abs_same id w) in Ha' by (by apply Hb); congruence.
Qed.

(** An error is collected; only the path without one matters. *)
Lemma wp_err_of m (R : world → Prop) Q w : wp m (λ r w', r = Ret tt → R w') w →
  (∀ w', R w' → Q (Ret None) w') → (∀ w' e, Q (Ret (Some e)) w') →
  (∀ w', Q Crash w') → wp (err_of m) Q w.
Proof.
  intros Hm H1 H2 H3. unfold err_of. do 2 wp_step. eapply wp_conseq; [exact Hm|].
  intros [[]|e|] w' Hr; [wp_step; by apply H1, Hr|by wp_step; apply H2|apply H3].
Qed.

Lemma dropped_dns p name w w1 w2 : dns_same w w1 → dropped p name w1 w2 →
  dropped p name w w2.
Proof.
  intros Hd. unfold dropped, same_at, holds. rewrite (Hd dns_dir), (Hd (registry_path name)) by done.
  intros [Ho H]. split; [|done]. intros n Hn. rewrite (Ho n Hn). by apply Hd.
Qed.

(** The retry of a stopped container's cleanup. *)
Lemma wp_resources_settled st w : stopped_now w → good_registries w →
  wp (CleanupStoppedRuntimeResources alone controllers proc namelen removePort removeVeth
        st (Some c))
    (λ r w', r = Ret tt → stopped_now w' ∧ settled v2 id w' ∧ names_dropped w w') w.
Proof.
  intros Hs Hg. unfold CleanupStoppedRuntimeResources.
  do 2 wp_step. apply wp_still_current; [done| |by intros w1 ? [[? ->]| ->]].
  intros w1 E1. cbn [negb]. assert (Hs1 : stopped_now w1) by by eapply stopped_now_fs.
  wp_step. eapply wp_err_of; [by apply wp_cgroup_settled| | |done].
  2: { intros w2 e. cbn beta iota. apply wp_any; [intros w3 e1|done..].
       apply wp_any; [intros w4 e2|done..]. wp_step; [|done]. by destruct e1, e2. }
  intros w2 (Hs2 & Hd2 & Hc2). cbn beta iota.
  wp_step. eapply wp_err_of; [by apply wp_network_settled| | |done].
  2: { intros w3 e. cbn beta iota. apply wp_any; [intros w4 e'|done..]. wp_step; [|done]. by destruct e'. }
  intros w3 (Hs3 & Hd3 & Hn3). cbn beta iota.
  assert (Hd : dns_same w w3).
  { intros q Hq. unfold same_at. by rewrite Hd3, Hd2, E1. }
  wp_step. eapply wp_err_of; [apply wp_dns_settled; [done|by eapply good_registries_dns]| | |done].
  2: { intros w4 e. by wp_step. }
  intros w4 [Hb Hdrop]. cbn beta iota. wp_step; [|done]. intros _.
  assert (Hs4 : stopped_now w4) by by eapply stopped_now_beside.
  split_and!; [done| |].
  - apply unowned_settled; [apply Hs4|]. destruct Hn3. by split; rewrite Hb.
  - intros g n Ha. by apply (dropped_dns _ _ w w3), (Hdrop g n).
Qed.
End settled.

Section reconciled.
Context (v2 : bool) (dead : string → exitedIdentity → Prop).
Context (controllers : res unit) (proc : Z → res string) (namelen : Z).
Context (removePort : ownedPortCleanupFunc) (removeVeth : ownedVethCleanupFunc).
Context (publish : string → string → Z → M unit) (kernel : pidfd_kernel).
Hypothesis Hv2 : isV2 controllers = v2.
Hypothesis Hport : ∀ a b c d e, Durable.keeps (removePort a b c d e).
Hypothesis Hveth : ∀ a b, Durable.keeps (removeVeth a b).
Hypothesis Hpublish : ∀ a b c, Durable.keeps (publish a b c).
Hypothesis Hprobe : ∀ id g, probeProcessGeneration proc kernel (xi_PID g) (xi_PIDStartTime g)
  = Ok false → dead id g.

(** What a successful reconciliation tells about the container [id]. *)
Definition reconciled (id : string) (latest : Container) (w w' : world) : Prop :=
  record_at w' id = Some latest ∧
  (Status latest = StatusRunning → w_fs w' = w_fs w ∧
     probeProcessGeneration proc kernel (PID latest) (PIDStartTime latest) = Ok true) ∧
  (Status latest ≠ StatusRunning → settled v2 id w' ∧ names_dropped id w w').

Lemma reconciled_fs id latest w w1 w1' w' : w_fs w1 = w_fs w → w_fs w' = w_fs w1' →
  reconciled id latest w1 w1' → reconciled id latest w w'.
Proof.
  intros E E' (H1 & H2 & H3).
  assert (Hs : ∀ q, same_at q w1' w') by (intros q; unfold same_at; by rewrite E').
  split_and!; [by rewrite (record_at_same _ _ _ (Hs _))|by rewrite <- E, E'|].
  intros Hst. destruct (H3 Hst) as [[[Hn1 Hn2] Hg] Hn]. split.
  - split; [split; by rewrite Hs|]. intros g name Ht Hname. by eapply fs_gone, Hg.
  - intros g n Ha. rewrite (abs_same id w1') in Ha by done. specialize (Hn g n Ha).
    unfold dropped, same_at, holds in *. by rewrite E', <- E.
Qed.

(** The statuses of a record and what they leave. *)
Lemma record_cases w id c : host_inv v2 dead w → record_at w id = Some c →
  (Status c = StatusCreated ∧ no_owners w id ∧ ∀ g n, abs w id ≠ AStopped g n) ∨
  Status c = StatusRunning ∨ (Status c = StatusStopped ∧ stopped_now v2 dead id c w).
Proof.
  intros Hi Hc. destruct (proj1 (hi_containers _ _ _ Hi id)) as [Hn _|c' s gen Hc' Hs Hl Ho1 Ho2].
  { unfold record_at, regular_at in Hc. by rewrite Hn in Hc. }
  assert (c' = c) as -> by congruence.
  assert (Hnone : gen = None → no_owners w id).
  { intros ->. split; [destruct (w_fs w !! cgroupOwnershipPath id)|
      destruct (w_fs w !! networkOwnershipPath id)]; [|done| |done].
    - by destruct Ho1 as (? & _ & _ & ?).
    - by destruct Ho2 as (? & _ & _ & ?). }
  assert (Ha : abs w id = abs_of c s) by (unfold abs; by rewrite Hc, Hs).
  destruct Hl as [H _ _ _|H _ _ _|i H _ _ _ Hsn|H _ _ Hsn].
  - left. split_and!; [done|by apply Hnone|]. intros g n. rewrite Ha. unfold abs_of. by rewrite H.
  - by right; left.
  - right; right. split; [done|]. split_and!; [done..|]. left. exists i. rewrite Ha, Hsn.
    unfold abs_of. by rewrite H.
  - right; right. split; [done|]. split_and!; [done..|]. right. by apply Hnone.
Qed.

Lemma finished_reconciled id g c w w' : finished v2 dead id g c w w' →
  Status c = StatusStopped → reconciled id c w w'.
Proof.
  intros (Hp & Hn & Hgone & Hdrop) Hst. split_and!; [apply Hp|by rewrite Hst|].
  intros _. split; [done|]. intros g' n Ha. rewrite (pg_abs _ _ _ _ _ _ _ Hp) in Ha.
  by injection Ha as <- _.
Qed.

(** The branch of a process that was found dead. *)
Lemma wp_dead_done st id cur now w : host_inv v2 dead w → good_registries w →
  record_at w id = Some cur → Status cur = StatusRunning → dead id (generation cur) →
  wp (FinalizeStoppedGeneration alone controllers namelen removePort removeVeth publish st
        (Some cur) (-1) now)
    (λ o w', ∀ b, o = Ret (b, None) → ∃ latest, reconciled id latest w w') w.
Proof.
  intros Hi Hg Hc Hst Hd. eapply wp_conseq.
  - apply (wp_finalize_done v2 dead id (generation cur)
      (persisted (next_revision (stopped_of cur (-1) now))) controllers Hv2 removePort
      removeVeth Hport Hveth namelen publish Hpublish st cur (-1) now cur w); try done.
    by eapply record_typed.
  - intros o w' Ho b Hb. destruct (Ho b Hb) as [_ Hf]. eexists.
    eapply finished_reconciled; [done|]. by destruct cur.
Qed.

(** The branch of a container that had stopped before. *)
Lemma wp_stopped_done st id cur w : stopped_now v2 dead id cur w → good_registries w →
  ID cur = id → Status cur = StatusStopped →
  wp (CleanupStoppedRuntimeResources alone controllers proc namelen removePort removeVeth
        st (Some cur))
    (λ r w', r = Ret tt → reconciled id cur w w') w.
Proof.
  intros Hs Hg Hid Hst. eapply wp_conseq.
  - by apply (wp_resources_settled v2 dead controllers proc namelen removePort removeVeth
      Hv2 Hport Hveth id cur).
  - intros r w' Hr ->. destruct (Hr eq_refl) as ((_ & Hc & _) & Hset & Hn).
    split_and!; [done|by rewrite Hst|done].
Qed.

(** The last read of the record. *)
Lemma wp_reload id msg (cur latest : Container) w w' : reconciled id latest w w' →
  wp (read ← attempt (call alone 0 (Get id));
      match read with
      | Fail e => mret (Some cur, Some (Wrapf msg e))
      | Ok latest => mret (Some latest, None)
      end)
    (λ o w'', ∀ r, o = Ret (r, None) → ∃ latest, r = Some latest ∧ reconciled id latest w w'') w'.
Proof.
  intros Hr. do 2 wp_step. apply wp_alone.
  apply wp_get; [|by intros w2 o _ [[e ->]| ->]; repeat wp_step].
  intros w2 c E Hc. cbn beta iota. wp_step. intros r [= <-]. exists c. split; [done|].
  destruct Hr as [Hl Hr]. assert (c = latest) as -> by congruence.
  by apply (reconciled_fs id latest w w w').
Qed.

Lemma wp_reconcile_done st c now w : host_inv v2 dead w → good_registries w →
  wp (ReconcileContainerState alone controllers proc namelen removePort removeVeth publish
        kernel st (Some c) now)
    (λ o w', ∀ r, o = Ret (r, None) → ∃ latest, r = Some latest ∧
       reconciled (ID c) latest w w') w.
Proof.
  intros Hi Hg. unfold ReconcileContainerState, reconcileContainerStateWithFinalizer.
  destruct (check_store st); [by wp_step|]. case_match; [by wp_step|]. generalize (ID c). intros id.
  do 2 wp_step. apply wp_alone. apply wp_get; [|by intros w1 o _ [[e ->]| ->]; repeat wp_step].
  intros w1 cur E Hc. cbn beta iota. rewrite <- (record_at_same id w w1) in Hc
    by (unfold same_at; by rewrite E).
  assert (Hi1 : host_inv v2 dead w1) by by eapply fs_inv.
  assert (Hg1 : good_registries w1) by (intros name; rewrite E; apply Hg).
  destruct (record_typed _ _ _ Hc) as [_ Hid].
  eapply wp_conseq with (λ o w', ∀ r, o = Ret (r, None) → ∃ latest, r = Some latest ∧
    reconciled id latest w1 w').
  2: { intros o w' Ho r Hr. destruct (Ho r Hr) as (l & Hl & Hrec). exists l. split; [done|].
       by apply (reconciled_fs _ _ w w1 w'). }
  destruct (record_cases w1 id cur Hi1 Hc) as [(Hst & Hno & Ha)|[Hst|[Hst Hs]]]; rewrite Hst; cbn.
  - wp_step. intros r [= <-]. exists cur. split; [done|].
    split_and!; [done|by rewrite Hst|]. intros _. split; [by eapply unowned_settled|].
    intros g n Hab. by destruct (Ha g n).
  - case_match; [by wp_step|].
    destruct (probeProcessGeneration _ _ _ _) as [[]|e] eqn:Hp; [| |by wp_step].
    + rewrite Hid. apply (wp_reload _ _ _ cur). by split_and!; rewrite ?Hst.
    + wp_step. eapply wp_conseq; [apply (wp_dead_done st id); try done; by apply Hprobe|].
      intros [[b [e|]]|e|] w2 H2; [| |done..]; cbn beta iota.
      { apply wp_any; [intros w3 [x|x]|done..]; by wp_step. }
      destruct (H2 b eq_refl) as [l Hl]. rewrite Hid. by eapply wp_reload.
  - wp_step. eapply wp_err_of; [by apply (wp_stopped_done st id)| | |done].
    + intros w2 Hr. rewrite Hid. by eapply wp_reload.
    + intros w2 e. by wp_step.
Qed.
End reconciled.
