(* ===== verification/FinalizeOrder.v ===== *)
(** The order of finalization: the functions that remove the resources of a
    generation see only directories in which its exit is on disk. *)
From S2P Require Import Prelude GoStrings Decimal Json Fs FsLogic Durable Container.
From S2P Require Import Net Ownership OwnershipFacts Generation GenerationFacts.
From S2P Require Import Store StoreFacts StoreOps StoreSystem StoreReach.
From S2P Require Import Cgroups Finalize FinalizeFacts FinalizeInv.

#[local] Open Scope Z_scope.

(** * Programs that agree from one directory on *)

Lemma bind_agree {A B} (m m' : M A) (k k' : A → M B) w : m w = m' w →
  wp m (λ o w', ∀ a, o = Ret a → k a w' = k' a w') w → (m ≫= k) w = (m' ≫= k') w.
Proof.
  unfold wp, mbind, M_bind. intros <- H. destruct (m w) as [[a|e|] w']; cbn in *; auto.
Qed.
Lemma wrapm_agree {A} msg (m m' : M A) w : m w = m' w → wrapm msg m w = wrapm msg m' w.
Proof. unfold wrapm. by intros ->. Qed.
Lemma attempt_agree {A} (m m' : M A) w : m w = m' w → attempt m w = attempt m' w.
Proof. unfold attempt. by intros ->. Qed.
Lemma bind_after {A B} (m : M A) (k k' : A → M B) w :
  wp m (λ o w', ∀ a, o = Ret a → k a w' = k' a w') w → (m ≫= k) w = (m ≫= k') w.
Proof. by apply bind_agree. Qed.
Lemma bind_first {A B} (m m' : M A) (k : A → M B) w : m w = m' w →
  (m ≫= k) w = (m' ≫= k) w.
Proof. intros H. apply bind_agree; [done|]. by apply (wp_conseq m (λ _ _, True)). Qed.
Lemma err_of_agree m m' w : m w = m' w → err_of m w = err_of m' w.
Proof. intros H. unfold err_of. by apply bind_first, attempt_agree. Qed.

Section order.
Context (v2 : bool) (dead : string → exitedIdentity → Prop).
Context (others : nat → gmap path node → gmap path node).
Hypothesis Hothers : polite v2 dead others.

Lemma bind_safe {A B} (m : M A) (k k' : A → M B) w : safe v2 dead m → host_inv v2 dead w →
  (∀ a w', host_inv v2 dead w' → k a w' = k' a w') → (m ≫= k) w = (m ≫= k') w.
Proof.
  intros Hm Hw Hk. apply bind_after. eapply wp_conseq; [by apply Hm|].
  intros o w' Hw' a _. by apply Hk.
Qed.

(** * The cgroup *)

(** Two cleanups that agree once the exit of the generation is on disk. *)
Definition same_after_exit (cleanup cleanup' : generationCleanupFunc) : Prop :=
  ∀ id g w, dead id g → exited w id g →
    cleanup id (xi_PID g) (xi_PIDStartTime g) w = cleanup' id (xi_PID g) (xi_PIDStartTime g) w.

Section cgroup.
Context (cleanup cleanup' : generationCleanupFunc).
Hypothesis Hsame : same_after_exit cleanup cleanup'.

Lemma owned_agree st id o w : host_inv v2 dead w → dead id (owner o) → exited w id (owner o) →
  cleanupOwnedGenerationWith others st id o (Some cleanup) w =
  cleanupOwnedGenerationWith others st id o (Some cleanup') w.
Proof.
  intros Hi Hd He. unfold cleanupOwnedGenerationWith. apply bind_after.
  wp_step; [|done]. intros [] _. apply bind_first.
  change (cleanup id (cg_PID o) (cg_PIDStartTime o) (with_fs (others 3) w) =
    cleanup' id (cg_PID o) (cg_PIDStartTime o) (with_fs (others 3) w)).
  apply (Hsame id (owner o)); [done|]. by apply (po_exited _ _ _ Hothers).
Qed.

Lemma finalize_agree st c code t w : host_inv v2 dead w → in_int64 code →
  typed (generation c) → dead (ID c) (generation c) →
  finalizeStoppedGenerationWithCleanup others st (Some c) code t (Some cleanup) w =
  finalizeStoppedGenerationWithCleanup others st (Some c) code t (Some cleanup') w.
Proof.
  intros Hw Hcode Ht Hd. unfold finalizeStoppedGenerationWithCleanup.
  destruct (check_store st); [done|]. case_match; [done|]. apply bind_after.
  wp_step. apply wp_call. pose proof (po_inv _ _ _ Hothers 6 w Hw) as Hw1.
  eapply wp_conseq; [by apply (wp_mark_stopped v2 dead st (ID c) (generation c))|].
  intros o w2 (Hw2 & _ & He). destruct o as [b|e|]; [|by intros a [= <-]|done].
  intros a [= <-]. specialize (He b eq_refl). cbn beta iota.
  apply bind_after. wp_step. apply wp_call.
  pose proof (po_inv _ _ _ Hothers 7 w2 Hw2) as Hw3.
  pose proof (po_exited _ _ _ Hothers 7 w2 _ _ Hw2 Hd He) as He3.
  apply wp_get_cgroup; [|by intros w4 o _ [[e ->]| ->]; [intros a [= <-]|]].
  intros w4 r E _ a [= <-]. apply bind_first. destruct r as [o|]; [|done].
  destruct (negb (cg_PID o =? PID c) || _) eqn:Eo; [done|]. bool_simp.
  assert (Ho : owner o = generation c) by (unfold owner, generation; congruence).
  apply err_of_agree, wrapm_agree, owned_agree; rewrite ?Ho; [by eapply fs_inv|done|].
  by eapply fs_exited.
Qed.

Lemma stopped_agree st c w : host_inv v2 dead w →
  cleanupStoppedCgroupWithCleanup others st c (Some cleanup) w =
  cleanupStoppedCgroupWithCleanup others st c (Some cleanup') w.
Proof.
  intros Hw. unfold cleanupStoppedCgroupWithCleanup.
  apply bind_safe; [by apply safe_ensure|done|]. intros [] w1 Hw1. destruct c as [c|]; [|done].
  apply bind_safe; [by apply safe_ensure|done|]. intros [] w2 Hw2.
  apply bind_safe; [by apply safe_ensure|done|]. intros [] w3 Hw3.
  apply bind_safe; [by apply safe_wrapm, safe_current|done|]. intros current w4 Hw4.
  destruct (negb current); [done|].
  apply bind_safe; [by apply safe_wrapm, safe_call, safe_get_cgroup|done|]. intros [o|] w5 Hw5; [|done].
  apply bind_after. wp_step. apply wp_call. pose proof (po_inv _ _ _ Hothers 5 w5 Hw5) as Hw6.
  apply wp_policy; [apply Hw6| |by intros w7 r _ [[e ->]| ->]].
  intros w7 a E Ha b [= <-]. cbn beta iota.
  destruct (an_current a) eqn:Hcur; [|done]. cbn [negb]. destruct (an_identity a) as [g|] eqn:Hg; [|done].
  apply bind_after. wp_step; [|done]. apply fail_if_None, orb_false_iff in H as [H1 H2]. intros [] _.
  bool_simp. destruct (authorized _ _ _ _ _ _ _ g Hw6 Ha Hcur Hg) as [Hd He].
  assert (Ho : owner o = g) by (unfold owner; destruct g; cbn in *; congruence).
  apply wrapm_agree, owned_agree; rewrite ?Ho; [by eapply fs_inv|done|by eapply fs_exited].
Qed.
End cgroup.

(** * The host network *)

Definition net_owner (o : NetworkOwnership) : exitedIdentity :=
  mkIdentity (no_PID o) (no_PIDStartTime o).

Section network.
Context (id : string) (o : NetworkOwnership).
Context (removePort removePort' : ownedPortCleanupFunc).
Context (removeVeth removeVeth' : ownedVethCleanupFunc).
Hypothesis Hport : ∀ a b c d e, Durable.keeps (removePort a b c d e).
Hypothesis Hveth : ∀ a b, Durable.keeps (removeVeth a b).

(** Two sets of network functions that agree once the exit of the owner of the
    network is on disk. *)
Definition ports_after_exit : Prop := ∀ a b c d e w, exited w id (net_owner o) →
  removePort a b c d e w = removePort' a b c d e w.
Definition veths_after_exit : Prop := ∀ a b w, exited w id (net_owner o) →
  removeVeth a b w = removeVeth' a b w.
Hypothesis Hports : ports_after_exit.
Hypothesis Hveths : veths_after_exit.

(** The state between the calls. *)
Definition ended (w : world) : Prop :=
  host_inv v2 dead w ∧ dead id (net_owner o) ∧ exited w id (net_owner o).

Lemma ended_others n w : ended w → ended (with_fs (others n) w).
Proof.
  intros (Hi & Hd & He). split_and!; [by apply (po_inv _ _ _ Hothers)|done|].
  by apply (po_exited _ _ _ Hothers).
Qed.
Lemma ended_fs w w' : w_fs w' = w_fs w → ended w → ended w'.
Proof. intros E (Hi & Hd & He). split_and!; [by eapply fs_inv|done|by eapply fs_exited]. Qed.

Lemma remove_ports_agree ow l : ∀ e w, ended w →
  remove_ports others removePort ow l e w = remove_ports others removePort' ow l e w ∧
  wp (remove_ports others removePort ow l e) (λ _ w', ended w') w.
Proof.
  induction l as [|x l IH]; intros e w Hw; cbn [remove_ports]; [by split; [|wp_step]|].
  assert (Hm : wp (err_of (call others 8 (removePort ow (pf_HostPort x) (pf_ContainerPort x)
    (pf_ContainerIP x) (pf_Protocol x)))) (λ _ w', ended w') w).
  { unfold err_of. do 2 wp_step. apply wp_call. apply wp_keeps; [apply Hport| |].
    - intros w' [] [E _]. wp_step. by eapply ended_fs, ended_others.
    - intros w' o' [E _] [[? ->]| ->]; [wp_step|]; by eapply ended_fs, ended_others. }
  split.
  - apply bind_agree.
    + apply err_of_agree. by apply (Hports _ _ _ _ _ (with_fs (others 8) w)), ended_others.
    + eapply wp_conseq; [exact Hm|]. intros o' w' Hw' a _. by apply IH.
  - wp_step. eapply wp_conseq; [exact Hm|]. intros [a|e'|] w' Hw'; [by apply IH|done..].
Qed.

Lemma cleanup_network_agree st w : ended w →
  cleanupNetworkOwnershipWith others st id o (Some removePort) (Some removeVeth) w =
  cleanupNetworkOwnershipWith others st id o (Some removePort') (Some removeVeth') w.
Proof.
  intros Hw. unfold cleanupNetworkOwnershipWith. apply bind_after. wp_step; [|done]. intros [] _.
  destruct (remove_ports_agree (no_Owner o) (reverse (slice_list (no_Mappings o))) None w Hw)
    as [Hp Hwp].
  apply bind_agree; [done|]. eapply wp_conseq; [exact Hwp|]. intros o' w1 Hw1 a _.
  apply bind_first. case_match; [done|].
  apply err_of_agree. by apply (Hveths _ _ (with_fs (others 9) w1)), ended_others.
Qed.

Lemma network_agree st w : host_inv v2 dead w →
  cleanupNetworkOwnershipAfterDurableStopWith others st id o (Some removePort)
    (Some removeVeth) w =
  cleanupNetworkOwnershipAfterDurableStopWith others st id o (Some removePort')
    (Some removeVeth') w.
Proof.
  intros Hw. unfold cleanupNetworkOwnershipAfterDurableStopWith.
  apply bind_safe; [by apply safe_ensure|done|]. intros [] w1 Hw1.
  apply bind_safe; [by apply safe_wrapm, safe_call, safe_get|done|]. intros cur w2 Hw2.
  case_match; [done|]. apply bind_after. wp_step. apply wp_call.
  pose proof (po_inv _ _ _ Hothers 13 w2 Hw2) as Hw3.
  apply wp_policy; [apply Hw3| |by intros w4 r _ [[e ->]| ->]].
  intros w4 a E Ha b [= <-]. cbn beta iota.
  destruct (an_current a) eqn:Hcur; [|done]. cbn [negb]. destruct (an_identity a) as [g|] eqn:Hg; [|done].
  apply bind_after. wp_step; [|done]. apply fail_if_None, orb_false_iff in H0 as [H1 H2]. intros [] _.
  bool_simp. destruct (authorized _ _ _ _ _ _ _ g Hw3 Ha Hcur Hg) as [Hd He].
  apply cleanup_network_agree, (ended_fs (with_fs (others 13) w2)); [done|].
  assert (Ho : net_owner o = g) by (unfold net_owner; destruct g; cbn in *; congruence).
  by split; rewrite ?Ho.
Qed.
End network.
End order.
