(* ===== verification/FinalizeRuns.v ===== *)
(** A concrete host on which the properties of finalization are instantiated: a
    running container with a cgroup, a network and a registered name. *)
From S2P Require Import Prelude GoStrings Decimal Json Fs FsLogic Durable Container.
From S2P Require Import Net Ownership OwnershipFacts Generation GenerationFacts.
From S2P Require Import Store StoreFacts StoreOps StoreSystem StoreReach StoreRuns.
From S2P Require Import Dns DnsOps DnsActs DnsReach DnsProps Cgroups Finalize FinalizeFacts.
From S2P Require Import FinalizeInv FinalizeDone.

#[local] Open Scope Z_scope.

Definition fin_network : NetworkOwnership :=
  mkNetwork "minicontainer:c1" 7 9 "vhabcdefghij234" (Some [mkPortForwarding 8080 80 "10.0.0.2" "tcp"]).
Definition fin_system : system :=
  calls (CMarkNetworkOwned AStore fin_network)
    (calls (CMarkCgroupOwned AStore 7 9 "minicontainer-c1-7-9") sys_running).
Definition fin_named : world :=
  run_dns procs 100 255 defaultBridgeDNSNetwork
    (CBind (λ m, m) (mkMemory ∅ ∅) "c1" 7 9)
    (run_dns procs 100 255 defaultBridgeDNSNetwork (CRegister "c1" "web" "10.0.0.2" true)
       (sy_world fin_system)).
Definition fin_world : world :=
  with_fs (insert (DCgroup "", "minicontainer-c1-7-9") NDir) fin_named.

Definition fin_proc (pid : Z) : res string := Fail ErrNotExist.
Definition fin_kernel : pidfd_kernel :=
  mkKernel (λ _, Fail ESRCH) (λ _, Ok true) (λ _, Ok tt).
Definition fin_port : ownedPortCleanupFunc := λ _ _ _ _ _, mret tt.
Definition fin_veth : ownedVethCleanupFunc := λ _ _, mret tt.
Definition fin_publish : string → string → Z → M unit := λ _ _ _, mret tt.
Definition fin_running : Container :=
  default run_container (record_at fin_world "c1").

Lemma fin_system_reachable : reachable fin_system.
Proof.
  do 3 (apply calls_reachable; [vm_compute; intuition congruence|]).
  apply sys_created_reachable.
Qed.
Lemma fin_system_paths q : fst q ≠ DCtr → w_fs (sy_world fin_system) !! q = None.
Proof.
  intros Hq. destruct (w_fs (sy_world fin_system) !! q) as [n|] eqn:E; [|done]. destruct Hq.
  assert (Hall : map_Forall (λ (q : path) (_ : node), fst q = DCtr) (w_fs (sy_world fin_system)))
    by (apply (bool_decide_unpack _); vm_compute; exact I).
  by apply (Hall q n).
Qed.
Lemma fin_named_reachable : dns_reachable fin_named.
Proof.
  apply (dns_step procs 100 255
    (run_dns procs 100 255 defaultBridgeDNSNetwork (CRegister "c1" "web" "10.0.0.2" true)
       (sy_world fin_system))); [|done|by repeat split].
  apply (dns_step procs 100 255 (sy_world fin_system)); [|done|].
  - apply dns_init. intros name. by apply fin_system_paths.
  - split; [by split|vm_compute; reflexivity].
Qed.
Lemma fin_world_ne q : q ≠ (DCgroup "", "minicontainer-c1-7-9") →
  w_fs fin_world !! q = w_fs fin_named !! q.
Proof. intros Hq. apply lookup_insert_ne. by intros <-. Qed.
Lemma fin_good_registries : good_registries fin_world.
Proof.
  pose proof (dns_reachable_good _ fin_named_reachable) as Hg. revert Hg.
  unfold good_registries. intros Hg name. rewrite fin_world_ne by done. apply Hg.
Qed.

(** Outside the registries nothing else was touched. *)
Lemma dns_entries_beside (l : list (string * node)) w w' :
  w_fs w' = foldr (λ e, insert (DDns, e.1) e.2) (w_fs w) l → beside w w'.
Proof.
  intros E q Hq. rewrite E. clear E. induction l as [|[name n] l IH]; [done|]. cbn.
  rewrite lookup_insert_ne; [exact IH|]. by intros <-.
Qed.
Lemma fin_named_beside : beside (sy_world fin_system) fin_named.
Proof.
  apply (dns_entries_beside ((λ name, (name, default NDir (w_fs fin_named !! (DDns, name)))) <$>
    [".";  "default.json"; "default.lock"])). vm_compute. reflexivity.
Qed.

Definition any_dead : string → exitedIdentity → Prop := λ _ _, True.

Lemma fin_host_inv : host_inv true any_dead fin_world.
Proof.
  assert (Hs : ∀ q, fst q ≠ DDns → ¬ is_cgroup q → same_at q (sy_world fin_system) fin_world).
  { intros q Hq Hc. unfold same_at. rewrite fin_world_ne.
    - by apply fin_named_beside.
    - intros ->. apply Hc. by eexists. }
  split; [| |done].
  - intros id. apply (container_inv_ext (sy_world fin_system)).
    + intros q Hq. apply Hs; [|by eapply core_not_cgroup]. apply core_host in Hq as [Hq|[k Hq]];
        by rewrite Hq.
    + apply (si_containers _ (reachable_inv _ fin_system_reachable)).
  - intros id g name [_ Ht] Hn Hg.
    assert (Hname : name = "minicontainer-c1-7-9").
    { destruct (decide (name = "minicontainer-c1-7-9")) as [|Hne]; [done|]. destruct Hg.
      intros q Hq. unfold cgroup_paths in Hq. apply list_elem_of_singleton in Hq as ->.
      rewrite fin_world_ne by congruence. rewrite fin_named_beside by done.
      by apply fin_system_paths. }
    subst name. destruct (NameForContainerProcess_inj id (xi_PID g) (xi_PIDStartTime g) "c1" 7 9
      "minicontainer-c1-7-9") as (-> & E1 & E2); [done|done|exact Hn|reflexivity|].
    destruct g as [p t]. cbn in E1, E2. subst p t. vm_compute. reflexivity.
Qed.

(** Other processes register a network of their own at every point. *)
Definition busy (n : nat) (fs : gmap path node) : gmap path node :=
  <[(DDns, "other.lock") := NFile (FText "") 1]> fs.
Lemma busy_beside n w : beside w (with_fs (busy n) w).
Proof. intros q Hq. cbn. apply lookup_insert_ne. by intros <-. Qed.
Lemma polite_busy v2 dead : polite v2 dead busy.
Proof.
  split; intros n w *; pose proof (busy_beside n w) as Hb.
  - by apply inv_beside.
  - intros _ _. apply exited_ext. by apply Hb.
  - intros _ _ _ _. apply gone_ext. intros q [k Hq]. apply Hb. by rewrite Hq.
Qed.
