(* ===== verification/FinalizeProps.v ===== *)
(** What finalization and reconciliation promise: nothing of a generation is
    removed before its exit is on disk, no cgroup is forgotten, and a call that
    succeeds has left nothing of a dead generation behind. *)
From S2P Require Import Prelude GoStrings Decimal Json Fs FsLogic Durable Container.
From S2P Require Import Net Ownership Generation GenerationFacts Store StoreFacts StoreOps.
From S2P Require Import StoreSystem StoreReach StoreRuns.
From S2P Require Import Dns DnsOps DnsReach Cgroups Finalize FinalizeFacts FinalizeInv.
From S2P Require Import FinalizeDone FinalizeSettled FinalizeOrder FinalizeRuns.

#[local] Open Scope Z_scope.

(** C0. Nothing of a generation is removed before its exit is durable.  Whatever
    fails, wherever the process dies and whatever other (polite) processes do
    between the calls, finalization, the retry for stopped containers and the
    network cleanup call the functions that remove cgroups, ports and interfaces
    only where the record on disk does not claim that the generation runs: two
    functions that agree there cannot be told apart. *)
Theorem cleanup_only_after_exit v2 dead others st id c o code t cleanup cleanup'
    removePort removePort' removeVeth removeVeth' w :
  polite v2 dead others → host_inv v2 dead w →
  same_after_exit dead cleanup cleanup' →
  (∀ a b c d e, Durable.keeps (removePort a b c d e)) →
  ports_after_exit id o removePort removePort' → veths_after_exit id o removeVeth removeVeth' →
  (in_int64 code → typed (generation c) → dead (ID c) (generation c) →
   finalizeStoppedGenerationWithCleanup others st (Some c) code t (Some cleanup) w =
   finalizeStoppedGenerationWithCleanup others st (Some c) code t (Some cleanup') w) ∧
  cleanupStoppedCgroupWithCleanup others st (Some c) (Some cleanup) w =
  cleanupStoppedCgroupWithCleanup others st (Some c) (Some cleanup') w ∧
  cleanupNetworkOwnershipAfterDurableStopWith others st id o (Some removePort)
    (Some removeVeth) w =
  cleanupNetworkOwnershipAfterDurableStopWith others st id o (Some removePort')
    (Some removeVeth') w.
Proof.
  intros Hothers Hw Hc Hk Hp Hv. split_and!.
  - intros Hcode Ht Hd. by eapply finalize_agree.
  - by eapply stopped_agree.
  - by eapply network_agree.
Qed.

(** A call that would be noticed if it were made too early. *)
Definition trap (id : string) (g : exitedIdentity) (m : M unit) : M unit := λ w,
  match record_at w id with
  | Some c =>
    if String.eqb (Status c) StatusRunning && bound_to c (xi_PID g) (xi_PIDStartTime g)
    then (Crash, w) else m w
  | None => m w
  end.
Lemma trap_exited id g m w : exited w id g → m w = trap id g m w.
Proof.
  intros He. unfold trap. destruct (record_at w id) as [c|] eqn:Hc; [|done].
  destruct (String.eqb_spec (Status c) StatusRunning) as [Hs|]; [|done].
  destruct (bound_to c (xi_PID g) (xi_PIDStartTime g)) eqn:Hb; [|done]. destruct He. by exists c.
Qed.

Lemma cleanup_only_after_exit_witness :
  let cleanup := cleanupContainerProcessGeneration (Ok tt) in
  let run f p := (finalizeStoppedGenerationWithCleanup busy AStore (Some fin_running) 3 run_time
    (Some f) fin_world, cleanupNetworkOwnershipAfterDurableStopWith busy AStore "c1" fin_network
    (Some p) (Some fin_veth) fin_world) in
  run cleanup fin_port =
  run (λ id pid pst, trap id (mkIdentity pid pst) (cleanup id pid pst))
    (λ a b c d e, trap "c1" (net_owner fin_network) (fin_port a b c d e)) ∧
  (run cleanup fin_port).1.1 = Ret (true, None).
Proof.
  cbn zeta.
  destruct (cleanup_only_after_exit true any_dead busy AStore "c1" fin_running fin_network 3
    run_time (cleanupContainerProcessGeneration (Ok tt))
    (λ id pid pst, trap id (mkIdentity pid pst)
       (cleanupContainerProcessGeneration (Ok tt) id pid pst))
    fin_port (λ a b c d e, trap "c1" (net_owner fin_network) (fin_port a b c d e))
    fin_veth fin_veth fin_world) as (H1 & _ & H3).
  - apply polite_busy.
  - apply fin_host_inv.
  - intros id [p t] w _ He. by apply trap_exited.
  - intros a b c d e w. by apply same_refl.
  - intros a b c d e w He. by apply trap_exited.
  - done.
  - assert (P1 : in_int64 3) by (vm_compute; intuition congruence).
    assert (P2 : typed (generation fin_running)) by (vm_compute; intuition congruence).
    specialize (H1 P1 P2 I). split; [exact (f_equal2 pair H1 H3)|vm_compute; reflexivity].
Defined.

(** C0. No cgroup is forgotten.  Reconciling a container keeps the invariant of
    the host under any failures, a crash at any system call, any mixture of
    live, dead and stale snapshots, and any polite interference: every record
    stays well formed, every cgroup that still exists is named by a durable
    ownership proof, and only generations whose process has exited are recorded
    as stopped. *)
Theorem reconcile_keeps_host v2 dead others controllers proc namelen removePort removeVeth
    publish kernel st c now w :
  polite v2 dead others → isV2 controllers = v2 →
  (∀ a b c d e, Durable.keeps (removePort a b c d e)) →
  (∀ a b, Durable.keeps (removeVeth a b)) → (∀ a b c, Durable.keeps (publish a b c)) →
  (∀ id g, probeProcessGeneration proc kernel (xi_PID g) (xi_PIDStartTime g) = Ok false →
     dead id g) →
  host_inv v2 dead w →
  host_inv v2 dead (ReconcileContainerState others controllers proc namelen removePort
    removeVeth publish kernel st c now w).2.
Proof.
  intros Ho Hv Hp Hve Hpu Hpr Hw.
  exact (safe_reconcile v2 dead others Ho removePort removeVeth Hp Hve controllers proc
    namelen publish Hv Hpu kernel Hpr st c now w Hw).
Qed.

(** The process is found dead; during its cleanup a system call fails and a later
    one is interrupted by a crash. *)
Definition fin_faulty : world :=
  opened ∅ false (replicate 50 FOk ++ [FFail; FOk; FCrash]) [] fin_world.
Lemma fin_probe id g :
  probeProcessGeneration fin_proc fin_kernel (xi_PID g) (xi_PIDStartTime g) = Ok false →
  any_dead id g.
Proof. done. Qed.
Lemma keeps_nothing {A} (a : A) : Durable.keeps (mret a).
Proof. intros w. by apply same_refl. Qed.

Lemma reconcile_keeps_host_witness :
  let r := ReconcileContainerState busy (Ok tt) fin_proc 255 fin_port fin_veth fin_publish
    fin_kernel AStore (Some fin_running) run_time fin_faulty in
  r.1 = Crash ∧ host_inv true any_dead r.2.
Proof.
  split; [vm_compute; reflexivity|].
  apply (reconcile_keeps_host true any_dead busy (Ok tt) fin_proc 255 fin_port fin_veth
    fin_publish fin_kernel AStore (Some fin_running) run_time fin_faulty).
  - apply polite_busy.
  - reflexivity.
  - intros a b c d e. apply keeps_nothing.
  - intros a b. apply keeps_nothing.
  - intros a b c. apply keeps_nothing.
  - apply fin_probe.
  - exact (fs_inv true any_dead fin_world fin_faulty eq_refl fin_host_inv).
Defined.

(** C0. A finalization that succeeds is complete: the record of the running
    generation becomes the stopped record with its exit code, time and preserved
    identity and the next revision; its ownership proofs are gone, no cgroup of
    the container is left, exactly the names of the generation have left the
    registry, and every other entry of the host is as it was. *)
Theorem FinalizeStoppedGeneration_completes v2 dead controllers namelen removePort removeVeth
    publish st id c cur code t w w' b :
  isV2 controllers = v2 → (∀ a b c d e, Durable.keeps (removePort a b c d e)) →
  (∀ a b, Durable.keeps (removeVeth a b)) → (∀ a b c, Durable.keeps (publish a b c)) →
  host_inv v2 dead w → good_registries w → in_int64 code → dead id (generation cur) →
  record_at w id = Some cur → Status cur = StatusRunning →
  ID c = id → generation c = generation cur →
  FinalizeStoppedGeneration alone controllers namelen removePort removeVeth publish st
    (Some c) code t w = (Ret (b, None), w') →
  b = true ∧ finished v2 dead id (generation cur)
    (persisted (next_revision (stopped_of cur code t))) w w'.
Proof.
  intros Hv Hp Hve Hpu Hw Hg Hcode Hd Hcur Hst Hid Hgen Hrun.
  eassert (wp (FinalizeStoppedGeneration _ _ _ _ _ _ _ _ _ _) _ w) as Hwp
    by (apply (wp_finalize_done v2 dead id (generation cur)
          (persisted (next_revision (stopped_of cur code t))) controllers Hv removePort
          removeVeth Hp Hve namelen publish Hpu st c code t cur w); done).
  unfold wp in Hwp. rewrite Hrun in Hwp. by apply Hwp.
Qed.

Definition fin_done :=
  FinalizeStoppedGeneration alone (Ok tt) 255 fin_port fin_veth fin_publish AStore
    (Some fin_running) 3 run_time fin_world.

Lemma FinalizeStoppedGeneration_completes_witness :
  fin_done.1 = Ret (true, None) ∧
  finished true any_dead "c1" (mkIdentity 7 9)
    (persisted (next_revision (stopped_of fin_running 3 run_time))) fin_world fin_done.2.
Proof.
  assert (Hr : fin_done = (Ret (true, None), fin_done.2)) by (vm_compute; reflexivity).
  assert (P1 : in_int64 3) by (vm_compute; intuition congruence).
  assert (P2 : record_at fin_world "c1" = Some fin_running) by (vm_compute; reflexivity).
  assert (P3 : Status fin_running = StatusRunning) by (vm_compute; reflexivity).
  assert (P4 : ID fin_running = "c1") by (vm_compute; reflexivity).
  assert (P5 : mkIdentity 7 9 = generation fin_running) by (vm_compute; reflexivity).
  split; [by rewrite Hr|]. rewrite P5.
  refine (proj2 (FinalizeStoppedGeneration_completes true any_dead (Ok tt) 255 fin_port fin_veth
    fin_publish AStore "c1" fin_running fin_running 3 run_time fin_world fin_done.2 true
    eq_refl _ _ _ fin_host_inv fin_good_registries P1 I P2 P3 P4 eq_refl Hr)).
  - intros a b c d e. apply keeps_nothing.
  - intros a b. apply keeps_nothing.
  - intros a b c. apply keeps_nothing.
Defined.

(** C0. A reconciliation that succeeds tells the truth: it returns the record on
    disk; if that says running, the probe found this very process alive and
    nothing was changed; otherwise no ownership proof and no cgroup of the
    container is left, and the registry has lost exactly the names of the
    generation whose exit is recorded. *)
Theorem ReconcileContainerState_settles v2 dead controllers proc namelen removePort removeVeth
    publish kernel st c now w w' r :
  isV2 controllers = v2 → (∀ a b c d e, Durable.keeps (removePort a b c d e)) →
  (∀ a b, Durable.keeps (removeVeth a b)) → (∀ a b c, Durable.keeps (publish a b c)) →
  (∀ id g, probeProcessGeneration proc kernel (xi_PID g) (xi_PIDStartTime g) = Ok false →
     dead id g) →
  host_inv v2 dead w → good_registries w →
  ReconcileContainerState alone controllers proc namelen removePort removeVeth publish kernel
    st (Some c) now w = (Ret (r, None), w') →
  ∃ latest, r = Some latest ∧ record_at w' (ID c) = Some latest ∧
    (Status latest = StatusRunning → w_fs w' = w_fs w ∧
       probeProcessGeneration proc kernel (PID latest) (PIDStartTime latest) = Ok true) ∧
    (Status latest ≠ StatusRunning → settled v2 (ID c) w' ∧ names_dropped (ID c) w w').
Proof.
  intros Hv Hp Hve Hpu Hpr Hw Hg Hrun.
  pose proof (wp_reconcile_done v2 dead controllers proc namelen removePort removeVeth publish
    kernel Hv Hp Hve Hpu Hpr st c now w Hw Hg) as Hwp.
  unfold wp in Hwp. rewrite Hrun in Hwp. by apply Hwp.
Qed.

Definition fin_reconciled :=
  ReconcileContainerState alone (Ok tt) fin_proc 255 fin_port fin_veth fin_publish fin_kernel
    AStore (Some fin_running) run_time fin_world.
Definition fin_stopped : Container :=
  persisted (next_revision (stopped_of fin_running (-1) run_time)).

Lemma ReconcileContainerState_settles_witness :
  fin_reconciled.1 = Ret (Some fin_stopped, None) ∧
  settled true (ID fin_running) fin_reconciled.2 ∧
  names_dropped (ID fin_running) fin_world fin_reconciled.2.
Proof.
  assert (Hr : fin_reconciled = (Ret (Some fin_stopped, None), fin_reconciled.2))
    by (vm_compute; reflexivity).
  split; [by rewrite Hr|].
  destruct (ReconcileContainerState_settles true any_dead (Ok tt) fin_proc 255 fin_port fin_veth
    fin_publish fin_kernel AStore fin_running run_time fin_world fin_reconciled.2
    (Some fin_stopped)) as (latest & [= <-] & _ & _ & Hs).
  - reflexivity.
  - intros a b c d e. apply keeps_nothing.
  - intros a b. apply keeps_nothing.
  - intros a b c. apply keeps_nothing.
  - apply fin_probe.
  - exact fin_host_inv.
  - exact fin_good_registries.
  - exact Hr.
  - apply Hs. vm_compute. intros E. discriminate E.
Defined.
